(** * microbian: a shallow embedding of the kernel core (microbian.c)

    The process table, the ready queues, the rendezvous message protocol,
    the interrupt bridge and process creation of [src/microbian/microbian.c],
    written as state-passing functions over an explicit kernel state, and
    the properties of the specification stated over them. *)

From Stdlib Require Import ZArith String List Bool Lia.
From stdpp Require Import base list.
Import ListNotations.
Local Open Scope Z_scope.

(** ** What the build supplies

    [microbian.h], [lib.h] and [hardware.h] are not part of the sources at
    hand.  The symbolic constants they define, and the addresses fixed by
    the linker, are taken as parameters. *)

Class Env := {
  ANY : Z;            (* wildcard message type *)
  INTERRUPT : Z;      (* type of interrupt messages *)
  REPLY : Z;          (* type awaited by sendrec *)
  HARDWARE : Z;       (* sender of interrupt messages *)
  P_HANDLER : Z;      (* priority levels *)
  P_HIGH : Z;
  P_LOW : Z;
  P_IDLE : Z;
  exit_addr : Z;      (* (unsigned) exit *)
  end_addr : Z;       (* __end *)
  stack_limit : Z     (* __stack_limit *)
}.

(** ** Process descriptors *)

(** Possible [p_state] values. *)
Inductive pstate := DEAD | ACTIVE | SENDING | RECEIVING | SENDREC | IDLING.

Definition pstate_eqb (a b : pstate) : bool :=
  match a, b with
  | DEAD, DEAD | ACTIVE, ACTIVE | SENDING, SENDING
  | RECEIVING, RECEIVING | SENDREC, SENDREC | IDLING, IDLING => true
  | _, _ => false
  end.

(** A [struct proc *] is [None] for NULL and [Some i] for the address of
    the descriptor of process [i] (descriptors are never freed, and
    [os_ptable[i]] is the only place a descriptor address comes from).
    A [message *] is an address, 0 for NULL. *)
Definition procptr := option nat.

Record proc := mkproc {
  p_pid : Z;                 (* Process ID (equal to index) *)
  p_name : string;           (* Name for debugging *)
  p_state : pstate;          (* SENDING, RECEIVING, etc. *)
  p_sp : Z;                  (* Saved stack pointer *)
  p_stack : Z;               (* Stack area *)
  p_stksize : Z;             (* Stack size (bytes) *)
  p_priority : Z;            (* Priority: 0 is highest *)
  p_waiting : procptr;       (* Processes waiting to send *)
  p_pending : bool;          (* Whether HARDWARE message pending *)
  p_msgtype : Z;             (* Message type to send or receive *)
  p_message : Z;             (* Pointer to message buffer *)
  p_next : procptr           (* Next process in ready or send queue *)
}.

Definition set_p_state (v : pstate) (d : proc) : proc :=
  mkproc (p_pid d) (p_name d) v (p_sp d) (p_stack d) (p_stksize d)
         (p_priority d) (p_waiting d) (p_pending d) (p_msgtype d)
         (p_message d) (p_next d).
Definition set_p_sp (v : Z) (d : proc) : proc :=
  mkproc (p_pid d) (p_name d) (p_state d) v (p_stack d) (p_stksize d)
         (p_priority d) (p_waiting d) (p_pending d) (p_msgtype d)
         (p_message d) (p_next d).
Definition set_p_priority (v : Z) (d : proc) : proc :=
  mkproc (p_pid d) (p_name d) (p_state d) (p_sp d) (p_stack d) (p_stksize d)
         v (p_waiting d) (p_pending d) (p_msgtype d)
         (p_message d) (p_next d).
Definition set_p_waiting (v : procptr) (d : proc) : proc :=
  mkproc (p_pid d) (p_name d) (p_state d) (p_sp d) (p_stack d) (p_stksize d)
         (p_priority d) v (p_pending d) (p_msgtype d)
         (p_message d) (p_next d).
Definition set_p_pending (v : bool) (d : proc) : proc :=
  mkproc (p_pid d) (p_name d) (p_state d) (p_sp d) (p_stack d) (p_stksize d)
         (p_priority d) (p_waiting d) v (p_msgtype d)
         (p_message d) (p_next d).
Definition set_p_msgtype (v : Z) (d : proc) : proc :=
  mkproc (p_pid d) (p_name d) (p_state d) (p_sp d) (p_stack d) (p_stksize d)
         (p_priority d) (p_waiting d) (p_pending d) v
         (p_message d) (p_next d).
Definition set_p_message (v : Z) (d : proc) : proc :=
  mkproc (p_pid d) (p_name d) (p_state d) (p_sp d) (p_stack d) (p_stksize d)
         (p_priority d) (p_waiting d) (p_pending d) (p_msgtype d)
         v (p_next d).
Definition set_p_next (v : procptr) (d : proc) : proc :=
  mkproc (p_pid d) (p_name d) (p_state d) (p_sp d) (p_stack d) (p_stksize d)
         (p_priority d) (p_waiting d) (p_pending d) (p_msgtype d)
         (p_message d) v.

(** ** Messages

    The layout of [message] is fixed by [microbian.h]; the kernel only
    names the two header fields and copies the rest by value.  The body is
    kept as the list of its payload words. *)
Record message := mkmsg {
  m_type : Z;
  m_sender : Z;
  m_body : list Z
}.

(** ** Kernel state *)

Record queue := mkqueue { q_head : procptr; q_tail : procptr }.

Definition NPROCS : Z := 32.

(** [os_ptable] holds the descriptors in PID order: entry [i] of the C
    table points to the [i]-th descriptor here, the entries from
    [os_nprocs] up to [NPROCS] are NULL, and [os_nprocs] is the number of
    descriptors. *)
Record kstate := mkstate {
  os_ptable : list proc;
  os_current : procptr;
  idle_proc : procptr;
  os_readyq : list queue;        (* os_readyq[3] *)
  os_handler : list Z;           (* os_handler[32] *)
  __break : Z;
  __break2 : Z;
  msgmem : Z -> message;         (* message buffers, by address *)
  ram : Z -> Z;                  (* stack words, by byte address *)
  irq_enabled : Z -> bool;       (* NVIC enable bits *)
  pendsv : bool                  (* reschedule() has been requested *)
}.

Definition os_nprocs (st : kstate) : Z := Z.of_nat (length (os_ptable st)).

Definition with_ptable (v : list proc) (st : kstate) : kstate :=
  mkstate v (os_current st) (idle_proc st) (os_readyq st) (os_handler st)
          (__break st) (__break2 st) (msgmem st) (ram st) (irq_enabled st)
          (pendsv st).
Definition with_current (v : procptr) (st : kstate) : kstate :=
  mkstate (os_ptable st) v (idle_proc st) (os_readyq st) (os_handler st)
          (__break st) (__break2 st) (msgmem st) (ram st) (irq_enabled st)
          (pendsv st).
Definition with_idle (v : procptr) (st : kstate) : kstate :=
  mkstate (os_ptable st) (os_current st) v (os_readyq st) (os_handler st)
          (__break st) (__break2 st) (msgmem st) (ram st) (irq_enabled st)
          (pendsv st).
Definition with_readyq (v : list queue) (st : kstate) : kstate :=
  mkstate (os_ptable st) (os_current st) (idle_proc st) v (os_handler st)
          (__break st) (__break2 st) (msgmem st) (ram st) (irq_enabled st)
          (pendsv st).
Definition with_handler (v : list Z) (st : kstate) : kstate :=
  mkstate (os_ptable st) (os_current st) (idle_proc st) (os_readyq st) v
          (__break st) (__break2 st) (msgmem st) (ram st) (irq_enabled st)
          (pendsv st).
Definition with_break (v : Z) (st : kstate) : kstate :=
  mkstate (os_ptable st) (os_current st) (idle_proc st) (os_readyq st)
          (os_handler st) v (__break2 st) (msgmem st) (ram st)
          (irq_enabled st) (pendsv st).
Definition with_break2 (v : Z) (st : kstate) : kstate :=
  mkstate (os_ptable st) (os_current st) (idle_proc st) (os_readyq st)
          (os_handler st) (__break st) v (msgmem st) (ram st)
          (irq_enabled st) (pendsv st).
Definition with_msgmem (v : Z -> message) (st : kstate) : kstate :=
  mkstate (os_ptable st) (os_current st) (idle_proc st) (os_readyq st)
          (os_handler st) (__break st) (__break2 st) v (ram st)
          (irq_enabled st) (pendsv st).
Definition with_ram (v : Z -> Z) (st : kstate) : kstate :=
  mkstate (os_ptable st) (os_current st) (idle_proc st) (os_readyq st)
          (os_handler st) (__break st) (__break2 st) (msgmem st) v
          (irq_enabled st) (pendsv st).
Definition with_irq_enabled (v : Z -> bool) (st : kstate) : kstate :=
  mkstate (os_ptable st) (os_current st) (idle_proc st) (os_readyq st)
          (os_handler st) (__break st) (__break2 st) (msgmem st) (ram st)
          v (pendsv st).
Definition with_pendsv (v : bool) (st : kstate) : kstate :=
  mkstate (os_ptable st) (os_current st) (idle_proc st) (os_readyq st)
          (os_handler st) (__break st) (__break2 st) (msgmem st) (ram st)
          (irq_enabled st) v.

(** ** The kernel monad

    A kernel routine either returns, or calls [panic] (which never
    returns: it prints its diagnostic and spins), or leaves the defined
    behaviour of C: an array indexed outside its bounds, a null or stray
    descriptor pointer followed, a list walk that never ends. *)

Inductive fault :=
| OutOfBounds (array : string) (index : Z)
| NullPointer
| StrayPointer (i : nat)
| Diverges.

Inductive result (A : Type) :=
| Ok (a : A) (st : kstate)
| Panic (fmt : string) (args : list Z) (st : kstate)
| Fault (f : fault).
Arguments Ok {A} a st.
Arguments Panic {A} fmt args st.
Arguments Fault {A} f.

Definition K (A : Type) : Type := kstate -> result A.

Definition ret {A} (a : A) : K A := fun st => Ok a st.
Definition bind {A B} (m : K A) (f : A -> K B) : K B :=
  fun st =>
    match m st with
    | Ok a st' => f a st'
    | Panic fmt args st' => Panic fmt args st'
    | Fault f => Fault f
    end.
Definition get : K kstate := fun st => Ok st st.
Definition modify (f : kstate -> kstate) : K unit := fun st => Ok tt (f st).
Definition panic {A} (fmt : string) (args : list Z) : K A :=
  fun st => Panic fmt args st.
Definition stuck {A} (f : fault) : K A := fun _ => Fault f.

Declare Scope kernel_scope.
Delimit Scope kernel_scope with K.
Notation "x <- c1 ;; c2" := (bind c1 (fun x => c2))
  (at level 100, c1 at next level, right associativity) : kernel_scope.
Notation "c1 ;; c2" := (bind c1 (fun _ => c2))
  (at level 100, right associativity) : kernel_scope.
Local Open Scope kernel_scope.

(** Following a descriptor pointer, for reading and for writing. *)
Definition deref (p : procptr) : K proc :=
  fun st =>
    match p with
    | None => Fault NullPointer
    | Some i =>
        match os_ptable st !! i with
        | Some d => Ok d st
        | None => Fault (StrayPointer i)
        end
    end.

Definition update (p : procptr) (f : proc -> proc) : K unit :=
  d <- deref p ;;
  match p with
  | Some i => modify (fun st => with_ptable (<[i := f d]> (os_ptable st)) st)
  | None => stuck NullPointer
  end.

(** [os_ptable[dest]], [os_readyq[prio]] and [os_handler[irq]]. *)
Definition ptable_entry (dest : Z) : K procptr :=
  fun st =>
    if (0 <=? dest) && (dest <? NPROCS) then
      Ok (if dest <? os_nprocs st then Some (Z.to_nat dest) else None) st
    else Fault (OutOfBounds "os_ptable" dest).

Definition readyq (prio : Z) : K queue :=
  fun st =>
    if (0 <=? prio) && (prio <? 3) then
      match os_readyq st !! Z.to_nat prio with
      | Some q => Ok q st
      | None => Fault (OutOfBounds "os_readyq" prio)
      end
    else Fault (OutOfBounds "os_readyq" prio).

Definition set_readyq (prio : Z) (q : queue) : K unit :=
  _ <- readyq prio ;;
  modify (fun st => with_readyq (<[Z.to_nat prio := q]> (os_readyq st)) st).

Definition handler_entry (irq : Z) : K Z :=
  fun st =>
    if (0 <=? irq) && (irq <? 32) then
      match os_handler st !! Z.to_nat irq with
      | Some t => Ok t st
      | None => Fault (OutOfBounds "os_handler" irq)
      end
    else Fault (OutOfBounds "os_handler" irq).

Definition current : K procptr := fun st => Ok (os_current st) st.

Section Kernel.
Context {env : Env}.

(** ** Process queues *)

(** make_ready -- add process to end of appropriate queue *)
Definition make_ready (p : procptr) (prio : Z) : K unit :=
  if prio =? P_IDLE then ret tt
  else
    update p (fun d => set_p_next None (set_p_state ACTIVE d)) ;;
    q <- readyq prio ;;
    match q_head q with
    | None => set_readyq prio (mkqueue p (q_tail q))
    | Some _ => update (q_tail q) (set_p_next p)
    end ;;
    q' <- readyq prio ;;
    set_readyq prio (mkqueue (q_head q') p).

(** One turn of the loop of [choose_proc]: take the head of queue [p] if
    there is one, otherwise go on with [rest]. *)
Definition take_head (p : Z) (rest : K unit) : K unit :=
  q <- readyq p ;;
  match q_head q with
  | Some _ =>
      modify (with_current (q_head q)) ;;
      c <- deref (q_head q) ;;
      set_readyq p (mkqueue (p_next c) (q_tail q))
  | None => rest
  end.

(** choose_proc -- the current process is blocked: pick a new one *)
Definition choose_proc : K unit :=
  fold_right take_head
             (st <- get ;; modify (with_current (idle_proc st)))
             [0; 1; 2].


(** ** Send and receive *)

(** accept -- test if a process is waiting for a message of given type *)
Definition accept (pdest : procptr) (type : Z) : K bool :=
  d <- deref pdest ;;
  ret (pstate_eqb (p_state d) RECEIVING
       && ((p_msgtype d =? ANY) || (p_msgtype d =? type))).

(** set_state -- set process state for send or receive *)
Definition set_state (p : procptr) (state : pstate) (type msg : Z) : K unit :=
  update p (set_p_state state) ;;
  update p (set_p_msgtype type) ;;
  update p (set_p_message msg).

Definition store_msg (a : Z) (m : message) (mem : Z -> message) : Z -> message :=
  fun a' => if a' =? a then m else mem a'.

(** deliver -- copy a message and fill in standard fields.  The cell at
    [buf] ends up with the body found at [msg] (its own when [msg] is
    NULL) under the header [src], [type]. *)
Definition deliver (buf src type msg : Z) : K unit :=
  if buf =? 0 then ret tt
  else
    modify (fun st =>
      let copied := if msg =? 0 then msgmem st buf else msgmem st msg in
      with_msgmem (store_msg buf (mkmsg type src (m_body copied)) (msgmem st)) st).

(** The walk [while (r->p_next != NULL) r = r->p_next] of [enqueue].  The
    table holds [fuel] descriptors, so a walk that has not found the end
    after [fuel] nodes has met a node twice and never ends. *)
Fixpoint last_sender (fuel : nat) (r : procptr) : K procptr :=
  match fuel with
  | O => stuck Diverges
  | S fuel' =>
      d <- deref r ;;
      match p_next d with
      | None => ret r
      | Some _ => last_sender fuel' (p_next d)
      end
  end.

(** enqueue -- add current process to a receiver's queue *)
Definition enqueue (pdest : procptr) : K unit :=
  cur <- current ;;
  update cur (set_p_next None) ;;
  d <- deref pdest ;;
  match p_waiting d with
  | None => update pdest (set_p_waiting cur)
  | Some _ =>
      st <- get ;;
      r <- last_sender (length (os_ptable st)) (p_waiting d) ;;
      update r (set_p_next cur)
  end.

(** The test that guards [panic] in [mini_send] and [mini_sendrec]:
    [dest < 0 || dest >= os_nprocs || pdest->p_state == DEAD], with the
    descriptor read only when the first two tests have failed. *)
Definition bad_dest (dest : Z) (pdest : procptr) : K bool :=
  st <- get ;;
  if (dest <? 0) || (dest >=? os_nprocs st) then ret true
  else d <- deref pdest ;; ret (pstate_eqb (p_state d) DEAD).

(** mini_send -- send a message *)
Definition mini_send (dest type msg : Z) : K unit :=
  cur <- current ;;
  c <- deref cur ;;
  let src := p_pid c in
  pdest <- ptable_entry dest ;;
  bad <- bad_dest dest pdest ;;
  if bad then panic "Sending to a non-existent process %d" [dest]
  else
    ok <- accept pdest type ;;
    if ok then
      (* Receiver is waiting for us *)
      d <- deref pdest ;;
      deliver (p_message d) src type msg ;;
      make_ready pdest (p_priority d)
    else
      (* Sender must wait by joining the receiver's queue *)
      set_state cur SENDING type msg ;;
      enqueue pdest ;;
      choose_proc.

(** [assert] is a macro of [lib.h]; a failed assertion is taken to stop
    the kernel the way [panic] does. *)
Definition assert (b : bool) (text : string) : K unit :=
  if b then ret tt else panic ("Assertion failed: " ++ text) [].

(** The loop of [mini_receive] over the senders waiting on the current
    process.  The result tells whether a message was taken. *)
Fixpoint take_sender (fuel : nat) (type msg : Z) (psrc prev : procptr)
  : K bool :=
  match fuel with
  | O => stuck Diverges
  | S fuel' =>
      match psrc with
      | None => ret false
      | Some _ =>
          s <- deref psrc ;;
          if (type =? ANY) || (p_msgtype s =? type) then
            cur <- current ;;
            match prev with
            | None => update cur (set_p_waiting (p_next s))
            | Some _ => update cur (set_p_next (p_next s))
            end ;;
            deliver msg (p_pid s) (p_msgtype s) (p_message s) ;;
            (if pstate_eqb (p_state s) SENDING then
               make_ready psrc (p_priority s)
             else
               (* After sending, a SENDREC process waits for a reply. *)
               assert (pstate_eqb (p_state s) SENDREC)
                      "psrc->p_state == SENDREC" ;;
               set_state psrc RECEIVING REPLY msg) ;;
            ret true
          else take_sender fuel' type msg (p_next s) psrc
      end
  end.

(** mini_receive -- receive a message *)
Definition mini_receive (type msg : Z) : K unit :=
  cur <- current ;;
  c <- deref cur ;;
  (* First see if an interrupt is pending *)
  if p_pending c && ((type =? ANY) || (type =? INTERRUPT)) then
    update cur (set_p_pending false) ;;
    deliver msg HARDWARE INTERRUPT 0
  else
    taken <- (if negb (type =? INTERRUPT) then
                (* Now look for a process waiting to send *)
                st <- get ;;
                take_sender (S (length (os_ptable st))) type msg
                            (p_waiting c) None
              else ret false) ;;
    if taken then ret tt
    else
      (* No luck: we must wait. *)
      set_state cur RECEIVING type msg ;;
      choose_proc.

Definition mini_sendrec (dest type msg : Z) : K unit :=
  cur <- current ;;
  c <- deref cur ;;
  let src := p_pid c in
  pdest <- ptable_entry dest ;;
  bad <- bad_dest dest pdest ;;
  if bad then panic "Sending to a non-existent process %d" [dest]
  else
    ok <- accept pdest type ;;
    (if ok then
       (* Receiver is waiting for us *)
       d <- deref pdest ;;
       deliver (p_message d) src type msg ;;
       make_ready pdest (p_priority d) ;;
       (* Now we must wait for a reply *)
       set_state cur RECEIVING REPLY msg
     else
       (* Sender must wait by joining the receiver's queue *)
       set_state cur SENDREC type msg ;;
       enqueue pdest) ;;
    choose_proc.

(** ** Interrupt handling *)

Definition set_irq (irq : Z) (on : bool) : K unit :=
  modify (fun st =>
    with_irq_enabled (fun i => if i =? irq then on else irq_enabled st i) st).

(** connect -- connect the current process to an IRQ *)
Definition connect (irq : Z) : K unit :=
  if irq <? 0 then panic "Can't connect to CPU exceptions" []
  else
    cur <- current ;;
    update cur (set_p_priority 0) ;;
    c <- deref cur ;;
    _ <- handler_entry irq ;;
    modify (fun st =>
      with_handler (<[Z.to_nat irq := p_pid c]> (os_handler st)) st) ;;
    set_irq irq true.

(** The format of the panic of [priority], which ends in a newline
    (character 10). *)
Definition bad_priority : string :=
  "Bad priority %d"
  ++ String (Ascii.Ascii false true false true false false false false)
            EmptyString.

(** priority -- set process priority *)
Definition priority (p : Z) : K unit :=
  if (p <? 0) || (p >? P_LOW) then panic bad_priority [p]
  else cur <- current ;; update cur (set_p_priority p).

(** interrupt -- send interrupt message *)
Definition interrupt (dest : Z) : K unit :=
  pdest <- ptable_entry dest ;;
  ok <- accept pdest INTERRUPT ;;
  if ok then
    (* Receiver is waiting for an interrupt *)
    d <- deref pdest ;;
    deliver (p_message d) HARDWARE INTERRUPT 0 ;;
    make_ready pdest P_HANDLER ;;
    cur <- current ;;
    c <- deref cur ;;
    if p_priority c >? 0 then
      (* Preempt lower-priority process *)
      modify (with_pendsv true)
    else ret tt
  else
    (* Let's hope it's not urgent! *)
    update pdest (set_p_pending true).

(** default_handler -- handle for most interrupts.  [irq] is what
    [active_irq()] reads back. *)
Definition default_handler (irq : Z) : K unit :=
  task <- (if irq <? 0 then ret 0 else handler_entry irq) ;;
  if (irq <? 0) || (task =? 0) then panic "Unexpected interrupt %d" [irq]
  else
    set_irq irq false ;;
    interrupt task.

(** hardfault_handler -- substitutes for the definition in startup.c *)
Definition hardfault_handler : K unit := panic "HardFault" [].


(** ** Storage allocation and initialisation *)

Definition as_unsigned (x : Z) : Z := x mod 2 ^ 32.
Definition as_int (x : Z) : Z := (x + 2 ^ 31) mod 2 ^ 32 - 2 ^ 31.

Definition BLANK : Z := 0xdeadbeef.      (* Filler for initial stack *)
Definition sizeof_proc : Z := 60.        (* sizeof(struct proc), 32-bit ARM *)
Definition IDLE_STACK : Z := 128.
Definition INIT_PSR : Z := 0x01000000.   (* Thumb bit is set *)

(* These match the frame layout in mpx.s, and the hardware *)
Definition R0_SAVE : Z := 8.
Definition R1_SAVE : Z := 9.
Definition R2_SAVE : Z := 10.
Definition LR_SAVE : Z := 13.
Definition PC_SAVE : Z := 14.
Definition PSR_SAVE : Z := 15.

Definition roundup (x n : Z) : Z := Z.land (x + (n - 1)) (Z.lnot (n - 1)).

Definition store_word (a v : Z) (mem : Z -> Z) : Z -> Z :=
  fun a' => if a' =? a then v else mem a'.

(** [n] words from address [a] on set to [v]. *)
Fixpoint fill_words (n : nat) (a v : Z) (mem : Z -> Z) : Z -> Z :=
  match n with
  | O => mem
  | S n' => fill_words n' (a + 4) v (store_word a v mem)
  end.

Definition sbrk (inc : Z) : K Z :=
  st <- get ;;
  if inc >? __break2 st - __break st then panic "Phos is out of memory" []
  else modify (with_break (__break st + inc)) ;; ret (__break st).

(** The descriptor itself is kept in [os_ptable]; of [new_proc] remains the
    space it takes from the top of the arena.  The test compares the
    pointer difference with [sizeof], that is, as unsigned numbers. *)
Definition new_proc : K unit :=
  st <- get ;;
  if as_unsigned (__break2 st - __break st) <? sizeof_proc
  then panic "No space for process" []
  else modify (with_break2 (__break2 st - sizeof_proc)).

(** [strncpy(p->p_name, name, 15); p->p_name[15] = '\0'] *)
Definition name15 (name : string) : string := substring 0 15 name.

(** The table holds the descriptors themselves, and [os_nprocs] is its
    length: the new process counts once its descriptor is entered, after
    [new_proc] and [sbrk] have found the space, where the C code has
    counted it ([pid = os_nprocs++]) before it calls them; the two differ
    in the state in which the allocator panics.  Addresses are integers
    that do not wrap: [&stack[stksize]] is [stack + stksize] for sizes
    below 2^31, which the callers in this file are. *)
Definition init_proc (name : string) (stksize : Z) : K procptr :=
  st <- get ;;
  if os_nprocs st >=? NPROCS then panic "Too many processes" []
  else
    let pid := os_nprocs st in
    new_proc ;;
    stack <- sbrk (as_int stksize) ;;
    let sp := stack + stksize in
    (* Blank out the stack space to help detect overflow *)
    modify (fun st =>
      with_ram (fill_words (Z.to_nat ((stksize + 3) / 4)) stack BLANK (ram st)) st) ;;
    modify (fun st =>
      with_ptable (os_ptable st ++
                   [mkproc pid (name15 name) ACTIVE sp stack stksize P_LOW
                           None false ANY 0 None]) st) ;;
    ret (Some (Z.to_nat pid)).

(** os_init -- set up initial values *)
Definition os_init : K unit :=
  (* Create idle task as process 0 *)
  p <- init_proc "IDLE" IDLE_STACK ;;
  modify (with_idle p) ;;
  update p (set_p_state IDLING) ;;
  update p (set_p_priority 3).

(** start -- initialise process to run later *)
Definition start (name : string) (body arg stksize : Z) : K Z :=
  p <- init_proc name (as_unsigned (roundup stksize 8)) ;;
  cur <- current ;;
  match cur with
  | Some _ => panic "start() called after scheduler startup" []
  | None =>
      (* Fake an exception frame *)
      d <- deref p ;;
      let sp := p_sp d - 4 * 16 in
      modify (fun st => with_ram (fill_words 16 sp 0 (ram st)) st) ;;
      modify (fun st => with_ram (store_word (sp + 4 * PSR_SAVE) INIT_PSR (ram st)) st) ;;
      modify (fun st =>
        with_ram (store_word (sp + 4 * PC_SAVE)
                             (Z.land (as_unsigned body) (as_unsigned (Z.lnot 1)))
                             (ram st)) st) ;;
      modify (fun st => with_ram (store_word (sp + 4 * LR_SAVE) (as_unsigned exit_addr) (ram st)) st) ;;
      modify (fun st => with_ram (store_word (sp + 4 * R0_SAVE) (as_unsigned arg) (ram st)) st) ;;
      update p (set_p_sp sp) ;;
      make_ready p (p_priority d) ;;
      ret (p_pid d)
  end.

(** ** System call interface *)

Definition SYS_YIELD : Z := 0.
Definition SYS_SEND : Z := 1.
Definition SYS_RECEIVE : Z := 2.
Definition SYS_SENDREC : Z := 3.
Definition SYS_EXIT : Z := 4.
Definition SYS_DUMP : Z := 5.

(** [microbian_dump] prints the process table and changes nothing in the
    kernel state. *)
Definition microbian_dump : K unit := ret tt.

(** system_call -- entry from system call traps.  [insn] is the halfword
    [pc[-1]] before the saved program counter, and [r0], [r1], [r2] are the
    words [psp[R0_SAVE]], [psp[R1_SAVE]], [psp[R2_SAVE]] of the frame. *)
Definition system_call (psp insn r0 r1 r2 : Z) : K Z :=
  let op := Z.land insn 0xff in
  (* Save sp of the current process *)
  cur <- current ;;
  update cur (set_p_sp psp) ;;
  (if op =? SYS_YIELD then
     c <- deref cur ;;
     make_ready cur (p_priority c) ;;
     choose_proc
   else if op =? SYS_SEND then mini_send r0 r1 r2
   else if op =? SYS_RECEIVE then mini_receive r0 r1
   else if op =? SYS_SENDREC then mini_sendrec r0 r1 r2
   else if op =? SYS_EXIT then
     update cur (set_p_state DEAD) ;;
     choose_proc
   else if op =? SYS_DUMP then microbian_dump
   else panic "Unknown syscall %d" [op]) ;;
  (* Return sp for next process to run *)
  cur' <- current ;;
  c' <- deref cur' ;;
  ret (p_sp c').

(** cxt_switch -- context switch following interrupt *)
Definition cxt_switch (psp : Z) : K Z :=
  cur <- current ;;
  update cur (set_p_sp psp) ;;
  c <- deref cur ;;
  make_ready cur (p_priority c) ;;
  choose_proc ;;
  cur' <- current ;;
  c' <- deref cur' ;;
  ret (p_sp c').

(** The [svc] instruction with operand [op]. *)
Definition svc (op : Z) : Z := Z.lor 0xdf00 op.

(** os_start -- start up the process scheduler.  The main program morphs
    into the idle process and yields; [psp] is the frame address at which
    that first trap enters [system_call]. *)
Definition os_start (psp : Z) : K Z :=
  st <- get ;;
  modify (with_current (idle_proc st)) ;;
  _ <- deref (idle_proc st) ;;        (* setstack(os_current->p_sp) *)
  system_call psp (svc SYS_YIELD) 0 0 0.

(** The state the C program starts from: statics zeroed, the arena
    between [__end] and [__stack_limit] untouched. *)
Definition boot (msgs : Z -> message) (mem : Z -> Z) : kstate :=
  mkstate [] None None
          [mkqueue None None; mkqueue None None; mkqueue None None]
          (replicate 32 0) end_addr stack_limit msgs mem (fun _ => false)
          false.

End Kernel.

(** ** Entries into the kernel

    The kernel runs when the boot code, a process or the hardware enters
    one of its routines.  A run of the system is a sequence of such
    entries, each made in the state the previous one has left. *)
Inductive kcall :=
| Call_os_init
| Call_start (name : string) (body arg stksize : Z)
| Call_os_start (psp : Z)
| Call_system_call (psp insn r0 r1 r2 : Z)   (* yield, send, receive, ... *)
| Call_cxt_switch (psp : Z)
| Call_default_handler (irq : Z)
| Call_interrupt (dest : Z)
| Call_connect (irq : Z)
| Call_priority (p : Z).

Section Entries.
Context {env : Env}.

Definition run (c : kcall) : K unit :=
  match c with
  | Call_os_init => os_init
  | Call_start name body arg stksize => _ <- start name body arg stksize ;; ret tt
  | Call_os_start psp => _ <- os_start psp ;; ret tt
  | Call_system_call psp insn r0 r1 r2 =>
      _ <- system_call psp insn r0 r1 r2 ;; ret tt
  | Call_cxt_switch psp => _ <- cxt_switch psp ;; ret tt
  | Call_default_handler irq => default_handler irq
  | Call_interrupt dest => interrupt dest
  | Call_connect irq => connect irq
  | Call_priority p => priority p
  end.

(** The states the kernel can be in: the boot state, and whatever an
    entry that returns makes of a state the kernel can be in. *)
Inductive reachable : kstate -> Prop :=
| reachable_boot msgs mem : reachable (boot msgs mem)
| reachable_step st c st' :
    reachable st -> run c st = Ok tt st' -> reachable st'.

(** The entry [c], made in state [st], is a receive by process [d] whose
    filter is ANY or INTERRUPT. *)
Definition receive_admitting_interrupt (d : nat) (c : kcall) (st : kstate) : Prop :=
  os_current st = Some d /\
  exists psp insn r0 r1 r2,
    c = Call_system_call psp insn r0 r1 r2 /\
    Z.land insn 0xff = SYS_RECEIVE /\ (r0 = ANY \/ r0 = INTERRUPT).

(** A run from [st] to [st'] in which [d] makes no such receive. *)
Inductive runs_before_receive (d : nat) : kstate -> kstate -> Prop :=
| rbr_done st : runs_before_receive d st st
| rbr_step st c st1 st2 :
    ~ receive_admitting_interrupt d c st ->
    run c st = Ok tt st1 ->
    runs_before_receive d st1 st2 ->
    runs_before_receive d st st2.

End Entries.

(** Process [d] has its pending flag set. *)
Definition pending_at (d : nat) (st : kstate) : Prop :=
  exists dd, os_ptable st !! d = Some dd /\ p_pending dd = true.

(** A kernel routine keeps [P] if every state it returns in satisfies [P]
    when the state it was entered in did. *)
Definition keeps (P : kstate -> Prop) {A} (m : K A) : Prop :=
  forall st a st', m st = Ok a st' -> P st -> P st'.

(** ** A board for worked examples

    Values for the parameters, used wherever a property is run on a
    concrete state: the message constants and priority levels, the address
    of [exit], and an arena of 14 KB. *)
Definition board : Env :=
  {| ANY := -1; INTERRUPT := 1; REPLY := 2; HARDWARE := -1;
     P_HANDLER := 0; P_HIGH := 1; P_LOW := 2; P_IDLE := 3;
     exit_addr := 0x1001;
     end_addr := 0x20000100; stack_limit := 0x20003800 |}.

Definition blank_message : message := mkmsg 0 0 [].

(** ** Lists threaded through [p_next]

    [lseg ps h l]: following [p_next] from [h] through the descriptors
    [ps] visits exactly the processes [l], in this order, and then reaches
    NULL. *)
Inductive lseg (ps : list proc) : procptr -> list nat -> Prop :=
| lseg_nil : lseg ps None []
| lseg_cons i d l :
    ps !! i = Some d -> lseg ps (p_next d) l -> lseg ps (Some i) (i :: l).

(** Ready queue [k] holds the processes [l], head first, and [q_tail]
    points to the last of them (it is not looked at while the queue is
    empty). *)
Definition is_queue (st : kstate) (k : nat) (l : list nat) : Prop :=
  exists q, os_readyq st !! k = Some q /\
            lseg (os_ptable st) (q_head q) l /\
            (l = [] \/ q_tail q = last l).

(** The processes waiting to send to [r] are [l], first arrival first. *)
Definition is_waiting (st : kstate) (r : nat) (l : list nat) : Prop :=
  exists d, os_ptable st !! r = Some d /\
            lseg (os_ptable st) (p_waiting d) l.

(** The tests for [lseg], [is_queue] and [is_waiting]. *)
Fixpoint lsegb (ps : list proc) (h : procptr) (l : list nat) : bool :=
  match l, h with
  | [], None => true
  | i :: l', Some j =>
      (i =? j)%nat &&
      match ps !! i with
      | Some d => lsegb ps (p_next d) l'
      | None => false
      end
  | _, _ => false
  end.

Definition is_queueb (st : kstate) (k : nat) (l : list nat) : bool :=
  match os_readyq st !! k with
  | Some q =>
      lsegb (os_ptable st) (q_head q) l &&
      match l with
      | [] => true
      | _ => bool_decide (q_tail q = last l)
      end
  | None => false
  end.

Definition is_waitingb (st : kstate) (r : nat) (l : list nat) : bool :=
  match os_ptable st !! r with
  | Some d => lsegb (os_ptable st) (p_waiting d) l
  | None => false
  end.

(** The descriptor of process [i], for states in which it exists. *)
Definition descriptor (st : kstate) (i : nat) : proc :=
  match os_ptable st !! i with
  | Some d => d
  | None => mkproc 0 "" DEAD 0 0 0 0 None false 0 0 None
  end.

(** The same lists, computed: the processes met by following [p_next]
    from [h], at most [fuel] of them. *)
Fixpoint chain (ps : list proc) (fuel : nat) (h : procptr) : list nat :=
  match fuel, h with
  | S fuel', Some i =>
      match ps !! i with
      | Some d => i :: chain ps fuel' (p_next d)
      | None => [i]
      end
  | _, _ => []
  end.

Definition ready_list (st : kstate) (k : nat) : list nat :=
  match os_readyq st !! k with
  | Some q => chain (os_ptable st) (length (os_ptable st)) (q_head q)
  | None => []
  end.

Definition waiting_list (st : kstate) (r : nat) : list nat :=
  match os_ptable st !! r with
  | Some d => chain (os_ptable st) (length (os_ptable st)) (p_waiting d)
  | None => []
  end.

Definition on_list (i : nat) (l : list nat) : bool := existsb (Nat.eqb i) l.

(** The number of ready queues, and of sender queues, that process [i]
    is linked into. *)
Definition ready_queues_holding (st : kstate) (i : nat) : nat :=
  length (List.filter (fun k => on_list i (ready_list st k)) (seq 0 3)).

Definition sender_queues_holding (st : kstate) (i : nat) : nat :=
  length (List.filter (fun r => on_list i (waiting_list st r))
                      (seq 0 (length (os_ptable st)))).

(** Descriptor uniqueness for process [i] with descriptor [d]: on at most
    one list; when ACTIVE and not running, on exactly one ready queue;
    when SENDING or SENDREC, on exactly one sender queue; when RECEIVING
    or IDLING, on none. *)
Definition linked_as_specified (st : kstate) (i : nat) (d : proc) : bool :=
  let r := ready_queues_holding st i in
  let s := sender_queues_holding st i in
  (r + s <=? 1)%nat &&
  match p_state d with
  | ACTIVE =>
      if bool_decide (os_current st = Some i) then true else (r =? 1)%nat
  | SENDING | SENDREC => (s =? 1)%nat
  | RECEIVING | IDLING => (r + s =? 0)%nat
  | DEAD => true
  end.

Definition descriptor_uniqueness (st : kstate) : bool :=
  forallb (fun i => match os_ptable st !! i with
                    | Some d => linked_as_specified st i d
                    | None => true
                    end)
          (seq 0 (length (os_ptable st))).

Section Traces.
Context {env : Env}.

(** A sequence of entries, each returning. *)
Fixpoint run_all (cs : list kcall) (st : kstate) : option kstate :=
  match cs with
  | [] => Some st
  | c :: cs' =>
      match run c st with
      | Ok _ st' => run_all cs' st'
      | _ => None
      end
  end.

(** The test for [receive_admitting_interrupt]. *)
Definition admits_interrupt (d : nat) (c : kcall) (st : kstate) : bool :=
  match c with
  | Call_system_call psp insn r0 r1 r2 =>
      bool_decide (os_current st = Some d)
      && (Z.land insn 0xff =? SYS_RECEIVE)
      && ((r0 =? ANY) || (r0 =? INTERRUPT))
  | _ => false
  end.

(** A sequence of entries, each returning, none of them a receive by [d]
    that admits INTERRUPT. *)
Fixpoint run_before_receive (d : nat) (cs : list kcall) (st : kstate)
  : option kstate :=
  match cs with
  | [] => Some st
  | c :: cs' =>
      if admits_interrupt d c st then None
      else match run c st with
           | Ok _ st' => run_before_receive d cs' st'
           | _ => None
           end
  end.

(** Priority preemption on the send path, in the words of the
    specification: a send that wakes a waiting receiver of strictly
    higher priority (a smaller number) does not return to the sender. *)
Definition send_preempts : Prop :=
  forall st cur c dn d psp type msg sp st',
    os_current st = Some cur -> os_ptable st !! cur = Some c ->
    os_ptable st !! dn = Some d ->
    p_state d = RECEIVING /\ (p_msgtype d = ANY \/ p_msgtype d = type) ->
    p_priority d < p_priority c ->
    system_call psp (svc SYS_SEND) (Z.of_nat dn) type msg st = Ok sp st' ->
    os_current st' <> Some cur.

End Traces.

(** The descriptor [d] is that of a process waiting in a receive that
    takes a message of type [type]. *)
Definition waits_for {env : Env} (d : proc) (type : Z) : Prop :=
  p_state d = RECEIVING /\ (p_msgtype d = ANY \/ p_msgtype d = type).

(** ** Worked runs on the board *)

(** The state a routine leaves behind. *)
Definition after {A} (m : K A) (st : kstate) : kstate :=
  match m st with
  | Ok _ st' => st'
  | Panic _ _ st' => st'
  | Fault _ => st
  end.

Section Runs.
Local Existing Instance board.

(** Message buffers of the three example processes, and stack pointers
    at which they trap. *)
Definition buf_S1 : Z := 0x20003000.
Definition buf_S2 : Z := 0x20003010.
Definition buf_R : Z := 0x20003020.
Definition buf_reply : Z := 0x20003030.
Definition psp_idle : Z := 0x20000140.
Definition psp_S1 : Z := 0x20000240.
Definition psp_S2 : Z := 0x20000340.
Definition psp_R : Z := 0x20000440.

(** The board with the payloads of the example messages in place. *)
Definition loaded : kstate :=
  boot (fun a => if a =? buf_S1 then mkmsg 0 0 [111]
                 else if a =? buf_S2 then mkmsg 0 0 [222]
                 else if a =? buf_reply then mkmsg 0 0 [333]
                 else blank_message)
       (fun _ => 0).

(** [os_init], three processes S1 (PID 1), S2 (PID 2) and R (PID 3)
    started in this order, and [os_start]: S1 is running, S2 and R are
    ready behind it. *)
Definition started : kstate :=
  after (os_init ;;
         _ <- start "S1" 0x2001 0 256 ;;
         _ <- start "S2" 0x2101 0 256 ;;
         _ <- start "R" 0x2201 0 256 ;;
         os_start psp_idle) loaded.

(** S1 sends type 10 and S2 sends type 20 to R, which has not yet asked
    for anything: both wait on R, S1 first, and R runs. *)
Definition two_senders : kstate :=
  after (_ <- system_call psp_S1 (svc SYS_SEND) 3 10 buf_S1 ;;
         system_call psp_S2 (svc SYS_SEND) 3 20 buf_S2) started.

(** R receives with filter 20. *)
Definition filtered : kstate :=
  after (system_call psp_R (svc SYS_RECEIVE) 20 buf_R 0) two_senders.

(** R receives with filter ANY. *)
Definition filtered_then_any : kstate :=
  after (system_call psp_R (svc SYS_RECEIVE) ANY buf_R 0) filtered.

(** R receives with filter ANY once more. *)
Definition filtered_then_any_twice : kstate :=
  after (system_call psp_R (svc SYS_RECEIVE) ANY buf_R 0) filtered_then_any.

(** S1 calls [sendrec] on R with type 10, S2 yields, and R runs with the
    request of S1 waiting. *)
Definition request_waiting : kstate :=
  after (_ <- system_call psp_S1 (svc SYS_SENDREC) 3 10 buf_S1 ;;
         system_call psp_S2 (svc SYS_YIELD) 0 0 0) started.

(** R receives the request, then sends the reply to S1. *)
Definition request_taken : kstate :=
  after (system_call psp_R (svc SYS_RECEIVE) ANY buf_R 0) request_waiting.
Definition replied : kstate :=
  after (system_call psp_R (svc SYS_SEND) 1 REPLY buf_reply) request_taken.

(** S1 and S2 yield, R raises its priority to [P_HIGH] and waits in
    [receive(ANY)]: S1 runs again, at priority [P_LOW]. *)
Definition high_receiver_waiting : kstate :=
  after (_ <- system_call psp_S1 (svc SYS_YIELD) 0 0 0 ;;
         _ <- system_call psp_S2 (svc SYS_YIELD) 0 0 0 ;;
         priority P_HIGH ;;
         system_call psp_R (svc SYS_RECEIVE) ANY buf_R 0) started.

(** S1 and S2 yield, and R connects to IRQ 7: R runs as a handler. *)
Definition handler_running : kstate :=
  after (_ <- system_call psp_S1 (svc SYS_YIELD) 0 0 0 ;;
         _ <- system_call psp_S2 (svc SYS_YIELD) 0 0 0 ;;
         connect 7) started.

(** The handler then waits for its interrupt: S1 runs. *)
Definition handler_waiting : kstate :=
  after (system_call psp_R (svc SYS_RECEIVE) INTERRUPT 0 0) handler_running.

(** An interrupt for the handler arrives while it runs.  R then sends to
    S1 and waits; S1 receives that message, sends type 10 to R and waits
    in its turn; R runs again, with S1 on its sender queue. *)
Definition handler_interrupted : kstate := after (interrupt 3) handler_running.
Definition handler_resumes : list kcall :=
  [Call_system_call psp_R (svc SYS_SEND) 1 10 buf_R;
   Call_system_call psp_S1 (svc SYS_RECEIVE) ANY buf_S1 0;
   Call_system_call psp_S1 (svc SYS_SEND) 3 10 buf_S1].
Definition handler_resumed : kstate :=
  match run_all handler_resumes handler_interrupted with
  | Some st => st
  | None => handler_interrupted
  end.

(** The entries that lead from boot to [filtered]. *)
Definition filtered_trace : list kcall :=
  [Call_os_init;
   Call_start "S1" 0x2001 0 256;
   Call_start "S2" 0x2101 0 256;
   Call_start "R" 0x2201 0 256;
   Call_os_start psp_idle;
   Call_system_call psp_S1 (svc SYS_SEND) 3 10 buf_S1;
   Call_system_call psp_S2 (svc SYS_SEND) 3 20 buf_S2;
   Call_system_call psp_R (svc SYS_RECEIVE) 20 buf_R 0].

(** The board after [os_init]. *)
Definition initialised : kstate := after os_init loaded.

(** [os_init] and one process, A, started with a stack of 256 bytes. *)
Definition one_started : kstate :=
  after (os_init ;; start "A" 0x2001 0 256) loaded.

(** The board with the idle process alone, scheduler started. *)
Definition idle_alone : kstate :=
  after (os_init ;; os_start psp_idle) loaded.

End Runs.

(** ** Who runs next

    The head of the first ready queue that is not empty, and the process
    [choose_proc] selects: that head, or the idle process when every
    queue is empty. *)
Fixpoint first_ready (qs : list queue) : procptr :=
  match qs with
  | [] => None
  | q :: qs' =>
      match q_head q with
      | Some x => Some x
      | None => first_ready qs'
      end
  end.

Definition next_to_run (st : kstate) : procptr :=
  match first_ready (os_readyq st) with
  | Some x => Some x
  | None => idle_proc st
  end.

(** The heads of the ready queues are processes of the table. *)
Definition heads_valid (st : kstate) : Prop :=
  forall j q x, os_readyq st !! j = Some q -> q_head q = Some x ->
                is_Some (os_ptable st !! x).

(** A write to a descriptor that leaves its identity alone: the PID, the
    name and the stack area. *)
Definition keeps_identity (f : proc -> proc) : Prop :=
  forall x, p_pid (f x) = p_pid x /\ p_name (f x) = p_name x /\
            p_stack (f x) = p_stack x /\ p_stksize (f x) = p_stksize x.

Section Repeated.
Context {env : Env}.

(** [n] interrupts for the same process, one after the other. *)
Fixpoint interrupts (n : nat) (dest : Z) : K unit :=
  match n with
  | O => ret tt
  | S n' => interrupt dest ;; interrupts n' dest
  end.

End Repeated.

(** ** The arena

    The stacks lie one above the other in the order of the PIDs, all of
    them below [__break], and [__break] has not passed [__break2], above
    which the descriptors lie. *)
Definition stacks_in_order (st : kstate) : Prop :=
  __break st <= __break2 st /\
  (forall i d, os_ptable st !! i = Some d ->
               0 <= p_stksize d /\ p_stack d + p_stksize d <= __break st) /\
  (forall i j di dj, (i < j)%nat ->
     os_ptable st !! i = Some di -> os_ptable st !! j = Some dj ->
     p_stack di + p_stksize di <= p_stack dj).

(** The descriptors of [st0] are still there in [st], each with the PID,
    the name and the stack area it had. *)
Definition same_identities (st0 st : kstate) : Prop :=
  forall j dj, os_ptable st0 !! j = Some dj ->
    exists dj', os_ptable st !! j = Some dj' /\
                p_pid dj' = p_pid dj /\ p_name dj' = p_name dj /\
                p_stack dj' = p_stack dj /\ p_stksize dj' = p_stksize dj.

Section FrameWords.
Context {env : Env}.

(** Word [i] of the exception frame that [start] fakes. *)
Definition frame_word (body arg i : Z) : Z :=
  if i =? PSR_SAVE then INIT_PSR
  else if i =? PC_SAVE then Z.land (as_unsigned body) (as_unsigned (Z.lnot 1))
  else if i =? LR_SAVE then as_unsigned exit_addr
  else if i =? R0_SAVE then as_unsigned arg
  else 0.

End FrameWords.

(** ** The tables

    The process table holds at most [NPROCS] descriptors, each with its
    index as PID and a name of at most 15 characters; there are three
    ready queues and 32 interrupt handlers, and a handler that is not 0 is
    the PID of a process of the table. *)
Definition table_in_order (st : kstate) : Prop :=
  os_nprocs st <= NPROCS /\
  (forall i d, os_ptable st !! i = Some d ->
               p_pid d = Z.of_nat i /\ (String.length (p_name d) <= 15)%nat) /\
  length (os_readyq st) = 3%nat /\
  length (os_handler st) = 32%nat /\
  (forall i t, os_handler st !! i = Some t -> t = 0 \/ 0 < t < os_nprocs st).

(** ** The process dump

    [microbian_dump] prints one line for each process, with two figures
    for its stack: the bytes in use and the size.  The bytes not in use
    are those below the first word of the stack area that is not BLANK,
    found by the scan that steps [z] up as long as the word at [z] is
    BLANK.  The scan has no bound of its own; [fuel] bounds the number of
    words looked at, and [None] stands for a scan that has found no other
    word among them. *)
Fixpoint first_used (fuel : nat) (z : Z) (mem : Z -> Z) : option Z :=
  match fuel with
  | O => None
  | S fuel' =>
      if mem z =? BLANK then first_used fuel' (z + 4) mem else Some z
  end.

(** [p->p_stksize-free] and [p->p_stksize], as the unsigned numbers they
    are printed as. *)
Definition stack_figures (fuel : nat) (d : proc) (mem : Z -> Z)
  : option (Z * Z) :=
  match first_used fuel (p_stack d) mem with
  | Some z =>
      let free := as_unsigned (z - p_stack d) in
      Some (as_unsigned (p_stksize d - free), p_stksize d)
  | None => None
  end.

(** The test for [heads_valid]. *)
Definition heads_validb (st : kstate) : bool :=
  forallb (fun q => match q_head q with
                    | Some x => bool_decide (x < length (os_ptable st))%nat
                    | None => true
                    end)
          (os_readyq st).

Section MoreRuns.
Local Existing Instance board.

(** [os_init] and the three processes S1, S2 and R started, the scheduler
    not yet. *)
Definition all_started : kstate :=
  after (os_init ;;
         _ <- start "S1" 0x2001 0 256 ;;
         _ <- start "S2" 0x2101 0 256 ;;
         start "R" 0x2201 0 256) loaded.

(** While the handler R waits for its interrupt, S1 connects to IRQ 8 and
    runs on as a handler itself. *)
Definition two_handlers : kstate := after (connect 8) handler_waiting.

(** [os_init] and one process whose stack takes the whole arena. *)
Definition arena_full : kstate :=
  after (os_init ;; start "BIG" 0x2001 0 13832) loaded.

(** [n] processes started one after the other, 64 bytes of stack each. *)
Fixpoint start_many (n : nat) : K unit :=
  match n with
  | O => ret tt
  | S n' => _ <- start "P" 0x2001 0 64 ;; start_many n'
  end.

(** [os_init] and 31 processes: the process table is full. *)
Definition table_full : kstate := after (os_init ;; start_many 31) loaded.

(** The entries that lead from boot to [high_receiver_waiting]. *)
Definition high_receiver_trace : list kcall :=
  [Call_os_init;
   Call_start "S1" 0x2001 0 256;
   Call_start "S2" 0x2101 0 256;
   Call_start "R" 0x2201 0 256;
   Call_os_start psp_idle;
   Call_system_call psp_S1 (svc SYS_YIELD) 0 0 0;
   Call_system_call psp_S2 (svc SYS_YIELD) 0 0 0;
   Call_priority P_HIGH;
   Call_system_call psp_R (svc SYS_RECEIVE) ANY buf_R 0].

(** The entries that lead from boot to [two_senders], and on from
    [started] to [filtered]. *)
Definition two_senders_trace : list kcall :=
  [Call_os_init;
   Call_start "S1" 0x2001 0 256;
   Call_start "S2" 0x2101 0 256;
   Call_start "R" 0x2201 0 256;
   Call_os_start psp_idle;
   Call_system_call psp_S1 (svc SYS_SEND) 3 10 buf_S1;
   Call_system_call psp_S2 (svc SYS_SEND) 3 20 buf_S2].

Definition started_to_filtered : list kcall :=
  [Call_system_call psp_S1 (svc SYS_SEND) 3 10 buf_S1;
   Call_system_call psp_S2 (svc SYS_SEND) 3 20 buf_S2;
   Call_system_call psp_R (svc SYS_RECEIVE) 20 buf_R 0].

End MoreRuns.

(** ** The lists of the kernel, taken together

    A descriptor can be linked into one of the three ready queues or into
    the sender queue of a process.  A layout names, for each of these
    lists, the processes on it, head first. *)
Inductive place := Ready (k : nat) | Sender (r : nat).

Definition place_eqb (a b : place) : bool :=
  match a, b with
  | Ready j, Ready k => (j =? k)%nat
  | Sender r, Sender s => (r =? s)%nat
  | _, _ => false
  end.

Definition layout := place -> list nat.

(** The layout [L] with the list at [pl] replaced by [l]. *)
Definition put (pl : place) (l : list nat) (L : layout) : layout :=
  fun x => if place_eqb x pl then l else L x.
Arguments put : simpl never.

(** The states a descriptor can have on a list: ACTIVE on a ready queue,
    SENDING or SENDREC on a sender queue. *)
Definition fits (pl : place) (s : pstate) : Prop :=
  match pl with
  | Ready _ => s = ACTIVE
  | Sender _ => s = SENDING \/ s = SENDREC
  end.

(** The links are as [L] says: each ready queue and each sender queue is
    the list [L] gives for it, threaded through [p_next] and ending in
    NULL, no process is on two lists, and every process on a list exists
    and has a state that fits the list. *)
Record linked (st : kstate) (L : layout) : Prop := mk_linked {
  lk_ready : forall k, (k < 3)%nat ->
               exists q, os_readyq st !! k = Some q /\
                         lseg (os_ptable st) (q_head q) (L (Ready k));
  lk_senders : forall r d, os_ptable st !! r = Some d ->
                 lseg (os_ptable st) (p_waiting d) (L (Sender r));
  lk_unique : forall i pl pl', i ∈ L pl -> i ∈ L pl' -> pl = pl';
  lk_nodup : forall pl, NoDup (L pl);
  lk_fits : forall i pl, i ∈ L pl ->
              exists d, os_ptable st !! i = Some d /\ fits pl (p_state d)
}.

(** The tail pointer of a ready queue that has members points to the last
    of them. *)
Definition tails (st : kstate) (L : layout) : Prop :=
  forall k q, (k < 3)%nat -> os_readyq st !! k = Some q ->
              L (Ready k) = [] \/ q_tail q = last (L (Ready k)).

(** The state is laid out as [L] says. *)
Definition laid_out (st : kstate) (L : layout) : Prop :=
  linked st L /\ tails st L.

(** The running process exists, is ACTIVE (IDLING for the idle process)
    and is on no list. *)
Definition running_ok (st : kstate) (L : layout) : Prop :=
  forall c, os_current st = Some c ->
    exists d, os_ptable st !! c = Some d /\
              (p_state d = ACTIVE \/ p_state d = IDLING) /\
              forall pl, c ∉ L pl.

(** The idle process exists, is IDLING and has the priority 3 that
    [os_init] gave it. *)
Definition idle_ok (st : kstate) : Prop :=
  forall i, idle_proc st = Some i ->
    exists d, os_ptable st !! i = Some d /\
              p_state d = IDLING /\ p_priority d = 3.

Definition lists_in_order (st : kstate) : Prop :=
  exists L, laid_out st L /\ running_ok st L /\ idle_ok st.

(** The descriptors of [st'] have the states and priorities of those of
    [st]. *)
Definition same_duty (st st' : kstate) : Prop :=
  length (os_ptable st') = length (os_ptable st) /\
  forall i d', os_ptable st' !! i = Some d' ->
    exists d, os_ptable st !! i = Some d /\
              p_state d' = p_state d /\ p_priority d' = p_priority d.

Section QueueDiscipline.
Context {env : Env}.

(** The running process is the idle process. *)
Definition idle_running (st : kstate) : bool :=
  match os_current st, idle_proc st with
  | Some c, Some i => (c =? i)%nat
  | _, _ => false
  end.

(** The test of the loop of [mini_receive], for the waiting sender [i]. *)
Definition matches (st : kstate) (type : Z) (i : nat) : bool :=
  (type =? ANY) || (p_msgtype (descriptor st i) =? type).

(** A receive with filter [type] by the running process looks at the
    senders waiting on it: no interrupt is pending that the filter
    admits, and the filter is not INTERRUPT. *)
Definition walks_queue (st : kstate) (type : Z) : bool :=
  match os_current st with
  | Some c =>
      negb (p_pending (descriptor st c)
            && ((type =? ANY) || (type =? INTERRUPT)))
      && negb (type =? INTERRUPT)
  | None => false
  end.

(** The first sender waiting on the running process matches the filter,
    or none of them does. *)
Definition first_match_is_head (st : kstate) (type : Z) : bool :=
  match os_current st with
  | Some c =>
      match waiting_list st c with
      | [] => true
      | s :: rest =>
          matches st type s || forallb (fun x => negb (matches st type x)) rest
      end
  | None => true
  end.

(** The discipline under which the lists stay in order: the idle process
    makes no system call but yield and dump, and does not call [connect]
    or [priority]; and a receive that looks at the waiting senders finds
    its first match at the head of the queue, if it finds one. *)
Definition in_discipline (c : kcall) (st : kstate) : bool :=
  match c with
  | Call_system_call _ insn r0 _ _ =>
      let op := Z.land insn 0xff in
      if op =? SYS_RECEIVE then
        negb (idle_running st)
        && (negb (walks_queue st r0) || first_match_is_head st r0)
      else if (op =? SYS_SEND) || (op =? SYS_SENDREC) || (op =? SYS_EXIT) then
        negb (idle_running st)
      else true
  | Call_connect _ | Call_priority _ => negb (idle_running st)
  | _ => true
  end.

(** A sequence of entries, each within the discipline and returning. *)
Fixpoint run_in_discipline (cs : list kcall) (st : kstate) : option kstate :=
  match cs with
  | [] => Some st
  | c :: cs' =>
      if in_discipline c st then
        match run c st with
        | Ok _ st' => run_in_discipline cs' st'
        | _ => None
        end
      else None
  end.

(** What [make_ready] and the blocking calls owe a process.  A process
    whose priority is P_IDLE is left alone by [make_ready]; apart from
    these, and from the processes in [X], an ACTIVE process is on one of
    the three ready queues, and a process that is SENDING or SENDREC is
    on the sender queue of a process of the table. *)
Definition covered (st : kstate) (L : layout) (X : nat -> Prop) : Prop :=
  forall i d, os_ptable st !! i = Some d -> ~ X i -> p_priority d <> P_IDLE ->
    (p_state d = ACTIVE -> exists k, (k < 3)%nat /\ i ∈ L (Ready k)) /\
    (p_state d = SENDING \/ p_state d = SENDREC ->
       exists r, (r < length (os_ptable st))%nat /\ i ∈ L (Sender r)).

Definition running (st : kstate) (i : nat) : Prop := os_current st = Some i.

(** A process to which nothing is owed. *)
Definition no_duty (d : proc) : Prop :=
  p_priority d = P_IDLE \/
  p_state d = RECEIVING \/ p_state d = IDLING \/ p_state d = DEAD.

(** The lists are in order as [L'] says, and no process has been lost
    on the way from [st], laid out as [L]. *)
Definition follows (st : kstate) (L : layout) (st' : kstate) : Prop :=
  exists L', laid_out st' L' /\ running_ok st' L' /\ idle_ok st' /\
             (covered st L (running st) -> covered st' L' (running st')).

(** [os_start] does not return to its caller, so that it is entered once:
    when no process is running yet. *)
Definition starts_once (c : kcall) (st : kstate) : bool :=
  match c, os_current st with
  | Call_os_start _, Some _ => false
  | _, _ => true
  end.

(** A sequence of entries within the discipline in which the scheduler is
    started once. *)
Fixpoint run_started_once (cs : list kcall) (st : kstate) : option kstate :=
  match cs with
  | [] => Some st
  | c :: cs' =>
      if in_discipline c st && starts_once c st then
        match run c st with
        | Ok _ st' => run_started_once cs' st'
        | _ => None
        end
      else None
  end.

End QueueDiscipline.

Section OrderlyRuns.
Local Existing Instance board.

(** From boot to [two_senders], and on: R receives twice, first with the
    filter ANY, which the message of S1 at the head of its sender queue
    matches, then with the filter 20, which the message of S2 matches,
    now at the head. *)
Definition orderly_trace : list kcall :=
  two_senders_trace ++
  [Call_system_call psp_R (svc SYS_RECEIVE) ANY buf_R 0;
   Call_system_call psp_R (svc SYS_RECEIVE) 20 buf_R 0].

Definition both_received : kstate :=
  after (_ <- system_call psp_R (svc SYS_RECEIVE) ANY buf_R 0 ;;
         system_call psp_R (svc SYS_RECEIVE) 20 buf_R 0) two_senders.

End OrderlyRuns.

(** ** Pointers followed and lists walked

    A routine keeps to the table if it returns or panics, or indexes an
    array outside its bounds; it does not follow a NULL or a stray
    descriptor pointer, and its list walks end. *)
Definition pointer_safe {A} (r : result A) : Prop :=
  match r with
  | Fault (OutOfBounds _ _) => True
  | Fault _ => False
  | _ => True
  end.

(** The scheduler has been started: a process is running, and the idle
    process exists. *)
Definition scheduling (st : kstate) : Prop :=
  os_current st <> None /\ idle_proc st <> None.

(** * Properties *)

(** ** The monad and the primitive accesses *)

Lemma bind_ok {A B} (m : K A) (f : A -> K B) st a st' :
  m st = Ok a st' -> (x <- m ;; f x) st = f a st'.
Proof. intros H. unfold bind. now rewrite H. Qed.

Lemma bind_panic {A B} (m : K A) (f : A -> K B) st fmt args st' :
  m st = Panic fmt args st' -> (x <- m ;; f x) st = Panic fmt args st'.
Proof. intros H. unfold bind. now rewrite H. Qed.

Lemma bind_fault {A B} (m : K A) (f : A -> K B) st e :
  m st = Fault e -> (x <- m ;; f x) st = Fault e.
Proof. intros H. unfold bind. now rewrite H. Qed.

Lemma bind_inv {A B} (m : K A) (f : A -> K B) st b st' :
  (x <- m ;; f x) st = Ok b st' ->
  exists a st1, m st = Ok a st1 /\ f a st1 = Ok b st'.
Proof.
  unfold bind. destruct (m st) as [a st1| |]; try discriminate.
  intros H. now exists a, st1.
Qed.

Lemma current_inv st p st' :
  current st = Ok p st' -> p = os_current st /\ st' = st.
Proof. intros H. inversion H; subst; auto. Qed.

Lemma get_inv st s st' : get st = Ok s st' -> s = st /\ st' = st.
Proof. intros H. inversion H; subst; auto. Qed.

Lemma modify_inv f st u st' : modify f st = Ok u st' -> st' = f st.
Proof. intros H. inversion H; subst; auto. Qed.

Lemma deref_ok st i d :
  os_ptable st !! i = Some d -> deref (Some i) st = Ok d st.
Proof. intros H. unfold deref. now rewrite H. Qed.

Lemma deref_inv st p d st' :
  deref p st = Ok d st' ->
  st' = st /\ exists i, p = Some i /\ os_ptable st !! i = Some d.
Proof.
  unfold deref. destruct p as [i|]; try discriminate.
  destruct (os_ptable st !! i) as [d'|] eqn:E; try discriminate.
  intros H. inversion H; subst. eauto.
Qed.

Lemma update_ok st i d f :
  os_ptable st !! i = Some d ->
  update (Some i) f st = Ok tt (with_ptable (<[i := f d]> (os_ptable st)) st).
Proof. intros H. unfold update. now rewrite (bind_ok _ _ _ _ _ (deref_ok _ _ _ H)). Qed.

Lemma update_inv st p f st' :
  update p f st = Ok tt st' ->
  exists i d, p = Some i /\ os_ptable st !! i = Some d /\
              st' = with_ptable (<[i := f d]> (os_ptable st)) st.
Proof.
  unfold update. intros H. apply bind_inv in H as (d & st1 & H1 & H2).
  apply deref_inv in H1 as (-> & i & -> & Hi).
  unfold modify in H2. inversion H2; subst. eauto.
Qed.

Lemma readyq_ok st k q :
  (k < 3)%nat -> os_readyq st !! k = Some q -> readyq (Z.of_nat k) st = Ok q st.
Proof.
  intros Hk H. unfold readyq. rewrite Nat2Z.id, H.
  replace ((0 <=? Z.of_nat k) && (Z.of_nat k <? 3)) with true; [easy|].
  symmetry. apply andb_true_iff. split; [apply Z.leb_le | apply Z.ltb_lt]; lia.
Qed.

Lemma set_readyq_ok st k q q' :
  (k < 3)%nat -> os_readyq st !! k = Some q ->
  set_readyq (Z.of_nat k) q' st = Ok tt (with_readyq (<[k := q']> (os_readyq st)) st).
Proof.
  intros Hk H. unfold set_readyq.
  rewrite (bind_ok _ _ _ _ _ (readyq_ok _ _ _ Hk H)).
  unfold modify. now rewrite Nat2Z.id.
Qed.

Lemma ptable_entry_ok st dest :
  0 <= dest < NPROCS ->
  ptable_entry dest st =
  Ok (if dest <? os_nprocs st then Some (Z.to_nat dest) else None) st.
Proof.
  intros H. unfold ptable_entry.
  replace ((0 <=? dest) && (dest <? NPROCS)) with true; [easy|].
  symmetry. apply andb_true_iff. split; [apply Z.leb_le | apply Z.ltb_lt]; lia.
Qed.

Lemma handler_entry_ok st irq t :
  0 <= irq < 32 -> os_handler st !! Z.to_nat irq = Some t ->
  handler_entry irq st = Ok t st.
Proof.
  intros Hr H. unfold handler_entry. rewrite H.
  replace ((0 <=? irq) && (irq <? 32)) with true; [easy|].
  symmetry. apply andb_true_iff. split; [apply Z.leb_le | apply Z.ltb_lt]; lia.
Qed.

(** ** Message delivery *)

Section Delivery.
Context {env : Env}.

Lemma deliver_null_buf src type msg st :
  deliver 0 src type msg st = Ok tt st.
Proof. reflexivity. Qed.

Lemma deliver_header_only buf src type st :
  buf <> 0 ->
  deliver buf src type 0 st =
  Ok tt (with_msgmem
           (store_msg buf (mkmsg type src (m_body (msgmem st buf))) (msgmem st))
           st).
Proof.
  intros Hb. unfold deliver.
  destruct (buf =? 0) eqn:E; [apply Z.eqb_eq in E; contradiction|].
  reflexivity.
Qed.

Lemma deliver_copy buf src type msg st :
  buf <> 0 -> msg <> 0 ->
  deliver buf src type msg st =
  Ok tt (with_msgmem
           (store_msg buf (mkmsg type src (m_body (msgmem st msg))) (msgmem st))
           st).
Proof.
  intros Hb Hm. unfold deliver.
  destruct (buf =? 0) eqn:E; [apply Z.eqb_eq in E; contradiction|].
  destruct (msg =? 0) eqn:E'; [apply Z.eqb_eq in E'; contradiction|].
  reflexivity.
Qed.

(** Whatever the arguments, [deliver] returns and touches message memory
    only. *)
Lemma deliver_total buf src type msg st :
  exists mem', deliver buf src type msg st = Ok tt (with_msgmem mem' st) /\
               (forall a, a <> buf -> mem' a = msgmem st a).
Proof.
  unfold deliver. destruct (buf =? 0) eqn:E.
  - exists (msgmem st). split; [now destruct st|easy].
  - eexists. split; [reflexivity|].
    intros a Ha. unfold store_msg.
    destruct (a =? buf) eqn:E2; [apply Z.eqb_eq in E2; contradiction|easy].
Qed.

(** C10.  [deliver] writes nothing when the destination buffer is NULL:
    it returns with the state as it was, so the calling operation goes on
    with its own state changes.  When the destination is a buffer and only
    the source is NULL, the buffer afterwards carries the given sender and
    type, its body is what it was, and no other message cell and no other
    part of the kernel state has changed. *)
Theorem deliver_null_pointers :
  forall (buf src type msg : Z) (st : kstate),
    (buf = 0 -> deliver buf src type msg st = Ok tt st) /\
    (buf <> 0 -> msg = 0 ->
     exists st',
       deliver buf src type msg st = Ok tt st' /\
       m_sender (msgmem st' buf) = src /\
       m_type (msgmem st' buf) = type /\
       m_body (msgmem st' buf) = m_body (msgmem st buf) /\
       (forall a, a <> buf -> msgmem st' a = msgmem st a) /\
       st' = with_msgmem (msgmem st') st).
Proof.
  intros buf src type msg st. split.
  - intros ->. apply deliver_null_buf.
  - intros Hb ->. eexists. split; [apply deliver_header_only, Hb|].
    cbn. unfold store_msg. rewrite Z.eqb_refl. cbn.
    repeat split.
    intros a Ha. destruct (a =? buf) eqn:E; [apply Z.eqb_eq in E; contradiction|easy].
Qed.

End Delivery.

(** The two cases of [deliver_null_pointers] on the board. *)
Lemma deliver_null_pointers_witness :
  deliver 0 7 9 0x100 loaded = Ok tt loaded /\
  exists st', deliver 0x200 7 9 0 loaded = Ok tt st' /\
              m_sender (msgmem st' 0x200) = 7 /\
              m_type (msgmem st' 0x200) = 9 /\
              m_body (msgmem st' 0x200) = m_body (msgmem loaded 0x200).
Proof.
  destruct (deliver_null_pointers 0 7 9 0x100 loaded) as [H0 _].
  destruct (deliver_null_pointers 0x200 7 9 0 loaded) as [_ H1].
  split; [apply H0; reflexivity|].
  destruct H1 as (st' & Hd & Hs & Ht & Hb & _); [lia|reflexivity|].
  exists st'. auto.
Defined.

(** ** The interrupt bridge *)

Section Bridge.
Context {env : Env}.

Lemma boot_handler_zero msgs mem irq :
  0 <= irq < 32 -> os_handler (boot msgs mem) !! Z.to_nat irq = Some 0.
Proof.
  intros H.   change (replicate 32 0 !! Z.to_nat irq = Some 0).
  apply lookup_replicate_2. lia.
Qed.

Lemma handler_entry_inv irq st t st' :
  handler_entry irq st = Ok t st' ->
  st' = st /\ 0 <= irq < 32 /\ os_handler st !! Z.to_nat irq = Some t.
Proof.
  unfold handler_entry.
  destruct ((0 <=? irq) && (irq <? 32)) eqn:E; try discriminate.
  destruct (os_handler st !! Z.to_nat irq) as [t'|] eqn:E'; try discriminate.
  intros H. inversion H; subst.
  apply andb_true_iff in E as [E1 E2].
  apply Z.leb_le in E1. apply Z.ltb_lt in E2. auto.
Qed.

Lemma default_handler_negative irq st :
  irq < 0 -> default_handler irq st = Panic "Unexpected interrupt %d" [irq] st.
Proof.
  intros H. unfold default_handler.
  apply Z.ltb_lt in H. rewrite H. reflexivity.
Qed.

Lemma default_handler_zero irq st :
  0 <= irq < 32 -> os_handler st !! Z.to_nat irq = Some 0 ->
  default_handler irq st = Panic "Unexpected interrupt %d" [irq] st.
Proof.
  intros Hr H. unfold default_handler.
  destruct (irq <? 0) eqn:E; [apply Z.ltb_lt in E; lia|].
  rewrite (bind_ok _ _ _ _ _ (handler_entry_ok _ _ _ Hr H)). reflexivity.
Qed.

Lemma default_handler_delivers irq st st' :
  default_handler irq st = Ok tt st' ->
  exists task,
    task <> 0 /\ 0 <= irq < 32 /\ os_handler st !! Z.to_nat irq = Some task /\
    (set_irq irq false ;; interrupt task) st = Ok tt st'.
Proof.
  unfold default_handler. intros H.
  apply bind_inv in H as (task & st1 & H1 & H2).
  destruct (irq <? 0) eqn:E; [discriminate H2|].
  apply handler_entry_inv in H1 as (-> & Hr & Ht).
  cbn in H2. destruct (task =? 0) eqn:E0; [discriminate H2|].
  apply Z.eqb_neq in E0. exists task. auto.
Qed.

Lemma connect_by_pid0 irq st c :
  0 <= irq < 32 -> length (os_handler st) = 32%nat ->
  os_current st = Some 0%nat -> os_ptable st !! 0%nat = Some c -> p_pid c = 0 ->
  exists st1, connect irq st = Ok tt st1 /\
              os_handler st1 !! Z.to_nat irq = Some 0.
Proof.
  intros Hr Hl Hc Hp Hpid. unfold connect.
  destruct (irq <? 0) eqn:E; [apply Z.ltb_lt in E; lia|].
  assert (Hlt : (Z.to_nat irq < length (os_handler st))%nat) by lia.
  destruct (lookup_lt_is_Some_2 _ _ Hlt) as [t Ht].
  unfold current at 1. unfold bind at 1. rewrite Hc.
  rewrite (bind_ok _ _ _ _ _ (update_ok _ _ _ _ Hp)).
  assert (Hp' : os_ptable (with_ptable (<[0%nat := set_p_priority 0 c]> (os_ptable st)) st)
                !! 0%nat = Some (set_p_priority 0 c)).
  { cbn. apply list_lookup_insert_eq. apply lookup_lt_Some in Hp. exact Hp. }
  rewrite (bind_ok _ _ _ _ _ (deref_ok _ _ _ Hp')).
  erewrite bind_ok; [|apply handler_entry_ok; [exact Hr | cbn; exact Ht]].
  eexists. split; [reflexivity|].
  cbn. rewrite Hpid. apply list_lookup_insert_eq. exact Hlt.
Qed.

(** C9.  [default_handler] panics, and delivers nothing, when the active
    IRQ number reads back negative and when the handler table holds 0 for
    it, which is what every entry holds at boot.  Whenever it does go on to
    [interrupt(task)], the task is not 0; and after process 0 itself has
    called [connect(irq)] the table entry is 0 still, so that an interrupt
    on [irq] panics: process 0 cannot be an interrupt handler. *)
Theorem default_handler_unregistered :
  forall (st : kstate) (irq : Z),
    (irq < 0 ->
     default_handler irq st = Panic "Unexpected interrupt %d" [irq] st) /\
    (0 <= irq < 32 -> os_handler st !! Z.to_nat irq = Some 0 ->
     default_handler irq st = Panic "Unexpected interrupt %d" [irq] st) /\
    (forall msgs mem, 0 <= irq < 32 ->
     default_handler irq (boot msgs mem) =
     Panic "Unexpected interrupt %d" [irq] (boot msgs mem)) /\
    (forall st', default_handler irq st = Ok tt st' ->
     exists task, task <> 0 /\ os_handler st !! Z.to_nat irq = Some task /\
                  (set_irq irq false ;; interrupt task) st = Ok tt st') /\
    (forall c, 0 <= irq < 32 -> length (os_handler st) = 32%nat ->
     os_current st = Some 0%nat -> os_ptable st !! 0%nat = Some c ->
     p_pid c = 0 ->
     exists st1, connect irq st = Ok tt st1 /\
       default_handler irq st1 = Panic "Unexpected interrupt %d" [irq] st1).
Proof.
  intros st irq. repeat split.
  - apply default_handler_negative.
  - apply default_handler_zero.
  - intros msgs mem Hr. apply default_handler_zero; [exact Hr|].
    now apply boot_handler_zero.
  - intros st' H. apply default_handler_delivers in H as (task & ? & ? & ? & ?).
    exists task. auto.
  - intros c Hr Hl Hc Hp Hpid.
    destruct (connect_by_pid0 irq st c Hr Hl Hc Hp Hpid) as (st1 & H1 & H2).
    exists st1. split; [exact H1|]. now apply default_handler_zero.
Qed.

End Bridge.

(** ** Ready queues and the scheduler *)

Section Lseg.

Lemma lseg_functional ps h l1 :
  lseg ps h l1 -> forall l2, lseg ps h l2 -> l1 = l2.
Proof.
  induction 1 as [|i d l Hi Hl IH]; intros l2 H2; inversion H2; subst; [easy|].
  f_equal. apply IH. congruence.
Qed.

Lemma lseg_suffix ps h l :
  lseg ps h l -> forall i l1 l2, l = l1 ++ i :: l2 -> lseg ps (Some i) (i :: l2).
Proof.
  induction 1 as [|j d l Hj Hl IH]; intros i l1 l2 E.
  - destruct l1; discriminate.
  - destruct l1 as [|x l1]; cbn in E; inversion E; subst.
    + econstructor; eauto.
    + eapply IH. reflexivity.
Qed.

Lemma lseg_NoDup ps h l : lseg ps h l -> NoDup l.
Proof.
  induction 1 as [|i d l Hi Hl IH]; constructor; [|exact IH].
  intros Hin. apply list_elem_of_split in Hin as (l1 & l2 & ->).
  pose proof (lseg_suffix _ _ _ Hl i l1 l2 eq_refl) as Hs.
  assert (Hfull : lseg ps (Some i) (i :: l1 ++ i :: l2)) by (econstructor; eauto).
  pose proof (lseg_functional _ _ _ Hs _ Hfull) as E.
  apply (f_equal length) in E. cbn in E. rewrite length_app in E. cbn in E. lia.
Qed.

Lemma lseg_valid ps h l i : lseg ps h l -> i ∈ l -> is_Some (ps !! i).
Proof.
  induction 1 as [|j d l Hj Hl IH]; intros Hin.
  - inversion Hin.
  - apply elem_of_cons in Hin as [->|Hin]; eauto.
Qed.

(** Writing a descriptor that is not on the list leaves the list alone. *)
Lemma lseg_frame ps h l j d' :
  lseg ps h l -> j ∉ l -> lseg (<[j := d']> ps) h l.
Proof.
  induction 1 as [|i d l Hi Hl IH]; intros Hj; [constructor|].
  apply not_elem_of_cons in Hj as [Hne Hj].
  econstructor; [rewrite list_lookup_insert_ne; eauto | auto].
Qed.

(** Linking a fresh last node behind the old last node. *)
Lemma lseg_snoc ps h l t dt p dp :
  lseg ps h (l ++ [t]) -> ps !! t = Some dt -> ps !! p = Some dp ->
  p_next dp = None -> p ∉ l ++ [t] ->
  lseg (<[t := set_p_next (Some p) dt]> ps) h ((l ++ [t]) ++ [p]).
Proof.
  intros H. remember (l ++ [t]) as lt eqn:E. revert l E.
  induction H as [|i d l' Hi Hl IH]; intros l E Ht Hp Hn Hnin.
  - destruct l; discriminate.
  - pose proof (lseg_NoDup _ _ _ (lseg_cons _ _ _ _ Hi Hl)) as Hnd.
    apply not_elem_of_cons in Hnin as [Hpi Hnin].
    destruct l as [|x l]; cbn in E; inversion E; subst.
    + (* i = t is the last node *)
      inversion Hl; subst. cbn.
      assert (Hlen : (t < length ps)%nat) by (eapply lookup_lt_Some; eauto).
      econstructor; [apply list_lookup_insert_eq, Hlen|]. cbn.
      econstructor; [rewrite list_lookup_insert_ne; eauto|].
      rewrite Hn. constructor.
    + apply NoDup_cons in Hnd as [Hx _].
      assert (x <> t) by (intros ->; apply Hx, elem_of_app; right; constructor).
      cbn. econstructor; [rewrite list_lookup_insert_ne; eauto|].
      apply (IH l); auto.
Qed.

End Lseg.

Section Scheduler.
Context {env : Env}.

Lemma make_ready_idle p st : make_ready p P_IDLE st = Ok tt st.
Proof. unfold make_ready. now rewrite Z.eqb_refl. Qed.

Lemma last_snoc_inv {A} (l : list A) :
  l <> [] -> exists l' t, l = l' ++ [t] /\ last l = Some t.
Proof.
  intros H. destruct (decide (l = [])) as [->|_]; [contradiction|].
  induction l as [|x l IH] using rev_ind; [contradiction|].
  exists l, x. split; [easy|]. apply last_snoc.
Qed.

(** [make_ready] at a level other than the idle level: the process comes
    last on the queue of that level. *)
Lemma make_ready_enqueues st k l p dp :
  Z.of_nat k <> P_IDLE -> (k < 3)%nat ->
  is_queue st k l -> os_ptable st !! p = Some dp -> p ∉ l ->
  exists st',
    make_ready (Some p) (Z.of_nat k) st = Ok tt st' /\
    is_queue st' k (l ++ [p]) /\
    os_ptable st' !! p = Some (set_p_next None (set_p_state ACTIVE dp)) /\
    (forall j, j <> p -> last l <> Some j ->
               os_ptable st' !! j = os_ptable st !! j) /\
    (forall j, j <> k -> os_readyq st' !! j = os_readyq st !! j) /\
    st' = with_readyq (os_readyq st') (with_ptable (os_ptable st') st).
Proof.
  intros Hidle Hk (q & Hq & Hl & Htail) Hp Hnin.
  unfold make_ready.
  destruct (Z.of_nat k =? P_IDLE) eqn:E; [apply Z.eqb_eq in E; contradiction|].
  rewrite (bind_ok _ _ _ _ _ (update_ok _ _ _ _ Hp)).
  set (dp' := set_p_next None (set_p_state ACTIVE dp)).
  set (ps1 := <[p := dp']> (os_ptable st)).
  set (st1 := with_ptable ps1 st).
  assert (Hplt : (p < length (os_ptable st))%nat) by (eapply lookup_lt_Some; eauto).
  assert (Hklt : (k < length (os_readyq st))%nat) by (eapply lookup_lt_Some; eauto).
  assert (Hq1 : os_readyq st1 !! k = Some q) by exact Hq.
  rewrite (bind_ok _ _ _ _ _ (readyq_ok _ _ _ Hk Hq1)).
  assert (Hl1 : lseg ps1 (q_head q) l) by (apply lseg_frame; auto).
  destruct (q_head q) as [h|] eqn:Hh.
  - (* the queue has members: link behind the tail *)
    assert (Hne : l <> []) by (intros ->; inversion Hl).
    destruct Htail as [->|Htail]; [contradiction|].
    destruct (last_snoc_inv l Hne) as (l' & t & El & Elast).
    rewrite Htail, Elast.
    assert (Htin : t ∈ l) by (rewrite El; apply elem_of_app; right; constructor).
    assert (Htp : t <> p) by (intros ->; contradiction).
    destruct (lseg_valid _ _ _ t Hl Htin) as [dt Hdt].
    assert (Hdt1 : os_ptable st1 !! t = Some dt).
    { cbn. unfold ps1. rewrite list_lookup_insert_ne; auto. }
    rewrite (bind_ok _ _ _ _ _ (update_ok _ _ _ _ Hdt1)).
    set (ps2 := <[t := set_p_next (Some p) dt]> (os_ptable st1)).
    set (st2 := with_ptable ps2 st1).
    assert (Hq2 : os_readyq st2 !! k = Some q) by exact Hq.
    rewrite (bind_ok _ _ _ _ _ (readyq_ok _ _ _ Hk Hq2)).
    rewrite (set_readyq_ok _ _ _ _ Hk Hq2).
    eexists. split; [reflexivity|].
    assert (Hpp : ps2 !! p = Some dp').
    { unfold ps2. cbn. rewrite list_lookup_insert_ne by auto.
      unfold ps1. apply list_lookup_insert_eq, Hplt. }
    repeat split.
    + exists (mkqueue (Some h) (Some p)). cbn. rewrite Hh.
      split; [apply list_lookup_insert_eq, Hklt|].
      split; [|right; now rewrite last_snoc].
      rewrite El. unfold ps2. cbn.
      rewrite El in Hl1, Hnin.
      eapply lseg_snoc; eauto.
      * unfold ps1. apply list_lookup_insert_eq, Hplt.
      * reflexivity.
    + exact Hpp.
    + intros j Hjp Hjt. cbn. unfold ps2, st1, ps1. cbn.
      rewrite !list_lookup_insert_ne; auto; congruence.
    + intros j Hj. cbn. rewrite list_lookup_insert_ne; auto.
  - (* the queue is empty: the process becomes its head *)
    inversion Hl; subst. clear Htail.
    rewrite (bind_ok _ _ _ _ _ (set_readyq_ok _ _ _ _ Hk Hq1)).
    set (st2 := with_readyq _ st1).
    assert (Hq2 : os_readyq st2 !! k = Some (mkqueue (Some p) (q_tail q))).
    { cbn. apply list_lookup_insert_eq, Hklt. }
    rewrite (bind_ok _ _ _ _ _ (readyq_ok _ _ _ Hk Hq2)).
    rewrite (set_readyq_ok _ _ _ _ Hk Hq2).
    eexists. split; [reflexivity|].
    assert (Hpp : ps1 !! p = Some dp') by (apply list_lookup_insert_eq, Hplt).
    repeat split.
    + exists (mkqueue (Some p) (Some p)). cbn.
      split; [apply list_lookup_insert_eq; rewrite length_insert; exact Hklt|].
      split; [|now right].
      econstructor; [exact Hpp|]. cbn. constructor.
    + exact Hpp.
    + intros j Hjp _. cbn. unfold ps1. rewrite list_lookup_insert_ne; auto.
    + intros j Hj. cbn. rewrite !list_lookup_insert_ne; auto.
Qed.

Lemma take_head_empty st k q rest :
  (k < 3)%nat -> os_readyq st !! k = Some q -> q_head q = None ->
  take_head (Z.of_nat k) rest st = rest st.
Proof.
  intros Hk Hq Hh. unfold take_head.
  rewrite (bind_ok _ _ _ _ _ (readyq_ok _ _ _ Hk Hq)). now rewrite Hh.
Qed.

Lemma take_head_pop st k q h d rest :
  (k < 3)%nat -> os_readyq st !! k = Some q -> q_head q = Some h ->
  os_ptable st !! h = Some d ->
  take_head (Z.of_nat k) rest st =
  Ok tt (with_readyq (<[k := mkqueue (p_next d) (q_tail q)]> (os_readyq st))
                     (with_current (Some h) st)).
Proof.
  intros Hk Hq Hh Hd. unfold take_head.
  rewrite (bind_ok _ _ _ _ _ (readyq_ok _ _ _ Hk Hq)). rewrite Hh.
  unfold modify at 1. unfold bind at 1.
  assert (Hd' : os_ptable (with_current (Some h) st) !! h = Some d) by exact Hd.
  rewrite (bind_ok _ _ _ _ _ (deref_ok _ _ _ Hd')).
  assert (Hq' : os_readyq (with_current (Some h) st) !! k = Some q) by exact Hq.
  now rewrite (set_readyq_ok _ _ _ _ Hk Hq').
Qed.

(** [choose_proc] with queue [k] the first that is not empty: its head
    becomes the current process and leaves the queue. *)
Lemma choose_proc_first st k p l :
  (k < 3)%nat ->
  (forall j q, (j < k)%nat -> os_readyq st !! j = Some q -> q_head q = None) ->
  is_queue st k (p :: l) ->
  exists st',
    choose_proc st = Ok tt st' /\
    os_current st' = Some p /\
    is_queue st' k l /\
    os_ptable st' = os_ptable st /\
    (forall j, j <> k -> os_readyq st' !! j = os_readyq st !! j) /\
    st' = with_readyq (os_readyq st') (with_current (Some p) st).
Proof.
  intros Hk Hempty (q & Hq & Hl & Htail).
  inversion Hl as [|i d l0 Hd Hl' E1]; subst.
  assert (Hklt : (k < length (os_readyq st))%nat) by (eapply lookup_lt_Some; eauto).
  assert (Hpop : forall rest, take_head (Z.of_nat k) rest st =
            Ok tt (with_readyq (<[k := mkqueue (p_next d) (q_tail q)]> (os_readyq st))
                               (with_current (Some p) st))).
  { intros rest. eapply take_head_pop; eauto. }
  assert (Hskip : forall j rest, (j < k)%nat ->
            take_head (Z.of_nat j) rest st = rest st).
  { intros j rest Hj.
    destruct (lookup_lt_is_Some_2 (os_readyq st) j) as [qj Hqj]; [lia|].
    eapply take_head_empty; eauto. lia. }
  assert (Hrun : choose_proc st =
            Ok tt (with_readyq (<[k := mkqueue (p_next d) (q_tail q)]> (os_readyq st))
                               (with_current (Some p) st))).
  { unfold choose_proc. cbn [fold_right].
    destruct k as [|[|[|k]]]; [| | |lia].
    - apply (Hpop _).
    - change 0 with (Z.of_nat 0). rewrite Hskip by lia. apply (Hpop _).
    - change 0 with (Z.of_nat 0). rewrite Hskip by lia.
      change 1 with (Z.of_nat 1). rewrite Hskip by lia. apply (Hpop _). }
  eexists. split; [exact Hrun|]. cbn.
  repeat split.
  - exists (mkqueue (p_next d) (q_tail q)). cbn.
    split; [apply list_lookup_insert_eq, Hklt|].
    split; [exact Hl'|].
    destruct l as [|x l]; [now left|right].
    destruct Htail as [?|Htail]; [discriminate|]. rewrite Htail. reflexivity.
  - intros j Hj. rewrite list_lookup_insert_ne; auto.
Qed.

(** One turn of the loop on a queue whose head, if any, is a process of
    the table. *)
Lemma take_head_cases st j q rest :
  (j < 3)%nat -> os_readyq st !! j = Some q ->
  (forall x, q_head q = Some x -> is_Some (os_ptable st !! x)) ->
  (q_head q = None /\ take_head (Z.of_nat j) rest st = rest st) \/
  (exists x d,
     q_head q = Some x /\ os_ptable st !! x = Some d /\
     take_head (Z.of_nat j) rest st =
     Ok tt (with_readyq (<[j := mkqueue (p_next d) (q_tail q)]> (os_readyq st))
                        (with_current (Some x) st))).
Proof.
  intros Hj Hq Hvalid. destruct (q_head q) as [x|] eqn:Hh.
  - right. destruct (Hvalid x eq_refl) as [d Hd].
    exists x, d. split; [reflexivity|]. split; [exact Hd|].
    eapply take_head_pop; eauto.
  - left. split; [reflexivity|]. eapply take_head_empty; eauto.
Qed.

(** [choose_proc] with queue [k] not empty and the queues above it in
    good order: the head of the first queue that is not empty, at level
    [k] or above, becomes the current process. *)
Lemma choose_proc_upto st k h t :
  (k < 3)%nat -> is_queue st k (h :: t) ->
  (forall j q x, (j < k)%nat -> os_readyq st !! j = Some q ->
                 q_head q = Some x -> is_Some (os_ptable st !! x)) ->
  exists j hj st',
    (j <= k)%nat /\
    choose_proc st = Ok tt st' /\
    os_current st' = Some hj /\
    (forall i q, (i < j)%nat -> os_readyq st !! i = Some q -> q_head q = None) /\
    (exists q, os_readyq st !! j = Some q /\ q_head q = Some hj) /\
    os_ptable st' = os_ptable st /\
    (j = k -> hj = h /\ is_queue st' k t).
Proof.
  intros Hk Hq Hvalid.
  assert (Hklt : (k < length (os_readyq st))%nat).
  { destruct Hq as (q & Hq & _). eapply lookup_lt_Some; eauto. }
  (* the queues above [k], one after the other *)
  assert (Hscan : forall n, (n <= k)%nat ->
            (forall i q, (i < n)%nat -> os_readyq st !! i = Some q ->
                         q_head q = None) \/
            exists j q x d,
              (j < n)%nat /\ os_readyq st !! j = Some q /\ q_head q = Some x /\
              os_ptable st !! x = Some d /\
              (forall i q', (i < j)%nat -> os_readyq st !! i = Some q' ->
                            q_head q' = None)).
  { induction n as [|n IH]; intros Hn.
    - left. intros; lia.
    - destruct (IH ltac:(lia)) as [Hempty|(j & q & x & d & Hj & Hjq & Hx & Hd & Hbelow)].
      + destruct (lookup_lt_is_Some_2 (os_readyq st) n ltac:(lia)) as [q Hnq].
        destruct (q_head q) as [x|] eqn:Hh.
        * right. destruct (Hvalid n q x ltac:(lia) Hnq Hh) as [d Hd].
          exists n, q, x, d. repeat split; auto.
        * left. intros i q' Hi Hiq.
          destruct (decide (i = n)) as [->|Hne]; [congruence|].
          apply (Hempty i q'); [lia|exact Hiq].
      + right. exists j, q, x, d. repeat split; auto. }
  destruct (Hscan k (Nat.le_refl _)) as [Hempty|(j & q & x & d & Hj & Hjq & Hx & Hd & Hbelow)].
  - (* nothing above: queue [k] itself *)
    destruct (choose_proc_first st k h t Hk Hempty Hq)
      as (st' & Hch & Hcur & Hq' & Htab & _ & _).
    destruct Hq as (q & Hkq & Hl & _). inversion Hl; subst.
    exists k, h, st'. repeat split; auto.
    exists q. auto.
  - (* queue [j] above [k] *)
    exists j, x. eexists.
    split; [lia|]. split.
    + unfold choose_proc. cbn [fold_right].
      assert (Hpop : forall rest, take_head (Z.of_nat j) rest st =
                Ok tt (with_readyq (<[j := mkqueue (p_next d) (q_tail q)]> (os_readyq st))
                                   (with_current (Some x) st))).
      { intros rest. eapply take_head_pop; eauto. lia. }
      destruct j as [|[|j]].
      * apply (Hpop _).
      * destruct (lookup_lt_is_Some_2 (os_readyq st) 0 ltac:(lia)) as [q0 Hq0].
        change 0 with (Z.of_nat 0).
        rewrite (take_head_empty st 0 q0 _ ltac:(lia) Hq0
                   (Hbelow 0%nat q0 ltac:(lia) Hq0)).
        apply (Hpop _).
      * lia.
    + cbn. split; [reflexivity|]. split; [exact Hbelow|].
      split; [exists q; auto|]. split; [reflexivity|].
      intros ->. lia.
Qed.

(** [choose_proc] with all three queues empty: the idle process runs and
    nothing else changes. *)
Lemma choose_proc_idle st :
  length (os_readyq st) = 3%nat ->
  (forall j q, os_readyq st !! j = Some q -> q_head q = None) ->
  choose_proc st = Ok tt (with_current (idle_proc st) st).
Proof.
  intros Hlen Hempty.
  assert (Hskip : forall j rest, (j < 3)%nat ->
            take_head (Z.of_nat j) rest st = rest st).
  { intros j rest Hj.
    destruct (lookup_lt_is_Some_2 (os_readyq st) j) as [qj Hqj]; [lia|].
    eapply take_head_empty; eauto. }
  unfold choose_proc. cbn [fold_right].
  change 0 with (Z.of_nat 0). rewrite Hskip by lia.
  change 1 with (Z.of_nat 1). rewrite Hskip by lia.
  change 2 with (Z.of_nat 2). rewrite Hskip by lia.
  reflexivity.
Qed.

End Scheduler.

(** ** Validation of the destination in send and sendrec *)

Section Validation.
Context {env : Env}.

Lemma ptable_entry_outside st dest :
  dest < 0 \/ NPROCS <= dest ->
  ptable_entry dest st = Fault (OutOfBounds "os_ptable" dest).
Proof.
  intros H. unfold ptable_entry.
  replace ((0 <=? dest) && (dest <? NPROCS)) with false; [easy|].
  symmetry. apply andb_false_iff.
  destruct H; [left; apply Z.leb_gt | right; apply Z.ltb_ge]; lia.
Qed.

(** The test itself: true beyond [os_nprocs] and for a DEAD process,
    false for any other process of the table. *)
Lemma bad_dest_beyond st dest pdest :
  dest < 0 \/ os_nprocs st <= dest -> bad_dest dest pdest st = Ok true st.
Proof.
  intros H. unfold bad_dest, get, bind.
  replace ((dest <? 0) || (dest >=? os_nprocs st)) with true; [easy|].
  symmetry. apply orb_true_iff.
  destruct H; [left; apply Z.ltb_lt | right; apply Z.geb_le]; lia.
Qed.

Lemma bad_dest_in_table st dest d :
  0 <= dest -> os_ptable st !! Z.to_nat dest = Some d ->
  bad_dest dest (Some (Z.to_nat dest)) st = Ok (pstate_eqb (p_state d) DEAD) st.
Proof.
  intros H0 Hd. unfold bad_dest, get. unfold bind at 1.
  assert (dest < os_nprocs st).
  { apply lookup_lt_Some in Hd. unfold os_nprocs. lia. }
  replace ((dest <? 0) || (dest >=? os_nprocs st)) with false.
  - now rewrite (bind_ok _ _ _ _ _ (deref_ok _ _ _ Hd)).
  - symmetry. apply orb_false_iff.
    split; [apply Z.ltb_ge | rewrite Z.geb_leb; apply Z.leb_gt]; lia.
Qed.

(** Within the 32 entries of the table the validation is as the
    specification has it: a destination at or beyond [os_nprocs], or one
    that is DEAD, panics with the destination as the argument of the
    diagnostic and the state as it was. *)
Lemma mini_send_panics_in_table st cur c dest type msg :
  os_current st = Some cur -> os_ptable st !! cur = Some c ->
  0 <= dest < NPROCS ->
  (os_nprocs st <= dest \/
   exists d, os_ptable st !! Z.to_nat dest = Some d /\ p_state d = DEAD) ->
  mini_send dest type msg st =
    Panic "Sending to a non-existent process %d" [dest] st /\
  mini_sendrec dest type msg st =
    Panic "Sending to a non-existent process %d" [dest] st.
Proof.
  intros Hc Hcur Hr Hbad.
  assert (Hb : bad_dest dest
                 (if dest <? os_nprocs st then Some (Z.to_nat dest) else None) st
               = Ok true st).
  { destruct Hbad as [Hge|(d & Hd & Hdead)].
    - apply bad_dest_beyond. now right.
    - assert (dest < os_nprocs st).
      { apply lookup_lt_Some in Hd. unfold os_nprocs. lia. }
      replace (dest <? os_nprocs st) with true by (symmetry; apply Z.ltb_lt; lia).
      rewrite (bad_dest_in_table st dest d) by (lia || auto).
      now rewrite Hdead. }
  split.
  - unfold mini_send, current. unfold bind at 1. rewrite Hc.
    rewrite (bind_ok _ _ _ _ _ (deref_ok _ _ _ Hcur)).
    rewrite (bind_ok _ _ _ _ _ (ptable_entry_ok _ _ Hr)).
    now rewrite (bind_ok _ _ _ _ _ Hb).
  - unfold mini_sendrec, current. unfold bind at 1. rewrite Hc.
    rewrite (bind_ok _ _ _ _ _ (deref_ok _ _ _ Hcur)).
    rewrite (bind_ok _ _ _ _ _ (ptable_entry_ok _ _ Hr)).
    now rewrite (bind_ok _ _ _ _ _ Hb).
Qed.

(** C5, as the code has it.  [mini_send] and [mini_sendrec] load
    [os_ptable[dest]] before they test [dest]: for a destination outside
    the 32 entries of the table, negative or not, the first thing either
    does after reading the caller's PID is an access outside the table,
    and the execution is beyond defined behaviour before the test and its
    [panic] are reached. *)
Theorem send_indexes_table_before_test :
  forall (st : kstate) (cur : nat) (c : proc) (dest type msg : Z),
    os_current st = Some cur -> os_ptable st !! cur = Some c ->
    dest < 0 \/ NPROCS <= dest ->
    mini_send dest type msg st = Fault (OutOfBounds "os_ptable" dest) /\
    mini_sendrec dest type msg st = Fault (OutOfBounds "os_ptable" dest).
Proof.
  intros st cur c dest type msg Hc Hcur Hout. split.
  - unfold mini_send, current. unfold bind at 1. rewrite Hc.
    rewrite (bind_ok _ _ _ _ _ (deref_ok _ _ _ Hcur)).
    now rewrite (bind_fault _ _ _ _ (ptable_entry_outside _ _ Hout)).
  - unfold mini_sendrec, current. unfold bind at 1. rewrite Hc.
    rewrite (bind_ok _ _ _ _ _ (deref_ok _ _ _ Hcur)).
    now rewrite (bind_fault _ _ _ _ (ptable_entry_outside _ _ Hout)).
Qed.

End Validation.

(** ** What a routine keeps *)

Section Keeps.
Context (P : kstate -> Prop).

Lemma keeps_ret {A} (a : A) : keeps P (ret a).
Proof. intros st a' st' H. inversion H; subst; auto. Qed.

Lemma keeps_bind {A B} (m : K A) (f : A -> K B) :
  keeps P m -> (forall a, keeps P (f a)) -> keeps P (x <- m ;; f x).
Proof.
  intros Hm Hf st b st' H HP.
  apply bind_inv in H as (a & st1 & H1 & H2).
  eapply Hf; eauto.
Qed.

Lemma keeps_get : keeps P get.
Proof. intros st a st' H. inversion H; subst; auto. Qed.

Lemma keeps_current : keeps P current.
Proof. intros st a st' H. inversion H; subst; auto. Qed.

Lemma keeps_panic {A} fmt args : keeps P (@panic A fmt args).
Proof. intros st a st' H. discriminate H. Qed.

Lemma keeps_stuck {A} e : keeps P (@stuck A e).
Proof. intros st a st' H. discriminate H. Qed.

Lemma keeps_deref p : keeps P (deref p).
Proof. intros st a st' H. apply deref_inv in H as [-> _]. auto. Qed.

Lemma keeps_modify f : (forall st, P st -> P (f st)) -> keeps P (modify f).
Proof. intros Hf st a st' H. inversion H; subst. auto. Qed.

Lemma keeps_readyq prio : keeps P (readyq prio).
Proof.
  intros st a st' H. unfold readyq in H.
  destruct ((0 <=? prio) && (prio <? 3)); try discriminate.
  destruct (os_readyq st !! Z.to_nat prio); try discriminate.
  inversion H; subst; auto.
Qed.

Lemma keeps_ptable_entry dest : keeps P (ptable_entry dest).
Proof.
  intros st a st' H. unfold ptable_entry in H.
  destruct ((0 <=? dest) && (dest <? NPROCS)); try discriminate.
  inversion H; subst; auto.
Qed.

Lemma keeps_handler_entry irq : keeps P (handler_entry irq).
Proof.
  intros st a st' H. apply handler_entry_inv in H as (-> & _). auto.
Qed.

Lemma keeps_elim {A} (m : K A) st a st' :
  keeps P m -> m st = Ok a st' -> P st -> P st'.
Proof. intros H. apply H. Qed.

End Keeps.

(** Taking a routine apart along its binds, tests and matches. *)
Ltac keeps_step :=
  match goal with
  | |- keeps _ (bind _ _) => apply keeps_bind; [|intros ?]
  | |- keeps _ (ret _) => apply keeps_ret
  | |- keeps _ get => apply keeps_get
  | |- keeps _ current => apply keeps_current
  | |- keeps _ (panic _ _) => apply keeps_panic
  | |- keeps _ (stuck _) => apply keeps_stuck
  | |- keeps _ (deref _) => apply keeps_deref
  | |- keeps _ (readyq _) => apply keeps_readyq
  | |- keeps _ (ptable_entry _) => apply keeps_ptable_entry
  | |- keeps _ (handler_entry _) => apply keeps_handler_entry
  | |- keeps _ (if ?b then _ else _) => destruct b
  | |- keeps _ (match ?x with _ => _ end) => destruct x
  end.

(** ** No lost interrupts *)

Section Pending.
Context {env : Env}.
Variable d : nat.

Lemma pending_update p f :
  (forall x, p_pending x = true -> p_pending (f x) = true) ->
  keeps (pending_at d) (update p f).
Proof.
  intros Hf st a st' H (dd & Hd & Hp).
  destruct a. apply update_inv in H as (i & di & -> & Hi & ->).
  unfold pending_at. cbn.
  destruct (decide (i = d)) as [->|Hne].
  - exists (f di). split.
    + apply list_lookup_insert_eq. eapply lookup_lt_Some; eauto.
    + apply Hf. congruence.
  - exists dd. rewrite list_lookup_insert_ne; auto.
Qed.

Lemma pending_update_other i f :
  i <> d -> keeps (pending_at d) (update (Some i) f).
Proof.
  intros Hne st a st' H (dd & Hd & Hp).
  destruct a. apply update_inv in H as (i' & di & E & Hi & ->).
  inversion E; subst i'.
  exists dd. cbn. rewrite list_lookup_insert_ne; auto.
Qed.

Lemma pending_modify f :
  (forall st, os_ptable (f st) = os_ptable st) ->
  keeps (pending_at d) (modify f).
Proof.
  intros Hf. apply keeps_modify. intros st (dd & Hd & Hp).
  exists dd. now rewrite Hf.
Qed.

Lemma pending_set_readyq prio q : keeps (pending_at d) (set_readyq prio q).
Proof.
  unfold set_readyq. repeat keeps_step. now apply pending_modify.
Qed.

Ltac pending_split :=
  repeat first
    [ keeps_step
    | apply pending_set_readyq
    | apply pending_modify; intros; reflexivity
    | apply pending_update; intros; first [assumption | reflexivity] ].

Lemma pending_make_ready p prio : keeps (pending_at d) (make_ready p prio).
Proof. unfold make_ready. pending_split. Qed.

Lemma pending_take_head p rest :
  keeps (pending_at d) rest -> keeps (pending_at d) (take_head p rest).
Proof. intros Hr. unfold take_head. pending_split. exact Hr. Qed.

Lemma pending_choose_proc : keeps (pending_at d) choose_proc.
Proof.
  unfold choose_proc. cbn [fold_right].
  repeat apply pending_take_head. pending_split.
Qed.

Lemma pending_set_state p s type msg : keeps (pending_at d) (set_state p s type msg).
Proof. unfold set_state. pending_split. Qed.

Lemma pending_deliver buf src type msg : keeps (pending_at d) (deliver buf src type msg).
Proof. unfold deliver. pending_split. Qed.

Lemma pending_last_sender fuel r : keeps (pending_at d) (last_sender fuel r).
Proof.
  revert r. induction fuel as [|fuel IH]; intros r; cbn [last_sender].
  - apply keeps_stuck.
  - pending_split. apply IH.
Qed.

Lemma pending_enqueue pdest : keeps (pending_at d) (enqueue pdest).
Proof.
  unfold enqueue. pending_split. apply pending_last_sender.
Qed.

Lemma pending_accept pdest type : keeps (pending_at d) (accept pdest type).
Proof. unfold accept. pending_split. Qed.

Lemma pending_bad_dest dest pdest : keeps (pending_at d) (bad_dest dest pdest).
Proof. unfold bad_dest. pending_split. Qed.

Lemma pending_mini_send dest type msg : keeps (pending_at d) (mini_send dest type msg).
Proof.
  unfold mini_send. pending_split;
    auto using pending_accept, pending_bad_dest, pending_deliver,
               pending_make_ready, pending_set_state, pending_enqueue,
               pending_choose_proc.
Qed.

Lemma pending_mini_sendrec dest type msg :
  keeps (pending_at d) (mini_sendrec dest type msg).
Proof.
  unfold mini_sendrec. pending_split;
    auto using pending_accept, pending_bad_dest, pending_deliver,
               pending_make_ready, pending_set_state, pending_enqueue,
               pending_choose_proc.
Qed.

Lemma pending_assert b text : keeps (pending_at d) (assert b text).
Proof. unfold assert. pending_split. Qed.

Lemma pending_take_sender fuel type msg psrc prev :
  keeps (pending_at d) (take_sender fuel type msg psrc prev).
Proof.
  revert psrc prev. induction fuel as [|fuel IH]; intros psrc prev; cbn [take_sender].
  - apply keeps_stuck.
  - pending_split;
      auto using pending_deliver, pending_make_ready, pending_set_state,
                 pending_assert.
Qed.

Lemma pending_mini_receive type msg st st' :
  mini_receive type msg st = Ok tt st' ->
  ~ (os_current st = Some d /\ (type = ANY \/ type = INTERRUPT)) ->
  pending_at d st -> pending_at d st'.
Proof.
  unfold mini_receive. intros H Hnot HP. rename st into sta.
  apply bind_inv in H as (cur & st0 & H0 & H).
  apply current_inv in H0 as (-> & ->).
  apply bind_inv in H as (c & stb & H0 & H).
  apply deref_inv in H0 as (-> & i & Hcur & Hc).
  destruct (p_pending c && ((type =? ANY) || (type =? INTERRUPT))) eqn:E.
  - apply andb_true_iff in E as [Ep Et].
    assert (Hne : i <> d).
    { intros ->. apply Hnot. split; [exact Hcur|].
      apply orb_true_iff in Et as [Et|Et]; apply Z.eqb_eq in Et; auto. }
    revert H HP. rewrite Hcur. apply keeps_bind.
    + now apply pending_update_other.
    + intros _. apply pending_deliver.
  - revert H HP. apply keeps_elim.
    pending_split;
      auto using pending_take_sender, pending_set_state, pending_choose_proc.
Qed.

Lemma pending_interrupt dest : keeps (pending_at d) (interrupt dest).
Proof.
  unfold interrupt. pending_split;
    auto using pending_accept, pending_deliver, pending_make_ready.
Qed.

Lemma pending_set_irq irq on : keeps (pending_at d) (set_irq irq on).
Proof. unfold set_irq. pending_split. Qed.

Lemma pending_default_handler irq : keeps (pending_at d) (default_handler irq).
Proof.
  unfold default_handler. pending_split;
    auto using pending_set_irq, pending_interrupt.
Qed.

Lemma pending_connect irq : keeps (pending_at d) (connect irq).
Proof. unfold connect. pending_split; auto using pending_set_irq. Qed.

Lemma pending_priority p : keeps (pending_at d) (priority p).
Proof. unfold priority. pending_split. Qed.

Lemma pending_init_proc name stksize : keeps (pending_at d) (init_proc name stksize).
Proof.
  unfold init_proc, new_proc, sbrk. pending_split.
  apply keeps_modify. intros st (dd & Hd & Hp).
  exists dd. cbn. split; [|exact Hp]. apply lookup_app_l_Some, Hd.
Qed.

Lemma pending_os_init : keeps (pending_at d) os_init.
Proof. unfold os_init. pending_split. apply pending_init_proc. Qed.

Lemma pending_start name body arg stksize :
  keeps (pending_at d) (start name body arg stksize).
Proof.
  unfold start. pending_split;
    auto using pending_init_proc, pending_make_ready.
Qed.

Lemma pending_cxt_switch psp : keeps (pending_at d) (cxt_switch psp).
Proof.
  unfold cxt_switch. pending_split;
    auto using pending_make_ready, pending_choose_proc.
Qed.

(** A system call keeps the flag of [d] unless it is a receive by [d]
    with a filter that takes the interrupt. *)
Lemma pending_system_call psp insn r0 r1 r2 st sp st' :
  system_call psp insn r0 r1 r2 st = Ok sp st' ->
  ~ (os_current st = Some d /\ Z.land insn 0xff = SYS_RECEIVE /\
     (r0 = ANY \/ r0 = INTERRUPT)) ->
  pending_at d st -> pending_at d st'.
Proof.
  unfold system_call. intros H Hnot HP.
  apply bind_inv in H as (cur & sta & H0 & H).
  apply current_inv in H0 as (-> & ->).
  apply bind_inv in H as ([] & st1 & H1 & H).
  assert (HP1 : pending_at d st1).
  { revert H1 HP. apply pending_update. intros; assumption. }
  assert (Hcur1 : os_current st1 = os_current st).
  { apply update_inv in H1 as (i & di & _ & _ & ->). reflexivity. }
  apply bind_inv in H as ([] & st2 & H2 & H).
  assert (HP2 : pending_at d st2).
  { destruct (Z.land insn 255 =? SYS_YIELD) eqn:E0.
    { revert H2 HP1. apply keeps_elim. pending_split;
        auto using pending_make_ready, pending_choose_proc. }
    destruct (Z.land insn 255 =? SYS_SEND) eqn:E1.
    { revert H2 HP1. apply pending_mini_send. }
    destruct (Z.land insn 255 =? SYS_RECEIVE) eqn:E2.
    { apply Z.eqb_eq in E2.
      eapply pending_mini_receive; eauto.
      rewrite Hcur1. intros [Hc Ht]. apply Hnot. auto. }
    destruct (Z.land insn 255 =? SYS_SENDREC) eqn:E3.
    { revert H2 HP1. apply pending_mini_sendrec. }
    revert H2 HP1. apply keeps_elim.
    pending_split; auto using pending_choose_proc. }
  revert H HP2. apply keeps_elim. pending_split.
Qed.

Lemma pending_os_start psp st sp st' :
  os_start psp st = Ok sp st' -> pending_at d st -> pending_at d st'.
Proof.
  unfold os_start. intros H HP.
  apply bind_inv in H as (s0 & sta & H0 & H).
  apply get_inv in H0 as (-> & ->).
  apply bind_inv in H as ([] & stb & H1 & H).
  apply modify_inv in H1 as ->.
  apply bind_inv in H as (c & stc & H1 & H).
  apply deref_inv in H1 as (-> & _).
  eapply pending_system_call; [exact H| |].
  - intros (_ & E & _). vm_compute in E. discriminate E.
  - destruct HP as (dd & Hd & Hp). exists dd. auto.
Qed.

(** Every entry into the kernel other than a receive by [d] that admits
    INTERRUPT leaves the pending flag of [d] set. *)
Lemma pending_run c st st' :
  run c st = Ok tt st' ->
  ~ receive_admitting_interrupt d c st ->
  pending_at d st -> pending_at d st'.
Proof.
  intros H Hnot HP. destruct c; cbn [run] in H.
  - revert H HP. apply pending_os_init.
  - revert H HP. apply keeps_elim. pending_split. apply pending_start.
  - apply bind_inv in H as (sp & st1 & H1 & H). inversion H; subst.
    eapply pending_os_start; eauto.
  - apply bind_inv in H as (sp & st1 & H1 & H). inversion H; subst.
    eapply pending_system_call; eauto.
    intros (Hc & Hop & Ht). apply Hnot. split; [exact Hc|].
    do 5 eexists. eauto.
  - revert H HP. apply keeps_elim. pending_split. apply pending_cxt_switch.
  - revert H HP. apply pending_default_handler.
  - revert H HP. apply pending_interrupt.
  - revert H HP. apply pending_connect.
  - revert H HP. apply pending_priority.
Qed.

Lemma pending_runs st st' :
  runs_before_receive d st st' -> pending_at d st -> pending_at d st'.
Proof.
  induction 1 as [|st c st1 st2 Hnot Hrun _ IH]; [auto|].
  intros HP. apply IH. eapply pending_run; eauto.
Qed.

End Pending.

Section NoLostInterrupt.
Context {env : Env}.

Lemma accept_ok st i dd type :
  os_ptable st !! i = Some dd ->
  accept (Some i) type st =
  Ok (pstate_eqb (p_state dd) RECEIVING
      && ((p_msgtype dd =? ANY) || (p_msgtype dd =? type))) st.
Proof.
  intros H. unfold accept. now rewrite (bind_ok _ _ _ _ _ (deref_ok _ _ _ H)).
Qed.

(** [interrupt] on a process that is not waiting for it sets the pending
    flag and does nothing else. *)
Lemma interrupt_sets_pending st d dd :
  Z.of_nat d < NPROCS -> os_ptable st !! d = Some dd ->
  pstate_eqb (p_state dd) RECEIVING
    && ((p_msgtype dd =? ANY) || (p_msgtype dd =? INTERRUPT)) = false ->
  interrupt (Z.of_nat d) st =
  Ok tt (with_ptable (<[d := set_p_pending true dd]> (os_ptable st)) st).
Proof.
  intros Hd Hdd Hacc. unfold interrupt.
  assert (Hlt : Z.of_nat d < os_nprocs st).
  { apply lookup_lt_Some in Hdd. unfold os_nprocs. lia. }
  rewrite (bind_ok _ _ _ _ _ (ptable_entry_ok st (Z.of_nat d) ltac:(lia))).
  replace (Z.of_nat d <? os_nprocs st) with true by (symmetry; apply Z.ltb_lt; lia).
  rewrite Nat2Z.id.
  rewrite (bind_ok _ _ _ _ _ (accept_ok _ _ _ INTERRUPT Hdd)).
  rewrite Hacc. apply update_ok, Hdd.
Qed.

(** A receive that admits INTERRUPT, made with the pending flag set,
    clears the flag and delivers the interrupt message at once. *)
Lemma mini_receive_pending st d dd type msg :
  os_current st = Some d -> os_ptable st !! d = Some dd ->
  p_pending dd = true -> type = ANY \/ type = INTERRUPT ->
  mini_receive type msg st =
  deliver msg HARDWARE INTERRUPT 0
          (with_ptable (<[d := set_p_pending false dd]> (os_ptable st)) st).
Proof.
  intros Hc Hdd Hp Ht. unfold mini_receive.
  unfold current at 1. unfold bind at 1. rewrite Hc.
  rewrite (bind_ok _ _ _ _ _ (deref_ok _ _ _ Hdd)).
  replace (p_pending dd && ((type =? ANY) || (type =? INTERRUPT))) with true.
  - now rewrite (bind_ok _ _ _ _ _ (update_ok _ _ _ _ Hdd)).
  - symmetry. rewrite Hp. cbn. apply orb_true_iff.
    destruct Ht as [->| ->]; [left|right]; apply Z.eqb_refl.
Qed.

Lemma receive_call_pending st d dd psp insn type msg r2 :
  os_current st = Some d -> os_ptable st !! d = Some dd ->
  p_pending dd = true -> Z.land insn 0xff = SYS_RECEIVE ->
  type = ANY \/ type = INTERRUPT ->
  exists mem',
    system_call psp insn type msg r2 st =
    Ok psp (with_msgmem mem'
              (with_ptable
                 (<[d := set_p_pending false (set_p_sp psp dd)]> (os_ptable st))
                 st)) /\
    (msg <> 0 -> mem' msg = mkmsg INTERRUPT HARDWARE (m_body (msgmem st msg))) /\
    (forall a, a <> msg \/ msg = 0 -> mem' a = msgmem st a).
Proof.
  intros Hc Hdd Hp Hop Ht.
  assert (Hlt : (d < length (os_ptable st))%nat) by (eapply lookup_lt_Some; eauto).
  set (st1 := with_ptable (<[d := set_p_sp psp dd]> (os_ptable st)) st).
  assert (Hdd1 : os_ptable st1 !! d = Some (set_p_sp psp dd)).
  { cbn. apply list_lookup_insert_eq, Hlt. }
  set (st2 := with_ptable (<[d := set_p_pending false (set_p_sp psp dd)]>
                             (os_ptable st1)) st1).
  assert (Hrecv : mini_receive type msg st1 = deliver msg HARDWARE INTERRUPT 0 st2).
  { apply mini_receive_pending; auto. }
  assert (Htab : os_ptable st2 =
                 <[d := set_p_pending false (set_p_sp psp dd)]> (os_ptable st)).
  { cbn. apply list_insert_insert_eq. }
  assert (Hrun : forall mem', deliver msg HARDWARE INTERRUPT 0 st2
                              = Ok tt (with_msgmem mem' st2) ->
            system_call psp insn type msg r2 st =
            Ok psp (with_msgmem mem'
              (with_ptable
                 (<[d := set_p_pending false (set_p_sp psp dd)]> (os_ptable st))
                 st))).
  { intros mem' Hdel. unfold system_call.
    unfold current at 1. unfold bind at 1. rewrite Hc.
    rewrite (bind_ok _ _ _ _ _ (update_ok _ _ _ _ Hdd)). fold st1.
    rewrite Hop. cbn [SYS_RECEIVE SYS_YIELD SYS_SEND Z.eqb Pos.eqb].
    unfold bind at 1. rewrite Hrecv, Hdel.
    assert (Hst2 : st2 = with_ptable
              (<[d := set_p_pending false (set_p_sp psp dd)]> (os_ptable st)) st).
    { unfold st2, st1, with_ptable. cbn. now rewrite list_insert_insert_eq. }
    rewrite Hst2.
    unfold current, bind. cbn [os_current with_msgmem with_ptable].
    rewrite Hc. unfold deref. cbn [os_ptable with_msgmem with_ptable].
    rewrite list_lookup_insert_eq by exact Hlt. reflexivity. }
  destruct (Z.eq_dec msg 0) as [->|Hm].
  - exists (msgmem st). split; [|split].
    + apply Hrun. rewrite deliver_null_buf. now destruct st.
    + intros H; contradiction.
    + auto.
  - eexists. split; [|split].
    + apply Hrun. rewrite deliver_header_only by exact Hm. reflexivity.
    + intros _. cbn. unfold store_msg. now rewrite Z.eqb_refl.
    + intros a [Ha|Ha]; [|contradiction]. cbn. unfold store_msg.
      destruct (a =? msg) eqn:E; [apply Z.eqb_eq in E; contradiction|easy].
Qed.

(** C6.  When [interrupt(d)] finds process [d] not in a receive that
    accepts INTERRUPT, it sets the pending flag of [d] and does nothing
    else.  Whatever entries into the kernel follow, as long as [d] itself
    makes no receive with filter ANY or INTERRUPT, the flag stays set; and
    the next such receive by [d] returns to [d] at once: the system call
    hands back the caller's own stack pointer, [d] is still the current
    process, the ready queues are as they were, and of the process table
    only the flag (cleared) and the saved stack pointer of [d] have
    changed, so that no waiting sender has been looked at or taken.  The
    buffer, when there is one, carries sender HARDWARE and type INTERRUPT
    over the body it had. *)
Theorem no_lost_interrupt :
  forall (st st2 : kstate) (d : nat) (dd : proc) (psp insn type msg r2 : Z),
    Z.of_nat d < NPROCS -> os_ptable st !! d = Some dd ->
    pstate_eqb (p_state dd) RECEIVING
      && ((p_msgtype dd =? ANY) || (p_msgtype dd =? INTERRUPT)) = false ->
    runs_before_receive d
      (with_ptable (<[d := set_p_pending true dd]> (os_ptable st)) st) st2 ->
    os_current st2 = Some d ->
    Z.land insn 0xff = SYS_RECEIVE -> type = ANY \/ type = INTERRUPT ->
    interrupt (Z.of_nat d) st =
      Ok tt (with_ptable (<[d := set_p_pending true dd]> (os_ptable st)) st) /\
    exists dd2 st3,
      os_ptable st2 !! d = Some dd2 /\ p_pending dd2 = true /\
      system_call psp insn type msg r2 st2 = Ok psp st3 /\
      os_current st3 = Some d /\
      os_ptable st3 =
        <[d := set_p_pending false (set_p_sp psp dd2)]> (os_ptable st2) /\
      os_readyq st3 = os_readyq st2 /\
      (msg <> 0 ->
       msgmem st3 msg = mkmsg INTERRUPT HARDWARE (m_body (msgmem st2 msg))) /\
      (forall a, a <> msg \/ msg = 0 -> msgmem st3 a = msgmem st2 a).
Proof.
  intros st st2 d dd psp insn type msg r2 Hd Hdd Hacc Hruns Hcur Hop Ht.
  split; [now apply interrupt_sets_pending|].
  assert (HP : pending_at d st2).
  { eapply pending_runs; [exact Hruns|].
    exists (set_p_pending true dd). split; [|reflexivity].
    cbn. apply list_lookup_insert_eq. eapply lookup_lt_Some; eauto. }
  destruct HP as (dd2 & Hdd2 & Hp2).
  destruct (receive_call_pending st2 d dd2 psp insn type msg r2 Hcur Hdd2 Hp2 Hop Ht)
    as (mem' & Hcall & Hmsg & Hother).
  exists dd2. eexists. split; [exact Hdd2|]. split; [exact Hp2|].
  split; [exact Hcall|]. cbn. auto.
Qed.

End NoLostInterrupt.

(** ** Who runs after a wake-up *)

Section Wakeup.
Context {env : Env}.

(** A write that keeps [p_next] keeps every list. *)
Lemma lseg_update_keep ps h l j dj d' :
  lseg ps h l -> ps !! j = Some dj -> p_next d' = p_next dj ->
  lseg (<[j := d']> ps) h l.
Proof.
  intros H Hj Hn. induction H as [|i d l Hi Hl IH]; [constructor|].
  destruct (decide (i = j)) as [->|Hne].
  - econstructor.
    + apply list_lookup_insert_eq. eapply lookup_lt_Some; eauto.
    + rewrite Hn. congruence.
  - econstructor; [rewrite list_lookup_insert_ne; eauto | exact IH].
Qed.

Lemma is_queue_update_keep st k l j dj d' :
  is_queue st k l -> os_ptable st !! j = Some dj -> p_next d' = p_next dj ->
  is_queue (with_ptable (<[j := d']> (os_ptable st)) st) k l.
Proof.
  intros (q & Hq & Hl & Ht) Hj Hn. exists q. cbn.
  split; [exact Hq|]. split; [|exact Ht].
  eapply lseg_update_keep; eauto.
Qed.

Lemma is_queue_msgmem st k l mem' :
  is_queue st k l -> is_queue (with_msgmem mem' st) k l.
Proof. intros (q & Hq & Hl & Ht). exists q. auto. Qed.

Lemma is_queue_pendsv st k l b :
  is_queue st k l -> is_queue (with_pendsv b st) k l.
Proof. intros (q & Hq & Hl & Ht). exists q. auto. Qed.

Lemma set_state_ok st i di s type msg :
  os_ptable st !! i = Some di ->
  set_state (Some i) s type msg st =
  Ok tt (with_ptable
           (<[i := set_p_message msg (set_p_msgtype type (set_p_state s di))]>
              (os_ptable st)) st).
Proof.
  intros Hi. unfold set_state.
  assert (Hlt : (i < length (os_ptable st))%nat) by (eapply lookup_lt_Some; eauto).
  rewrite (bind_ok _ _ _ _ _ (update_ok _ _ _ _ Hi)).
  erewrite bind_ok; [|apply update_ok; cbn; apply list_lookup_insert_eq, Hlt].
  erewrite update_ok; [|cbn; rewrite list_insert_insert_eq;
                        apply list_lookup_insert_eq, Hlt].
  f_equal. unfold with_ptable; cbn. now rewrite !list_insert_insert_eq.
Qed.

Lemma waits_for_accept d type :
  waits_for d type ->
  pstate_eqb (p_state d) RECEIVING
    && ((p_msgtype d =? ANY) || (p_msgtype d =? type)) = true.
Proof.
  intros [Hs Ht]. rewrite Hs. cbn. apply orb_true_iff.
  destruct Ht as [->| ->]; [left|right]; apply Z.eqb_refl.
Qed.

(** Delivery followed by [make_ready]: the message is handed over and
    the receiver goes last on the ready queue of the given level. *)
Lemma wake_receiver st dn d buf src type msg k l :
  os_ptable st !! dn = Some d ->
  Z.of_nat k <> P_IDLE -> (k < 3)%nat ->
  is_queue st k l -> dn ∉ l ->
  exists st',
    (deliver buf src type msg ;; make_ready (Some dn) (Z.of_nat k)) st
      = Ok tt st' /\
    is_queue st' k (l ++ [dn]) /\
    os_current st' = os_current st /\
    (forall j, j <> dn -> last l <> Some j ->
               os_ptable st' !! j = os_ptable st !! j) /\
    (forall j, j <> k -> os_readyq st' !! j = os_readyq st !! j) /\
    os_ptable st' !! dn = Some (set_p_next None (set_p_state ACTIVE d)) /\
    pendsv st' = pendsv st /\ idle_proc st' = idle_proc st.
Proof.
  intros Hd Hidle Hk Hq Hnin.
  destruct (deliver_total buf src type msg st) as (mem' & Hdel & _).
  rewrite (bind_ok _ _ _ _ _ Hdel).
  destruct (make_ready_enqueues (with_msgmem mem' st) k l dn d Hidle Hk
              (is_queue_msgmem _ _ _ _ Hq) Hd Hnin)
    as (st' & Hmr & Hq' & Hd' & Hother & Hqs & Hst').
  exists st'. split; [exact Hmr|]. split; [exact Hq'|].
  rewrite Hst'. cbn. repeat split; auto.
Qed.

Lemma last_elem_of {A} (l : list A) x : last l = Some x -> x ∈ l.
Proof.
  intros H. destruct (decide (l = [])) as [->|Hne]; [discriminate|].
  destruct (last_snoc_inv l Hne) as (l' & t & -> & Hl).
  rewrite Hl in H. inversion H; subst. apply elem_of_app. right. constructor.
Qed.

(** The checks at the head of [mini_send] and [mini_sendrec] for a
    receiver that is waiting: no panic, and [accept] says yes. *)
Lemma dest_checks_pass st dn d type :
  Z.of_nat dn < NPROCS -> os_ptable st !! dn = Some d -> waits_for d type ->
  ptable_entry (Z.of_nat dn) st = Ok (Some dn) st /\
  bad_dest (Z.of_nat dn) (Some dn) st = Ok false st /\
  accept (Some dn) type st = Ok true st.
Proof.
  intros Hn Hd Hw.
  assert (Hlt : Z.of_nat dn < os_nprocs st).
  { apply lookup_lt_Some in Hd. unfold os_nprocs. lia. }
  split; [|split].
  - rewrite ptable_entry_ok by lia.
    replace (Z.of_nat dn <? os_nprocs st) with true by (symmetry; apply Z.ltb_lt; lia).
    now rewrite Nat2Z.id.
  - pose proof (bad_dest_in_table st (Z.of_nat dn) d) as Hb.
    rewrite Nat2Z.id in Hb. rewrite Hb by (lia || auto).
    destruct Hw as [-> _]. reflexivity.
  - rewrite (accept_ok _ _ _ type Hd). now rewrite waits_for_accept.
Qed.

(** [send] to a waiting receiver: the receiver is made ready and the
    system call returns to the sender. *)
Lemma send_call_wakes st cur c dn d psp insn type msg k l :
  os_current st = Some cur -> os_ptable st !! cur = Some c ->
  Z.land insn 0xff = SYS_SEND ->
  Z.of_nat dn < NPROCS -> os_ptable st !! dn = Some d -> waits_for d type ->
  cur <> dn ->
  p_priority d = Z.of_nat k -> Z.of_nat k <> P_IDLE -> (k < 3)%nat ->
  is_queue st k l -> dn ∉ l -> cur ∉ l ->
  exists st',
    system_call psp insn (Z.of_nat dn) type msg st = Ok psp st' /\
    os_current st' = Some cur /\
    is_queue st' k (l ++ [dn]) /\
    pendsv st' = pendsv st.
Proof.
  intros Hc Hcur Hop Hn Hd Hw Hne Hprio Hidle Hk Hq Hnin Hcnin.
  assert (Hclt : (cur < length (os_ptable st))%nat) by (eapply lookup_lt_Some; eauto).
  set (st1 := with_ptable (<[cur := set_p_sp psp c]> (os_ptable st)) st).
  assert (Hc1 : os_ptable st1 !! cur = Some (set_p_sp psp c)).
  { cbn. apply list_lookup_insert_eq, Hclt. }
  assert (Hd1 : os_ptable st1 !! dn = Some d).
  { cbn. rewrite list_lookup_insert_ne; auto. }
  assert (Hq1 : is_queue st1 k l).
  { eapply is_queue_update_keep; eauto. }
  destruct (dest_checks_pass st1 dn d type Hn Hd1 Hw) as (He & Hb & Ha).
  destruct (wake_receiver st1 dn d (p_message d) (p_pid (set_p_sp psp c)) type msg
              k l Hd1 Hidle Hk Hq1 Hnin)
    as (st' & Hwake & Hq' & Hcur' & Hother & _ & _ & Hpend & _).
  exists st'. split; [|split; [|split]]; auto.
  - unfold system_call.
    unfold current at 1. unfold bind at 1. rewrite Hc.
    rewrite (bind_ok _ _ _ _ _ (update_ok _ _ _ _ Hcur)). fold st1.
    rewrite Hop. cbn [SYS_SEND SYS_YIELD Z.eqb Pos.eqb].
    assert (Hsend : mini_send (Z.of_nat dn) type msg st1 = Ok tt st').
    { unfold mini_send. unfold current at 1. unfold bind at 1.
      change (os_current st1) with (os_current st). rewrite Hc.
      rewrite (bind_ok _ _ _ _ _ (deref_ok _ _ _ Hc1)).
      rewrite (bind_ok _ _ _ _ _ He).
      rewrite (bind_ok _ _ _ _ _ Hb).
      rewrite (bind_ok _ _ _ _ _ Ha).
      rewrite (bind_ok _ _ _ _ _ (deref_ok _ _ _ Hd1)).
      rewrite Hprio. exact Hwake. }
    rewrite (bind_ok _ _ _ _ _ Hsend).
    unfold current at 1. unfold bind at 1. rewrite Hcur'.
    change (os_current st1) with (os_current st). rewrite Hc.
    assert (Hc' : os_ptable st' !! cur = Some (set_p_sp psp c)).
    { rewrite Hother; auto. intros Hl. apply Hcnin. now apply last_elem_of. }
    now rewrite (bind_ok _ _ _ _ _ (deref_ok _ _ _ Hc')).
  - now rewrite Hcur'.
Qed.

Lemma bind_ok2 {A B} (m : K A) (n : K unit) (f : unit -> K B) st st' :
  (m ;; n) st = Ok tt st' -> (m ;; x <- n ;; f x) st = f tt st'.
Proof.
  unfold bind. destruct (m st) as [a s1| |]; try discriminate.
  destruct (n s1) as [[] s2| |]; try discriminate.
  intros H. inversion H; subst. reflexivity.
Qed.

Lemma lseg_ext ps ps' h l :
  lseg ps h l -> (forall j, j ∈ l -> ps' !! j = ps !! j) -> lseg ps' h l.
Proof.
  induction 1 as [|i d l Hi Hl IH]; intros Hsame; [constructor|].
  econstructor.
  - rewrite Hsame; [exact Hi | constructor].
  - apply IH. intros j Hj. apply Hsame. now constructor.
Qed.

Lemma is_queue_ext st st' k l :
  is_queue st k l -> os_readyq st' !! k = os_readyq st !! k ->
  (forall j, j ∈ l -> os_ptable st' !! j = os_ptable st !! j) ->
  is_queue st' k l.
Proof.
  intros (q & Hq & Hl & Ht) Hqs Hps. exists q.
  split; [congruence|]. split; [|exact Ht]. eapply lseg_ext; eauto.
Qed.

Lemma is_queue_head_valid st k h t :
  is_queue st k (h :: t) -> exists dh, os_ptable st !! h = Some dh.
Proof. intros (q & _ & Hl & _). inversion Hl; subst. eauto. Qed.

(** [sendrec] to a waiting receiver: the caller blocks for the reply and
    [choose_proc] picks who runs, the head of the first ready queue that
    is not empty. *)
Lemma sendrec_call_wakes st cur c dn d psp insn type msg k l :
  os_current st = Some cur -> os_ptable st !! cur = Some c ->
  Z.land insn 0xff = SYS_SENDREC ->
  Z.of_nat dn < NPROCS -> os_ptable st !! dn = Some d -> waits_for d type ->
  cur <> dn ->
  p_priority d = Z.of_nat k -> Z.of_nat k <> P_IDLE -> (k < 3)%nat ->
  is_queue st k l -> dn ∉ l -> cur ∉ l ->
  (forall j q x, (j < k)%nat -> os_readyq st !! j = Some q ->
                 q_head q = Some x -> is_Some (os_ptable st !! x)) ->
  exists j h sp st',
    (j <= k)%nat /\
    system_call psp insn (Z.of_nat dn) type msg st = Ok sp st' /\
    os_current st' = Some h /\
    (forall i q, (i < j)%nat -> os_readyq st !! i = Some q -> q_head q = None) /\
    ((j < k)%nat -> exists q, os_readyq st !! j = Some q /\ q_head q = Some h) /\
    (j = k -> head (l ++ [dn]) = Some h) /\
    exists c', os_ptable st' !! cur = Some c' /\ p_state c' = RECEIVING /\
               p_msgtype c' = REPLY /\ p_message c' = msg.
Proof.
  intros Hc Hcur Hop Hn Hd Hw Hne Hprio Hidle Hk Hq Hnin Hcnin Hvalid.
  assert (Hclt : (cur < length (os_ptable st))%nat) by (eapply lookup_lt_Some; eauto).
  set (c1 := set_p_sp psp c).
  set (st1 := with_ptable (<[cur := c1]> (os_ptable st)) st).
  assert (Hc1 : os_ptable st1 !! cur = Some c1).
  { cbn. apply list_lookup_insert_eq, Hclt. }
  assert (Hd1 : os_ptable st1 !! dn = Some d).
  { cbn. rewrite list_lookup_insert_ne; auto. }
  assert (Hq1 : is_queue st1 k l) by (eapply is_queue_update_keep; eauto).
  destruct (dest_checks_pass st1 dn d type Hn Hd1 Hw) as (He & Hb & Ha).
  destruct (wake_receiver st1 dn d (p_message d) (p_pid c1) type msg
              k l Hd1 Hidle Hk Hq1 Hnin)
    as (st2 & Hwake & Hq2 & Hcur2 & Hother & Hqs2 & Hd2 & _ & _).
  assert (Hc2 : os_ptable st2 !! cur = Some c1).
  { rewrite Hother; auto. intros Hl. apply Hcnin. now apply last_elem_of. }
  set (c3 := set_p_message msg (set_p_msgtype REPLY (set_p_state RECEIVING c1))).
  set (st3 := with_ptable (<[cur := c3]> (os_ptable st2)) st2).
  assert (Hq3 : is_queue st3 k (l ++ [dn])).
  { eapply is_queue_update_keep; eauto. }
  assert (Hc3 : os_ptable st3 !! cur = Some c3).
  { cbn. apply list_lookup_insert_eq. eapply lookup_lt_Some; eauto. }
  assert (Hsplit : exists h t, l ++ [dn] = h :: t).
  { destruct l as [|x l']; cbn; eauto. }
  destruct Hsplit as (h & t & Hht). rewrite Hht in Hq3.
  (* every process of the table is still one after the wake-up *)
  assert (Hstill : forall x, is_Some (os_ptable st !! x) ->
                             is_Some (os_ptable st3 !! x)).
  { intros x Hx.
    assert (H2 : is_Some (os_ptable st2 !! x)).
    { destruct (decide (x = dn)) as [->|Hxd]; [eauto|].
      destruct (decide (last l = Some x)) as [Hl|Hl].
      - destruct Hq2 as (q & _ & Hl2 & _).
        eapply lseg_valid; [exact Hl2|].
        apply elem_of_app. left. now apply last_elem_of.
      - rewrite Hother by auto. cbn.
        apply lookup_lt_is_Some. rewrite length_insert.
        now apply lookup_lt_is_Some. }
    cbn. apply lookup_lt_is_Some. rewrite length_insert.
    now apply lookup_lt_is_Some. }
  assert (Hvalid3 : forall j q x, (j < k)%nat -> os_readyq st3 !! j = Some q ->
                      q_head q = Some x -> is_Some (os_ptable st3 !! x)).
  { intros j q x Hj Hjq Hx. apply Hstill. apply (Hvalid j q x Hj); [|exact Hx].
    cbn in Hjq. rewrite Hqs2 in Hjq by lia. exact Hjq. }
  destruct (choose_proc_upto st3 k h t Hk Hq3 Hvalid3)
    as (j & hj & st4 & Hjk & Hch & Hcur4 & Hbelow & (qj & Hqj & Hhj) & Htab4 & Hat).
  assert (Hdh : exists dh, os_ptable st4 !! hj = Some dh).
  { rewrite Htab4.
    destruct (decide (j = k)) as [->|Hjne].
    - destruct (Hat eq_refl) as [-> _].
      eapply is_queue_head_valid; eauto.
    - apply (Hvalid3 j qj hj); auto. lia. }
  destruct Hdh as (dh & Hdh).
  exists j, hj, (p_sp dh), st4.
  split; [exact Hjk|].
  split; [|split; [exact Hcur4|split; [|split; [|split]]]].
  - unfold system_call.
    unfold current at 1. unfold bind at 1. rewrite Hc.
    rewrite (bind_ok _ _ _ _ _ (update_ok _ _ _ _ Hcur)). fold c1 st1.
    rewrite Hop. cbn [SYS_SENDREC SYS_RECEIVE SYS_SEND SYS_YIELD Z.eqb Pos.eqb].
    assert (Hcall : mini_sendrec (Z.of_nat dn) type msg st1 = Ok tt st4).
    { unfold mini_sendrec. unfold current at 1. unfold bind at 1.
      change (os_current st1) with (os_current st). rewrite Hc.
      rewrite (bind_ok _ _ _ _ _ (deref_ok _ _ _ Hc1)).
      rewrite (bind_ok _ _ _ _ _ He).
      rewrite (bind_ok _ _ _ _ _ Hb).
      rewrite (bind_ok _ _ _ _ _ Ha).
      erewrite bind_ok; [exact Hch|].
      rewrite (bind_ok _ _ _ _ _ (deref_ok _ _ _ Hd1)).
      rewrite Hprio. rewrite (bind_ok2 _ _ _ _ _ Hwake).
      now rewrite (set_state_ok _ _ _ _ _ _ Hc2). }
    rewrite (bind_ok _ _ _ _ _ Hcall).
    unfold current at 1. unfold bind at 1. rewrite Hcur4.
    now rewrite (bind_ok _ _ _ _ _ (deref_ok _ _ _ Hdh)).
  - intros i q Hi Hiq. apply (Hbelow i q Hi).
    cbn. rewrite Hqs2 by lia. exact Hiq.
  - intros Hlt. exists qj. split; [|exact Hhj].
    cbn in Hqj. rewrite Hqs2 in Hqj by lia. exact Hqj.
  - intros ->. destruct (Hat eq_refl) as [-> _]. now rewrite Hht.
  - exists c3. rewrite Htab4. split; [exact Hc3|]. now cbn.
Qed.

(** [interrupt] on a waiting handler while a process of priority number
    above 0 runs: the handler goes last on queue 0 and a reschedule is
    requested. *)
Lemma interrupt_wakes st cur c dn d l :
  P_HANDLER = 0 -> P_IDLE <> 0 ->
  os_current st = Some cur -> os_ptable st !! cur = Some c ->
  p_priority c > 0 ->
  Z.of_nat dn < NPROCS -> os_ptable st !! dn = Some d ->
  waits_for d INTERRUPT -> cur <> dn ->
  is_queue st 0 l -> dn ∉ l -> cur ∉ l ->
  exists st',
    interrupt (Z.of_nat dn) st = Ok tt st' /\
    pendsv st' = true /\
    is_queue st' 0 (l ++ [dn]) /\
    os_current st' = Some cur /\
    os_ptable st' !! cur = Some c /\
    (forall j, j <> dn -> last l <> Some j ->
               os_ptable st' !! j = os_ptable st !! j) /\
    (forall j, j <> 0%nat -> os_readyq st' !! j = os_readyq st !! j).
Proof.
  intros HH HI Hc Hcur Hprio Hn Hd Hw Hne Hq Hnin Hcnin.
  destruct (dest_checks_pass st dn d INTERRUPT Hn Hd Hw) as (He & _ & Ha).
  assert (HI0 : Z.of_nat 0 <> P_IDLE).
  { intros E. apply HI. now rewrite <- E. }
  assert (H03 : (0 < 3)%nat) by lia.
  destruct (wake_receiver st dn d (p_message d) HARDWARE INTERRUPT 0
              0%nat l Hd HI0 H03 Hq Hnin)
    as (st1 & Hwake & Hq1 & Hcur1 & Hother & Hqs & _ & _ & _).
  assert (Hc1 : os_ptable st1 !! cur = Some c).
  { rewrite Hother; auto. intros Hl. apply Hcnin. now apply last_elem_of. }
  exists (with_pendsv true st1).
  split; [|split; [reflexivity|split; [|split; [|split; [|split]]]]].
  - unfold interrupt.
    rewrite (bind_ok _ _ _ _ _ He).
    rewrite (bind_ok _ _ _ _ _ Ha).
    rewrite (bind_ok _ _ _ _ _ (deref_ok _ _ _ Hd)).
    rewrite HH. change 0 with (Z.of_nat 0) at 2.
    rewrite (bind_ok2 _ _ _ _ _ Hwake).
    unfold current at 1. unfold bind at 1. rewrite Hcur1, Hc.
    rewrite (bind_ok _ _ _ _ _ (deref_ok _ _ _ Hc1)).
    replace (p_priority c >? 0) with true; [reflexivity|].
    symmetry. apply Z.gtb_lt. lia.
  - now apply is_queue_pendsv.
  - cbn. now rewrite Hcur1.
  - exact Hc1.
  - exact Hother.
  - exact Hqs.
Qed.

(** A ready queue holds one list. *)
Lemma is_queue_functional st k l1 l2 :
  is_queue st k l1 -> is_queue st k l2 -> l1 = l2.
Proof.
  intros (q1 & Hq1 & Hl1 & _) (q2 & Hq2 & Hl2 & _).
  assert (q2 = q1) by congruence. subst q2.
  eapply lseg_functional; eauto.
Qed.

(** The context switch with queue 0 not empty: the interrupted process
    goes back on the queue of its own priority (the idle process on none)
    and the head of queue 0 runs, from the stack pointer it had saved. *)
Lemma cxt_switch_runs_head st cur c psp h t :
  os_current st = Some cur -> os_ptable st !! cur = Some c ->
  is_queue st 0 (h :: t) -> cur ∉ (h :: t) ->
  (p_priority c = P_IDLE \/
   exists kc lc,
     p_priority c = Z.of_nat kc /\ (0 < kc < 3)%nat /\ Z.of_nat kc <> P_IDLE /\
     is_queue st kc lc /\ (cur ∉ lc) /\ (forall x, x ∈ lc -> x ∉ (h :: t))) ->
  exists sp st' dh,
    cxt_switch psp st = Ok sp st' /\
    os_current st' = Some h /\
    is_queue st' 0 t /\
    os_ptable st !! h = Some dh /\ os_ptable st' !! h = Some dh /\ sp = p_sp dh /\
    (p_priority c = P_IDLE ->
     os_ptable st' !! cur = Some (set_p_sp psp c) /\
     forall j, j <> 0%nat -> os_readyq st' !! j = os_readyq st !! j) /\
    (forall kc lc,
       p_priority c = Z.of_nat kc -> Z.of_nat kc <> P_IDLE -> is_queue st kc lc ->
       is_queue st' kc (lc ++ [cur]) /\
       os_ptable st' !! cur
         = Some (set_p_next None (set_p_state ACTIVE (set_p_sp psp c)))).
Proof.
  intros Hc Hcur Hq0 Hcnin Hprio.
  assert (Hclt : (cur < length (os_ptable st))%nat) by (eapply lookup_lt_Some; eauto).
  set (c1 := set_p_sp psp c).
  set (st1 := with_ptable (<[cur := c1]> (os_ptable st)) st).
  assert (Hc1 : os_ptable st1 !! cur = Some c1).
  { cbn. apply list_lookup_insert_eq, Hclt. }
  assert (Hq01 : is_queue st1 0 (h :: t)) by (eapply is_queue_update_keep; eauto).
  destruct (is_queue_head_valid _ _ _ _ Hq0) as (dh & Hdh).
  assert (Hhc : h <> cur).
  { intros ->. apply Hcnin. apply list_elem_of_here. }
  assert (Hdh1 : os_ptable st1 !! h = Some dh).
  { cbn. rewrite list_lookup_insert_ne by auto. exact Hdh. }
  assert (Hready : exists st2,
            make_ready (Some cur) (p_priority c1) st1 = Ok tt st2 /\
            is_queue st2 0 (h :: t) /\ os_current st2 = Some cur /\
            os_ptable st2 !! h = Some dh /\
            (p_priority c = P_IDLE -> st2 = st1) /\
            (forall kc lc,
               p_priority c = Z.of_nat kc -> Z.of_nat kc <> P_IDLE ->
               is_queue st kc lc ->
               kc <> 0%nat /\ is_queue st2 kc (lc ++ [cur]) /\
               os_ptable st2 !! cur = Some (set_p_next None (set_p_state ACTIVE c1)))).
  { destruct Hprio as [Hidle|(kc & lc & Hkc & Hrange & Hnidle & Hqk & Hclc & Hdisj)].
    - exists st1. cbn [c1 set_p_sp p_priority]. rewrite Hidle.
      split; [apply make_ready_idle|]. split; [exact Hq01|].
      split; [exact Hc|]. split; [exact Hdh1|]. split; [reflexivity|].
      intros kc lc Hkc Hn _. congruence.
    - assert (Hqk1 : is_queue st1 kc lc) by (eapply is_queue_update_keep; eauto).
      destruct (make_ready_enqueues st1 kc lc cur c1 Hnidle ltac:(lia) Hqk1 Hc1 Hclc)
        as (st2 & Hmr & Hqk2 & Hc2 & Hother & Hqs & Hst2).
      exists st2. cbn [c1 set_p_sp p_priority]. rewrite Hkc.
      split; [exact Hmr|]. split; [|split; [|split; [|split]]].
      + eapply is_queue_ext; [exact Hq01| |].
        * apply Hqs. lia.
        * intros j Hj. apply Hother.
          -- intros ->. contradiction.
          -- intros Hl. apply last_elem_of in Hl. apply (Hdisj j Hl Hj).
      + rewrite Hst2. exact Hc.
      + rewrite Hother; [exact Hdh1|exact Hhc|].
        intros Hl. apply last_elem_of in Hl.
        apply (Hdisj h Hl). apply list_elem_of_here.
      + intros E. congruence.
      + intros kc' lc' Hkc' _ Hqk'.
        assert (kc' = kc) by (apply Nat2Z.inj; congruence). subst kc'.
        assert (lc' = lc) by (eapply is_queue_functional; eauto). subst lc'.
        split; [lia|]. split; [exact Hqk2|exact Hc2]. }
  destruct Hready as (st2 & Hmr & Hq02 & Hcur2 & Hdh2 & Hidle2 & Hown2).
  assert (Hnone : forall j q, (j < 0)%nat -> os_readyq st2 !! j = Some q ->
                              q_head q = None) by (intros; lia).
  destruct (choose_proc_first st2 0%nat h t ltac:(lia) Hnone Hq02)
    as (st3 & Hch & Hcur3 & Hq3 & Htab3 & Hqs3 & _).
  assert (Hdh3 : os_ptable st3 !! h = Some dh) by (rewrite Htab3; exact Hdh2).
  exists (p_sp dh), st3, dh.
  split; [|split; [exact Hcur3|split; [exact Hq3|split; [exact Hdh|split;
    [exact Hdh3|split; [reflexivity|split]]]]]].
  - unfold cxt_switch.
    unfold current at 1. unfold bind at 1. rewrite Hc.
    rewrite (bind_ok _ _ _ _ _ (update_ok _ _ _ _ Hcur)). fold c1 st1.
    rewrite (bind_ok _ _ _ _ _ (deref_ok _ _ _ Hc1)).
    rewrite (bind_ok _ _ _ _ _ Hmr).
    rewrite (bind_ok _ _ _ _ _ Hch).
    unfold current at 1. unfold bind at 1. rewrite Hcur3.
    now rewrite (bind_ok _ _ _ _ _ (deref_ok _ _ _ Hdh3)).
  - intros Hi. specialize (Hidle2 Hi). subst st2.
    split; [rewrite Htab3; exact Hc1|].
    intros j Hj. rewrite Hqs3 by exact Hj. reflexivity.
  - intros kc lc Hkc Hn Hqk.
    destruct (Hown2 kc lc Hkc Hn Hqk) as (Hk0 & Hqk2 & Hc2).
    split; [|rewrite Htab3; exact Hc2].
    eapply is_queue_ext; [exact Hqk2|now apply Hqs3|].
    intros j _. now rewrite Htab3.
Qed.

(** C4, as the code has it.  A process [dn] waits in a receive and the
    running process [cur] wakes it.

    - By [send]: the receiver goes last on the ready queue of its priority
      and the system call returns to the sender, which stays
      [os_current], whatever the two priorities are.
    - By [sendrec]: the caller blocks in RECEIVING for the REPLY and
      [choose_proc] runs the head of the first ready queue that is not
      empty, which is the queue of the receiver's level or one above it;
      with nothing ready at those levels before, it is the receiver.
    - By [interrupt], the running process having a priority number above
      0: a reschedule is requested, and the context switch that follows
      runs the head [h] of queue 0, the handler itself when that queue
      was empty, returning the stack pointer that [h] had saved; it puts
      the interrupted process, its stack pointer saved, last on the ready
      queue of its own priority, and on no queue if that is the idle
      priority, its descriptor then changed in [p_sp] alone and the
      ready queues of the levels other than 0 left as they were. *)
Theorem wakeup_scheduling :
  forall (st : kstate) (cur dn : nat) (c d : proc)
         (psp insn type msg : Z) (k : nat) (l : list nat),
    os_current st = Some cur -> os_ptable st !! cur = Some c ->
    Z.of_nat dn < NPROCS -> os_ptable st !! dn = Some d -> cur <> dn ->
    (* send *)
    (Z.land insn 0xff = SYS_SEND -> waits_for d type ->
     p_priority d = Z.of_nat k -> Z.of_nat k <> P_IDLE -> (k < 3)%nat ->
     is_queue st k l -> dn ∉ l -> cur ∉ l ->
     exists st',
       system_call psp insn (Z.of_nat dn) type msg st = Ok psp st' /\
       os_current st' = Some cur /\
       is_queue st' k (l ++ [dn]) /\
       pendsv st' = pendsv st) /\
    (* sendrec *)
    (Z.land insn 0xff = SYS_SENDREC -> waits_for d type ->
     p_priority d = Z.of_nat k -> Z.of_nat k <> P_IDLE -> (k < 3)%nat ->
     is_queue st k l -> dn ∉ l -> cur ∉ l ->
     (forall j q x, (j < k)%nat -> os_readyq st !! j = Some q ->
                    q_head q = Some x -> is_Some (os_ptable st !! x)) ->
     exists j h sp st',
       (j <= k)%nat /\
       system_call psp insn (Z.of_nat dn) type msg st = Ok sp st' /\
       os_current st' = Some h /\
       (forall i q, (i < j)%nat -> os_readyq st !! i = Some q ->
                    q_head q = None) /\
       ((j < k)%nat ->
        exists q, os_readyq st !! j = Some q /\ q_head q = Some h) /\
       (j = k -> head (l ++ [dn]) = Some h) /\
       exists c', os_ptable st' !! cur = Some c' /\ p_state c' = RECEIVING /\
                  p_msgtype c' = REPLY /\ p_message c' = msg) /\
    (* interrupt *)
    (P_HANDLER = 0 -> P_IDLE <> 0 -> p_priority c > 0 ->
     waits_for d INTERRUPT -> is_queue st 0 l -> dn ∉ l -> cur ∉ l ->
     (p_priority c = P_IDLE \/
      exists kc lc,
        p_priority c = Z.of_nat kc /\ (0 < kc < 3)%nat /\
        Z.of_nat kc <> P_IDLE /\ is_queue st kc lc /\
        (cur ∉ lc) /\ (dn ∉ lc) /\ (forall x, x ∈ lc -> x ∉ l)) ->
     exists st1 h t sp st2 dh,
       interrupt (Z.of_nat dn) st = Ok tt st1 /\
       pendsv st1 = true /\ os_current st1 = Some cur /\
       l ++ [dn] = h :: t /\
       cxt_switch psp st1 = Ok sp st2 /\
       os_current st2 = Some h /\
       is_queue st2 0 t /\
       os_ptable st1 !! h = Some dh /\ os_ptable st2 !! h = Some dh /\
       sp = p_sp dh /\
       (p_priority c = P_IDLE ->
        os_ptable st2 !! cur = Some (set_p_sp psp c) /\
        forall j, j <> 0%nat -> os_readyq st2 !! j = os_readyq st !! j) /\
       (forall kc lc,
          p_priority c = Z.of_nat kc -> Z.of_nat kc <> P_IDLE ->
          is_queue st kc lc ->
          is_queue st2 kc (lc ++ [cur]) /\
          os_ptable st2 !! cur
            = Some (set_p_next None (set_p_state ACTIVE (set_p_sp psp c))))).
Proof.
  intros st cur dn c d psp insn type msg k l Hc Hcur Hn Hd Hne.
  split; [|split].
  - intros Hop Hw Hprio Hidle Hk Hq Hnin Hcnin.
    eapply send_call_wakes; eauto.
  - intros Hop Hw Hprio Hidle Hk Hq Hnin Hcnin Hempty.
    eapply sendrec_call_wakes; eauto.
  - intros HH HI Hprio Hw Hq Hnin Hcnin Hown.
    destruct (interrupt_wakes st cur c dn d l HH HI Hc Hcur Hprio Hn Hd Hw Hne
                Hq Hnin Hcnin)
      as (st1 & Hint & Hpend & Hq1 & Hcur1 & Hc1 & Hother & Hqs).
    assert (Hsplit : exists h t, l ++ [dn] = h :: t).
    { destruct l as [|x l']; cbn; eauto. }
    destruct Hsplit as (h & t & Hht). rewrite Hht in Hq1.
    assert (Hcht : cur ∉ (h :: t)).
    { rewrite <- Hht. intros Hin. apply elem_of_app in Hin as [Hin|Hin];
        [contradiction|]. apply list_elem_of_singleton in Hin. contradiction. }
    assert (Hkeep : forall kc lc,
              kc <> 0%nat -> is_queue st kc lc -> dn ∉ lc ->
              (forall x, x ∈ lc -> x ∉ l) -> is_queue st1 kc lc).
    { intros kc lc Hk0 Hqk Hdlc Hdisj.
      eapply is_queue_ext; [exact Hqk| |].
      - now apply Hqs.
      - intros j Hj. apply Hother.
        + intros ->. contradiction.
        + intros Hl. apply last_elem_of in Hl. apply (Hdisj j Hj Hl). }
    assert (Hown1 : p_priority c = P_IDLE \/
              exists kc lc,
                p_priority c = Z.of_nat kc /\ (0 < kc < 3)%nat /\
                Z.of_nat kc <> P_IDLE /\ is_queue st1 kc lc /\
                (cur ∉ lc) /\ (forall x, x ∈ lc -> x ∉ (h :: t))).
    { destruct Hown as [Hi|(kc & lc & Hkc & Hr & Hni & Hqk & Hclc & Hdlc & Hdisj)];
        [now left|right].
      exists kc, lc. repeat split; auto; try lia.
      - apply Hkeep; auto. lia.
      - intros x Hx. rewrite <- Hht. intros Hin.
        apply elem_of_app in Hin as [Hin|Hin]; [apply (Hdisj x Hx Hin)|].
        apply list_elem_of_singleton in Hin. subst x. contradiction. }
    destruct (cxt_switch_runs_head st1 cur c psp h t Hcur1 Hc1 Hq1 Hcht Hown1)
      as (sp & st2 & dh & Hsw & Hcur2 & Hq2 & Hdh1 & Hdh2 & Hsp & Hidle2 & Hown2).
    exists st1, h, t, sp, st2, dh.
    split; [exact Hint|]. split; [exact Hpend|]. split; [exact Hcur1|].
    split; [exact Hht|]. split; [exact Hsw|]. split; [exact Hcur2|].
    split; [exact Hq2|]. split; [exact Hdh1|]. split; [exact Hdh2|].
    split; [exact Hsp|]. split.
    + intros Hi. destruct (Hidle2 Hi) as [G1 G2]. split; [exact G1|].
      intros j Hj. rewrite G2 by exact Hj. now apply Hqs.
    + intros kc lc Hkc Hni Hqk.
      destruct Hown as [Hi|(kc0 & lc0 & Hkc0 & Hr & _ & Hqk0 & _ & Hdlc & Hdisj)].
      { congruence. }
      assert (kc = kc0) by (apply Nat2Z.inj; congruence). subst kc0.
      assert (lc0 = lc) by (eapply is_queue_functional; eauto). subst lc0.
      apply Hown2; [exact Hkc|exact Hni|]. apply Hkeep; auto. lia.
Qed.

End Wakeup.

(** ** Process creation *)

Section Creation.
Context {env : Env}.

Lemma roundup_8 x : roundup x 8 = 8 * ((x + 7) / 8).
Proof.
  unfold roundup. change (x + (8 - 1)) with (x + 7).
  change (Z.lnot (8 - 1)) with (Z.lnot (Z.ones 3)).
  rewrite <- Z.ldiff_land, Z.ldiff_ones_r by lia.
  rewrite Z.shiftr_div_pow2, Z.shiftl_mul_pow2 by lia.
  change (2 ^ 3) with 8. lia.
Qed.

Lemma roundup_8_bounds x : 0 <= x -> x <= roundup x 8 < x + 8.
Proof.
  intros H. rewrite roundup_8.
  pose proof (Z.div_mod (x + 7) 8 ltac:(lia)).
  pose proof (Z.mod_pos_bound (x + 7) 8 ltac:(lia)). lia.
Qed.

Lemma as_unsigned_small x : 0 <= x < 2 ^ 32 -> as_unsigned x = x.
Proof. intros H. unfold as_unsigned. now apply Z.mod_small. Qed.

Lemma as_int_small x : 0 <= x < 2 ^ 31 -> as_int x = x.
Proof.
  intros H. unfold as_int. rewrite Z.mod_small; lia.
Qed.

(** What [fill_words] leaves in memory. *)
Lemma fill_words_spec n a v mem a' :
  fill_words n a v mem a' =
  if (a <=? a') && (a' <? a + 4 * Z.of_nat n) && ((a' - a) mod 4 =? 0)
  then v else mem a'.
Proof.
  revert a mem. induction n as [|n IH]; intros a mem.
  - cbn [fill_words].
    replace ((a <=? a') && (a' <? a + 4 * Z.of_nat 0)) with false; [easy|].
    symmetry. apply andb_false_iff.
    destruct (Z.leb_spec a a'); [right; apply Z.ltb_ge; lia | now left].
  - cbn [fill_words]. rewrite IH. unfold store_word.
    destruct (Z.eqb_spec a' a) as [->|Hne].
    + replace (a - a) with 0 by lia. cbn.
      rewrite Z.leb_refl.
      replace (a <? a + 4 * Z.of_nat (S n)) with true by (symmetry; apply Z.ltb_lt; lia).
      cbn.
      destruct ((a + 4 <=? a) && (a <? a + 4 + 4 * Z.of_nat n)
                && ((a - (a + 4)) mod 4 =? 0)); reflexivity.
    + replace ((a' - (a + 4)) mod 4) with ((a' - a) mod 4).
      2:{ replace (a' - (a + 4)) with (a' - a + (-1) * 4) by lia.
          now rewrite Z.mod_add by lia. }
      destruct ((a' - a) mod 4 =? 0) eqn:Em.
      * apply Z.eqb_eq in Em.
        rewrite !andb_true_r.
        assert (a < a' -> a + 4 <= a').
        { intros Hlt.
          pose proof (Z.div_mod (a' - a) 4 ltac:(lia)). lia. }
        destruct (Z.leb_spec (a + 4) a'), (Z.leb_spec a a'),
                 (Z.ltb_spec a' (a + 4 + 4 * Z.of_nat n)),
                 (Z.ltb_spec a' (a + 4 * Z.of_nat (S n))); cbn; try reflexivity; lia.
      * now rewrite !andb_false_r.
Qed.

Lemma init_proc_ok st name size :
  os_nprocs st < NPROCS -> 0 <= size < 2 ^ 31 ->
  sizeof_proc + size <= __break2 st - __break st < 2 ^ 32 ->
  init_proc name size st =
  Ok (Some (length (os_ptable st)))
     (with_ptable
        (os_ptable st ++
         [mkproc (os_nprocs st) (name15 name) ACTIVE (__break st + size)
                 (__break st) size P_LOW None false ANY 0 None])
        (with_ram
           (fill_words (Z.to_nat ((size + 3) / 4)) (__break st) BLANK (ram st))
           (with_break (__break st + size)
              (with_break2 (__break2 st - sizeof_proc) st)))).
Proof.
  intros Hn Hs Hroom.
  unfold init_proc, new_proc, sbrk, bind, get, modify, ret, panic.
  replace (os_nprocs st >=? NPROCS) with false
    by (symmetry; rewrite Z.geb_leb; apply Z.leb_gt; lia).
  rewrite as_unsigned_small by (unfold sizeof_proc in *; lia).
  replace (__break2 st - __break st <? sizeof_proc) with false
    by (symmetry; apply Z.ltb_ge; unfold sizeof_proc in *; lia).
  cbn [__break __break2 with_break2 with_break].
  rewrite as_int_small by lia.
  replace (size >? __break2 st - sizeof_proc - __break st) with false
    by (symmetry; rewrite Z.gtb_ltb; apply Z.ltb_ge; lia).
  cbn. unfold os_nprocs. rewrite Nat2Z.id. reflexivity.
Qed.

Ltac eqb_cases :=
  repeat match goal with
         | |- context [?a =? ?b] => destruct (Z.eqb_spec a b); try lia
         end.

(** The frame words written by [start], read back. *)
Lemma frame_words sp body arg mem :
  let mem' :=
    store_word (sp + 4 * R0_SAVE) (as_unsigned arg)
      (store_word (sp + 4 * LR_SAVE) (as_unsigned exit_addr)
         (store_word (sp + 4 * PC_SAVE)
            (Z.land (as_unsigned body) (as_unsigned (Z.lnot 1)))
            (store_word (sp + 4 * PSR_SAVE) INIT_PSR
               (fill_words 16 sp 0 mem)))) in
  mem' (sp + 4 * PSR_SAVE) = INIT_PSR /\
  mem' (sp + 4 * PC_SAVE) = Z.land (as_unsigned body) (as_unsigned (Z.lnot 1)) /\
  mem' (sp + 4 * LR_SAVE) = as_unsigned exit_addr /\
  mem' (sp + 4 * R0_SAVE) = as_unsigned arg /\
  (forall i, 0 <= i < 16 -> i <> R0_SAVE -> i <> LR_SAVE -> i <> PC_SAVE ->
             i <> PSR_SAVE -> mem' (sp + 4 * i) = 0) /\
  (forall a, a < sp \/ sp + 64 <= a -> mem' a = mem a).
Proof.
  intros mem'. unfold mem', store_word, R0_SAVE, LR_SAVE, PC_SAVE, PSR_SAVE.
  repeat split.
  - eqb_cases; reflexivity.
  - eqb_cases; reflexivity.
  - eqb_cases; reflexivity.
  - eqb_cases; reflexivity.
  - intros i Hi H8 H13 H14 H15.
    eqb_cases.
    rewrite fill_words_spec.
    replace (sp + 4 * i - sp) with (i * 4) by lia. rewrite Z.mod_mul by lia.
    replace ((sp <=? sp + 4 * i) && (sp + 4 * i <? sp + 4 * Z.of_nat 16)) with true;
      [reflexivity|].
    symmetry. apply andb_true_iff. split; [apply Z.leb_le | apply Z.ltb_lt]; lia.
  - intros a Ha.
    eqb_cases.
    rewrite fill_words_spec.
    replace ((sp <=? a) && (a <? sp + 4 * Z.of_nat 16)) with false; [reflexivity|].
    symmetry. apply andb_false_iff.
    destruct Ha; [left; apply Z.leb_gt | right; apply Z.ltb_ge]; lia.
Qed.

Lemma thumb_bit_set : Z.testbit INIT_PSR 24 = true.
Proof. reflexivity. Qed.

Lemma pc_bit0_clear body :
  Z.testbit (Z.land (as_unsigned body) (as_unsigned (Z.lnot 1))) 0 = false.
Proof. rewrite Z.land_spec. apply andb_false_iff. now right. Qed.

Lemma pc_other_bits body i :
  0 < i < 32 ->
  Z.testbit (Z.land (as_unsigned body) (as_unsigned (Z.lnot 1))) i
  = Z.testbit (as_unsigned body) i.
Proof.
  intros Hi. rewrite Z.land_spec.
  replace (Z.testbit (as_unsigned (Z.lnot 1)) i) with true;
    [apply andb_true_r|].
  symmetry. unfold as_unsigned.
  rewrite Z.mod_pow2_bits_low by lia.
  rewrite Z.lnot_spec by lia.
  replace i with (Z.succ (i - 1)) by lia.
  change 1 with (2 * 0 + 1) at 1. rewrite Z.testbit_odd_succ by lia.
  now rewrite Z.bits_0.
Qed.

Lemma bind_modify {B} (f : kstate -> kstate) (g : unit -> K B) st :
  (x <- modify f ;; g x) st = g tt (f st).
Proof. reflexivity. Qed.

(** C8, for a stack that has room for the frame.  A call of [start] made
    before the scheduler runs, with room in the process table and in the
    arena, and with a stack of at least 64 bytes once its size is rounded
    up: it returns the PID of the new process, which is its index in the
    table.  [init_proc] has filled the whole stack region with BLANK; of
    that, [start] overwrites the 16 words below the top of the stack,
    which lie within the region, with the exception frame: PSR with the
    Thumb bit, PC the address of the body with bit 0 cleared, LR the
    address of [exit], R0 the argument, zero elsewhere.  The saved stack
    pointer is the address of the frame, and the process is ACTIVE and
    last on the ready queue of its priority, [P_LOW]. *)
Theorem start_creates_process :
  forall (st : kstate) (name : string) (body arg stksize : Z)
         (k : nat) (l : list nat),
    os_current st = None ->
    os_nprocs st < NPROCS ->
    0 <= stksize < 2 ^ 31 - 8 ->
    sizeof_proc + roundup stksize 8 <= __break2 st - __break st < 2 ^ 32 ->
    64 <= roundup stksize 8 ->
    P_LOW = Z.of_nat k -> (k < 3)%nat -> P_LOW <> P_IDLE ->
    is_queue st k l ->
    let pid := os_nprocs st in
    let size := roundup stksize 8 in
    let stack := __break st in
    let sp := stack + size - 64 in
    (exists p st1,
       init_proc name (as_unsigned size) st = Ok p st1 /\
       forall a, stack <= a < stack + size -> (a - stack) mod 4 = 0 ->
                 ram st1 a = BLANK) /\
    exists st',
      start name body arg stksize st = Ok pid st' /\
      os_nprocs st' = pid + 1 /\
      (exists d,
         os_ptable st' !! Z.to_nat pid = Some d /\ p_pid d = pid /\
         p_state d = ACTIVE /\ p_priority d = P_LOW /\
         p_stack d = stack /\ p_stksize d = size /\ p_sp d = sp) /\
      stack <= sp /\ sp + 4 * 16 = stack + size /\
      (forall a, stack <= a < sp ->
                 (a - stack) mod 4 = 0 -> ram st' a = BLANK) /\
      ram st' (sp + 4 * PSR_SAVE) = INIT_PSR /\
      Z.testbit (ram st' (sp + 4 * PSR_SAVE)) 24 = true /\
      ram st' (sp + 4 * PC_SAVE)
        = Z.land (as_unsigned body) (as_unsigned (Z.lnot 1)) /\
      Z.testbit (ram st' (sp + 4 * PC_SAVE)) 0 = false /\
      (forall i, 0 < i < 32 ->
                 Z.testbit (ram st' (sp + 4 * PC_SAVE)) i
                 = Z.testbit (as_unsigned body) i) /\
      ram st' (sp + 4 * LR_SAVE) = as_unsigned exit_addr /\
      ram st' (sp + 4 * R0_SAVE) = as_unsigned arg /\
      (forall i, 0 <= i < 16 -> i <> R0_SAVE -> i <> LR_SAVE ->
                 i <> PC_SAVE -> i <> PSR_SAVE -> ram st' (sp + 4 * i) = 0) /\
      is_queue st' k (l ++ [Z.to_nat pid]).
Proof.
  intros st name body arg stksize k l Hcur Hn Hsz Hroom Hframe Hlow Hk Hidle Hq
         pid size stack sp.
  fold size in Hframe.
  pose proof (roundup_8_bounds stksize ltac:(lia)) as Hrb. fold size in Hrb.
  pose proof (roundup_8 stksize) as Hr8. fold size in Hr8.
  assert (Hsize : 0 <= size < 2 ^ 31) by lia.
  assert (Hun : as_unsigned size = size) by (apply as_unsigned_small; lia).
  set (n := length (os_ptable st)).
  assert (Hpid : Z.to_nat pid = n) by (unfold pid, os_nprocs; apply Nat2Z.id).
  pose proof (init_proc_ok st name size Hn Hsize Hroom) as Hinit.
  fold n pid stack in Hinit.
  set (newd := mkproc pid (name15 name) ACTIVE (stack + size) stack size P_LOW
                      None false ANY 0 None) in *.
  set (mem1 := fill_words (Z.to_nat ((size + 3) / 4)) stack BLANK (ram st)) in *.
  assert (Hblank : forall a, stack <= a < stack + size -> (a - stack) mod 4 = 0 ->
                             mem1 a = BLANK).
  { intros a Ha Hm. unfold mem1. rewrite fill_words_spec.
    rewrite Z2Nat.id by (apply Z.div_pos; lia).
    replace ((size + 3) / 4) with (2 * ((stksize + 7) / 8)).
    2:{ rewrite Hr8.
        replace (8 * ((stksize + 7) / 8) + 3) with (3 + (2 * ((stksize + 7) / 8)) * 4) by lia.
        rewrite Z.div_add by lia. reflexivity. }
    replace ((stack <=? a) && (a <? stack + 4 * (2 * ((stksize + 7) / 8)))) with true.
    - apply Z.eqb_eq in Hm. now rewrite Hm.
    - symmetry. apply andb_true_iff. split; [apply Z.leb_le | apply Z.ltb_lt]; lia. }
  split.
  { rewrite Hun. do 2 eexists. split; [exact Hinit|]. exact Hblank. }
  set (st1 := with_ptable (os_ptable st ++ [newd])
                (with_ram mem1 (with_break (stack + size)
                   (with_break2 (__break2 st - sizeof_proc) st)))) in *.
  assert (Hnew : os_ptable st1 !! n = Some newd).
  { cbn. unfold n. apply list_lookup_middle. reflexivity. }
  set (mem2 :=
    store_word (sp + 4 * R0_SAVE) (as_unsigned arg)
      (store_word (sp + 4 * LR_SAVE) (as_unsigned exit_addr)
         (store_word (sp + 4 * PC_SAVE)
            (Z.land (as_unsigned body) (as_unsigned (Z.lnot 1)))
            (store_word (sp + 4 * PSR_SAVE) INIT_PSR
               (fill_words 16 sp 0 mem1))))).
  set (st2 := with_ptable (<[n := set_p_sp sp newd]> (os_ptable st1))
                          (with_ram mem2 st1)).
  assert (Hq2 : is_queue st2 k l).
  { eapply is_queue_ext; [exact Hq|reflexivity|].
    intros j Hj. destruct Hq as (q & _ & Hl & _).
    destruct (lseg_valid _ _ _ j Hl Hj) as [dj Hdj].
    assert (j < n)%nat by (eapply lookup_lt_Some; eauto).
    cbn. rewrite list_lookup_insert_ne by lia.
    now apply lookup_app_l. }
  assert (Hnin : n ∉ l).
  { intros Hin. destruct Hq as (q & _ & Hl & _).
    destruct (lseg_valid _ _ _ n Hl Hin) as [dj Hdj].
    apply lookup_lt_Some in Hdj. unfold n in Hdj. lia. }
  assert (Hnew2 : os_ptable st2 !! n = Some (set_p_sp sp newd)).
  { cbn. apply list_lookup_insert_eq. rewrite length_app. cbn. unfold n. lia. }
  assert (Hidle' : Z.of_nat k <> P_IDLE) by congruence.
  destruct (make_ready_enqueues st2 k l n (set_p_sp sp newd) Hidle' Hk Hq2 Hnew2 Hnin)
    as (st' & Hmr & Hq' & Hd' & Hother & Hqs & Hst').
  assert (Hram : ram st' = mem2) by (rewrite Hst'; reflexivity).
  assert (Hlen : length (os_ptable st') = S n).
  { assert (Hlen2 : length (os_ptable st2) = S n).
    { cbn. rewrite length_insert, length_app. cbn. unfold n. lia. }
    destruct (decide (length (os_ptable st') = S n)) as [E|E]; [exact E|].
    exfalso. apply E. clear E.
    assert (os_ptable st' !! S n = None).
    { rewrite Hother.
      - apply lookup_ge_None. lia.
      - lia.
      - intros Hl. apply last_elem_of in Hl.
        destruct Hq2 as (q & _ & Hl2 & _).
        destruct (lseg_valid _ _ _ _ Hl2 Hl) as [dj Hdj].
        apply lookup_lt_Some in Hdj. lia. }
    apply lookup_ge_None in H. apply lookup_lt_Some in Hd'. lia. }
  destruct (frame_words sp body arg mem1) as (F1 & F2 & F3 & F4 & F5 & F6).
  fold mem2 in F1, F2, F3, F4, F5, F6.
  exists st'. rewrite Hpid, Hram.
  split; [|split; [|split; [|split; [|split; [|split; [|split; [|split; [|split;
    [|split; [|split; [|split; [|split; [|split]]]]]]]]]]]]]; auto.
  - unfold start. fold size. rewrite Hun.
    rewrite (bind_ok _ _ _ _ _ Hinit). fold st1.
    unfold current at 1. unfold bind at 1.
    change (os_current st1) with (os_current st). rewrite Hcur.
    rewrite (bind_ok _ _ _ _ _ (deref_ok _ _ _ Hnew)).
    rewrite !bind_modify.
    erewrite bind_ok; [|apply update_ok; exact Hnew].
    change (p_sp newd - 4 * 16) with sp.
    change (p_priority newd) with P_LOW. rewrite Hlow.
    erewrite bind_ok; [reflexivity|]. exact Hmr.
  - unfold pid, os_nprocs. rewrite Hlen. unfold n. lia.
  - eexists. split; [exact Hd'|]. cbn. repeat split; reflexivity.
  - unfold sp. lia.
  - unfold sp. lia.
  - intros a Ha Hm. rewrite F6 by lia. apply Hblank; [unfold sp in Ha; lia|exact Hm].
  - rewrite F1. apply thumb_bit_set.
  - rewrite F2. apply pc_bit0_clear.
  - intros i Hi. rewrite F2. now apply pc_other_bits.
Qed.

End Creation.

(** ** Taking a sender off the queue *)

Section Receive.
Context {env : Env}.

(** [mini_receive] up to the walk along the sender queue, when no
    interrupt is pending for the filter and the filter is not INTERRUPT. *)
Lemma mini_receive_walks st cur c type msg :
  os_current st = Some cur -> os_ptable st !! cur = Some c ->
  p_pending c && ((type =? ANY) || (type =? INTERRUPT)) = false ->
  type <> INTERRUPT ->
  mini_receive type msg st =
  (taken <- take_sender (S (length (os_ptable st))) type msg (p_waiting c) None ;;
   if taken then ret tt
   else set_state (Some cur) RECEIVING type msg ;; choose_proc) st.
Proof.
  intros Hc Hcur Hpend Ht. unfold mini_receive.
  unfold current at 1. unfold bind at 1. rewrite Hc.
  rewrite (bind_ok _ _ _ _ _ (deref_ok _ _ _ Hcur)). rewrite Hpend.
  replace (type =? INTERRUPT) with false by (symmetry; now apply Z.eqb_neq).
  cbn [negb]. unfold bind, get. reflexivity.
Qed.

Lemma filter_matches type t :
  type = ANY \/ t = type -> (type =? ANY) || (t =? type) = true.
Proof.
  intros [->| ->]; apply orb_true_iff; [left|right]; apply Z.eqb_refl.
Qed.

Lemma filter_differs type t :
  type <> ANY -> t <> type -> (type =? ANY) || (t =? type) = false.
Proof.
  intros H1 H2. apply orb_false_iff. split; now apply Z.eqb_neq.
Qed.

(** C1, as the code has it.  The receiver [cur] takes the sender [s] at
    the head of its queue, [s] being in state SENDREC.  The message is
    delivered and [s] leaves the queue for state RECEIVING with filter
    REPLY; but the buffer recorded for it is [msg], the buffer the
    receiver has received into, whatever buffer [s] passed to [sendrec]. *)
Theorem sendrec_sender_gets_receivers_buffer :
  forall (st : kstate) (cur s : nat) (c ds : proc) (type msg : Z),
    os_current st = Some cur -> os_ptable st !! cur = Some c ->
    p_waiting c = Some s -> os_ptable st !! s = Some ds -> s <> cur ->
    p_state ds = SENDREC ->
    p_pending c && ((type =? ANY) || (type =? INTERRUPT)) = false ->
    type <> INTERRUPT -> type = ANY \/ p_msgtype ds = type ->
    exists st',
      mini_receive type msg st = Ok tt st' /\
      os_current st' = Some cur /\
      os_ptable st' !! s
        = Some (set_p_message msg
                  (set_p_msgtype REPLY (set_p_state RECEIVING ds))) /\
      os_ptable st' !! cur = Some (set_p_waiting (p_next ds) c) /\
      os_readyq st' = os_readyq st /\
      (msg <> 0 -> p_message ds <> 0 ->
       msgmem st' msg
       = mkmsg (p_msgtype ds) (p_pid ds) (m_body (msgmem st (p_message ds)))).
Proof.
  intros st cur s c ds type msg Hc Hcur Hw Hs Hne Hstate Hpend Ht Hmatch.
  rewrite (mini_receive_walks st cur c type msg Hc Hcur Hpend Ht).
  assert (Hclt : (cur < length (os_ptable st))%nat) by (eapply lookup_lt_Some; eauto).
  assert (Hslt : (s < length (os_ptable st))%nat) by (eapply lookup_lt_Some; eauto).
  set (st1 := with_ptable (<[cur := set_p_waiting (p_next ds) c]> (os_ptable st)) st).
  destruct (deliver_total msg (p_pid ds) (p_msgtype ds) (p_message ds) st1)
    as (mem' & Hdel & _).
  assert (Hs2 : os_ptable (with_msgmem mem' st1) !! s = Some ds).
  { cbn. rewrite list_lookup_insert_ne; auto. }
  set (st3 := with_ptable
                (<[s := set_p_message msg
                          (set_p_msgtype REPLY (set_p_state RECEIVING ds))]>
                   (os_ptable (with_msgmem mem' st1)))
                (with_msgmem mem' st1)).
  assert (Hwalk : take_sender (S (length (os_ptable st))) type msg (p_waiting c) None st
                  = Ok true st3).
  { rewrite Hw. cbn [take_sender].
    rewrite (bind_ok _ _ _ _ _ (deref_ok _ _ _ Hs)).
    rewrite (filter_matches _ _ Hmatch).
    unfold current at 1. unfold bind at 1. rewrite Hc.
    rewrite (bind_ok _ _ _ _ _ (update_ok _ _ _ _ Hcur)). fold st1.
    rewrite (bind_ok _ _ _ _ _ Hdel).
    rewrite Hstate. cbn [pstate_eqb assert].
    erewrite bind_ok; [reflexivity|].
    rewrite bind_ok with (a := tt) (st' := with_msgmem mem' st1) by reflexivity.
    apply set_state_ok, Hs2. }
  rewrite (bind_ok _ _ _ _ _ Hwalk).
  exists st3. split; [reflexivity|]. split; [exact Hc|].
  split; [cbn; apply list_lookup_insert_eq; rewrite length_insert; exact Hslt|].
  split; [cbn; rewrite list_lookup_insert_ne by auto;
          apply list_lookup_insert_eq, Hclt|].
  split; [reflexivity|].
  intros Hm Hsrc. cbn.
  rewrite (deliver_copy msg _ _ _ st1 Hm Hsrc) in Hdel.
  injection Hdel as Hmem. rewrite <- Hmem. unfold store_msg.
  now rewrite Z.eqb_refl.
Qed.

(** C2, as the code has it.  The sender queue of the receiver [cur]
    starts with [s1], whose type the filter does not take, followed by
    [s2], whose type it does, [s2] being in state SENDING.  The message
    of [s2] is copied into the buffer of the receiver under the sender
    and type of [s2], and [s2] is made ready.  But the unlinking store
    goes to the [p_next] of the receiver itself: [p_waiting] of the
    receiver is still [s1] and [p_next] of [s1] is still [s2], so that
    [s2] has not left the sender queue. *)
Theorem receive_leaves_middle_sender_queued :
  forall (st : kstate) (cur s1 s2 : nat) (c d1 d2 : proc) (type msg : Z)
         (k : nat) (l : list nat),
    os_current st = Some cur -> os_ptable st !! cur = Some c ->
    p_waiting c = Some s1 -> os_ptable st !! s1 = Some d1 ->
    p_next d1 = Some s2 -> os_ptable st !! s2 = Some d2 ->
    s1 <> cur -> s2 <> cur -> s1 <> s2 ->
    p_pending c && ((type =? ANY) || (type =? INTERRUPT)) = false ->
    type <> INTERRUPT -> type <> ANY ->
    p_msgtype d1 <> type -> p_msgtype d2 = type ->
    p_state d2 = SENDING ->
    p_priority d2 = Z.of_nat k -> Z.of_nat k <> P_IDLE -> (k < 3)%nat ->
    is_queue st k l -> s2 ∉ l -> s1 ∉ l -> cur ∉ l ->
    exists st',
      mini_receive type msg st = Ok tt st' /\
      os_current st' = Some cur /\
      (msg <> 0 -> p_message d2 <> 0 ->
       msgmem st' msg
       = mkmsg (p_msgtype d2) (p_pid d2) (m_body (msgmem st (p_message d2)))) /\
      os_ptable st' !! cur = Some (set_p_next (p_next d2) c) /\
      os_ptable st' !! s1 = Some d1 /\
      os_ptable st' !! s2 = Some (set_p_next None (set_p_state ACTIVE d2)) /\
      is_queue st' k (l ++ [s2]) /\
      is_waiting st' cur [s1; s2].
Proof.
  intros st cur s1 s2 c d1 d2 type msg k l Hc Hcur Hw H1 Hn1 H2 Hne1 Hne2 Hne12
         Hpend Ht Hany Hdiff Hsame Hstate Hprio Hidle Hk Hq Hn2l Hn1l Hncl.
  rewrite (mini_receive_walks st cur c type msg Hc Hcur Hpend Ht).
  assert (Hclt : (cur < length (os_ptable st))%nat) by (eapply lookup_lt_Some; eauto).
  set (st1 := with_ptable (<[cur := set_p_next (p_next d2) c]> (os_ptable st)) st).
  destruct (deliver_total msg (p_pid d2) (p_msgtype d2) (p_message d2) st1)
    as (mem' & Hdel & _).
  set (st2 := with_msgmem mem' st1) in *.
  assert (H22 : os_ptable st2 !! s2 = Some d2).
  { cbn. rewrite list_lookup_insert_ne; auto. }
  assert (Hq2 : is_queue st2 k l).
  { eapply is_queue_ext; [exact Hq|reflexivity|].
    intros j Hj. cbn. rewrite list_lookup_insert_ne; [reflexivity|].
    intros ->. contradiction. }
  destruct (make_ready_enqueues st2 k l s2 d2 Hidle Hk Hq2 H22 Hn2l)
    as (st' & Hmr & Hq' & Hd2' & Hother & Hqs & Hst').
  assert (Hlast : forall j, j ∉ l -> last l <> Some j).
  { intros j Hj Hl. apply Hj. now apply last_elem_of. }
  assert (Hcur' : os_ptable st' !! cur = Some (set_p_next (p_next d2) c)).
  { rewrite Hother; auto. cbn. apply list_lookup_insert_eq, Hclt. }
  assert (H1' : os_ptable st' !! s1 = Some d1).
  { rewrite Hother; auto. cbn. rewrite list_lookup_insert_ne; auto. }
  assert (Hwalk : take_sender (S (length (os_ptable st))) type msg (p_waiting c) None st
                  = Ok true st').
  { rewrite Hw.
    destruct (length (os_ptable st)) as [|n] eqn:Hlen; [lia|].
    cbn [take_sender].
    rewrite (bind_ok _ _ _ _ _ (deref_ok _ _ _ H1)).
    rewrite (filter_differs _ _ Hany Hdiff). rewrite Hn1.
    rewrite (bind_ok _ _ _ _ _ (deref_ok _ _ _ H2)).
    rewrite (filter_matches type (p_msgtype d2) (or_intror Hsame)).
    unfold current at 1. unfold bind at 1. rewrite Hc.
    rewrite (bind_ok _ _ _ _ _ (update_ok _ _ _ _ Hcur)). fold st1.
    rewrite (bind_ok _ _ _ _ _ Hdel). fold st2.
    rewrite Hstate. cbn [pstate_eqb]. rewrite Hprio.
    now rewrite (bind_ok _ _ _ _ _ Hmr). }
  rewrite (bind_ok _ _ _ _ _ Hwalk).
  exists st'. split; [reflexivity|].
  split; [rewrite Hst'; exact Hc|].
  split; [|split; [exact Hcur'|split; [exact H1'|split; [exact Hd2'|split;
    [exact Hq'|]]]]].
  - intros Hm Hsrc. rewrite Hst'. cbn.
    rewrite (deliver_copy msg _ _ _ st1 Hm Hsrc) in Hdel.
    injection Hdel as Hmem. rewrite <- Hmem. unfold store_msg.
    now rewrite Z.eqb_refl.
  - exists (set_p_next (p_next d2) c). split; [exact Hcur'|].
    cbn. rewrite Hw.
    econstructor; [exact H1'|]. rewrite Hn1.
    econstructor; [exact Hd2'|]. cbn. constructor.
Qed.

End Receive.

(** ** The scheduler, summed up *)

Section Discipline.
Context {env : Env}.

(** [os_init] on the boot state: process 0 is the idle process, IDLING,
    at priority 3, and the ready queues are empty. *)
Lemma os_init_idle msgs mem :
  sizeof_proc + IDLE_STACK <= stack_limit - end_addr < 2 ^ 32 ->
  exists st0 d0,
    os_init (boot msgs mem) = Ok tt st0 /\
    idle_proc st0 = Some 0%nat /\
    os_ptable st0 = [d0] /\
    p_pid d0 = 0 /\ p_state d0 = IDLING /\ p_priority d0 = 3 /\
    os_readyq st0 = os_readyq (boot msgs mem) /\
    os_current st0 = None.
Proof.
  intros Hroom. unfold os_init.
  rewrite (bind_ok _ _ _ _ _
             (init_proc_ok (boot msgs mem) "IDLE" IDLE_STACK
                ltac:(reflexivity) ltac:(split; [discriminate|reflexivity])
                Hroom)).
  rewrite bind_modify.
  erewrite bind_ok; [|apply update_ok; reflexivity].
  erewrite update_ok; [|reflexivity].
  do 2 eexists. split; [reflexivity|]. cbn. repeat split.
Qed.

End Discipline.

(** ** The tests are sound *)

Lemma lsegb_sound ps h l : lsegb ps h l = true -> lseg ps h l.
Proof.
  revert h. induction l as [|i l IH]; intros h H.
  - destruct h; [discriminate|constructor].
  - destruct h as [j|]; [|discriminate]. cbn in H.
    apply andb_true_iff in H as [Hij H]. apply Nat.eqb_eq in Hij. subst j.
    destruct (ps !! i) as [d|] eqn:E; [|discriminate].
    econstructor; eauto.
Qed.

Lemma is_queueb_sound st k l : is_queueb st k l = true -> is_queue st k l.
Proof.
  unfold is_queueb. destruct (os_readyq st !! k) as [q|] eqn:E; [|discriminate].
  intros H. apply andb_true_iff in H as [Hl Ht].
  exists q. split; [exact E|]. split; [now apply lsegb_sound|].
  destruct l; [now left|right]. now apply bool_decide_eq_true in Ht.
Qed.

Lemma is_waitingb_sound st r l : is_waitingb st r l = true -> is_waiting st r l.
Proof.
  unfold is_waitingb. destruct (os_ptable st !! r) as [d|] eqn:E; [|discriminate].
  intros H. exists d. split; [exact E|]. now apply lsegb_sound.
Qed.

Section TraceLemmas.
Context {env : Env}.

Lemma reachable_run_all cs :
  forall st st', reachable st -> run_all cs st = Some st' -> reachable st'.
Proof.
  induction cs as [|c cs IH]; intros st st' Hr H; cbn in H.
  - now inversion H; subst.
  - destruct (run c st) as [[] st1| |] eqn:E; try discriminate.
    eapply IH; [|exact H]. eapply reachable_step; eauto.
Qed.

Lemma admits_interrupt_false d c st :
  admits_interrupt d c st = false -> ~ receive_admitting_interrupt d c st.
Proof.
  intros H (Hc & psp & insn & r0 & r1 & r2 & -> & Hop & Ht).
  cbn in H. rewrite bool_decide_eq_true_2 in H by exact Hc.
  rewrite Hop in H. cbn in H.
  destruct Ht as [->| ->]; rewrite Z.eqb_refl in H;
    [|rewrite orb_true_r in H]; discriminate.
Qed.

Lemma run_before_receive_sound d cs :
  forall st st', run_before_receive d cs st = Some st' ->
                 runs_before_receive d st st'.
Proof.
  induction cs as [|c cs IH]; intros st st' H; cbn in H.
  - inversion H; subst. constructor.
  - destruct (admits_interrupt d c st) eqn:Ea; [discriminate|].
    destruct (run c st) as [[] st1| |] eqn:E; try discriminate.
    eapply rbr_step; [apply admits_interrupt_false, Ea|exact E|apply IH, H].
Qed.

End TraceLemmas.

(** ** The worked runs *)

Section WorkedRuns.
Local Existing Instance board.

Ltac run_it := vm_compute; reflexivity.
Ltac conjuncts := repeat match goal with |- _ /\ _ => split end.
Ltac settle :=
  match goal with
  | |- is_waiting _ _ _ => apply is_waitingb_sound; run_it
  | |- is_queue _ _ _ => apply is_queueb_sound; run_it
  | |- _ <> _ => let E := fresh in intros E; vm_compute in E; discriminate E
  | |- _ = _ => run_it
  | |- (_ < _)%Z => run_it
  | |- (_ <= _)%Z => let E := fresh in intros E; vm_compute in E; discriminate E
  | |- (_ < _)%nat => vm_compute; lia
  end.

(** A reply that goes astray.  S1 has called [sendrec] on R with its own
    buffer and waits, in state SENDREC, on the sender queue of R.  R receives: S1 comes off the queue
    and goes to state RECEIVING with filter REPLY and is on no list, but
    the buffer recorded for it is the buffer R has just received into,
    not the one S1 passed to [sendrec].  The reply R then sends to S1
    lands in R's own buffer, and the buffer of S1 is as S1 left it. *)
Lemma sendrec_reply_lands_in_receiver_buffer :
  p_state <$> os_ptable request_waiting !! 1%nat = Some SENDREC /\
  p_message <$> os_ptable request_waiting !! 1%nat = Some buf_S1 /\
  is_waiting request_waiting 3 [1%nat] /\
  system_call psp_R (svc SYS_RECEIVE) ANY buf_R 0 request_waiting
    = Ok psp_R request_taken /\
  p_state <$> os_ptable request_taken !! 1%nat = Some RECEIVING /\
  p_msgtype <$> os_ptable request_taken !! 1%nat = Some REPLY /\
  p_message <$> os_ptable request_taken !! 1%nat = Some buf_R /\
  buf_R <> buf_S1 /\
  is_waiting request_taken 3 [] /\
  ready_queues_holding request_taken 1 = 0%nat /\
  sender_queues_holding request_taken 1 = 0%nat /\
  system_call psp_R (svc SYS_SEND) 1 REPLY buf_reply request_taken
    = Ok psp_R replied /\
  msgmem replied buf_R = mkmsg REPLY 3 [333] /\
  msgmem replied buf_S1 = mkmsg 0 0 [111] /\
  p_state <$> os_ptable replied !! 1%nat = Some ACTIVE.
Proof. conjuncts; settle. Qed.

(** A message delivered twice.  S1 (type 10) and S2 (type 20) wait on R
    in this order, and R receives with filter 20.  The message of S2, the first that matches, is copied
    into the buffer of R with sender and type stamped, and S2 is made
    ready; but S2 is not taken out of the sender queue of R, which still
    reads S1, S2.  A receive with filter ANY then delivers S1, and one
    more delivers the message of S2 a second time before the assertion on
    the state of the sender fails. *)
Lemma middle_sender_delivered_twice :
  is_waiting two_senders 3 [1%nat; 2%nat] /\
  p_msgtype <$> os_ptable two_senders !! 1%nat = Some 10 /\
  p_msgtype <$> os_ptable two_senders !! 2%nat = Some 20 /\
  system_call psp_R (svc SYS_RECEIVE) 20 buf_R 0 two_senders
    = Ok psp_R filtered /\
  msgmem filtered buf_R = mkmsg 20 2 [222] /\
  p_state <$> os_ptable filtered !! 2%nat = Some ACTIVE /\
  is_queue filtered 2 [2%nat] /\
  is_waiting filtered 3 [1%nat; 2%nat] /\
  system_call psp_R (svc SYS_RECEIVE) ANY buf_R 0 filtered
    = Ok psp_R filtered_then_any /\
  msgmem filtered_then_any buf_R = mkmsg 10 1 [111] /\
  is_waiting filtered_then_any 3 [2%nat; 1%nat] /\
  system_call psp_R (svc SYS_RECEIVE) ANY buf_R 0 filtered_then_any
    = Panic "Assertion failed: psrc->p_state == SENDREC" []
            filtered_then_any_twice /\
  msgmem filtered_then_any_twice buf_R = mkmsg 20 2 [222].
Proof. conjuncts; settle. Qed.

(** C3, as the code has it.  The state [filtered] is reached from boot by
    [os_init], three calls of [start], [os_start], two sends and one
    receive.  In it process S2 is ACTIVE and not running, is the one
    member of ready queue 2, and is at the same time the second member
    of the sender queue of R: descriptor uniqueness does not hold. *)
Theorem descriptor_on_two_lists :
  reachable filtered /\
  descriptor_uniqueness filtered = false /\
  p_state <$> os_ptable filtered !! 2%nat = Some ACTIVE /\
  os_current filtered = Some 3%nat /\
  is_queue filtered 2 [2%nat] /\
  is_waiting filtered 3 [1%nat; 2%nat] /\
  ready_queues_holding filtered 2 = 1%nat /\
  sender_queues_holding filtered 2 = 1%nat.
Proof.
  split.
  - apply (reachable_run_all filtered_trace loaded).
    + apply reachable_boot.
    + run_it.
  - conjuncts; settle.
Qed.

(** Preemption on the send path, [send_preempts], does not hold of the
    kernel: the run below is an instance where the sender keeps running. *)
Lemma send_preempts_fails : ~ send_preempts.
Proof.
  intros H.
  apply (H high_receiver_waiting 1%nat (descriptor high_receiver_waiting 1)
           3%nat (descriptor high_receiver_waiting 3) psp_S1 10 buf_S1 psp_S1
           (after (system_call psp_S1 (svc SYS_SEND) 3 10 buf_S1)
                  high_receiver_waiting)).
  - run_it.
  - run_it.
  - run_it.
  - split; [run_it | left; run_it].
  - run_it.
  - run_it.
  - run_it.
Qed.

(** C4 fails on the send path.  S1 runs at priority [P_LOW] and sends
    type 10 to R, which waits in [receive(ANY)] at priority [P_HIGH]: R is
    made ready, at the head of ready queue 1, and the system call returns
    the stack pointer of S1, which is still the current process. *)
Lemma send_returns_to_lower_priority_sender :
  os_current high_receiver_waiting = Some 1%nat /\
  p_priority <$> os_ptable high_receiver_waiting !! 1%nat = Some P_LOW /\
  p_priority <$> os_ptable high_receiver_waiting !! 3%nat = Some P_HIGH /\
  P_HIGH < P_LOW /\
  p_state <$> os_ptable high_receiver_waiting !! 3%nat = Some RECEIVING /\
  p_msgtype <$> os_ptable high_receiver_waiting !! 3%nat = Some ANY /\
  system_call psp_S1 (svc SYS_SEND) 3 10 buf_S1 high_receiver_waiting
    = Ok psp_S1 (after (system_call psp_S1 (svc SYS_SEND) 3 10 buf_S1)
                       high_receiver_waiting) /\
  os_current (after (system_call psp_S1 (svc SYS_SEND) 3 10 buf_S1)
                    high_receiver_waiting) = Some 1%nat /\
  is_queue (after (system_call psp_S1 (svc SYS_SEND) 3 10 buf_S1)
                  high_receiver_waiting) 1 [3%nat] /\
  msgmem (after (system_call psp_S1 (svc SYS_SEND) 3 10 buf_S1)
                high_receiver_waiting) buf_R = mkmsg 10 1 [111].
Proof. conjuncts; settle. Qed.

Ltac not_member :=
  let Hin := fresh "Hin" in
  intros Hin;
  repeat (apply elem_of_cons in Hin as [Hin|Hin]; [discriminate Hin|]);
  apply elem_of_nil in Hin; exact Hin.

(** [wakeup_scheduling] on the board: S1 wakes the waiting R by [send]
    and keeps running; by [sendrec] and R runs; and an interrupt for the
    waiting handler R, arriving while S1 runs, is followed by a context
    switch to R, at the stack pointer R had saved, with S1 put behind S2
    on ready queue 2. *)
Lemma wakeup_scheduling_witness :
  (exists st',
     system_call psp_S1 (svc SYS_SEND) 3 10 buf_S1 high_receiver_waiting
       = Ok psp_S1 st' /\
     os_current st' = Some 1%nat /\ is_queue st' 1 [3%nat]) /\
  (exists sp st',
     system_call psp_S1 (svc SYS_SENDREC) 3 10 buf_S1 high_receiver_waiting
       = Ok sp st' /\
     os_current st' = Some 3%nat) /\
  (exists st1 sp st2 dh,
     interrupt 3 handler_waiting = Ok tt st1 /\ pendsv st1 = true /\
     cxt_switch psp_S1 st1 = Ok sp st2 /\ os_current st2 = Some 3%nat /\
     os_ptable st2 !! 3%nat = Some dh /\ sp = p_sp dh /\
     is_queue st2 2 [2%nat; 1%nat]).
Proof.
  assert (Hc : os_current high_receiver_waiting = Some 1%nat) by run_it.
  assert (Hcur : os_ptable high_receiver_waiting !! 1%nat
                 = Some (descriptor high_receiver_waiting 1)) by run_it.
  assert (Hn : Z.of_nat 3 < NPROCS) by run_it.
  assert (Hd : os_ptable high_receiver_waiting !! 3%nat
               = Some (descriptor high_receiver_waiting 3)) by run_it.
  assert (Hne : 1%nat <> 3%nat) by discriminate.
  assert (Hw : waits_for (descriptor high_receiver_waiting 3) 10)
    by (split; [run_it | left; run_it]).
  assert (Hprio : p_priority (descriptor high_receiver_waiting 3) = Z.of_nat 1)
    by run_it.
  assert (Hidle : Z.of_nat 1 <> P_IDLE) by settle.
  assert (Hk : (1 < 3)%nat) by lia.
  assert (Hq : is_queue high_receiver_waiting 1 []) by settle.
  assert (Hn3 : 3%nat ∉ ([] : list nat)) by not_member.
  assert (Hn1 : 1%nat ∉ ([] : list nat)) by not_member.
  split; [|split].
  - destruct (wakeup_scheduling high_receiver_waiting 1 3
                (descriptor high_receiver_waiting 1)
                (descriptor high_receiver_waiting 3)
                psp_S1 (svc SYS_SEND) 10 buf_S1 1%nat [] Hc Hcur Hn Hd Hne)
      as (Hsend & _ & _).
    destruct (Hsend ltac:(run_it) Hw Hprio Hidle Hk Hq Hn3 Hn1)
      as (st' & H1 & H2 & H3 & _).
    exists st'. auto.
  - destruct (wakeup_scheduling high_receiver_waiting 1 3
                (descriptor high_receiver_waiting 1)
                (descriptor high_receiver_waiting 3)
                psp_S1 (svc SYS_SENDREC) 10 buf_S1 1%nat [] Hc Hcur Hn Hd Hne)
      as (_ & Hsendrec & _).
    assert (Hvalid : forall j q x, (j < 1)%nat ->
              os_readyq high_receiver_waiting !! j = Some q ->
              q_head q = Some x ->
              is_Some (os_ptable high_receiver_waiting !! x)).
    { intros j q x Hj E Hx. destruct j as [|j]; [|lia].
      vm_compute in E. injection E as <-. discriminate Hx. }
    destruct (Hsendrec ltac:(run_it) Hw Hprio Hidle Hk Hq Hn3 Hn1 Hvalid)
      as (j & h & sp & st' & Hj & H1 & H2 & _ & Hup & Hat & _).
    exists sp, st'. split; [exact H1|].
    destruct j as [|[|j]]; [|injection (Hat eq_refl) as <-; exact H2|lia].
    destruct (Hup ltac:(lia)) as (q & E & Hx).
    vm_compute in E. injection E as <-. discriminate Hx.
  - assert (Hc' : os_current handler_waiting = Some 1%nat) by run_it.
    assert (Hcur' : os_ptable handler_waiting !! 1%nat
                    = Some (descriptor handler_waiting 1)) by run_it.
    assert (Hd' : os_ptable handler_waiting !! 3%nat
                  = Some (descriptor handler_waiting 3)) by run_it.
    destruct (wakeup_scheduling handler_waiting 1 3
                (descriptor handler_waiting 1) (descriptor handler_waiting 3)
                psp_S1 0 0 0 0%nat [] Hc' Hcur' Hn Hd' Hne)
      as (_ & _ & Hint).
    assert (Hown : p_priority (descriptor handler_waiting 1) = P_IDLE \/
              exists kc lc,
                p_priority (descriptor handler_waiting 1) = Z.of_nat kc /\
                (0 < kc < 3)%nat /\ Z.of_nat kc <> P_IDLE /\
                is_queue handler_waiting kc lc /\
                (1%nat ∉ lc) /\ (3%nat ∉ lc) /\
                (forall x, x ∈ lc -> x ∉ ([] : list nat))).
    { right. exists 2%nat, [2%nat].
      split; [run_it|]. split; [lia|]. split; [settle|]. split; [settle|].
      split; [not_member|]. split; [not_member|].
      intros x _. not_member. }
    destruct (Hint ltac:(reflexivity) ltac:(discriminate) ltac:(run_it)
                ltac:(split; [run_it | right; run_it])
                ltac:(settle) Hn3 Hn1 Hown)
      as (st1 & h & t & sp & st2 & dh & H1 & H2 & _ & Hht & H3 & H4 & _ & _ &
          H5 & H6 & _ & H7).
    injection Hht as <- _.
    destruct (H7 2%nat [2%nat] ltac:(run_it) ltac:(settle) ltac:(settle))
      as [H8 _].
    exists st1, sp, st2, dh. auto 10.
Defined.

(** [send_indexes_table_before_test] on the board: [send(99, 0, &m)]
    made by S1 with four processes in the table. *)
Lemma send_indexes_table_before_test_witness :
  mini_send 99 0 buf_S1 started = Fault (OutOfBounds "os_ptable" 99) /\
  mini_sendrec 99 0 buf_S1 started = Fault (OutOfBounds "os_ptable" 99).
Proof.
  apply (send_indexes_table_before_test started 1 (descriptor started 1)).
  - run_it.
  - run_it.
  - right. settle.
Defined.

(** [no_lost_interrupt] on the board: the interrupt arrives while the
    handler R runs; R and S1 exchange a message, S1 then waits to send to
    R; and the next [receive(ANY)] of R returns the interrupt message,
    with S1 still first on its sender queue. *)
Lemma no_lost_interrupt_witness :
  interrupt (Z.of_nat 3) handler_running
    = Ok tt (with_ptable
               (<[3%nat := set_p_pending true (descriptor handler_running 3)]>
                  (os_ptable handler_running))
               handler_running) /\
  is_waiting handler_resumed 3 [1%nat] /\
  exists st3,
    system_call psp_R (svc SYS_RECEIVE) ANY buf_R 0 handler_resumed
      = Ok psp_R st3 /\
    os_current st3 = Some 3%nat /\
    os_readyq st3 = os_readyq handler_resumed /\
    msgmem st3 buf_R
      = mkmsg INTERRUPT HARDWARE (m_body (msgmem handler_resumed buf_R)).
Proof.
  destruct (no_lost_interrupt handler_running handler_resumed 3
              (descriptor handler_running 3) psp_R (svc SYS_RECEIVE) ANY buf_R 0)
    as (Hint & dd2 & st3 & _ & _ & Hcall & Hcur & _ & Hq & Hmsg & _).
  - run_it.
  - run_it.
  - run_it.
  - apply (run_before_receive_sound 3 handler_resumes). run_it.
  - run_it.
  - run_it.
  - left. reflexivity.
  - split; [exact Hint|]. split; [settle|].
    exists st3. split; [exact Hcall|]. split; [exact Hcur|]. split; [exact Hq|].
    apply Hmsg. settle.
Defined.

(** [start_creates_process] on the board: the first process started
    after [os_init], with a stack of 256 bytes. *)
Lemma start_creates_process_witness :
  exists st',
    start "S1" 0x2001 0 256 initialised = Ok (os_nprocs initialised) st' /\
    os_nprocs st' = os_nprocs initialised + 1 /\
    __break initialised <= __break initialised + roundup 256 8 - 64 /\
    ram st' (__break initialised + roundup 256 8 - 64 + 4 * PSR_SAVE) = INIT_PSR /\
    ram st' (__break initialised + roundup 256 8 - 64 + 4 * LR_SAVE)
      = as_unsigned exit_addr /\
    is_queue st' 2 ([] ++ [Z.to_nat (os_nprocs initialised)]).
Proof.
  destruct (start_creates_process initialised "S1" 0x2001 0 256 2%nat [])
    as (_ & st' & H1 & H2 & _ & H3 & _ & _ & H5 & _ & _ & _ & _ & H10 & _ & _ & H13).
  - run_it.
  - run_it.
  - split; [discriminate | reflexivity].
  - split; [settle | run_it].
  - settle.
  - reflexivity.
  - lia.
  - discriminate.
  - settle.
  - exists st'. auto 7.
Defined.

(** C8 fails for a stack too small for the frame.  With the idle process
    and A in the table, [start "B" .. 16] is made before the scheduler
    runs, with room in the table and in the arena.  The stack of B is the
    16 bytes from [__break]; the frame is put 64 bytes below its top, so
    that the saved stack pointer of B lies 48 bytes below its stack, in
    the stack of A, and the frame of B covers the upper words of the
    frame of A: the word that held the PC of A holds 0 afterwards. *)
Lemma start_frame_outside_small_stack :
  os_current one_started = None /\
  os_nprocs one_started < NPROCS /\
  0 <= 16 < 2 ^ 31 - 8 /\
  sizeof_proc + roundup 16 8
    <= __break2 one_started - __break one_started < 2 ^ 32 /\
  start "B" 0x2301 0 16 one_started
    = Ok (os_nprocs one_started) (after (start "B" 0x2301 0 16) one_started) /\
  p_stack (descriptor (after (start "B" 0x2301 0 16) one_started) 2)
    = __break one_started /\
  p_stksize (descriptor (after (start "B" 0x2301 0 16) one_started) 2) = 16 /\
  p_sp (descriptor (after (start "B" 0x2301 0 16) one_started) 2)
    = __break one_started - 48 /\
  p_stack (descriptor one_started 1) + p_stksize (descriptor one_started 1)
    = __break one_started /\
  p_sp (descriptor one_started 1) = __break one_started - 64 /\
  ram one_started (p_sp (descriptor one_started 1) + 4 * PC_SAVE) = 0x2000 /\
  ram (after (start "B" 0x2301 0 16) one_started)
      (p_sp (descriptor one_started 1) + 4 * PC_SAVE) = 0.
Proof. conjuncts; settle. Qed.

(** [default_handler_unregistered] on the board: a negative IRQ number;
    IRQ 7 with nothing connected; IRQ 7 after R has connected to it; and
    IRQ 7 after the idle process has. *)
Lemma default_handler_unregistered_witness :
  default_handler (-1) started = Panic "Unexpected interrupt %d" [-1] started /\
  default_handler 7 started = Panic "Unexpected interrupt %d" [7] started /\
  (exists task,
     task <> 0 /\ os_handler handler_waiting !! Z.to_nat 7 = Some task /\
     (set_irq 7 false ;; interrupt task) handler_waiting
       = Ok tt (after (default_handler 7) handler_waiting)) /\
  (exists st1, connect 7 idle_alone = Ok tt st1 /\
     default_handler 7 st1 = Panic "Unexpected interrupt %d" [7] st1).
Proof.
  split; [|split; [|split]].
  - destruct (default_handler_unregistered started (-1)) as (H & _).
    apply H. lia.
  - destruct (default_handler_unregistered started 7) as (_ & H & _).
    apply H; [lia | run_it].
  - destruct (default_handler_unregistered handler_waiting 7)
      as (_ & _ & _ & H & _).
    apply H. run_it.
  - destruct (default_handler_unregistered idle_alone 7) as (_ & _ & _ & _ & H).
    apply (H (descriptor idle_alone 0)); [lia | run_it | run_it | run_it | run_it].
Defined.

(** [sendrec_sender_gets_receivers_buffer] on the board: R takes the
    request of S1, which S1 sent from [buf_S1], into [buf_R]. *)
Lemma sendrec_sender_gets_receivers_buffer_witness :
  p_message (descriptor request_waiting 1) = buf_S1 /\
  buf_R <> buf_S1 /\
  exists st',
    mini_receive ANY buf_R request_waiting = Ok tt st' /\
    os_ptable st' !! 1%nat
      = Some (set_p_message buf_R
                (set_p_msgtype REPLY
                   (set_p_state RECEIVING (descriptor request_waiting 1)))).
Proof.
  split; [run_it|]. split; [settle|].
  destruct (sendrec_sender_gets_receivers_buffer request_waiting 3 1
              (descriptor request_waiting 3) (descriptor request_waiting 1)
              ANY buf_R)
    as (st' & H1 & _ & H2 & _).
  - run_it.
  - run_it.
  - run_it.
  - run_it.
  - discriminate.
  - run_it.
  - run_it.
  - settle.
  - left. reflexivity.
  - exists st'. auto.
Defined.

(** [receive_leaves_middle_sender_queued] on the board: R, with S1 (type
    10) and S2 (type 20) waiting, receives with filter 20. *)
Lemma receive_leaves_middle_sender_queued_witness :
  exists st',
    mini_receive 20 buf_R two_senders = Ok tt st' /\
    is_queue st' 2 ([] ++ [2%nat]) /\
    is_waiting st' 3 [1%nat; 2%nat].
Proof.
  destruct (receive_leaves_middle_sender_queued two_senders 3 1 2
              (descriptor two_senders 3) (descriptor two_senders 1)
              (descriptor two_senders 2) 20 buf_R 2%nat [])
    as (st' & H1 & _ & _ & _ & _ & _ & H2 & H3).
  - run_it.
  - run_it.
  - run_it.
  - run_it.
  - run_it.
  - run_it.
  - discriminate.
  - discriminate.
  - discriminate.
  - run_it.
  - settle.
  - settle.
  - settle.
  - run_it.
  - run_it.
  - run_it.
  - settle.
  - lia.
  - settle.
  - not_member.
  - not_member.
  - not_member.
  - exists st'. auto.
Defined.

End WorkedRuns.

(** * Further properties *)

Section Choice.
Context {env : Env}.

(** [choose_proc] always selects: the head of the first queue that is
    not empty, which leaves its queue, or the idle process.  The ready
    queues are otherwise left as they are. *)
Lemma choose_proc_total st :
  length (os_readyq st) = 3%nat -> heads_valid st ->
  exists st',
    choose_proc st = Ok tt st' /\
    os_current st' = next_to_run st /\
    st' = with_readyq (os_readyq st') (with_current (os_current st') st) /\
    length (os_readyq st') = 3%nat /\
    ((first_ready (os_readyq st) = None /\ os_readyq st' = os_readyq st) \/
     exists j q h dh,
       os_readyq st !! j = Some q /\ q_head q = Some h /\
       os_ptable st !! h = Some dh /\
       (forall i qi, (i < j)%nat -> os_readyq st !! i = Some qi ->
                     q_head qi = None) /\
       os_current st' = Some h /\
       os_readyq st' = <[j := mkqueue (p_next dh) (q_tail q)]> (os_readyq st)).
Proof.
  intros Hlen Hv.
  destruct (os_readyq st) as [|q0 [|q1 [|q2 [|]]]] eqn:Eq; try discriminate Hlen.
  assert (H0 : os_readyq st !! 0%nat = Some q0) by now rewrite Eq.
  assert (H1 : os_readyq st !! 1%nat = Some q1) by now rewrite Eq.
  assert (H2 : os_readyq st !! 2%nat = Some q2) by now rewrite Eq.
  unfold next_to_run. rewrite Eq. cbn [first_ready].
  unfold choose_proc. cbn [fold_right].
  destruct (q_head q0) as [x0|] eqn:E0.
  { destruct (Hv _ _ _ H0 E0) as [d Hd].
    change 0 with (Z.of_nat 0).
    rewrite (take_head_pop st 0 q0 x0 d _ ltac:(lia) H0 E0 Hd).
    eexists. split; [reflexivity|]. cbn. rewrite Eq.
    split; [reflexivity|]. split; [reflexivity|]. split; [reflexivity|].
    right. exists 0%nat, q0, x0, d. repeat split; auto. intros; lia. }
  change 0 with (Z.of_nat 0).
  rewrite (take_head_empty st 0 q0 _ ltac:(lia) H0 E0).
  destruct (q_head q1) as [x1|] eqn:E1.
  { destruct (Hv _ _ _ H1 E1) as [d Hd].
    change 1 with (Z.of_nat 1).
    rewrite (take_head_pop st 1 q1 x1 d _ ltac:(lia) H1 E1 Hd).
    eexists. split; [reflexivity|]. cbn. rewrite Eq.
    split; [reflexivity|]. split; [reflexivity|]. split; [reflexivity|].
    right. exists 1%nat, q1, x1, d. repeat split; auto.
    intros i qi Hi Hqi. destruct i as [|i]; [|lia].
    cbn in Hqi. injection Hqi as <-. exact E0. }
  change 1 with (Z.of_nat 1).
  rewrite (take_head_empty st 1 q1 _ ltac:(lia) H1 E1).
  destruct (q_head q2) as [x2|] eqn:E2.
  { destruct (Hv _ _ _ H2 E2) as [d Hd].
    change 2 with (Z.of_nat 2).
    rewrite (take_head_pop st 2 q2 x2 d _ ltac:(lia) H2 E2 Hd).
    eexists. split; [reflexivity|]. cbn. rewrite Eq.
    split; [reflexivity|]. split; [reflexivity|]. split; [reflexivity|].
    right. exists 2%nat, q2, x2, d. repeat split; auto.
    intros i qi Hi Hqi. destruct i as [|[|i]]; [| |lia];
      cbn in Hqi; injection Hqi as <-; assumption. }
  change 2 with (Z.of_nat 2).
  rewrite (take_head_empty st 2 q2 _ ltac:(lia) H2 E2).
  eexists. split; [reflexivity|]. cbn. rewrite Eq.
  split; [reflexivity|]. split; [|split; [reflexivity|now left]].
  destruct st; cbn in *. now rewrite Eq.
Qed.

Lemma first_ready_none qs j q :
  first_ready qs = None -> qs !! j = Some q -> q_head q = None.
Proof.
  revert j. induction qs as [|q0 qs IH]; intros j H Hj; [discriminate Hj|].
  cbn [first_ready] in H. destruct (q_head q0) eqn:E; [discriminate H|].
  destruct j as [|j]; [cbn in Hj; congruence|]. apply (IH j H Hj).
Qed.

(** After [choose_proc] every ready queue is as it was, or has lost its
    head, which now runs: no queue has a new member.  The queue that
    loses its head is the first that is not empty. *)
Lemma choose_proc_queues st st' j lj :
  length (os_readyq st) = 3%nat -> heads_valid st ->
  choose_proc st = Ok tt st' -> is_queue st j lj ->
  (is_queue st' j lj /\
   (lj = [] \/
    exists i qi x, (i < j)%nat /\ os_readyq st !! i = Some qi /\
                   q_head qi = Some x)) \/
  exists h t, lj = h :: t /\ os_current st' = Some h /\ is_queue st' j t /\
              forall i qi, (i < j)%nat -> os_readyq st !! i = Some qi ->
                           q_head qi = None.
Proof.
  intros Hlen Hv Hch (q & Hq & Hl & Ht).
  destruct (choose_proc_total st Hlen Hv)
    as (st1 & Hch1 & _ & Hst1 & _ & Hcase).
  assert (st1 = st') by congruence. subst st1.
  assert (Htab : os_ptable st' = os_ptable st) by (rewrite Hst1; reflexivity).
  destruct Hcase as [[Hnone Hsame]|(j0 & q0 & h & dh & Hq0 & Hh & Hdh & Hbelow & Hcur & Hqs)].
  - left. split; [exists q; rewrite Hsame, Htab; auto|].
    left. rewrite (first_ready_none _ _ _ Hnone Hq) in Hl. now inversion Hl.
  - destruct (decide (j = j0)) as [->|Hne].
    + right. assert (q0 = q) by congruence. subst q0.
      rewrite Hh in Hl. inversion Hl as [|i d t Hd Hl' E1]; subst.
      assert (d = dh) by congruence. subst d.
      exists h, t. split; [reflexivity|]. split; [exact Hcur|]. split; [|exact Hbelow].
      exists (mkqueue (p_next dh) (q_tail q)). rewrite Hqs, Htab.
      split; [apply list_lookup_insert_eq; eapply lookup_lt_Some; eauto|].
      split; [exact Hl'|]. cbn.
      destruct Ht as [Ht|Ht]; [discriminate Ht|].
      destruct t as [|x t']; [now left|right]. exact Ht.
    + left. split.
      * exists q. rewrite Hqs, Htab. rewrite list_lookup_insert_ne by auto. auto.
      * destruct (Nat.lt_ge_cases j0 j) as [Hlt|Hge].
        -- right. exists j0, q0, h. auto.
        -- left. rewrite (Hbelow j q ltac:(lia) Hq) in Hl. now inversion Hl.
Qed.

(** In particular a process that was on none of them is on none. *)
Lemma choose_proc_joins_none st st' p j lj :
  length (os_readyq st) = 3%nat -> heads_valid st ->
  choose_proc st = Ok tt st' -> is_queue st j lj -> p ∉ lj ->
  exists lj', is_queue st' j lj' /\ (p ∉ lj') /\
              (lj' = lj \/ exists h, lj = h :: lj' /\ os_current st' = Some h).
Proof.
  intros Hlen Hv Hch Hq Hp.
  destruct (choose_proc_queues st st' j lj Hlen Hv Hch Hq)
    as [[G _]|(h & t & -> & Hcur & G & _)].
  - exists lj. auto.
  - exists t. split; [exact G|]. split; [|right; eauto].
    intros Hin. apply Hp. now apply list_elem_of_further.
Qed.

Lemma heads_valid_ptable st ps :
  heads_valid st -> length ps = length (os_ptable st) ->
  heads_valid (with_ptable ps st).
Proof.
  intros Hv Hlen j q x Hq Hx. cbn in *.
  apply lookup_lt_is_Some. rewrite Hlen. apply lookup_lt_is_Some. eauto.
Qed.

End Choice.

Section SenderQueue.
Context {env : Env}.

(** A list threaded through the table is no longer than the table. *)
Lemma lseg_length ps h l : lseg ps h l -> (length l <= length ps)%nat.
Proof.
  intros H.
  pose proof (lseg_NoDup _ _ _ H) as Hnd.
  assert (Hsub : l ⊆+ seq 0 (length ps)).
  { apply NoDup_submseteq; [exact Hnd|].
    intros x Hx. destruct (lseg_valid _ _ _ x H Hx) as [d Hd].
    apply lookup_lt_Some in Hd. apply elem_of_seq. lia. }
  apply submseteq_length in Hsub. now rewrite length_seq in Hsub.
Qed.

(** The walk of [enqueue] finds the last sender of the queue. *)
Lemma last_sender_finds fuel st h l t :
  lseg (os_ptable st) h (l ++ [t]) -> (length (l ++ [t]) <= fuel)%nat ->
  last_sender fuel h st = Ok (Some t) st.
Proof.
  revert fuel h. induction l as [|x l IH]; intros fuel h H Hf.
  - cbn in H. inversion H as [|i d l0 Hd Hrest]; subst. inversion Hrest; subst.
    destruct fuel as [|fuel]; [cbn in Hf; lia|]. cbn [last_sender].
    rewrite (bind_ok _ _ _ _ _ (deref_ok _ _ _ Hd)).
    now match goal with E : None = p_next d |- _ => rewrite <- E end.
  - cbn in H. inversion H as [|i d l0 Hd Hrest]; subst.
    destruct fuel as [|fuel]; [cbn in Hf; lia|]. cbn [last_sender].
    rewrite (bind_ok _ _ _ _ _ (deref_ok _ _ _ Hd)).
    assert (exists y, p_next d = Some y) as [y Hy].
    { inversion Hrest; subst; [destruct l; discriminate|eauto]. }
    rewrite Hy. rewrite <- Hy. apply IH; [exact Hrest|]. cbn in Hf. lia.
Qed.

Lemma not_dead d : p_state d <> DEAD -> pstate_eqb (p_state d) DEAD = false.
Proof. destruct (p_state d); intros H; try reflexivity. contradiction. Qed.

(** The blocking half of [mini_send] and [mini_sendrec]: the caller
    records what it sends and goes last on the sender queue of the
    destination. *)
Lemma join_queue st cur c dn d s type msg l :
  os_current st = Some cur -> os_ptable st !! cur = Some c ->
  os_ptable st !! dn = Some d -> is_waiting st dn l -> cur ∉ l ->
  exists st',
    (set_state (Some cur) s type msg ;; enqueue (Some dn)) st = Ok tt st' /\
    is_waiting st' dn (l ++ [cur]) /\
    (exists c', os_ptable st' !! cur = Some c' /\
                p_state c' = s /\ p_msgtype c' = type /\ p_message c' = msg /\
                p_next c' = None /\ p_priority c' = p_priority c /\
                p_pid c' = p_pid c /\ p_pending c' = p_pending c) /\
    length (os_ptable st') = length (os_ptable st) /\
    st' = with_ptable (os_ptable st') st.
Proof.
  intros Hc Hcur Hd (d0 & Hd0 & Hl) Hnin.
  assert (d0 = d) by congruence. subst d0.
  assert (Hclt : (cur < length (os_ptable st))%nat) by (eapply lookup_lt_Some; eauto).
  assert (Hdlt : (dn < length (os_ptable st))%nat) by (eapply lookup_lt_Some; eauto).
  set (c1 := set_p_message msg (set_p_msgtype type (set_p_state s c))).
  set (c2 := set_p_next None c1).
  set (ps2 := <[cur := c2]> (os_ptable st)).
  set (st2 := with_ptable ps2 st).
  assert (Hlen2 : length ps2 = length (os_ptable st)) by apply length_insert.
  assert (Hc2 : ps2 !! cur = Some c2) by (apply list_lookup_insert_eq, Hclt).
  assert (Hl2 : lseg ps2 (p_waiting d) l) by (apply lseg_frame; auto).
  (* the descriptor of the destination, which may be the caller itself *)
  assert (Hd2 : exists d2, ps2 !! dn = Some d2 /\ p_waiting d2 = p_waiting d /\
                           (dn = cur -> d2 = c2) /\ (dn <> cur -> d2 = d)).
  { destruct (decide (dn = cur)) as [->|Hne].
    - exists c2. split; [exact Hc2|]. split; [|split; [auto|contradiction]].
      assert (d = c) by congruence. subst d. reflexivity.
    - exists d. split; [|split; [reflexivity|split; [contradiction|auto]]].
      unfold ps2. rewrite list_lookup_insert_ne; auto. }
  destruct Hd2 as (d2 & Hd2 & Hw2 & Hsame & Hother).
  set (st1 := with_ptable (<[cur := c1]> (os_ptable st)) st).
  assert (Hc1 : os_ptable st1 !! cur = Some c1).
  { cbn. apply list_lookup_insert_eq, Hclt. }
  assert (Est : with_ptable (<[cur := set_p_next None c1]> (os_ptable st1)) st1 = st2).
  { unfold st2, ps2, st1, with_ptable. cbn. now rewrite list_insert_insert_eq. }
  unfold enqueue.
  rewrite (bind_ok _ _ _ _ _ (set_state_ok _ _ _ s type msg Hcur)). fold c1 st1.
  unfold current at 1. unfold bind at 1.
  change (os_current st1) with (os_current st). rewrite Hc.
  rewrite (bind_ok _ _ _ _ _ (update_ok _ _ _ _ Hc1)). rewrite Est.
  assert (Hd2' : os_ptable st2 !! dn = Some d2) by exact Hd2.
  rewrite (bind_ok _ _ _ _ _ (deref_ok _ _ _ Hd2')). rewrite Hw2.
  destruct (decide (l = [])) as [->|Hne].
  - (* nobody waits yet *)
    inversion Hl as [E|]; subst.
    rewrite (update_ok _ _ _ _ Hd2').
    eexists. split; [reflexivity|]. cbn [os_ptable with_ptable].
    assert (Hcur3 : exists c3, <[dn := set_p_waiting (Some cur) d2]> ps2 !! cur = Some c3 /\
                         p_next c3 = None /\ p_state c3 = s /\ p_msgtype c3 = type /\
                         p_message c3 = msg /\ p_priority c3 = p_priority c /\
                         p_pid c3 = p_pid c /\ p_pending c3 = p_pending c).
    { destruct (decide (dn = cur)) as [->|Hne].
      - eexists. split; [apply list_lookup_insert_eq; eapply lookup_lt_Some; eassumption|].
        rewrite (Hsame eq_refl). cbn. repeat split.
      - exists c2. split; [rewrite list_lookup_insert_ne; auto|]. cbn. repeat split. }
    destruct Hcur3 as (c3 & Hc3 & Hn3 & Hrest).
    split; [|split; [|split]].
    + eexists. split; [apply list_lookup_insert_eq; eapply lookup_lt_Some; eassumption|]. cbn.
      econstructor; [exact Hc3|]. rewrite Hn3. constructor.
    + exists c3. split; [exact Hc3|]. tauto.
    + rewrite length_insert. exact Hlen2.
    + reflexivity.
  - (* behind the last one waiting *)
    destruct (last_snoc_inv l Hne) as (l' & t & -> & _).
    assert (Htin : t ∈ l' ++ [t]) by (apply elem_of_app; right; constructor).
    assert (Htc : t <> cur) by (intros ->; contradiction).
    destruct (lseg_valid _ _ _ t Hl2 Htin) as [dt Hdt].
    assert (exists y, p_waiting d = Some y) as [y Hy].
    { inversion Hl2; subst; [destruct l'; discriminate|eauto]. }
    rewrite Hy. rewrite <- Hy.
    unfold get at 1. unfold bind at 1.
    rewrite (bind_ok _ _ _ _ _
               (last_sender_finds _ st2 _ l' t Hl2 (lseg_length _ _ _ Hl2))).
    assert (Hdt' : os_ptable st2 !! t = Some dt) by exact Hdt.
    rewrite (update_ok _ _ _ _ Hdt').
    eexists. split; [reflexivity|]. cbn [os_ptable with_ptable].
    split; [|split; [|split]].
    + assert (Hdn3 : exists d3, <[t := set_p_next (Some cur) dt]> ps2 !! dn = Some d3 /\
                                p_waiting d3 = p_waiting d).
      { destruct (decide (dn = t)) as [->|Hnt].
        - eexists. split; [apply list_lookup_insert_eq; eapply lookup_lt_Some; eauto|].
          assert (dt = d2) by congruence. subst dt. exact Hw2.
        - exists d2. split; [rewrite list_lookup_insert_ne; auto|exact Hw2]. }
      destruct Hdn3 as (d3 & Hd3 & Hw3).
      exists d3. split; [exact Hd3|]. rewrite Hw3.
      eapply lseg_snoc; eauto.
    + exists c2. split; [rewrite list_lookup_insert_ne; auto|]. cbn. repeat split.
    + rewrite length_insert. exact Hlen2.
    + reflexivity.
Qed.

End SenderQueue.

Section Blocking.
Context {env : Env}.

Lemma checks_for_busy_dest st dn d type :
  Z.of_nat dn < NPROCS -> os_ptable st !! dn = Some d -> p_state d <> DEAD ->
  pstate_eqb (p_state d) RECEIVING
    && ((p_msgtype d =? ANY) || (p_msgtype d =? type)) = false ->
  ptable_entry (Z.of_nat dn) st = Ok (Some dn) st /\
  bad_dest (Z.of_nat dn) (Some dn) st = Ok false st /\
  accept (Some dn) type st = Ok false st.
Proof.
  intros Hn Hd Hlive Hacc.
  assert (Hlt : Z.of_nat dn < os_nprocs st).
  { apply lookup_lt_Some in Hd. unfold os_nprocs. lia. }
  split; [|split].
  - rewrite ptable_entry_ok by lia.
    replace (Z.of_nat dn <? os_nprocs st) with true by (symmetry; apply Z.ltb_lt; lia).
    now rewrite Nat2Z.id.
  - pose proof (bad_dest_in_table st (Z.of_nat dn) d) as Hb.
    rewrite Nat2Z.id in Hb. rewrite Hb by (lia || auto).
    now rewrite not_dead.
  - rewrite (accept_ok _ _ _ type Hd). now rewrite Hacc.
Qed.

(** The caller joins the sender queue and the scheduler picks who runs. *)
Lemma block_then_choose st cur c dn d s type msg l :
  os_current st = Some cur -> os_ptable st !! cur = Some c ->
  os_ptable st !! dn = Some d -> is_waiting st dn l -> cur ∉ l ->
  length (os_readyq st) = 3%nat -> heads_valid st ->
  exists st1 st',
    (set_state (Some cur) s type msg ;; enqueue (Some dn)) st = Ok tt st1 /\
    choose_proc st1 = Ok tt st' /\
    is_waiting st' dn (l ++ [cur]) /\
    (exists c', os_ptable st' !! cur = Some c' /\
                p_state c' = s /\ p_msgtype c' = type /\ p_message c' = msg /\
                p_next c' = None /\ p_priority c' = p_priority c /\
                p_pid c' = p_pid c /\ p_pending c' = p_pending c) /\
    os_current st' = next_to_run st /\
    msgmem st' = msgmem st.
Proof.
  intros Hc Hcur Hd Hw Hnin Hlen Hv.
  destruct (join_queue st cur c dn d s type msg l Hc Hcur Hd Hw Hnin)
    as (st1 & Hjoin & Hw1 & Hc1 & Hlen1 & Hst1).
  assert (Hv1 : heads_valid st1).
  { rewrite Hst1. apply heads_valid_ptable; auto. }
  assert (Hq1 : length (os_readyq st1) = 3%nat) by (rewrite Hst1; exact Hlen).
  destruct (choose_proc_total st1 Hq1 Hv1) as (st' & Hch & Hcur' & Hst' & _).
  exists st1, st'. split; [exact Hjoin|]. split; [exact Hch|].
  assert (Htab : os_ptable st' = os_ptable st1) by (rewrite Hst'; reflexivity).
  split; [|split; [|split]].
  - destruct Hw1 as (d1 & Hd1 & Hl1). exists d1. rewrite Htab. auto.
  - rewrite Htab. exact Hc1.
  - rewrite Hcur'. rewrite Hst1. reflexivity.
  - rewrite Hst', Hst1. reflexivity.
Qed.

(** X1.  A [send] or [sendrec] to a live process that is not waiting for
    a message of this type blocks the caller: it is marked SENDING (for
    [sendrec], SENDREC) with the type and the buffer of the call, it goes
    last on the sender queue of the destination, behind the senders that
    came before it, no message is copied, and the scheduler gives the CPU
    to the head of the first ready queue that is not empty, or to the idle
    process. *)
Theorem sender_joins_queue_tail :
  forall (st : kstate) (cur dn : nat) (c d : proc) (type msg : Z)
         (l : list nat),
    os_current st = Some cur -> os_ptable st !! cur = Some c ->
    Z.of_nat dn < NPROCS -> os_ptable st !! dn = Some d ->
    p_state d <> DEAD ->
    pstate_eqb (p_state d) RECEIVING
      && ((p_msgtype d =? ANY) || (p_msgtype d =? type)) = false ->
    is_waiting st dn l -> cur ∉ l ->
    length (os_readyq st) = 3%nat -> heads_valid st ->
    (exists st',
       mini_send (Z.of_nat dn) type msg st = Ok tt st' /\
       is_waiting st' dn (l ++ [cur]) /\
       (exists c', os_ptable st' !! cur = Some c' /\ p_state c' = SENDING /\
                   p_msgtype c' = type /\ p_message c' = msg) /\
       os_current st' = next_to_run st /\
       msgmem st' = msgmem st) /\
    (exists st',
       mini_sendrec (Z.of_nat dn) type msg st = Ok tt st' /\
       is_waiting st' dn (l ++ [cur]) /\
       (exists c', os_ptable st' !! cur = Some c' /\ p_state c' = SENDREC /\
                   p_msgtype c' = type /\ p_message c' = msg) /\
       os_current st' = next_to_run st /\
       msgmem st' = msgmem st).
Proof.
  intros st cur dn c d type msg l Hc Hcur Hn Hd Hlive Hacc Hw Hnin Hlen Hv.
  destruct (checks_for_busy_dest st dn d type Hn Hd Hlive Hacc) as (He & Hb & Ha).
  split.
  - destruct (block_then_choose st cur c dn d SENDING type msg l
                Hc Hcur Hd Hw Hnin Hlen Hv)
      as (st1 & st' & Hjoin & Hch & Hw' & (c' & Hc' & F1 & F2 & F3 & _) & Hnext & Hmem).
    exists st'. split; [|split; [exact Hw'|split; [eauto|auto]]].
    unfold mini_send. unfold current at 1. unfold bind at 1. rewrite Hc.
    rewrite (bind_ok _ _ _ _ _ (deref_ok _ _ _ Hcur)).
    rewrite (bind_ok _ _ _ _ _ He).
    rewrite (bind_ok _ _ _ _ _ Hb).
    rewrite (bind_ok _ _ _ _ _ Ha).
    rewrite (bind_ok2 _ _ _ _ _ Hjoin). exact Hch.
  - destruct (block_then_choose st cur c dn d SENDREC type msg l
                Hc Hcur Hd Hw Hnin Hlen Hv)
      as (st1 & st' & Hjoin & Hch & Hw' & (c' & Hc' & F1 & F2 & F3 & _) & Hnext & Hmem).
    exists st'. split; [|split; [exact Hw'|split; [eauto|auto]]].
    unfold mini_sendrec. unfold current at 1. unfold bind at 1. rewrite Hc.
    rewrite (bind_ok _ _ _ _ _ (deref_ok _ _ _ Hcur)).
    rewrite (bind_ok _ _ _ _ _ He).
    rewrite (bind_ok _ _ _ _ _ Hb).
    rewrite (bind_ok _ _ _ _ _ Ha).
    rewrite (bind_ok _ _ _ _ _ Hjoin). exact Hch.
Qed.

End Blocking.

(** ** What the routines leave alone

    A property of the kernel state that survives the elementary writes
    survives the routines made of them. *)

Section Frames.
Context {env : Env}.
Variable P : kstate -> Prop.

Hypothesis P_update : forall st i d f,
  keeps_identity f -> P st -> os_ptable st !! i = Some d ->
  P (with_ptable (<[i := f d]> (os_ptable st)) st).
Hypothesis P_current : forall st v, P st -> P (with_current v st).
Hypothesis P_readyq : forall st k q,
  P st -> P (with_readyq (<[k := q]> (os_readyq st)) st).
Hypothesis P_msgmem : forall st v, P st -> P (with_msgmem v st).
Hypothesis P_pendsv : forall st v, P st -> P (with_pendsv v st).
Hypothesis P_irq : forall st v, P st -> P (with_irq_enabled v st).

Lemma frame_update p f : keeps_identity f -> keeps P (update p f).
Proof.
  intros Hf st a st' H HP. destruct a.
  apply update_inv in H as (i & di & -> & Hi & ->). now apply P_update.
Qed.

Lemma frame_set_readyq prio q : keeps P (set_readyq prio q).
Proof.
  unfold set_readyq. repeat keeps_step. apply keeps_modify. intros. now apply P_readyq.
Qed.

Ltac frame_split :=
  repeat first
    [ keeps_step
    | apply frame_set_readyq
    | apply frame_update; intros ?; repeat split
    | apply keeps_modify; intros;
      first [ now apply P_current | now apply P_msgmem
            | now apply P_pendsv | now apply P_irq ] ].

Lemma frame_make_ready p prio : keeps P (make_ready p prio).
Proof. unfold make_ready. frame_split. Qed.

Lemma frame_take_head p rest : keeps P rest -> keeps P (take_head p rest).
Proof. intros Hr. unfold take_head. frame_split. exact Hr. Qed.

Lemma frame_choose_proc : keeps P choose_proc.
Proof.
  unfold choose_proc. cbn [fold_right].
  repeat apply frame_take_head. frame_split.
Qed.

Lemma frame_set_state p s type msg : keeps P (set_state p s type msg).
Proof. unfold set_state. frame_split. Qed.

Lemma frame_deliver buf src type msg : keeps P (deliver buf src type msg).
Proof. unfold deliver. frame_split. Qed.

Lemma frame_last_sender fuel r : keeps P (last_sender fuel r).
Proof.
  revert r. induction fuel as [|fuel IH]; intros r; cbn [last_sender].
  - apply keeps_stuck.
  - frame_split. apply IH.
Qed.

Lemma frame_enqueue pdest : keeps P (enqueue pdest).
Proof. unfold enqueue. frame_split. apply frame_last_sender. Qed.

Lemma frame_accept pdest type : keeps P (accept pdest type).
Proof. unfold accept. frame_split. Qed.

Lemma frame_bad_dest dest pdest : keeps P (bad_dest dest pdest).
Proof. unfold bad_dest. frame_split. Qed.

Lemma frame_mini_send dest type msg : keeps P (mini_send dest type msg).
Proof.
  unfold mini_send. frame_split;
    auto using frame_accept, frame_bad_dest, frame_deliver, frame_make_ready,
               frame_set_state, frame_enqueue, frame_choose_proc.
Qed.

Lemma frame_mini_sendrec dest type msg : keeps P (mini_sendrec dest type msg).
Proof.
  unfold mini_sendrec. frame_split;
    auto using frame_accept, frame_bad_dest, frame_deliver, frame_make_ready,
               frame_set_state, frame_enqueue, frame_choose_proc.
Qed.

Lemma frame_assert b text : keeps P (assert b text).
Proof. unfold assert. frame_split. Qed.

Lemma frame_take_sender fuel type msg psrc prev :
  keeps P (take_sender fuel type msg psrc prev).
Proof.
  revert psrc prev. induction fuel as [|fuel IH]; intros psrc prev; cbn [take_sender].
  - apply keeps_stuck.
  - frame_split;
      auto using frame_deliver, frame_make_ready, frame_set_state, frame_assert.
Qed.

Lemma frame_mini_receive type msg : keeps P (mini_receive type msg).
Proof.
  unfold mini_receive. frame_split;
    auto using frame_deliver, frame_take_sender, frame_set_state,
               frame_choose_proc.
Qed.

Lemma frame_interrupt dest : keeps P (interrupt dest).
Proof.
  unfold interrupt. frame_split;
    auto using frame_accept, frame_deliver, frame_make_ready.
Qed.

Lemma frame_set_irq irq on : keeps P (set_irq irq on).
Proof. unfold set_irq. frame_split. Qed.

Lemma frame_default_handler irq : keeps P (default_handler irq).
Proof.
  unfold default_handler. frame_split;
    auto using frame_set_irq, frame_interrupt.
Qed.

Lemma frame_priority p : keeps P (priority p).
Proof. unfold priority. frame_split. Qed.

Lemma frame_cxt_switch psp : keeps P (cxt_switch psp).
Proof.
  unfold cxt_switch. frame_split;
    auto using frame_make_ready, frame_choose_proc.
Qed.

Lemma frame_system_call psp insn r0 r1 r2 :
  keeps P (system_call psp insn r0 r1 r2).
Proof.
  unfold system_call, microbian_dump. frame_split;
    auto using frame_make_ready, frame_choose_proc, frame_mini_send,
               frame_mini_receive, frame_mini_sendrec.
Qed.

Lemma frame_os_start psp : keeps P (os_start psp).
Proof.
  unfold os_start. frame_split. apply frame_system_call.
Qed.

End Frames.

Section HandOver.
Context {env : Env}.

(** [make_ready] leaves the sizes of the tables and the message memory
    alone. *)
Lemma make_ready_frame p prio st st' :
  make_ready p prio st = Ok tt st' ->
  length (os_ptable st') = length (os_ptable st) /\
  length (os_readyq st') = length (os_readyq st) /\
  msgmem st' = msgmem st /\ idle_proc st' = idle_proc st.
Proof.
  intros H.
  assert (Hk : keeps (fun s => length (os_ptable s) = length (os_ptable st) /\
                               length (os_readyq s) = length (os_readyq st) /\
                               msgmem s = msgmem st /\ idle_proc s = idle_proc st)
                     (make_ready p prio)).
  { apply frame_make_ready.
    - intros s i d f _ (H1 & H2 & H3 & H4) _. cbn. rewrite length_insert. auto.
    - intros s k q (H1 & H2 & H3 & H4). cbn. rewrite length_insert. auto. }
  apply (Hk _ _ _ H). auto.
Qed.

(** Delivery followed by [make_ready]: the buffer of the receiver holds
    the body found at [msg] under the sender and type given, no other
    message cell has changed, and the receiver is ACTIVE and last on the
    ready queue of the level. *)
Lemma hand_over st dn d buf src type msg k l :
  os_ptable st !! dn = Some d ->
  Z.of_nat k <> P_IDLE -> (k < 3)%nat ->
  is_queue st k l -> dn ∉ l ->
  length (os_readyq st) = 3%nat -> heads_valid st ->
  exists st',
    (deliver buf src type msg ;; make_ready (Some dn) (Z.of_nat k)) st
      = Ok tt st' /\
    is_queue st' k (l ++ [dn]) /\
    os_current st' = os_current st /\
    os_ptable st' !! dn = Some (set_p_next None (set_p_state ACTIVE d)) /\
    (forall j, j <> dn -> last l <> Some j ->
               os_ptable st' !! j = os_ptable st !! j) /\
    (buf <> 0 -> msg <> 0 ->
     msgmem st' buf = mkmsg type src (m_body (msgmem st msg))) /\
    (forall a, a <> buf -> msgmem st' a = msgmem st a) /\
    length (os_ptable st') = length (os_ptable st) /\
    length (os_readyq st') = 3%nat /\ heads_valid st' /\
    idle_proc st' = idle_proc st /\
    (forall j, j <> k -> os_readyq st' !! j = os_readyq st !! j).
Proof.
  intros Hd Hidle Hk Hq Hnin Hlen Hv.
  destruct (deliver_total buf src type msg st) as (mem' & Hdel & Hmem).
  rewrite (bind_ok _ _ _ _ _ Hdel).
  destruct (make_ready_enqueues (with_msgmem mem' st) k l dn d Hidle Hk
              (is_queue_msgmem _ _ _ _ Hq) Hd Hnin)
    as (st' & Hmr & Hq' & Hd' & Hother & Hqs & Hst').
  destruct (make_ready_frame _ _ _ _ Hmr) as (L1 & L2 & L3 & L4).
  cbn in L1, L2, L3, L4.
  exists st'. split; [exact Hmr|]. split; [exact Hq'|].
  split; [rewrite Hst'; reflexivity|]. split; [exact Hd'|].
  split; [exact Hother|].
  split; [|split; [|split; [exact L1|split; [congruence|split;
    [|split; [exact L4|exact Hqs]]]]]].
  - intros Hb Hm. rewrite L3.
    rewrite (deliver_copy buf _ _ _ st Hb Hm) in Hdel.
    injection Hdel as <-. unfold store_msg. now rewrite Z.eqb_refl.
  - intros a Ha. rewrite L3. now apply Hmem.
  - intros j q x Hjq Hx.
    apply lookup_lt_is_Some. rewrite L1.
    destruct (decide (j = k)) as [->|Hne].
    + destruct Hq' as (q' & Hq1 & Hl' & _).
      assert (q' = q) by congruence. subst q'. rewrite Hx in Hl'.
      inversion Hl' as [|i di l0 Hdi _ E]; subst.
      apply lookup_lt_Some in Hdi. now rewrite L1 in Hdi.
    + rewrite (Hqs j Hne) in Hjq. apply lookup_lt_is_Some. eapply Hv; eauto.
Qed.

(** X2.  A [send] or [sendrec] to a process that waits in a receive for
    this type hands the message over at once.  The buffer of the receiver
    holds the body of the sender's message under the type of the call and,
    as sender, the PID of the calling process as the kernel knows it,
    whatever the sender's buffer held in these two fields; no other
    message cell changes; and the receiver is ACTIVE and last on the ready
    queue of its priority.  After [send] the caller is still the current
    process.  After [sendrec] the caller waits in RECEIVING for a REPLY
    into the buffer it has sent from, and [choose_proc] has picked who
    runs: if a ready queue of a higher level has a head, the receiver is
    still last on its queue; if none has, the head of the receiver's
    queue runs, and the receiver is last on what is left of that queue,
    or is itself the one that runs when the queue was empty before. *)
Theorem waiting_receiver_gets_message :
  forall (st : kstate) (cur dn : nat) (c d : proc) (type msg : Z)
         (k : nat) (l : list nat),
    os_current st = Some cur -> os_ptable st !! cur = Some c ->
    Z.of_nat dn < NPROCS -> os_ptable st !! dn = Some d -> cur <> dn ->
    waits_for d type -> p_message d <> 0 -> msg <> 0 ->
    p_priority d = Z.of_nat k -> Z.of_nat k <> P_IDLE -> (k < 3)%nat ->
    is_queue st k l -> dn ∉ l -> cur ∉ l ->
    length (os_readyq st) = 3%nat -> heads_valid st ->
    (exists st',
       mini_send (Z.of_nat dn) type msg st = Ok tt st' /\
       msgmem st' (p_message d) = mkmsg type (p_pid c) (m_body (msgmem st msg)) /\
       (forall a, a <> p_message d -> msgmem st' a = msgmem st a) /\
       os_ptable st' !! dn = Some (set_p_next None (set_p_state ACTIVE d)) /\
       is_queue st' k (l ++ [dn]) /\
       os_current st' = Some cur /\ os_ptable st' !! cur = Some c) /\
    (exists st',
       mini_sendrec (Z.of_nat dn) type msg st = Ok tt st' /\
       msgmem st' (p_message d) = mkmsg type (p_pid c) (m_body (msgmem st msg)) /\
       (forall a, a <> p_message d -> msgmem st' a = msgmem st a) /\
       os_ptable st' !! dn = Some (set_p_next None (set_p_state ACTIVE d)) /\
       os_ptable st' !! cur
         = Some (set_p_message msg (set_p_msgtype REPLY (set_p_state RECEIVING c))) /\
       ((exists i q x, (i < k)%nat /\ os_readyq st !! i = Some q /\
                       q_head q = Some x) ->
        is_queue st' k (l ++ [dn])) /\
       ((forall i q, (i < k)%nat -> os_readyq st !! i = Some q ->
                     q_head q = None) ->
        exists h t, l ++ [dn] = h :: t /\ os_current st' = Some h /\
                    is_queue st' k t)).
Proof.
  intros st cur dn c d type msg k l Hc Hcur Hn Hd Hne Hw Hbuf Hmsg Hprio Hidle Hk
         Hq Hnin Hcnin Hlen Hv.
  destruct (dest_checks_pass st dn d type Hn Hd Hw) as (He & Hb & Ha).
  destruct (hand_over st dn d (p_message d) (p_pid c) type msg k l
              Hd Hidle Hk Hq Hnin Hlen Hv)
    as (st1 & Hwake & Hq1 & Hcur1 & Hd1 & Hother & Hcell & Hmem & L1 & L2 & Hv1 & Hi1
        & Hqs1).
  assert (Hc1 : os_ptable st1 !! cur = Some c).
  { rewrite Hother; auto. intros Hl. apply Hcnin. now apply last_elem_of. }
  split.
  - exists st1. split; [|repeat split; auto; congruence].
    unfold mini_send. unfold current at 1. unfold bind at 1. rewrite Hc.
    rewrite (bind_ok _ _ _ _ _ (deref_ok _ _ _ Hcur)).
    rewrite (bind_ok _ _ _ _ _ He).
    rewrite (bind_ok _ _ _ _ _ Hb).
    rewrite (bind_ok _ _ _ _ _ Ha).
    rewrite (bind_ok _ _ _ _ _ (deref_ok _ _ _ Hd)).
    rewrite Hprio. exact Hwake.
  - set (c3 := set_p_message msg (set_p_msgtype REPLY (set_p_state RECEIVING c))).
    set (st2 := with_ptable (<[cur := c3]> (os_ptable st1)) st1).
    assert (Hv2 : heads_valid st2).
    { apply heads_valid_ptable; [exact Hv1|apply length_insert]. }
    destruct (choose_proc_total st2 L2 Hv2) as (st3 & Hch & _ & Hst3 & _).
    exists st3. split.
    + unfold mini_sendrec. unfold current at 1. unfold bind at 1. rewrite Hc.
      rewrite (bind_ok _ _ _ _ _ (deref_ok _ _ _ Hcur)).
      rewrite (bind_ok _ _ _ _ _ He).
      rewrite (bind_ok _ _ _ _ _ Hb).
      rewrite (bind_ok _ _ _ _ _ Ha).
      erewrite bind_ok; [exact Hch|].
      rewrite (bind_ok _ _ _ _ _ (deref_ok _ _ _ Hd)).
      rewrite Hprio. rewrite (bind_ok2 _ _ _ _ _ Hwake).
      now rewrite (set_state_ok _ _ _ _ _ _ Hc1).
    + assert (Hq2 : is_queue st2 k (l ++ [dn])).
      { eapply is_queue_update_keep; [exact Hq1|exact Hc1|reflexivity]. }
      assert (Hqs2 : forall i, (i < k)%nat ->
                os_readyq st2 !! i = os_readyq st !! i).
      { intros i Hi. cbn. apply Hqs1. lia. }
      pose proof (choose_proc_queues st2 st3 k (l ++ [dn]) L2 Hv2 Hch Hq2)
        as Hqueues.
      rewrite Hst3. cbn [msgmem os_ptable with_readyq with_current with_ptable st2].
      split; [auto|]. split; [exact Hmem|].
      split; [rewrite list_lookup_insert_ne by auto; exact Hd1|].
      split; [apply list_lookup_insert_eq; eapply lookup_lt_Some; eauto|].
      rewrite <- Hst3. split.
      * intros (i & q & x & Hi & Hiq & Hx).
        destruct Hqueues as [[G _]|(h & t & _ & _ & _ & Hbelow)]; [exact G|].
        rewrite <- (Hqs2 i Hi) in Hiq.
        rewrite (Hbelow i q Hi Hiq) in Hx. discriminate Hx.
      * intros Hempty.
        destruct Hqueues as [[_ [E|(i & q & x & Hi & Hiq & Hx)]]|
                             (h & t & E & Hcur3 & Hq3 & _)].
        -- destruct l; discriminate E.
        -- rewrite (Hqs2 i Hi) in Hiq.
           rewrite (Hempty i q Hi Hiq) in Hx. discriminate Hx.
        -- exists h, t. auto.
Qed.

End HandOver.

Section Receiving.
Context {env : Env}.

(** The walk of [mini_receive] that finds a matching sender, in state
    SENDING, at the head of the queue. *)
Lemma first_sender_walk st cur s c ds type msg l k lq :
  os_current st = Some cur -> os_ptable st !! cur = Some c ->
  is_waiting st cur (s :: l) -> os_ptable st !! s = Some ds -> s <> cur ->
  p_state ds = SENDING ->
  type = ANY \/ p_msgtype ds = type ->
  msg <> 0 -> p_message ds <> 0 ->
  p_priority ds = Z.of_nat k -> Z.of_nat k <> P_IDLE -> (k < 3)%nat ->
  is_queue st k lq -> s ∉ lq -> cur ∉ lq -> (forall x, x ∈ lq -> x ∉ l) ->
  exists st',
    take_sender (S (length (os_ptable st))) type msg (p_waiting c) None st
      = Ok true st' /\
    os_current st' = Some cur /\
    msgmem st' msg
      = mkmsg (p_msgtype ds) (p_pid ds) (m_body (msgmem st (p_message ds))) /\
    (forall a, a <> msg -> msgmem st' a = msgmem st a) /\
    is_waiting st' cur l /\
    os_ptable st' !! s = Some (set_p_next None (set_p_state ACTIVE ds)) /\
    is_queue st' k (lq ++ [s]).
Proof.
  intros Hc Hcur (c0 & Hc0 & Hl) Hs Hne Hstate
         Hmatch Hmsg Hsrc Hprio Hidle Hk Hq Hsq Hcq Hdisj.
  assert (c0 = c) by congruence. subst c0.
  inversion Hl as [|i d0 l0 Hd0 Hrest E1]; subst.
  assert (d0 = ds) by congruence. subst d0.
  assert (Hsl : s ∉ l).
  { pose proof (lseg_NoDup _ _ _ Hl) as Hnd. now apply NoDup_cons in Hnd as [? _]. }
  assert (Hclt : (cur < length (os_ptable st))%nat) by (eapply lookup_lt_Some; eauto).
  set (c1 := set_p_waiting (p_next ds) c).
  set (st1 := with_ptable (<[cur := c1]> (os_ptable st)) st).
  destruct (deliver_total msg (p_pid ds) (p_msgtype ds) (p_message ds) st1)
    as (mem' & Hdel & Hmem).
  set (st2 := with_msgmem mem' st1) in *.
  assert (Hs2 : os_ptable st2 !! s = Some ds).
  { cbn. rewrite list_lookup_insert_ne; auto. }
  assert (Hq2 : is_queue st2 k lq).
  { eapply is_queue_ext; [exact Hq|reflexivity|].
    intros j Hj. cbn. rewrite list_lookup_insert_ne; [reflexivity|].
    intros ->. contradiction. }
  destruct (make_ready_enqueues st2 k lq s ds Hidle Hk Hq2 Hs2 Hsq)
    as (st' & Hmr & Hq' & Hd' & Hother & Hqs & Hst').
  assert (Hcur' : os_ptable st' !! cur = Some c1).
  { rewrite Hother; auto.
    - cbn. apply list_lookup_insert_eq, Hclt.
    - intros Hl'. apply Hcq. now apply last_elem_of. }
  exists st'.
  split; [|split; [rewrite Hst'; exact Hc|split; [|split; [|split;
    [|split; [exact Hd'|exact Hq']]]]]].
  - cbn [take_sender].
    rewrite (bind_ok _ _ _ _ _ (deref_ok _ _ _ Hs)).
    rewrite (filter_matches _ _ Hmatch).
    unfold current at 1. unfold bind at 1. rewrite Hc.
    rewrite (bind_ok _ _ _ _ _ (update_ok _ _ _ _ Hcur)). fold c1 st1.
    rewrite (bind_ok _ _ _ _ _ Hdel). fold st2.
    rewrite Hstate. cbn [pstate_eqb]. rewrite Hprio.
    now rewrite (bind_ok _ _ _ _ _ Hmr).
  - rewrite Hst'. cbn.
    rewrite (deliver_copy msg _ _ _ st1 Hmsg Hsrc) in Hdel.
    injection Hdel as Hm. rewrite <- Hm. unfold store_msg.
    now rewrite Z.eqb_refl.
  - intros a Ha. rewrite Hst'. cbn. now apply Hmem.
  - exists c1. split; [exact Hcur'|]. cbn [c1 set_p_waiting p_waiting].
    apply lseg_ext with (ps := <[cur := c1]> (os_ptable st)).
    + eapply lseg_update_keep; eauto.
    + intros j Hj. apply Hother.
      * intros ->. contradiction.
      * intros Hl'. apply last_elem_of in Hl'. apply (Hdisj j Hl' Hj).
Qed.

(** X3.  A receive that finds a matching sender at the head of the queue,
    the sender being in state SENDING, takes its message: the buffer of
    the receiver holds the body of the sender's message under the type
    the sender gave and the PID of the sender, the sender leaves the
    sender queue, whose other members keep their order, and is ACTIVE and
    last on the ready queue of its priority; the receiver goes on
    running. *)
Theorem receive_takes_first_sender :
  forall (st : kstate) (cur s : nat) (c ds : proc) (type msg : Z)
         (l : list nat) (k : nat) (lq : list nat),
    os_current st = Some cur -> os_ptable st !! cur = Some c ->
    is_waiting st cur (s :: l) -> os_ptable st !! s = Some ds -> s <> cur ->
    p_state ds = SENDING ->
    p_pending c && ((type =? ANY) || (type =? INTERRUPT)) = false ->
    type <> INTERRUPT -> type = ANY \/ p_msgtype ds = type ->
    msg <> 0 -> p_message ds <> 0 ->
    p_priority ds = Z.of_nat k -> Z.of_nat k <> P_IDLE -> (k < 3)%nat ->
    is_queue st k lq -> s ∉ lq -> cur ∉ lq -> (forall x, x ∈ lq -> x ∉ l) ->
    exists st',
      mini_receive type msg st = Ok tt st' /\
      os_current st' = Some cur /\
      msgmem st' msg
        = mkmsg (p_msgtype ds) (p_pid ds) (m_body (msgmem st (p_message ds))) /\
      (forall a, a <> msg -> msgmem st' a = msgmem st a) /\
      is_waiting st' cur l /\
      os_ptable st' !! s = Some (set_p_next None (set_p_state ACTIVE ds)) /\
      is_queue st' k (lq ++ [s]).
Proof.
  intros st cur s c ds type msg l k lq Hc Hcur Hw Hs Hne Hstate
         Hpend Ht Hmatch Hmsg Hsrc Hprio Hidle Hk Hq Hsq Hcq Hdisj.
  destruct (first_sender_walk st cur s c ds type msg l k lq Hc Hcur Hw Hs Hne
              Hstate Hmatch Hmsg Hsrc Hprio Hidle Hk Hq Hsq Hcq Hdisj)
    as (st' & Hwalk & Hrest).
  exists st'. split; [|exact Hrest].
  rewrite (mini_receive_walks st cur c type msg Hc Hcur Hpend Ht).
  now rewrite (bind_ok _ _ _ _ _ Hwalk).
Qed.

(** The walk of [mini_receive] along a queue on which no sender has a
    type the filter takes: it comes to the end and nothing is taken. *)
Lemma take_sender_none fuel st type msg h prev l :
  lseg (os_ptable st) h l ->
  (forall x dx, x ∈ l -> os_ptable st !! x = Some dx ->
                (type =? ANY) || (p_msgtype dx =? type) = false) ->
  (length l < fuel)%nat ->
  take_sender fuel type msg h prev st = Ok false st.
Proof.
  intros H. revert fuel prev.
  induction H as [|i d l Hd Hl IH]; intros fuel prev Hno Hf.
  - destruct fuel; [lia|]. reflexivity.
  - destruct fuel as [|fuel]; [lia|]. cbn [take_sender].
    rewrite (bind_ok _ _ _ _ _ (deref_ok _ _ _ Hd)).
    rewrite (Hno i d ltac:(constructor) Hd).
    apply IH.
    + intros x dx Hx. apply Hno. now constructor.
    + cbn in Hf. lia.
Qed.

(** The waiting half of [mini_receive]. *)
Lemma wait_for_message st cur c type msg l :
  os_current st = Some cur -> os_ptable st !! cur = Some c ->
  is_waiting st cur l ->
  length (os_readyq st) = 3%nat -> heads_valid st ->
  exists st',
    (set_state (Some cur) RECEIVING type msg ;; choose_proc) st = Ok tt st' /\
    os_ptable st'
      = <[cur := set_p_message msg (set_p_msgtype type (set_p_state RECEIVING c))]>
          (os_ptable st) /\
    is_waiting st' cur l /\
    os_current st' = next_to_run st /\
    msgmem st' = msgmem st.
Proof.
  intros Hc Hcur (c0 & Hc0 & Hl) Hlen Hv.
  assert (c0 = c) by congruence. subst c0.
  set (c1 := set_p_message msg (set_p_msgtype type (set_p_state RECEIVING c))).
  set (st1 := with_ptable (<[cur := c1]> (os_ptable st)) st).
  assert (Hv1 : heads_valid st1).
  { apply heads_valid_ptable; [exact Hv|apply length_insert]. }
  destruct (choose_proc_total st1 Hlen Hv1) as (st' & Hch & Hnext & Hst' & _).
  exists st'.
  split; [rewrite (bind_ok _ _ _ _ _ (set_state_ok _ _ _ _ _ _ Hcur)); exact Hch|].
  rewrite Hst'. cbn [os_ptable msgmem with_readyq with_current st1 with_ptable].
  split; [reflexivity|]. split; [|split; [exact Hnext|reflexivity]].
  exists c1. split.
  - apply list_lookup_insert_eq. eapply lookup_lt_Some; eauto.
  - cbn [c1 p_waiting set_p_message set_p_msgtype set_p_state].
    eapply lseg_update_keep; eauto.
Qed.

(** X4.  A receive whose filter no waiting sender matches, made with no
    interrupt pending for it, takes nothing: the walk along the sender
    queue comes to its end, the receiver is marked RECEIVING with the
    filter and the buffer of the call, the sender queue is as it was, no
    message cell changes, and the scheduler picks the next process. *)
Theorem receive_waits_when_nothing_matches :
  forall (st : kstate) (cur : nat) (c : proc) (type msg : Z) (l : list nat),
    os_current st = Some cur -> os_ptable st !! cur = Some c ->
    is_waiting st cur l ->
    p_pending c && ((type =? ANY) || (type =? INTERRUPT)) = false ->
    type <> INTERRUPT ->
    (type = ANY -> l = []) ->
    (forall x dx, x ∈ l -> os_ptable st !! x = Some dx -> p_msgtype dx <> type) ->
    length (os_readyq st) = 3%nat -> heads_valid st ->
    exists st',
      mini_receive type msg st = Ok tt st' /\
      os_ptable st'
        = <[cur := set_p_message msg (set_p_msgtype type (set_p_state RECEIVING c))]>
            (os_ptable st) /\
      is_waiting st' cur l /\
      os_current st' = next_to_run st /\
      msgmem st' = msgmem st.
Proof.
  intros st cur c type msg l Hc Hcur Hw Hpend Ht Hany Hno Hlen Hv.
  rewrite (mini_receive_walks st cur c type msg Hc Hcur Hpend Ht).
  assert (Hwalk : take_sender (S (length (os_ptable st))) type msg (p_waiting c) None st
                  = Ok false st).
  { destruct Hw as (c0 & Hc0 & Hl).
    assert (c0 = c) by congruence. subst c0.
    apply take_sender_none with (l := l); [exact Hl| |].
    - intros x dx Hx Hdx. apply filter_differs.
      + intros E. rewrite (Hany E) in Hx. inversion Hx.
      + eapply Hno; eauto.
    - pose proof (lseg_length _ _ _ Hl). lia. }
  rewrite (bind_ok _ _ _ _ _ Hwalk).
  now apply wait_for_message.
Qed.

(** X5.  A receive with filter INTERRUPT, made with no interrupt pending,
    does not look at the sender queue at all: whatever senders wait,
    whatever the types of their messages, they stay queued in their order,
    no message is delivered, and the receiver waits in RECEIVING with
    filter INTERRUPT. *)
Theorem receive_interrupt_leaves_senders :
  forall (st : kstate) (cur : nat) (c : proc) (msg : Z) (l : list nat),
    os_current st = Some cur -> os_ptable st !! cur = Some c ->
    is_waiting st cur l -> p_pending c = false ->
    length (os_readyq st) = 3%nat -> heads_valid st ->
    exists st',
      mini_receive INTERRUPT msg st = Ok tt st' /\
      os_ptable st'
        = <[cur := set_p_message msg
                     (set_p_msgtype INTERRUPT (set_p_state RECEIVING c))]>
            (os_ptable st) /\
      is_waiting st' cur l /\
      os_current st' = next_to_run st /\
      msgmem st' = msgmem st.
Proof.
  intros st cur c msg l Hc Hcur Hw Hpend Hlen Hv.
  destruct (wait_for_message st cur c INTERRUPT msg l Hc Hcur Hw Hlen Hv)
    as (st' & Hrun & Hrest).
  exists st'. split; [|exact Hrest].
  unfold mini_receive. unfold current at 1. unfold bind at 1. rewrite Hc.
  rewrite (bind_ok _ _ _ _ _ (deref_ok _ _ _ Hcur)).
  rewrite Hpend. cbn [andb]. rewrite Z.eqb_refl. cbn [negb].
  unfold ret at 1. unfold bind at 1. exact Hrun.
Qed.

End Receiving.

Section Coalescing.
Context {env : Env}.

(** X7.  Interrupts are not counted.  Any number of interrupts for a
    process that is not waiting for one leave the same state as a single
    interrupt: the pending flag set, and nothing else changed. *)
Theorem interrupts_coalesce :
  forall (st : kstate) (d : nat) (dd : proc) (n : nat),
    Z.of_nat d < NPROCS -> os_ptable st !! d = Some dd ->
    pstate_eqb (p_state dd) RECEIVING
      && ((p_msgtype dd =? ANY) || (p_msgtype dd =? INTERRUPT)) = false ->
    interrupts (S n) (Z.of_nat d) st = interrupt (Z.of_nat d) st /\
    interrupt (Z.of_nat d) st
      = Ok tt (with_ptable (<[d := set_p_pending true dd]> (os_ptable st)) st).
Proof.
  intros st d dd n Hd Hdd Hacc.
  pose proof (interrupt_sets_pending st d dd Hd Hdd Hacc) as H1.
  split; [|exact H1]. rewrite H1.
  assert (Hlt : (d < length (os_ptable st))%nat) by (eapply lookup_lt_Some; eauto).
  set (st1 := with_ptable (<[d := set_p_pending true dd]> (os_ptable st)) st).
  assert (Hagain : interrupt (Z.of_nat d) st1 = Ok tt st1).
  { rewrite (interrupt_sets_pending st1 d (set_p_pending true dd) Hd).
    - unfold st1, with_ptable. cbn. now rewrite list_insert_insert_eq.
    - cbn. apply list_lookup_insert_eq, Hlt.
    - exact Hacc. }
  cbn [interrupts]. rewrite (bind_ok _ _ _ _ _ H1). fold st1.
  induction n as [|n IH]; [reflexivity|].
  cbn [interrupts]. now rewrite (bind_ok _ _ _ _ _ Hagain).
Qed.

End Coalescing.

Section Yielding.
Context {env : Env}.

(** X11.  A yield is a context switch asked for by the process itself:
    the system call with number 0 does to the kernel state, and returns,
    exactly what [cxt_switch] does at the same stack pointer, the
    outcomes other than a return included. *)
Theorem yield_is_context_switch :
  forall (psp insn r0 r1 r2 : Z) (st : kstate),
    Z.land insn 0xff = SYS_YIELD ->
    system_call psp insn r0 r1 r2 st = cxt_switch psp st.
Proof.
  intros psp insn r0 r1 r2 st Hop.
  unfold system_call, cxt_switch. cbv zeta. rewrite Hop.
  cbn [SYS_YIELD Z.eqb].
  unfold bind.
  destruct (current st) as [cur s1| |]; [|reflexivity|reflexivity].
  destruct (update cur (set_p_sp psp) s1) as [[] s2| |]; [|reflexivity|reflexivity].
  destruct (deref cur s2) as [c s3| |]; [|reflexivity|reflexivity].
  destruct (make_ready cur (p_priority c) s3) as [[] s4| |]; [|reflexivity|reflexivity].
  destruct (choose_proc s4) as [[] s5| |]; reflexivity.
Qed.

(** The running process yields: it goes to the back of its queue and the
    head of that queue runs, nothing being ready at a level above. *)
Lemma yield_steps st cur c psp insn r0 r1 r2 k l :
  Z.land insn 0xff = SYS_YIELD ->
  os_current st = Some cur -> os_ptable st !! cur = Some c ->
  p_priority c = Z.of_nat k -> (k < 3)%nat -> Z.of_nat k <> P_IDLE ->
  is_queue st k l -> cur ∉ l ->
  (forall j q, (j < k)%nat -> os_readyq st !! j = Some q -> q_head q = None) ->
  exists h t sp st',
    l ++ [cur] = h :: t /\
    system_call psp insn r0 r1 r2 st = Ok sp st' /\
    os_current st' = Some h /\
    is_queue st' k t /\
    (exists dh, os_ptable st' !! h = Some dh /\ p_sp dh = sp) /\
    (exists c', os_ptable st' !! cur = Some c' /\ p_sp c' = psp /\
                p_state c' = ACTIVE).
Proof.
  intros Hop Hc Hcur Hprio Hk Hidle Hq Hnin Hempty.
  assert (Hclt : (cur < length (os_ptable st))%nat) by (eapply lookup_lt_Some; eauto).
  set (c1 := set_p_sp psp c).
  set (st1 := with_ptable (<[cur := c1]> (os_ptable st)) st).
  assert (Hc1 : os_ptable st1 !! cur = Some c1).
  { cbn. apply list_lookup_insert_eq, Hclt. }
  assert (Hq1 : is_queue st1 k l) by (eapply is_queue_update_keep; eauto).
  destruct (make_ready_enqueues st1 k l cur c1 Hidle Hk Hq1 Hc1 Hnin)
    as (st2 & Hmr & Hq2 & Hc2 & Hother & Hqs & Hst2).
  assert (Hsplit : exists h t, l ++ [cur] = h :: t).
  { destruct l as [|x l']; cbn; eauto. }
  destruct Hsplit as (h & t & Hht). rewrite Hht in Hq2.
  assert (Hempty2 : forall j q, (j < k)%nat -> os_readyq st2 !! j = Some q ->
                                q_head q = None).
  { intros j q Hj Hjq. rewrite Hqs in Hjq by lia. eapply Hempty; eauto. }
  destruct (choose_proc_first st2 k h t Hk Hempty2 Hq2)
    as (st3 & Hch & Hcur3 & Hq3 & Htab3 & _ & _).
  destruct (is_queue_head_valid _ _ _ _ Hq2) as (dh & Hdh).
  exists h, t, (p_sp dh), st3.
  split; [exact Hht|].
  split; [|split; [exact Hcur3|split; [exact Hq3|split]]].
  - unfold system_call.
    unfold current at 1. unfold bind at 1. rewrite Hc.
    rewrite (bind_ok _ _ _ _ _ (update_ok _ _ _ _ Hcur)). fold c1 st1.
    rewrite Hop. cbn [SYS_YIELD Z.eqb].
    erewrite bind_ok with (a := tt) (st' := st3).
    + unfold current at 1. unfold bind at 1. rewrite Hcur3.
      assert (Hdh3 : os_ptable st3 !! h = Some dh) by (rewrite Htab3; exact Hdh).
      now rewrite (bind_ok _ _ _ _ _ (deref_ok _ _ _ Hdh3)).
    + rewrite (bind_ok _ _ _ _ _ (deref_ok _ _ _ Hc1)).
      cbn [c1 set_p_sp p_priority]. rewrite Hprio.
      now rewrite (bind_ok _ _ _ _ _ Hmr).
  - exists dh. rewrite Htab3. auto.
  - rewrite Htab3. eexists. split; [exact Hc2|]. now cbn.
Qed.

(** X12.  Processes of one priority take turns.  When the running process
    yields and nothing is ready at a level above its own, it goes to the
    back of the ready queue of its level and the process that was at the
    head of that queue runs, the others keeping their order; the value
    returned is the saved stack pointer of the process that runs.  A
    process alone at its level gets the CPU back at once, at the stack
    pointer it trapped with. *)
Theorem yield_round_robin :
  forall (st : kstate) (cur : nat) (c : proc) (psp insn r0 r1 r2 : Z)
         (k : nat) (l : list nat),
    Z.land insn 0xff = SYS_YIELD ->
    os_current st = Some cur -> os_ptable st !! cur = Some c ->
    p_priority c = Z.of_nat k -> (k < 3)%nat -> Z.of_nat k <> P_IDLE ->
    is_queue st k l -> cur ∉ l ->
    (forall j q, (j < k)%nat -> os_readyq st !! j = Some q -> q_head q = None) ->
    exists h t sp st',
      l ++ [cur] = h :: t /\
      system_call psp insn r0 r1 r2 st = Ok sp st' /\
      os_current st' = Some h /\
      is_queue st' k t /\
      (exists dh, os_ptable st' !! h = Some dh /\ p_sp dh = sp) /\
      (l = [] -> h = cur /\ sp = psp).
Proof.
  intros st cur c psp insn r0 r1 r2 k l Hop Hc Hcur Hprio Hk Hidle Hq Hnin Hempty.
  destruct (yield_steps st cur c psp insn r0 r1 r2 k l
              Hop Hc Hcur Hprio Hk Hidle Hq Hnin Hempty)
    as (h & t & sp & st' & Hht & Hsw & Hcur' & Hq' & (dh & Hdh & Hsp) & (c' & Hc' & Hcsp & _)).
  exists h, t, sp, st'.
  split; [exact Hht|]. split; [exact Hsw|].
  split; [exact Hcur'|]. split; [exact Hq'|]. split; [eauto|].
  intros ->. cbn in Hht. injection Hht as <- <-.
    split; [reflexivity|]. congruence.
Qed.

End Yielding.

Section Leaving.
Context {env : Env}.

Lemma first_ready_head qs x :
  first_ready qs = Some x -> exists j q, qs !! j = Some q /\ q_head q = Some x.
Proof.
  induction qs as [|q qs IH]; [discriminate|]. cbn [first_ready].
  destruct (q_head q) as [y|] eqn:E.
  - intros H. injection H as ->. now exists 0%nat, q.
  - intros H. destruct (IH H) as (j & q' & Hj & Hq). now exists (S j), q'.
Qed.

(** With the idle process in place there is always a process to run. *)
Lemma next_to_run_valid st idl di :
  heads_valid st -> idle_proc st = Some idl -> os_ptable st !! idl = Some di ->
  exists n dn, next_to_run st = Some n /\ os_ptable st !! n = Some dn.
Proof.
  intros Hv Hi Hdi. unfold next_to_run.
  destruct (first_ready (os_readyq st)) as [x|] eqn:E.
  - apply first_ready_head in E as (j & q & Hj & Hq).
    destruct (Hv j q x Hj Hq) as [dx Hdx]. eauto.
  - rewrite Hi. eauto.
Qed.

(** X14.  [exit] marks the calling process DEAD and hands the CPU to the
    process that [choose_proc] selects.  No ready queue gains a member:
    each is as it was, or has lost its head, which now runs; so the
    caller, on none of them before, is on none after.  Its descriptor
    stays in the table, and in the state that [exit] leaves a [send] or
    [sendrec] addressed to it panics. *)
Theorem exit_leaves_dead_process :
  forall (st : kstate) (cur idl : nat) (c di : proc) (psp insn r0 r1 r2 : Z),
    Z.land insn 0xff = SYS_EXIT ->
    os_current st = Some cur -> os_ptable st !! cur = Some c ->
    Z.of_nat cur < NPROCS ->
    idle_proc st = Some idl -> os_ptable st !! idl = Some di ->
    length (os_readyq st) = 3%nat -> heads_valid st ->
    exists sp st',
      system_call psp insn r0 r1 r2 st = Ok sp st' /\
      os_ptable st' = <[cur := set_p_state DEAD (set_p_sp psp c)]> (os_ptable st) /\
      os_current st' = next_to_run st /\
      (forall j lj, is_queue st j lj -> cur ∉ lj ->
         exists lj', is_queue st' j lj' /\ (cur ∉ lj') /\
                     (lj' = lj \/
                      exists h, lj = h :: lj' /\ os_current st' = Some h)) /\
      forall type msg,
        mini_send (Z.of_nat cur) type msg st'
          = Panic "Sending to a non-existent process %d" [Z.of_nat cur] st' /\
        mini_sendrec (Z.of_nat cur) type msg st'
          = Panic "Sending to a non-existent process %d" [Z.of_nat cur] st'.
Proof.
  intros st cur idl c di psp insn r0 r1 r2 Hop Hc Hcur Hn Hi Hdi Hlen Hv.
  assert (Hclt : (cur < length (os_ptable st))%nat) by (eapply lookup_lt_Some; eauto).
  set (st1 := with_ptable (<[cur := set_p_sp psp c]> (os_ptable st)) st).
  assert (Hc1 : os_ptable st1 !! cur = Some (set_p_sp psp c)).
  { cbn. apply list_lookup_insert_eq, Hclt. }
  set (cd := set_p_state DEAD (set_p_sp psp c)).
  set (st2 := with_ptable (<[cur := cd]> (os_ptable st)) st).
  assert (Est : with_ptable (<[cur := cd]> (os_ptable st1)) st1 = st2).
  { unfold st2, st1, with_ptable. cbn. now rewrite list_insert_insert_eq. }
  assert (Hv2 : heads_valid st2).
  { apply heads_valid_ptable; [exact Hv|apply length_insert]. }
  destruct (choose_proc_total st2 Hlen Hv2) as (st3 & Hch & Hnext & Hst3 & _).
  assert (Htab : os_ptable st3 = <[cur := cd]> (os_ptable st)).
  { rewrite Hst3. reflexivity. }
  assert (Hrun : exists n dn, os_current st3 = Some n /\ os_ptable st3 !! n = Some dn).
  { destruct (next_to_run_valid st idl di Hv Hi Hdi) as (n & dn & Hn1 & Hn2).
    assert (is_Some (os_ptable st3 !! n)) as [dn' Hdn'].
    { rewrite Htab. apply lookup_lt_is_Some. rewrite length_insert.
      eapply lookup_lt_Some; eauto. }
    exists n, dn'. split; [|exact Hdn']. rewrite Hnext. exact Hn1. }
  destruct Hrun as (n & dn & Hn1 & Hn2).
  exists (p_sp dn), st3.
  split; [|split; [exact Htab|split; [exact Hnext|split]]].
  - unfold system_call.
    unfold current at 1. unfold bind at 1. rewrite Hc.
    rewrite (bind_ok _ _ _ _ _ (update_ok _ _ _ _ Hcur)). fold st1.
    rewrite Hop. cbn [SYS_EXIT SYS_SENDREC SYS_RECEIVE SYS_SEND SYS_YIELD Z.eqb Pos.eqb].
    erewrite bind_ok with (a := tt) (st' := st3).
    + unfold current at 1. unfold bind at 1. rewrite Hn1.
      now rewrite (bind_ok _ _ _ _ _ (deref_ok _ _ _ Hn2)).
    + rewrite (bind_ok _ _ _ _ _ (update_ok _ _ _ _ Hc1)). fold cd.
      rewrite Est. exact Hch.
  - intros j lj Hq Hnin.
    apply (choose_proc_joins_none st2 st3 cur j lj Hlen Hv2 Hch); [|exact Hnin].
    eapply is_queue_update_keep; [exact Hq|exact Hcur|reflexivity].
  - intros type msg.
    apply (mini_send_panics_in_table st3 n dn (Z.of_nat cur) type msg Hn1 Hn2).
    + lia.
    + right. exists cd. rewrite Nat2Z.id, Htab.
      split; [apply list_lookup_insert_eq, Hclt|reflexivity].
Qed.

Lemma svc_operand op : 0 <= op < 256 -> Z.land (svc op) 0xff = op.
Proof.
  intros H. unfold svc. rewrite Z.land_lor_distr_l.
  change (Z.land 0xdf00 0xff) with 0. rewrite Z.lor_0_l.
  change 0xff with (Z.ones 8). rewrite Z.land_ones by lia.
  apply Z.mod_small. change (2 ^ 8) with 256. lia.
Qed.

(** X15.  The system call number is the low byte of the [svc]
    instruction, which holds the operand of [svc] unchanged.  A number
    above 5 belongs to no call: the kernel panics with the number as the
    argument of the diagnostic, having saved the stack pointer of the
    caller and changed nothing else. *)
Theorem unknown_syscall_panics :
  forall (st : kstate) (cur : nat) (c : proc) (psp op r0 r1 r2 : Z),
    os_current st = Some cur -> os_ptable st !! cur = Some c ->
    SYS_DUMP < op < 256 ->
    Z.land (svc op) 0xff = op /\
    system_call psp (svc op) r0 r1 r2 st
      = Panic "Unknown syscall %d" [op]
              (with_ptable (<[cur := set_p_sp psp c]> (os_ptable st)) st).
Proof.
  intros st cur c psp op r0 r1 r2 Hc Hcur Hop.
  assert (Hdec : Z.land (svc op) 0xff = op).
  { apply svc_operand. unfold SYS_DUMP in Hop. lia. }
  split; [exact Hdec|].
  unfold system_call.
  unfold current at 1. unfold bind at 1. rewrite Hc.
  rewrite (bind_ok _ _ _ _ _ (update_ok _ _ _ _ Hcur)).
  rewrite Hdec.
  unfold SYS_YIELD, SYS_SEND, SYS_RECEIVE, SYS_SENDREC, SYS_EXIT, SYS_DUMP in *.
  repeat match goal with
         | |- context [op =? ?n] =>
             replace (op =? n) with false by (symmetry; apply Z.eqb_neq; lia)
         end.
  reflexivity.
Qed.

End Leaving.

Section Priorities.
Context {env : Env}.

(** X13.  [priority] accepts the levels from 0 to [P_LOW] and panics on
    any other, the state as it was.  It changes the priority field of the
    calling process and nothing else, the ready queues included: the new
    level counts from the next time the process is queued.  When the
    process then yields, with nothing ready above the new level, it goes
    to the back of the ready queue of the new level. *)
Theorem priority_counts_from_next_queueing :
  forall (st : kstate) (cur : nat) (c : proc) (p psp insn r0 r1 r2 : Z)
         (k : nat) (l : list nat),
    os_current st = Some cur -> os_ptable st !! cur = Some c ->
    ((p < 0 \/ P_LOW < p) -> priority p st = Panic bad_priority [p] st) /\
    (0 <= p <= P_LOW ->
     priority p st
       = Ok tt (with_ptable (<[cur := set_p_priority p c]> (os_ptable st)) st) /\
     (Z.land insn 0xff = SYS_YIELD ->
      p = Z.of_nat k -> (k < 3)%nat -> Z.of_nat k <> P_IDLE ->
      is_queue st k l -> cur ∉ l ->
      (forall j q, (j < k)%nat -> os_readyq st !! j = Some q -> q_head q = None) ->
      exists h t sp st',
        l ++ [cur] = h :: t /\
        (priority p ;; system_call psp insn r0 r1 r2) st = Ok sp st' /\
        os_current st' = Some h /\ is_queue st' k t)).
Proof.
  intros st cur c p psp insn r0 r1 r2 k l Hc Hcur. split.
  - intros Hbad. unfold priority.
    replace ((p <? 0) || (p >? P_LOW)) with true; [reflexivity|].
    symmetry. apply orb_true_iff.
    destruct Hbad; [left; apply Z.ltb_lt | right; apply Z.gtb_lt]; lia.
  - intros Hok.
    assert (Hrun : priority p st
              = Ok tt (with_ptable (<[cur := set_p_priority p c]> (os_ptable st)) st)).
    { unfold priority.
      replace ((p <? 0) || (p >? P_LOW)) with false.
      - unfold current at 1. unfold bind at 1. rewrite Hc.
        apply update_ok, Hcur.
      - symmetry. apply orb_false_iff.
        split; [apply Z.ltb_ge | rewrite Z.gtb_ltb; apply Z.ltb_ge]; lia. }
    split; [exact Hrun|].
    intros Hop Hp Hk Hidle Hq Hnin Hempty.
    set (st1 := with_ptable (<[cur := set_p_priority p c]> (os_ptable st)) st) in *.
    assert (Hc1 : os_ptable st1 !! cur = Some (set_p_priority p c)).
    { cbn. apply list_lookup_insert_eq. eapply lookup_lt_Some; eauto. }
    assert (Hq1 : is_queue st1 k l) by (eapply is_queue_update_keep; eauto).
    destruct (yield_steps st1 cur (set_p_priority p c) psp insn r0 r1 r2 k l
                Hop Hc Hc1 Hp Hk Hidle Hq1 Hnin Hempty)
      as (h & t & sp & st' & Hht & Hsw & Hcur' & Hq' & _).
    exists h, t, sp, st'. split; [exact Hht|].
    split; [|auto].
    rewrite (bind_ok _ _ _ _ _ Hrun). exact Hsw.
Qed.

End Priorities.

Section Connecting.
Context {env : Env}.

Lemma connect_ok st cur c irq :
  os_current st = Some cur -> os_ptable st !! cur = Some c ->
  0 <= irq < 32 -> length (os_handler st) = 32%nat ->
  connect irq st
  = Ok tt (with_irq_enabled (fun i => if i =? irq then true else irq_enabled st i)
             (with_handler (<[Z.to_nat irq := p_pid c]> (os_handler st))
                (with_ptable (<[cur := set_p_priority 0 c]> (os_ptable st)) st))).
Proof.
  intros Hc Hcur Hirq Hlen. unfold connect.
  replace (irq <? 0) with false by (symmetry; apply Z.ltb_ge; lia).
  unfold current at 1. unfold bind at 1. rewrite Hc.
  rewrite (bind_ok _ _ _ _ _ (update_ok _ _ _ _ Hcur)).
  set (st1 := with_ptable (<[cur := set_p_priority 0 c]> (os_ptable st)) st).
  assert (Hc1 : os_ptable st1 !! cur = Some (set_p_priority 0 c)).
  { cbn. apply list_lookup_insert_eq. eapply lookup_lt_Some; eauto. }
  rewrite (bind_ok _ _ _ _ _ (deref_ok _ _ _ Hc1)).
  destruct (lookup_lt_is_Some_2 (os_handler st1) (Z.to_nat irq)) as [t Ht].
  { cbn. rewrite Hlen. lia. }
  rewrite (bind_ok _ _ _ _ _ (handler_entry_ok _ _ _ Hirq Ht)).
  reflexivity.
Qed.

(** X9.  [connect] refuses a negative IRQ with a panic, the state as it
    was.  For an IRQ from 0 to 31 it gives the calling process priority 0,
    writes its PID into the handler table at this IRQ, replacing whatever
    process was registered before, and enables the IRQ; the other entries
    and enable bits, the ready queues and the current process stay as
    they are.  There is no test against the size of the table: for an IRQ
    of 32 or more the store goes outside [os_handler]. *)
Theorem connect_registers_handler :
  forall (st : kstate) (cur : nat) (c : proc) (irq : Z),
    os_current st = Some cur -> os_ptable st !! cur = Some c ->
    (irq < 0 ->
     connect irq st = Panic "Can't connect to CPU exceptions" [] st) /\
    (32 <= irq -> connect irq st = Fault (OutOfBounds "os_handler" irq)) /\
    (0 <= irq < 32 -> length (os_handler st) = 32%nat ->
     exists st',
       connect irq st = Ok tt st' /\
       os_handler st' !! Z.to_nat irq = Some (p_pid c) /\
       (forall i, i <> Z.to_nat irq -> os_handler st' !! i = os_handler st !! i) /\
       os_ptable st' = <[cur := set_p_priority 0 c]> (os_ptable st) /\
       irq_enabled st' irq = true /\
       (forall i, i <> irq -> irq_enabled st' i = irq_enabled st i) /\
       os_readyq st' = os_readyq st /\ os_current st' = Some cur).
Proof.
  intros st cur c irq Hc Hcur. split; [|split].
  - intros Hneg. unfold connect.
    replace (irq <? 0) with true by (symmetry; apply Z.ltb_lt; lia). reflexivity.
  - intros Hbig. unfold connect.
    replace (irq <? 0) with false by (symmetry; apply Z.ltb_ge; lia).
    unfold current at 1. unfold bind at 1. rewrite Hc.
    rewrite (bind_ok _ _ _ _ _ (update_ok _ _ _ _ Hcur)).
    erewrite bind_ok;
      [|apply deref_ok; cbn; apply list_lookup_insert_eq; eapply lookup_lt_Some; eauto].
    apply bind_fault. unfold handler_entry.
    replace ((0 <=? irq) && (irq <? 32)) with false; [reflexivity|].
    symmetry. apply andb_false_iff. right. apply Z.ltb_ge. lia.
  - intros Hirq Hlen. rewrite (connect_ok st cur c irq Hc Hcur Hirq Hlen).
    eexists. split; [reflexivity|]. cbn.
    split; [apply list_lookup_insert_eq; rewrite Hlen; lia|].
    split; [intros i Hi; rewrite list_lookup_insert_ne; auto|].
    split; [reflexivity|]. rewrite Z.eqb_refl.
    split; [reflexivity|]. split; [|auto].
    intros i Hi. destruct (Z.eqb_spec i irq); [contradiction|reflexivity].
Qed.

(** X10.  From registration to delivery.  A process other than process 0
    connects to an IRQ and goes on running.  When the interrupt arrives,
    [default_handler] finds the process in the handler table, disables the
    IRQ and, the process not being in a receive, sets its pending flag.
    The next receive of the process with filter ANY or INTERRUPT returns
    to it at once with the interrupt message, sender HARDWARE and type
    INTERRUPT, and clears the flag; the IRQ is still disabled then, until
    the process enables it again. *)
Theorem connected_interrupt_is_received :
  forall (st : kstate) (cur : nat) (c : proc) (irq psp insn type msg r2 : Z),
    os_current st = Some cur -> os_ptable st !! cur = Some c ->
    p_pid c = Z.of_nat cur -> cur <> 0%nat -> Z.of_nat cur < NPROCS ->
    p_state c = ACTIVE ->
    0 <= irq < 32 -> length (os_handler st) = 32%nat ->
    Z.land insn 0xff = SYS_RECEIVE -> type = ANY \/ type = INTERRUPT ->
    exists st1 st2 st3,
      connect irq st = Ok tt st1 /\ irq_enabled st1 irq = true /\
      default_handler irq st1 = Ok tt st2 /\
      irq_enabled st2 irq = false /\ pending_at cur st2 /\
      os_current st2 = Some cur /\ os_readyq st2 = os_readyq st /\
      system_call psp insn type msg r2 st2 = Ok psp st3 /\
      os_current st3 = Some cur /\
      (msg <> 0 ->
       msgmem st3 msg = mkmsg INTERRUPT HARDWARE (m_body (msgmem st msg))) /\
      os_ptable st3 !! cur
        = Some (set_p_pending false
                  (set_p_sp psp (set_p_pending true (set_p_priority 0 c)))) /\
      irq_enabled st3 irq = false.
Proof.
  intros st cur c irq psp insn type msg r2 Hc Hcur Hpid Hnz Hn Hact Hirq Hlen Hop Ht.
  assert (Hclt : (cur < length (os_ptable st))%nat) by (eapply lookup_lt_Some; eauto).
  set (c1 := set_p_priority 0 c).
  set (st1 := with_irq_enabled (fun i => if i =? irq then true else irq_enabled st i)
                (with_handler (<[Z.to_nat irq := p_pid c]> (os_handler st))
                   (with_ptable (<[cur := c1]> (os_ptable st)) st))).
  set (st1' := with_irq_enabled (fun i => if i =? irq then false else irq_enabled st1 i)
                 st1).
  set (c2 := set_p_pending true c1).
  set (st2 := with_ptable (<[cur := c2]> (os_ptable st1')) st1').
  assert (Hc1 : os_ptable st1' !! cur = Some c1).
  { cbn. apply list_lookup_insert_eq, Hclt. }
  assert (Hint : interrupt (Z.of_nat cur) st1' = Ok tt st2).
  { apply interrupt_sets_pending; [exact Hn|exact Hc1|].
    cbn [c1 set_p_priority p_state]. now rewrite Hact. }
  assert (Hdef : default_handler irq st1 = Ok tt st2).
  { unfold default_handler.
    replace (irq <? 0) with false by (symmetry; apply Z.ltb_ge; lia).
    assert (Hh : os_handler st1 !! Z.to_nat irq = Some (Z.of_nat cur)).
    { cbn. rewrite Hpid. apply list_lookup_insert_eq. rewrite Hlen. lia. }
    rewrite (bind_ok _ _ _ _ _ (handler_entry_ok _ _ _ Hirq Hh)).
    replace (Z.of_nat cur =? 0) with false by (symmetry; apply Z.eqb_neq; lia).
    cbn [orb]. unfold set_irq, modify. unfold bind at 1. exact Hint. }
  assert (Hc2 : os_ptable st2 !! cur = Some c2).
  { cbn. rewrite list_insert_insert_eq. apply list_lookup_insert_eq, Hclt. }
  assert (Hcur2 : os_current st2 = Some cur) by exact Hc.
  destruct (receive_call_pending st2 cur c2 psp insn type msg r2
              Hcur2 Hc2 eq_refl Hop Ht)
    as (mem' & Hcall & Hmsg & _).
  exists st1, st2. eexists.
  split; [apply connect_ok; auto|].
  split; [cbn; now rewrite Z.eqb_refl|].
  split; [exact Hdef|].
  split; [cbn; now rewrite Z.eqb_refl|].
  split; [exists c2; split; [exact Hc2|reflexivity]|].
  split; [exact Hc|]. split; [reflexivity|].
  split; [exact Hcall|]. cbn.
  split; [exact Hc|]. split; [exact Hmsg|].
  split; [|now rewrite Z.eqb_refl].
  rewrite !list_insert_insert_eq. apply list_lookup_insert_eq, Hclt.
Qed.

End Connecting.

Section Identities.
Context {env : Env}.

Lemma same_identities_refl st : same_identities st st.
Proof. intros j dj H. exists dj. auto. Qed.

Lemma same_identities_update st0 st i d f :
  keeps_identity f -> same_identities st0 st -> os_ptable st !! i = Some d ->
  same_identities st0 (with_ptable (<[i := f d]> (os_ptable st)) st).
Proof.
  intros Hf HP Hi j dj Hj. destruct (HP j dj Hj) as (dj' & Hj' & E).
  cbn. destruct (decide (j = i)) as [->|Hne].
  - exists (f d). split.
    + apply list_lookup_insert_eq. eapply lookup_lt_Some; eauto.
    + assert (dj' = d) by congruence. subst dj'.
      destruct (Hf d) as (F1 & F2 & F3 & F4).
      destruct E as (E1 & E2 & E3 & E4). repeat split; congruence.
  - exists dj'. split; [rewrite list_lookup_insert_ne; auto|exact E].
Qed.

(** [make_ready] keeps the identities, and touches neither the arena nor
    the stacks. *)
Lemma make_ready_identities p prio st st' :
  make_ready p prio st = Ok tt st' ->
  same_identities st st' /\ __break st' = __break st /\
  __break2 st' = __break2 st /\ ram st' = ram st /\
  length (os_ptable st') = length (os_ptable st).
Proof.
  intros H.
  assert (Hk : keeps (fun s => same_identities st s /\ __break s = __break st /\
                               __break2 s = __break2 st /\ ram s = ram st /\
                               length (os_ptable s) = length (os_ptable st))
                     (make_ready p prio)).
  { apply frame_make_ready.
    - intros s i d f Hf (H1 & H2 & H3 & H4 & H5) Hi.
      split; [now apply same_identities_update|]. cbn.
      rewrite length_insert. auto.
    - intros s k q (H1 & H2 & H3 & H4 & H5). auto. }
  apply (Hk _ _ _ H). repeat split; auto. apply same_identities_refl.
Qed.

End Identities.

Section Starting.
Context {env : Env}.

(** [start], step by step. *)
Lemma start_steps st name body arg stksize k l :
  os_current st = None ->
  os_nprocs st < NPROCS ->
  0 <= stksize < 2 ^ 31 - 8 ->
  sizeof_proc + roundup stksize 8 <= __break2 st - __break st < 2 ^ 32 ->
  P_LOW = Z.of_nat k -> (k < 3)%nat -> P_LOW <> P_IDLE ->
  is_queue st k l ->
  let n := length (os_ptable st) in
  let size := roundup stksize 8 in
  let stack := __break st in
  let sp := stack + size - 64 in
  let newd := mkproc (os_nprocs st) (name15 name) ACTIVE (stack + size) stack
                     size P_LOW None false ANY 0 None in
  let mem1 := fill_words (Z.to_nat ((size + 3) / 4)) stack BLANK (ram st) in
  let mem2 :=
    store_word (sp + 4 * R0_SAVE) (as_unsigned arg)
      (store_word (sp + 4 * LR_SAVE) (as_unsigned exit_addr)
         (store_word (sp + 4 * PC_SAVE)
            (Z.land (as_unsigned body) (as_unsigned (Z.lnot 1)))
            (store_word (sp + 4 * PSR_SAVE) INIT_PSR
               (fill_words 16 sp 0 mem1)))) in
  let st2 := with_ptable (<[n := set_p_sp sp newd]> (os_ptable st ++ [newd]))
               (with_ram mem2
                  (with_break (stack + size)
                     (with_break2 (__break2 st - sizeof_proc) st))) in
  exists st',
    start name body arg stksize st = Ok (os_nprocs st) st' /\
    make_ready (Some n) (Z.of_nat k) st2 = Ok tt st' /\
    is_queue st' k (l ++ [n]) /\
    os_ptable st' !! n = Some (set_p_next None (set_p_state ACTIVE (set_p_sp sp newd))) /\
    (forall j dj, os_ptable st !! j = Some dj ->
       exists dj', os_ptable st' !! j = Some dj' /\
                   p_pid dj' = p_pid dj /\ p_name dj' = p_name dj /\
                   p_stack dj' = p_stack dj /\ p_stksize dj' = p_stksize dj) /\
    length (os_ptable st') = S n /\
    __break st' = stack + size /\ __break2 st' = __break2 st - sizeof_proc /\
    ram st' = mem2.
Proof.
  intros Hcur Hn Hsz Hroom Hlow Hk Hidle Hq n size stack sp newd mem1 mem2 st2.
  pose proof (roundup_8_bounds stksize ltac:(lia)) as Hrb. fold size in Hrb.
  assert (Hsize : 0 <= size < 2 ^ 31) by lia.
  assert (Hun : as_unsigned size = size) by (apply as_unsigned_small; lia).
  pose proof (init_proc_ok st name size Hn Hsize Hroom) as Hinit.
  fold n stack newd mem1 in Hinit.
  set (st1 := with_ptable (os_ptable st ++ [newd])
                (with_ram mem1 (with_break (stack + size)
                   (with_break2 (__break2 st - sizeof_proc) st)))) in *.
  assert (Hnew : os_ptable st1 !! n = Some newd).
  { cbn. unfold n. apply list_lookup_middle. reflexivity. }
  assert (Hq2 : is_queue st2 k l).
  { eapply is_queue_ext; [exact Hq|reflexivity|].
    intros j Hj. destruct Hq as (q & _ & Hl & _).
    destruct (lseg_valid _ _ _ j Hl Hj) as [dj Hdj].
    assert (j < n)%nat by (eapply lookup_lt_Some; eauto).
    cbn. rewrite list_lookup_insert_ne by lia.
    now apply lookup_app_l. }
  assert (Hnin : n ∉ l).
  { intros Hin. destruct Hq as (q & _ & Hl & _).
    destruct (lseg_valid _ _ _ n Hl Hin) as [dj Hdj].
    apply lookup_lt_Some in Hdj. unfold n in Hdj. lia. }
  assert (Hnew2 : os_ptable st2 !! n = Some (set_p_sp sp newd)).
  { cbn. apply list_lookup_insert_eq. rewrite length_app. cbn. unfold n. lia. }
  assert (Hidle' : Z.of_nat k <> P_IDLE) by congruence.
  destruct (make_ready_enqueues st2 k l n (set_p_sp sp newd) Hidle' Hk Hq2 Hnew2 Hnin)
    as (st' & Hmr & Hq' & Hd' & Hother & Hqs & Hst').
  destruct (make_ready_identities _ _ _ _ Hmr) as (Hid & Hb & Hb2 & Hram & Hlen).
  exists st'.
  split; [|split; [exact Hmr|split; [exact Hq'|split; [exact Hd'|split;
    [|split; [|split; [exact Hb|split; [exact Hb2|exact Hram]]]]]]]].
  - unfold start. fold size. rewrite Hun.
    rewrite (bind_ok _ _ _ _ _ Hinit). fold st1.
    unfold current at 1. unfold bind at 1.
    change (os_current st1) with (os_current st). rewrite Hcur.
    rewrite (bind_ok _ _ _ _ _ (deref_ok _ _ _ Hnew)).
    rewrite !bind_modify.
    erewrite bind_ok; [|apply update_ok; exact Hnew].
    change (p_sp newd - 4 * 16) with sp.
    change (p_priority newd) with P_LOW. rewrite Hlow.
    erewrite bind_ok; [reflexivity|]. exact Hmr.
  - intros j dj Hj. apply Hid. cbn.
    assert (j < n)%nat by (eapply lookup_lt_Some; eauto).
    rewrite list_lookup_insert_ne by lia. now apply lookup_app_l_Some.
  - rewrite Hlen. cbn. rewrite length_insert, length_app. cbn. unfold n. lia.
Qed.

(** X18.  [start] lays the stacks out one above the other.  The stack of
    the new process begins where the arena began ([__break]) and has the
    size asked for, rounded up to a multiple of 8; [__break] moves up by
    that size and [__break2] down by the size of a descriptor, without
    crossing; the new stack lies above the stacks of all the processes
    created before, which keep the stack areas they had.  With [__break]
    a multiple of 8 before, it is one after, and so is the saved stack
    pointer of the new process. *)
Theorem start_keeps_stacks_in_order :
  forall (st : kstate) (name : string) (body arg stksize : Z)
         (k : nat) (l : list nat),
    stacks_in_order st ->
    os_current st = None ->
    os_nprocs st < NPROCS ->
    0 <= stksize < 2 ^ 31 - 8 ->
    sizeof_proc + roundup stksize 8 <= __break2 st - __break st < 2 ^ 32 ->
    P_LOW = Z.of_nat k -> (k < 3)%nat -> P_LOW <> P_IDLE ->
    is_queue st k l ->
    exists st' d,
      start name body arg stksize st = Ok (os_nprocs st) st' /\
      stacks_in_order st' /\
      os_ptable st' !! length (os_ptable st) = Some d /\
      p_stack d = __break st /\ p_stksize d = roundup stksize 8 /\
      stksize <= p_stksize d < stksize + 8 /\ p_stksize d mod 8 = 0 /\
      __break st' = __break st + roundup stksize 8 /\
      __break2 st' = __break2 st - sizeof_proc /\
      (__break st mod 8 = 0 -> __break st' mod 8 = 0 /\ p_sp d mod 8 = 0) /\
      same_identities st st' /\
      length (os_ptable st') = S (length (os_ptable st)).
Proof.
  intros st name body arg stksize k l (Hord1 & Hord2 & Hord3)
         Hcur Hn Hsz Hroom Hlow Hk Hidle Hq.
  destruct (start_steps st name body arg stksize k l Hcur Hn Hsz Hroom Hlow Hk Hidle Hq)
    as (st' & Hstart & _ & _ & Hnew & Hold & Hlen & Hb & Hb2 & _).
  pose proof (roundup_8_bounds stksize ltac:(lia)) as Hrb.
  pose proof (roundup_8 stksize) as Hr8.
  set (n := length (os_ptable st)) in *.
  set (size := roundup stksize 8) in *.
  eexists st', _. split; [exact Hstart|].
  (* an old descriptor, seen in the new table *)
  assert (Hback : forall i d', (i < n)%nat -> os_ptable st' !! i = Some d' ->
            exists di, os_ptable st !! i = Some di /\
                       p_stack d' = p_stack di /\ p_stksize d' = p_stksize di).
  { intros i d' Hi Hd'.
    destruct (lookup_lt_is_Some_2 (os_ptable st) i Hi) as [di Hdi].
    destruct (Hold i di Hdi) as (dj' & Hj' & _ & _ & E3 & E4).
    exists di. split; [exact Hdi|]. split; congruence. }
  assert (Horder : stacks_in_order st').
  { split; [rewrite Hb, Hb2; unfold sizeof_proc in *; lia|]. split.
    - intros i d' Hd'.
      assert (Hi : (i < S n)%nat) by (rewrite <- Hlen; eapply lookup_lt_Some; eauto).
      destruct (decide (i = n)) as [->|Hne].
      + rewrite Hnew in Hd'. injection Hd' as <-. cbn. rewrite Hb. lia.
      + destruct (Hback i d' ltac:(lia) Hd') as (di & Hdi & E1 & E2).
        destruct (Hord2 i di Hdi). rewrite E1, E2, Hb. lia.
    - intros i j di' dj' Hij Hdi' Hdj'.
      assert (Hj : (j < S n)%nat) by (rewrite <- Hlen; eapply lookup_lt_Some; eauto).
      destruct (Hback i di' ltac:(lia) Hdi') as (di & Hdi & E1 & E2).
      destruct (decide (j = n)) as [->|Hne].
      + rewrite Hnew in Hdj'. injection Hdj' as <-. cbn.
        destruct (Hord2 i di Hdi). rewrite E1, E2. lia.
      + destruct (Hback j dj' ltac:(lia) Hdj') as (dj & Hdj & F1 & F2).
        rewrite E1, E2, F1. apply (Hord3 i j di dj Hij Hdi Hdj). }
  split; [exact Horder|]. split; [exact Hnew|].
  cbn [p_stack p_stksize p_sp set_p_next set_p_state set_p_sp].
  split; [reflexivity|]. split; [reflexivity|]. split; [exact Hrb|].
  split; [fold size; rewrite Hr8, Z.mul_comm; apply Z.mod_mul; lia|].
  split; [exact Hb|]. split; [exact Hb2|].
  split; [|split; [exact Hold|exact Hlen]].
  intros Hal. split.
  - rewrite Hb. fold size. rewrite Hr8.
    rewrite (Z.mul_comm 8), Z.mod_add by lia. exact Hal.
  - fold size. rewrite Hr8.
    replace (__break st + 8 * ((stksize + 7) / 8) - 64)
      with (__break st + ((stksize + 7) / 8 - 8) * 8) by lia.
    rewrite Z.mod_add by lia. exact Hal.
Qed.

Lemma frame_word_cases body arg i :
  0 <= i < 16 ->
  (i = PSR_SAVE /\ frame_word body arg i = INIT_PSR) \/
  (i = PC_SAVE /\
   frame_word body arg i = Z.land (as_unsigned body) (as_unsigned (Z.lnot 1))) \/
  (i = LR_SAVE /\ frame_word body arg i = as_unsigned exit_addr) \/
  (i = R0_SAVE /\ frame_word body arg i = as_unsigned arg) \/
  (i <> R0_SAVE /\ i <> LR_SAVE /\ i <> PC_SAVE /\ i <> PSR_SAVE /\
   frame_word body arg i = 0).
Proof.
  intros Hi. unfold frame_word, PSR_SAVE, PC_SAVE, LR_SAVE, R0_SAVE.
  destruct (Z.eqb_spec i 15); [now left|].
  destruct (Z.eqb_spec i 14); [now right; left|].
  destruct (Z.eqb_spec i 13); [now right; right; left|].
  destruct (Z.eqb_spec i 8); [now right; right; right; left|].
  right; right; right; right. auto.
Qed.

(** X19.  [start] does not ask that the stack can hold the frame it
    fakes.  The frame is the 16 words below the top of the stack; when the
    size asked for, rounded up, is less than 64 bytes, the saved stack
    pointer and the lower words of the frame lie below the base of the
    stack of the process, in memory that was handed out before, and the
    frame words are stored there. *)
Theorem start_frame_below_small_stack :
  forall (st : kstate) (name : string) (body arg stksize : Z)
         (k : nat) (l : list nat),
    os_current st = None ->
    os_nprocs st < NPROCS ->
    0 <= stksize ->
    roundup stksize 8 < 64 ->
    sizeof_proc + roundup stksize 8 <= __break2 st - __break st < 2 ^ 32 ->
    P_LOW = Z.of_nat k -> (k < 3)%nat -> P_LOW <> P_IDLE ->
    is_queue st k l ->
    exists st' d,
      start name body arg stksize st = Ok (os_nprocs st) st' /\
      os_ptable st' !! length (os_ptable st) = Some d /\
      p_stack d = __break st /\
      p_sp d = __break st + roundup stksize 8 - 64 /\
      p_sp d < p_stack d /\
      (forall i, 0 <= i < 16 -> ram st' (p_sp d + 4 * i) = frame_word body arg i).
Proof.
  intros st name body arg stksize k l Hcur Hn Hsz Hsmall Hroom Hlow Hk Hidle Hq.
  pose proof (roundup_8_bounds stksize Hsz) as Hrb.
  assert (Hsz' : 0 <= stksize < 2 ^ 31 - 8) by lia.
  destruct (start_steps st name body arg stksize k l Hcur Hn Hsz' Hroom Hlow Hk Hidle Hq)
    as (st' & Hstart & _ & _ & Hnew & _ & _ & _ & _ & Hram).
  eexists st', _. split; [exact Hstart|]. split; [exact Hnew|]. cbn.
  split; [reflexivity|]. split; [reflexivity|]. split; [lia|].
  intros i Hi. rewrite Hram.
  match goal with
  | |- context [fill_words 16 ?sp 0 ?m] =>
      destruct (frame_words sp body arg m) as (F1 & F2 & F3 & F4 & F5 & _)
  end.
  destruct (frame_word_cases body arg i Hi)
    as [[-> ->]|[[-> ->]|[[-> ->]|[[-> ->]|(H1 & H2 & H3 & H4 & ->)]]]]; auto.
Qed.

(** X17.  The ways [start] refuses.  With the process table full it
    panics before anything is changed.  With room in the table but none
    in the arena for a descriptor, or none for the stack above it, it
    panics from the allocators.  Called once the scheduler runs, it
    panics too, but only after the new process has been allocated. *)
Theorem start_refusals :
  forall (st : kstate) (name : string) (body arg stksize : Z),
    (NPROCS <= os_nprocs st ->
     start name body arg stksize st = Panic "Too many processes" [] st) /\
    (os_nprocs st < NPROCS ->
     0 <= __break2 st - __break st < sizeof_proc ->
     exists st', start name body arg stksize st
                 = Panic "No space for process" [] st') /\
    (os_nprocs st < NPROCS -> 0 <= stksize < 2 ^ 31 - 8 ->
     sizeof_proc <= __break2 st - __break st < 2 ^ 32 ->
     __break2 st - __break st < sizeof_proc + roundup stksize 8 ->
     exists st', start name body arg stksize st
                 = Panic "Phos is out of memory" [] st') /\
    (os_nprocs st < NPROCS -> 0 <= stksize < 2 ^ 31 - 8 ->
     sizeof_proc + roundup stksize 8 <= __break2 st - __break st < 2 ^ 32 ->
     os_current st <> None ->
     exists st', start name body arg stksize st
                 = Panic "start() called after scheduler startup" [] st' /\
                 os_nprocs st' = os_nprocs st + 1).
Proof.
  intros st name body arg stksize. split; [|split; [|split]].
  - intros Hfull. unfold start, init_proc. unfold get at 1. unfold bind at 1 2.
    replace (os_nprocs st >=? NPROCS) with true; [reflexivity|].
    symmetry. apply Z.geb_le. lia.
  - intros Hn Hgap. exists st.
    unfold start, init_proc, new_proc, bind, get, panic.
    replace (os_nprocs st >=? NPROCS) with false
      by (symmetry; rewrite Z.geb_leb; apply Z.leb_gt; lia).
    rewrite as_unsigned_small by (unfold sizeof_proc in *; lia).
    replace (__break2 st - __break st <? sizeof_proc) with true; [reflexivity|].
    symmetry. apply Z.ltb_lt. lia.
  - intros Hn Hsz Hdesc Hstack.
    pose proof (roundup_8_bounds stksize ltac:(lia)) as Hrb.
    eexists.
    unfold start, init_proc, new_proc, sbrk, bind, get, modify, panic.
    replace (os_nprocs st >=? NPROCS) with false
      by (symmetry; rewrite Z.geb_leb; apply Z.leb_gt; lia).
    rewrite as_unsigned_small by (unfold sizeof_proc in *; lia).
    replace (__break2 st - __break st <? sizeof_proc) with false
      by (symmetry; apply Z.ltb_ge; lia).
    cbn [__break __break2 with_break2].
    rewrite as_unsigned_small by lia. rewrite as_int_small by lia.
    replace (roundup stksize 8 >? __break2 st - sizeof_proc - __break st) with true;
      [reflexivity|].
    symmetry. apply Z.gtb_lt. lia.
  - intros Hn Hsz Hroom Hrun.
    pose proof (roundup_8_bounds stksize ltac:(lia)) as Hrb.
    assert (Hsize : 0 <= roundup stksize 8 < 2 ^ 31) by lia.
    pose proof (init_proc_ok st name (roundup stksize 8) Hn Hsize Hroom) as Hinit.
    eexists. split.
    + unfold start. rewrite as_unsigned_small by lia.
      rewrite (bind_ok _ _ _ _ _ Hinit).
      unfold current at 1. unfold bind at 1. cbn [os_current with_ptable with_ram
        with_break with_break2].
      destruct (os_current st); [reflexivity|contradiction].
    + unfold os_nprocs. cbn. rewrite length_app. cbn. lia.
Qed.

(** [os_init] on the boot state leaves the arena in order. *)
Lemma os_init_in_order msgs mem :
  sizeof_proc + IDLE_STACK <= stack_limit - end_addr < 2 ^ 32 ->
  exists st0, os_init (boot msgs mem) = Ok tt st0 /\ stacks_in_order st0.
Proof.
  intros Hroom. unfold os_init.
  rewrite (bind_ok _ _ _ _ _
             (init_proc_ok (boot msgs mem) "IDLE" IDLE_STACK
                ltac:(reflexivity) ltac:(split; [discriminate|reflexivity])
                Hroom)).
  rewrite bind_modify.
  erewrite bind_ok; [|apply update_ok; reflexivity].
  erewrite update_ok; [|reflexivity].
  eexists. split; [reflexivity|].
  unfold stacks_in_order. cbn. unfold sizeof_proc, IDLE_STACK in *.
  split; [lia|]. split.
  - intros [|i] d H; cbn in H; [|discriminate]. injection H as <-. cbn. lia.
  - intros i [|j] di dj Hij Hi Hj; [lia|]. cbn in Hj. discriminate.
Qed.

End Starting.

Section Startup.
Context {env : Env}.

(** X16.  [os_start] turns the caller into the idle process and yields.
    The idle process, whose priority is the idle level, goes on no ready
    queue: each queue is as it was, or has lost its head, which now
    runs.  The head of the first ready queue that is not empty becomes the
    current process and its saved stack pointer is what the first trap
    returns to, so that among processes started at one priority the one
    started first runs first.  With no process ready the idle process
    itself goes on, at the stack pointer it trapped with.  Before
    [os_init] there is no idle process, and [os_start] follows a null
    pointer. *)
Theorem os_start_runs_first_ready :
  forall (st : kstate) (psp : Z),
    (idle_proc st = None -> os_start psp st = Fault NullPointer) /\
    (forall idl di,
       idle_proc st = Some idl -> os_ptable st !! idl = Some di ->
       p_priority di = P_IDLE ->
       length (os_readyq st) = 3%nat -> heads_valid st ->
       exists sp st',
         os_start psp st = Ok sp st' /\
         os_current st' = next_to_run st /\
         os_ptable st' = <[idl := set_p_sp psp di]> (os_ptable st) /\
         (exists n dn, os_current st' = Some n /\
                       os_ptable st' !! n = Some dn /\ sp = p_sp dn) /\
         (first_ready (os_readyq st) = None ->
          os_current st' = Some idl /\ sp = psp) /\
         (forall j lj, is_queue st j lj -> idl ∉ lj ->
            exists lj', is_queue st' j lj' /\ (idl ∉ lj') /\
                        (lj' = lj \/
                         exists h, lj = h :: lj' /\ os_current st' = Some h))).
Proof.
  intros st psp. split.
  - intros Hnone. unfold os_start. unfold get at 1. unfold bind at 1.
    rewrite Hnone. reflexivity.
  - intros idl di Hi Hdi Hprio Hlen Hv.
    assert (Hilt : (idl < length (os_ptable st))%nat) by (eapply lookup_lt_Some; eauto).
    set (st0 := with_current (Some idl) st).
    set (d1 := set_p_sp psp di).
    set (st1 := with_ptable (<[idl := d1]> (os_ptable st0)) st0).
    assert (Hd1 : os_ptable st1 !! idl = Some d1).
    { cbn. apply list_lookup_insert_eq, Hilt. }
    assert (Hv1 : heads_valid st1).
    { intros j q x Hq Hx. cbn. apply lookup_lt_is_Some. rewrite length_insert.
      apply lookup_lt_is_Some. eapply Hv; eauto. }
    destruct (choose_proc_total st1 Hlen Hv1) as (st' & Hch & Hnext & Hst' & _).
    assert (Htab : os_ptable st' = <[idl := d1]> (os_ptable st)).
    { rewrite Hst'. reflexivity. }
    assert (Hnext' : os_current st' = next_to_run st) by (rewrite Hnext; reflexivity).
    destruct (next_to_run_valid st1 idl d1 Hv1 Hi Hd1) as (n & dn & Hn1 & Hn2).
    assert (Hcur' : os_current st' = Some n) by congruence.
    assert (Hdn' : os_ptable st' !! n = Some dn) by (rewrite Htab; exact Hn2).
    exists (p_sp dn), st'.
    split; [|split; [exact Hnext'|split; [exact Htab|split; [eauto|split]]]].
    + unfold os_start. unfold get at 1. unfold bind at 1.
      rewrite bind_modify. rewrite Hi. fold st0.
      erewrite bind_ok; [|apply deref_ok; exact Hdi].
      unfold system_call.
      change (Z.land (svc SYS_YIELD) 255) with SYS_YIELD.
      unfold current at 1. unfold bind at 1.
      change (os_current st0) with (Some idl).
      erewrite bind_ok; [|apply update_ok; exact Hdi]. fold d1 st1.
      cbn [SYS_YIELD Z.eqb].
      erewrite bind_ok with (a := tt) (st' := st').
      * unfold current at 1. unfold bind at 1. rewrite Hcur'.
        now rewrite (bind_ok _ _ _ _ _ (deref_ok _ _ _ Hdn')).
      * rewrite (bind_ok _ _ _ _ _ (deref_ok _ _ _ Hd1)).
        cbn [d1 set_p_sp p_priority]. rewrite Hprio.
        now rewrite (bind_ok _ _ _ _ _ (make_ready_idle _ _)).
    + intros Hnone.
      assert (Hn : Some n = Some idl).
      { rewrite <- Hn1. unfold next_to_run.
        change (os_readyq st1) with (os_readyq st). rewrite Hnone. exact Hi. }
      injection Hn as ->. split; [exact Hcur'|].
      rewrite Hd1 in Hn2. injection Hn2 as <-. reflexivity.
    + intros j lj Hq Hnin.
      apply (choose_proc_joins_none st1 st' idl j lj Hlen Hv1 Hch); [|exact Hnin].
      assert (Hq0 : is_queue st0 j lj) by exact Hq.
      eapply is_queue_update_keep; [exact Hq0|exact Hdi|reflexivity].
Qed.

End Startup.

Section CreationFrames.
Context {env : Env}.

Lemma substring_length n m s : (String.length (substring n m s) <= m)%nat.
Proof.
  revert n m. induction s as [|c s IH]; intros n m.
  - destruct n, m; cbn; lia.
  - destruct n as [|n]; destruct m as [|m]; cbn; try lia.
    + specialize (IH 0%nat m). lia.
    + apply (IH n 0%nat).
    + apply (IH n (S m)).
Qed.

(** What a call of [init_proc] that returns has done. *)
Lemma init_proc_inv name size st p st' :
  init_proc name size st = Ok p st' ->
  os_nprocs st < NPROCS /\ p = Some (length (os_ptable st)) /\
  sizeof_proc <= as_unsigned (__break2 st - __break st) /\
  as_int size <= __break2 st - sizeof_proc - __break st /\
  st' = with_ptable
          (os_ptable st ++
           [mkproc (os_nprocs st) (name15 name) ACTIVE (__break st + size)
                   (__break st) size P_LOW None false ANY 0 None])
          (with_ram
             (fill_words (Z.to_nat ((size + 3) / 4)) (__break st) BLANK (ram st))
             (with_break (__break st + as_int size)
                (with_break2 (__break2 st - sizeof_proc) st))).
Proof.
  unfold init_proc, new_proc, sbrk, bind, get, modify, ret, panic.
  destruct (os_nprocs st >=? NPROCS) eqn:E1; [discriminate|].
  destruct (as_unsigned (__break2 st - __break st) <? sizeof_proc) eqn:E2;
    [discriminate|].
  cbn [__break __break2 with_break2 with_break].
  destruct (as_int size >? __break2 st - sizeof_proc - __break st) eqn:E3;
    [discriminate|].
  cbn. intros H. injection H as <- <-.
  rewrite Z.geb_leb in E1. apply Z.leb_gt in E1. apply Z.ltb_ge in E2.
  rewrite Z.gtb_ltb in E3. apply Z.ltb_ge in E3.
  unfold os_nprocs at 2. rewrite Nat2Z.id. repeat split; auto.
Qed.

Variable P : kstate -> Prop.

Hypothesis P_update : forall st i d f,
  keeps_identity f -> P st -> os_ptable st !! i = Some d ->
  P (with_ptable (<[i := f d]> (os_ptable st)) st).
Hypothesis P_current : forall st v, P st -> P (with_current v st).
Hypothesis P_readyq : forall st k q,
  P st -> P (with_readyq (<[k := q]> (os_readyq st)) st).
Hypothesis P_msgmem : forall st v, P st -> P (with_msgmem v st).
Hypothesis P_pendsv : forall st v, P st -> P (with_pendsv v st).
Hypothesis P_irq : forall st v, P st -> P (with_irq_enabled v st).
Hypothesis P_handler : forall st k i c,
  P st -> os_ptable st !! i = Some c ->
  P (with_handler (<[k := p_pid c]> (os_handler st)) st).
Hypothesis P_ram : forall st v, P st -> P (with_ram v st).
Hypothesis P_idle : forall st v, P st -> P (with_idle v st).
Hypothesis P_break : forall st v, P st -> P (with_break v st).
Hypothesis P_break2 : forall st v, P st -> P (with_break2 v st).
Hypothesis P_append : forall st name sp stack size,
  P st -> os_nprocs st < NPROCS ->
  P (with_ptable
       (os_ptable st ++
        [mkproc (os_nprocs st) (name15 name) ACTIVE sp stack size P_LOW
                None false ANY 0 None]) st).

Lemma frame_connect irq : keeps P (connect irq).
Proof.
  intros st a st' H HP. unfold connect in H.
  destruct (irq <? 0); [discriminate|].
  apply bind_inv in H as (cur & s0 & H0 & H).
  apply current_inv in H0 as (-> & ->).
  apply bind_inv in H as ([] & s1 & H1 & H).
  assert (HP1 : P s1).
  { revert H1 HP. apply keeps_elim. apply frame_update; auto.
    intros x. repeat split. }
  apply bind_inv in H as (c & s2 & H2 & H).
  apply deref_inv in H2 as (-> & i & _ & Hi).
  apply bind_inv in H as (t & s3 & H3 & H).
  apply handler_entry_inv in H3 as (-> & _).
  apply bind_inv in H as ([] & s4 & H4 & H).
  apply modify_inv in H4 as ->.
  apply modify_inv in H as ->.
  apply P_irq. eapply P_handler; eauto.
Qed.

Lemma frame_init_proc name size : keeps P (init_proc name size).
Proof.
  intros st p st' H HP.
  apply init_proc_inv in H as (Hn & _ & _ & _ & ->).
  apply (P_append (with_ram _ (with_break _ (with_break2 _ st)))); [|exact Hn].
  apply P_ram, P_break, P_break2, HP.
Qed.

Lemma frame_os_init : keeps P os_init.
Proof.
  unfold os_init. repeat keeps_step.
  - apply frame_init_proc.
  - apply keeps_modify. intros. now apply P_idle.
  - apply frame_update; auto. intros x. repeat split.
  - apply frame_update; auto. intros x. repeat split.
Qed.

Lemma frame_start name body arg stksize : keeps P (start name body arg stksize).
Proof.
  unfold start. repeat keeps_step;
    try (apply keeps_modify; intros; now apply P_ram).
  - apply frame_init_proc.
  - apply frame_update; auto. intros x. repeat split.
  - apply frame_make_ready; auto.
Qed.

(** Every entry into the kernel keeps what the elementary writes keep. *)
Lemma frame_run c : keeps P (run c).
Proof.
  destruct c; cbn [run]; repeat keeps_step.
  - apply frame_os_init.
  - apply frame_start.
  - apply frame_os_start; auto.
  - apply frame_system_call; auto.
  - apply frame_cxt_switch; auto.
  - apply frame_default_handler; auto.
  - apply frame_interrupt; auto.
  - apply frame_connect.
  - apply frame_priority; auto.
Qed.

Lemma frame_run_all cs st st' : run_all cs st = Some st' -> P st -> P st'.
Proof.
  revert st. induction cs as [|c cs IH]; intros st H HP; cbn [run_all] in H.
  - injection H as <-. exact HP.
  - destruct (run c st) as [[] s1| |] eqn:E; try discriminate.
    apply (IH s1 H). exact (frame_run c _ _ _ E HP).
Qed.

Lemma frame_reachable :
  (forall msgs mem, P (boot msgs mem)) -> forall st, reachable st -> P st.
Proof.
  intros Hboot st H. induction H as [msgs mem|st c st' _ IH Hrun].
  - apply Hboot.
  - exact (frame_run c _ _ _ Hrun IH).
Qed.

End CreationFrames.

Section Tables.
Context {env : Env}.

Lemma table_in_order_ptable st ps :
  table_in_order st -> length ps = length (os_ptable st) ->
  (forall i d, ps !! i = Some d ->
     p_pid d = Z.of_nat i /\ (String.length (p_name d) <= 15)%nat) ->
  table_in_order (with_ptable ps st).
Proof.
  intros (H1 & H2 & H3 & H4 & H5) Hlen Hps.
  unfold table_in_order, os_nprocs in *. cbn. rewrite Hlen. auto.
Qed.

(** Every entry into the kernel keeps the table in order, and it is in
    order at boot. *)
Lemma table_step e : keeps table_in_order (run e).
Proof.
  apply (frame_run table_in_order).
  - (* a write to a descriptor *)
    intros st i d f Hf HP Hi. apply table_in_order_ptable; [exact HP| |].
    + apply length_insert.
    + intros j dj Hj. destruct HP as (_ & H2 & _).
      destruct (decide (j = i)) as [->|Hne].
      * rewrite list_lookup_insert_eq in Hj by (eapply lookup_lt_Some; eauto).
        injection Hj as <-. destruct (Hf d) as (F1 & F2 & _).
        rewrite F1, F2. now apply H2.
      * rewrite list_lookup_insert_ne in Hj by auto. now apply H2.
  - intros st v HP. exact HP.
  - intros st k q (H1 & H2 & H3 & H4 & H5).
    unfold table_in_order, os_nprocs in *. cbn. rewrite length_insert. auto.
  - intros st v HP. exact HP.
  - intros st v HP. exact HP.
  - intros st v HP. exact HP.
  - (* connect *)
    intros st k i c (H1 & H2 & H3 & H4 & H5) Hi.
    unfold table_in_order, os_nprocs in *. cbn. rewrite length_insert.
    split; [exact H1|]. split; [exact H2|]. split; [exact H3|]. split; [exact H4|].
    intros j t Hj. destruct (decide (j = k)) as [->|Hne].
    + assert (Hk : (k < length (os_handler st))%nat).
      { apply lookup_lt_Some in Hj. now rewrite length_insert in Hj. }
      rewrite list_lookup_insert_eq in Hj by exact Hk. injection Hj as <-.
      destruct (H2 i c Hi) as [-> _]. apply lookup_lt_Some in Hi. lia.
    + rewrite list_lookup_insert_ne in Hj by auto. eauto.
  - intros st v HP. exact HP.
  - intros st v HP. exact HP.
  - intros st v HP. exact HP.
  - intros st v HP. exact HP.
  - (* a new descriptor *)
    intros st name sp stack size (H1 & H2 & H3 & H4 & H5) Hn.
    unfold table_in_order, os_nprocs in *. cbn. rewrite length_app. cbn.
    split; [lia|]. split; [|split; [exact H3|split; [exact H4|]]].
    + intros i d Hi.
      destruct (decide (i = length (os_ptable st))) as [->|Hne].
      * rewrite list_lookup_middle in Hi by reflexivity. injection Hi as <-.
        cbn. split; [reflexivity|apply substring_length].
      * apply H2. rewrite lookup_app_l in Hi; [exact Hi|].
        apply lookup_lt_Some in Hi. rewrite length_app in Hi. cbn in Hi. lia.
    + intros i t Hi. destruct (H5 i t Hi); [now left|right; lia].
Qed.

Lemma table_boot msgs mem : table_in_order (boot msgs mem).
Proof.
  unfold table_in_order, os_nprocs, NPROCS. cbn.
  split; [lia|]. split; [intros i d H; destruct i; discriminate H|].
  split; [reflexivity|]. split; [reflexivity|].
  intros i t Hi. left.
  change (replicate 32 0 !! i = Some t) in Hi.
  apply lookup_replicate in Hi as [-> _]. reflexivity.
Qed.

(** X21.  In every state the kernel can reach from boot, whatever the
    entries that led there, the process table holds at most 32
    descriptors, each descriptor carries its index in the table as PID
    and a name of at most 15 characters, there are three ready queues and
    32 handler entries, and every handler entry is 0 or the PID of a
    process of the table. *)
Theorem reachable_table_in_order :
  forall st : kstate, reachable st -> table_in_order st.
Proof.
  intros st H. induction H as [msgs mem|st c st' _ IH Hrun].
  - apply table_boot.
  - exact (table_step c st tt st' Hrun IH).
Qed.

(** In a state the kernel can reach, the PID of a process is its index
    in the table. *)
Lemma pid_reachable st i d :
  reachable st -> os_ptable st !! i = Some d -> p_pid d = Z.of_nat i.
Proof.
  intros Hr. revert i d.
  apply (frame_reachable
           (fun s => forall i d, os_ptable s !! i = Some d -> p_pid d = Z.of_nat i));
    try (intros s v HP; exact HP); try exact Hr.
  - intros s j dj f Hf HP Hj i d Hi. cbn in Hi.
    destruct (decide (i = j)) as [->|Hne].
    + rewrite list_lookup_insert_eq in Hi by (eapply lookup_lt_Some; eauto).
      injection Hi as <-. destruct (Hf dj) as (F1 & _). rewrite F1. now apply HP.
    + rewrite list_lookup_insert_ne in Hi by auto. now apply HP.
  - intros s k q HP. exact HP.
  - intros s k j c HP _. exact HP.
  - intros s name sp stack size HP _ i d Hi. cbn in Hi.
    destruct (decide (i = length (os_ptable s))) as [->|Hne].
    + rewrite list_lookup_middle in Hi by reflexivity. injection Hi as <-.
      reflexivity.
    + apply HP. rewrite lookup_app_l in Hi; [exact Hi|].
      apply lookup_lt_Some in Hi. rewrite length_app in Hi. cbn in Hi. lia.
  - intros msgs mem i d Hi. destruct i; discriminate Hi.
Qed.

Lemma same_identities_frames st0 :
  forall cs st st', run_all cs st = Some st' ->
    same_identities st0 st -> same_identities st0 st'.
Proof.
  intros cs st st'. apply (frame_run_all (same_identities st0)).
  - intros s i d f Hf HP Hi. now apply same_identities_update.
  - intros s v HP. exact HP.
  - intros s k q HP. exact HP.
  - intros s v HP. exact HP.
  - intros s v HP. exact HP.
  - intros s v HP. exact HP.
  - intros s k i c HP _. exact HP.
  - intros s v HP. exact HP.
  - intros s v HP. exact HP.
  - intros s v HP. exact HP.
  - intros s v HP. exact HP.
  - intros s name sp stack size HP _ j dj Hj.
    destruct (HP j dj Hj) as (dj' & Hj' & E). exists dj'.
    split; [cbn; now apply lookup_app_l_Some|exact E].
Qed.

(** X22.  Nothing that enters the kernel takes a process out of the
    table or changes who it is: after any sequence of entries that
    return, every descriptor that was in the table is still there, at the
    same index, with the PID, the name, the stack base and the stack size
    it had; the table has only grown. *)
Theorem run_keeps_identities :
  forall (cs : list kcall) (st st' : kstate),
    run_all cs st = Some st' ->
    same_identities st st' /\
    (length (os_ptable st) <= length (os_ptable st'))%nat.
Proof.
  intros cs st st' H.
  assert (Hid : same_identities st st').
  { eapply same_identities_frames; [exact H|apply same_identities_refl]. }
  split; [exact Hid|].
  destruct (le_lt_dec (length (os_ptable st)) (length (os_ptable st')))
    as [Hle|Hlt]; [exact Hle|].
  destruct (lookup_lt_is_Some_2 (os_ptable st) (length (os_ptable st')))
    as [d Hd]; [lia|].
  destruct (Hid _ _ Hd) as (d' & Hd' & _).
  apply lookup_lt_Some in Hd'. lia.
Qed.

End Tables.

Section Dump.
Context {env : Env}.

(** The scan stops at the first word that is not BLANK. *)
Lemma first_used_finds n fuel z mem :
  (forall i, 0 <= i < Z.of_nat n -> mem (z + 4 * i) = BLANK) ->
  mem (z + 4 * Z.of_nat n) <> BLANK ->
  (n < fuel)%nat ->
  first_used fuel z mem = Some (z + 4 * Z.of_nat n).
Proof.
  revert fuel z. induction n as [|n IH]; intros fuel z Hblank Hused Hf.
  - destruct fuel as [|fuel]; [lia|]. cbn [first_used].
    replace (z + 4 * Z.of_nat 0) with z in * by lia.
    destruct (Z.eqb_spec (mem z) BLANK); [contradiction|reflexivity].
  - destruct fuel as [|fuel]; [lia|]. cbn [first_used].
    pose proof (Hblank 0 ltac:(lia)) as H0.
    replace (z + 4 * 0) with z in H0 by lia. rewrite H0, Z.eqb_refl.
    replace (z + 4 * Z.of_nat (S n)) with (z + 4 + 4 * Z.of_nat n) in * by lia.
    apply IH; [|exact Hused|lia].
    intros i Hi. replace (z + 4 + 4 * i) with (z + 4 * (i + 1)) by lia.
    apply Hblank. lia.
Qed.

(** X20.  What the dump shows of a process that has been started and has
    not run yet.  [init_proc] has filled the stack with BLANK and [start]
    has put the frame of 16 words at its top, so the scan from the base of
    the stack stops at the frame: the line of the process shows 64 bytes
    in use, out of the size asked for rounded up to a multiple of 8. *)
Theorem dump_of_fresh_process :
  forall (st : kstate) (name : string) (body arg stksize : Z)
         (k : nat) (l : list nat) (fuel : nat),
    os_current st = None ->
    os_nprocs st < NPROCS ->
    0 <= stksize < 2 ^ 31 - 8 ->
    64 <= roundup stksize 8 ->
    sizeof_proc + roundup stksize 8 <= __break2 st - __break st < 2 ^ 32 ->
    P_LOW = Z.of_nat k -> (k < 3)%nat -> P_LOW <> P_IDLE ->
    is_queue st k l ->
    (Z.to_nat ((roundup stksize 8 - 64) / 4) < fuel)%nat ->
    exists st' d,
      start name body arg stksize st = Ok (os_nprocs st) st' /\
      os_ptable st' !! length (os_ptable st) = Some d /\
      first_used fuel (p_stack d) (ram st') = Some (p_sp d) /\
      stack_figures fuel d (ram st') = Some (64, roundup stksize 8).
Proof.
  intros st name body arg stksize k l fuel Hcur Hn Hsz Hbig Hroom Hlow Hk Hidle Hq Hf.
  destruct (start_steps st name body arg stksize k l Hcur Hn Hsz Hroom Hlow Hk Hidle Hq)
    as (st' & Hstart & _ & _ & Hnew & _ & _ & _ & _ & Hram).
  pose proof (roundup_8_bounds stksize ltac:(lia)) as Hrb.
  pose proof (roundup_8 stksize) as Hr8.
  set (size := roundup stksize 8) in *.
  set (stack := __break st) in *.
  set (m := (stksize + 7) / 8) in *.
  assert (Hm : 8 <= m) by lia.
  assert (Hwords : (size - 64) / 4 = 2 * m - 16).
  { rewrite Hr8. replace (8 * m - 64) with ((2 * m - 16) * 4) by lia.
    apply Z.div_mul. lia. }
  assert (Hscan : first_used fuel stack (ram st') = Some (stack + size - 64)).
  { replace (stack + size - 64) with (stack + 4 * Z.of_nat (Z.to_nat (2 * m - 16)))
      by (rewrite Z2Nat.id by lia; lia).
    apply first_used_finds.
    - intros i Hi. rewrite Z2Nat.id in Hi by lia. rewrite Hram.
      match goal with
      | |- context [fill_words 16 ?sp 0 ?mm] =>
          destruct (frame_words sp body arg mm) as (_ & _ & _ & _ & _ & F6)
      end.
      rewrite F6 by lia.
      rewrite fill_words_spec.
      rewrite Z2Nat.id by (apply Z.div_pos; lia).
      replace ((size + 3) / 4) with (2 * m).
      2:{ rewrite Hr8. replace (8 * m + 3) with (3 + (2 * m) * 4) by lia.
          rewrite Z.div_add by lia. reflexivity. }
      replace (stack + 4 * i - stack) with (i * 4) by lia.
      rewrite Z.mod_mul by lia.
      replace ((stack <=? stack + 4 * i) && (stack + 4 * i <? stack + 4 * (2 * m)))
        with true; [reflexivity|].
      symmetry. apply andb_true_iff. split; [apply Z.leb_le | apply Z.ltb_lt]; lia.
    - rewrite Z2Nat.id by lia. rewrite Hram.
      match goal with
      | |- context [fill_words 16 ?sp 0 ?mm] =>
          destruct (frame_words sp body arg mm) as (_ & _ & _ & _ & F5 & _)
      end.
      replace (stack + 4 * (2 * m - 16)) with (stack + size - 64 + 4 * 0) by lia.
      rewrite F5; [discriminate|lia|discriminate|discriminate|discriminate|discriminate].
    - rewrite <- Hwords. exact Hf. }
  eexists st', _. split; [exact Hstart|]. split; [exact Hnew|].
  unfold stack_figures. cbn [p_stack p_stksize p_sp set_p_next set_p_state set_p_sp].
  split; [exact Hscan|]. rewrite Hscan. cbn zeta.
  replace (stack + size - 64 - stack) with (size - 64) by lia.
  rewrite (as_unsigned_small (size - 64)) by lia.
  replace (size - (size - 64)) with 64 by lia.
  reflexivity.
Qed.

End Dump.

Section Handlers.
Context {env : Env}.

(** X8.  An interrupt does not take the CPU from a handler.  When the
    process it is meant for waits for it, the interrupt message is
    delivered and the process goes last on ready queue 0; if the running
    process has priority 0 itself, no reschedule is requested and it goes
    on running, the woken handler having its turn when the running one
    blocks or yields. *)
Theorem interrupt_leaves_handler_running :
  forall (st : kstate) (cur dn : nat) (c d : proc) (l : list nat),
    P_HANDLER = 0 -> P_IDLE <> 0 ->
    os_current st = Some cur -> os_ptable st !! cur = Some c ->
    p_priority c <= 0 ->
    Z.of_nat dn < NPROCS -> os_ptable st !! dn = Some d ->
    waits_for d INTERRUPT -> cur <> dn ->
    is_queue st 0 l -> dn ∉ l -> cur ∉ l ->
    exists st',
      interrupt (Z.of_nat dn) st = Ok tt st' /\
      pendsv st' = pendsv st /\
      os_current st' = Some cur /\
      is_queue st' 0 (l ++ [dn]) /\
      os_ptable st' !! dn = Some (set_p_next None (set_p_state ACTIVE d)) /\
      (p_message d <> 0 ->
       msgmem st' (p_message d)
         = mkmsg INTERRUPT HARDWARE (m_body (msgmem st (p_message d)))) /\
      (forall a, a <> p_message d -> msgmem st' a = msgmem st a).
Proof.
  intros st cur dn c d l HH HI Hc Hcur Hprio Hn Hd Hw Hne Hq Hnin Hcnin.
  destruct (dest_checks_pass st dn d INTERRUPT Hn Hd Hw) as (He & _ & Ha).
  assert (HI0 : Z.of_nat 0 <> P_IDLE).
  { intros E. apply HI. now rewrite <- E. }
  destruct (deliver_total (p_message d) HARDWARE INTERRUPT 0 st)
    as (mem' & Hdel & Hmem).
  destruct (make_ready_enqueues (with_msgmem mem' st) 0%nat l dn d HI0 ltac:(lia)
              (is_queue_msgmem _ _ _ _ Hq) Hd Hnin)
    as (st1 & Hmr & Hq1 & Hd1 & Hother & Hqs & Hst1).
  assert (Hc1 : os_ptable st1 !! cur = Some c).
  { rewrite Hother; auto. intros Hl. apply Hcnin. now apply last_elem_of. }
  assert (Hcur1 : os_current st1 = Some cur) by (rewrite Hst1; exact Hc).
  exists st1.
  split; [|split; [rewrite Hst1; reflexivity|split; [exact Hcur1|split;
    [exact Hq1|split; [exact Hd1|split]]]]].
  - unfold interrupt.
    rewrite (bind_ok _ _ _ _ _ He).
    rewrite (bind_ok _ _ _ _ _ Ha).
    rewrite (bind_ok _ _ _ _ _ (deref_ok _ _ _ Hd)).
    rewrite (bind_ok _ _ _ _ _ Hdel).
    rewrite HH. change 0 with (Z.of_nat 0) at 1.
    rewrite (bind_ok _ _ _ _ _ Hmr).
    unfold current at 1. unfold bind at 1. rewrite Hcur1.
    rewrite (bind_ok _ _ _ _ _ (deref_ok _ _ _ Hc1)).
    replace (p_priority c >? 0) with false; [reflexivity|].
    symmetry. rewrite Z.gtb_ltb. apply Z.ltb_ge. lia.
  - intros Hb. rewrite Hst1. cbn.
    rewrite (deliver_header_only _ _ _ st Hb) in Hdel.
    injection Hdel as <-. unfold store_msg. now rewrite Z.eqb_refl.
  - intros a Ha'. rewrite Hst1. cbn. now apply Hmem.
Qed.

End Handlers.

Section Authentic.
Context {env : Env}.

(** X6.  The sender field of a delivered message names the process that
    sent it.  In any state the kernel can reach, a message handed over by
    [send] to a waiting receiver, and a message taken by [receive] from
    the sender at the head of the queue, arrive with the index of the
    sending process in the process table as [m_sender]: the kernel fills
    the field from its own record of the sender, over whatever the
    sender's buffer held there. *)
Theorem sender_field_names_the_caller :
  forall st : kstate, reachable st ->
    (forall (cur dn : nat) (c d : proc) (type msg : Z) (k : nat) (l : list nat),
       os_current st = Some cur -> os_ptable st !! cur = Some c ->
       Z.of_nat dn < NPROCS -> os_ptable st !! dn = Some d -> cur <> dn ->
       waits_for d type -> p_message d <> 0 -> msg <> 0 ->
       p_priority d = Z.of_nat k -> Z.of_nat k <> P_IDLE -> (k < 3)%nat ->
       is_queue st k l -> dn ∉ l -> cur ∉ l ->
       length (os_readyq st) = 3%nat -> heads_valid st ->
       exists st',
         mini_send (Z.of_nat dn) type msg st = Ok tt st' /\
         msgmem st' (p_message d)
           = mkmsg type (Z.of_nat cur) (m_body (msgmem st msg))) /\
    (forall (cur s : nat) (c ds : proc) (type msg : Z)
            (l : list nat) (k : nat) (lq : list nat),
       os_current st = Some cur -> os_ptable st !! cur = Some c ->
       is_waiting st cur (s :: l) -> os_ptable st !! s = Some ds -> s <> cur ->
       p_state ds = SENDING ->
       p_pending c && ((type =? ANY) || (type =? INTERRUPT)) = false ->
       type <> INTERRUPT -> type = ANY \/ p_msgtype ds = type ->
       msg <> 0 -> p_message ds <> 0 ->
       p_priority ds = Z.of_nat k -> Z.of_nat k <> P_IDLE -> (k < 3)%nat ->
       is_queue st k lq -> s ∉ lq -> cur ∉ lq -> (forall x, x ∈ lq -> x ∉ l) ->
       exists st',
         mini_receive type msg st = Ok tt st' /\
         msgmem st' msg
           = mkmsg (p_msgtype ds) (Z.of_nat s)
                   (m_body (msgmem st (p_message ds)))).
Proof.
  intros st Hreach. split.
  - intros cur dn c d type msg k l Hc Hcur Hn Hd Hne Hw Hbuf Hmsg Hprio Hidle Hk
           Hq Hnin Hcnin Hlen Hv.
    destruct (dest_checks_pass st dn d type Hn Hd Hw) as (He & Hb & Ha).
    destruct (hand_over st dn d (p_message d) (p_pid c) type msg k l
                Hd Hidle Hk Hq Hnin Hlen Hv)
      as (st1 & Hwake & _ & _ & _ & _ & Hcell & _).
    exists st1. split.
    + unfold mini_send. unfold current at 1. unfold bind at 1. rewrite Hc.
      rewrite (bind_ok _ _ _ _ _ (deref_ok _ _ _ Hcur)).
      rewrite (bind_ok _ _ _ _ _ He).
      rewrite (bind_ok _ _ _ _ _ Hb).
      rewrite (bind_ok _ _ _ _ _ Ha).
      rewrite (bind_ok _ _ _ _ _ (deref_ok _ _ _ Hd)).
      rewrite Hprio. exact Hwake.
    + rewrite <- (pid_reachable st cur c Hreach Hcur). now apply Hcell.
  - intros cur s c ds type msg l k lq Hc Hcur Hw Hs Hne Hstate Hpend Ht Hmatch
           Hmsg Hsrc Hprio Hidle Hk Hq Hsq Hcq Hdisj.
    destruct (first_sender_walk st cur s c ds type msg l k lq Hc Hcur Hw Hs Hne
                Hstate Hmatch Hmsg Hsrc Hprio Hidle Hk Hq Hsq Hcq Hdisj)
      as (st' & Hwalk & _ & Hcell & _).
    exists st'. split.
    + rewrite (mini_receive_walks st cur c type msg Hc Hcur Hpend Ht).
      now rewrite (bind_ok _ _ _ _ _ Hwalk).
    + rewrite <- (pid_reachable st s ds Hreach Hs). exact Hcell.
Qed.

End Authentic.

Lemma heads_validb_sound st : heads_validb st = true -> heads_valid st.
Proof.
  unfold heads_validb. intros H j q x Hq Hx.
  rewrite forallb_forall in H.
  assert (Hin : In q (os_readyq st)).
  { apply list_elem_of_In. eapply list_elem_of_lookup_2; eauto. }
  specialize (H q Hin). rewrite Hx in H.
  apply bool_decide_eq_true in H. now apply lookup_lt_is_Some.
Qed.

Section MoreWorkedRuns.
Local Existing Instance board.

Ltac run_it := vm_compute; reflexivity.
Ltac conjuncts := repeat match goal with |- _ /\ _ => split end.
Ltac settle :=
  match goal with
  | |- is_waiting _ _ _ => apply is_waitingb_sound; run_it
  | |- is_queue _ _ _ => apply is_queueb_sound; run_it
  | |- heads_valid _ => apply heads_validb_sound; run_it
  | |- _ <> _ => let E := fresh in intros E; vm_compute in E; discriminate E
  | |- _ = _ => run_it
  | |- (_ < _)%Z => run_it
  | |- (_ <= _)%Z => let E := fresh in intros E; vm_compute in E; discriminate E
  | |- (_ < _)%nat => vm_compute; lia
  end.
Ltac not_member :=
  let Hin := fresh "Hin" in
  intros Hin;
  repeat (apply elem_of_cons in Hin as [Hin|Hin]; [discriminate Hin|]);
  apply elem_of_nil in Hin; exact Hin.
Ltac queues_empty :=
  let j := fresh "j" in let q := fresh "q" in
  let Hj := fresh "Hj" in let E := fresh "E" in
  intros j q Hj E;
  repeat (destruct j as [|j];
          [vm_compute in E; injection E as <-; reflexivity|]);
  lia.

(** [sender_joins_queue_tail] on the board: S1 sends, and calls
    [sendrec], to R, which is ready and not receiving. *)
Lemma sender_joins_queue_tail_witness :
  (exists st',
     mini_send (Z.of_nat 3) 10 buf_S1 started = Ok tt st' /\
     is_waiting st' 3 ([] ++ [1%nat]) /\
     os_current st' = next_to_run started) /\
  (exists st',
     mini_sendrec (Z.of_nat 3) 10 buf_S1 started = Ok tt st' /\
     is_waiting st' 3 ([] ++ [1%nat])).
Proof.
  destruct (sender_joins_queue_tail started 1 3 (descriptor started 1)
              (descriptor started 3) 10 buf_S1 [])
    as ((st1 & A1 & A2 & _ & A4 & _) & (st2 & B1 & B2 & _)).
  - run_it.
  - run_it.
  - run_it.
  - run_it.
  - settle.
  - run_it.
  - settle.
  - not_member.
  - run_it.
  - settle.
  - split; [exists st1|exists st2]; auto.
Defined.

(** [waiting_receiver_gets_message] on the board: S1 sends, and calls
    [sendrec], to R, which waits in [receive(ANY)] at priority [P_HIGH].
    After the send R is alone on ready queue 1 and S1 runs on; after the
    [sendrec], with nothing ready at level 0, R runs and its queue is
    empty. *)
Lemma waiting_receiver_gets_message_witness :
  (exists st',
     mini_send (Z.of_nat 3) 10 buf_S1 high_receiver_waiting = Ok tt st' /\
     msgmem st' (p_message (descriptor high_receiver_waiting 3))
       = mkmsg 10 (p_pid (descriptor high_receiver_waiting 1))
               (m_body (msgmem high_receiver_waiting buf_S1)) /\
     is_queue st' 1 ([] ++ [3%nat]) /\
     os_current st' = Some 1%nat) /\
  (exists st',
     mini_sendrec (Z.of_nat 3) 10 buf_S1 high_receiver_waiting = Ok tt st' /\
     msgmem st' (p_message (descriptor high_receiver_waiting 3))
       = mkmsg 10 (p_pid (descriptor high_receiver_waiting 1))
               (m_body (msgmem high_receiver_waiting buf_S1)) /\
     os_current st' = Some 3%nat /\ is_queue st' 1 []).
Proof.
  destruct (waiting_receiver_gets_message high_receiver_waiting 1 3
              (descriptor high_receiver_waiting 1)
              (descriptor high_receiver_waiting 3) 10 buf_S1 1%nat [])
    as ((st1 & A1 & A2 & _ & _ & A5 & A6 & _) &
        (st2 & B1 & B2 & _ & _ & _ & _ & B7)).
  - run_it.
  - run_it.
  - run_it.
  - run_it.
  - discriminate.
  - split; [run_it | left; run_it].
  - settle.
  - settle.
  - run_it.
  - settle.
  - lia.
  - settle.
  - not_member.
  - not_member.
  - run_it.
  - settle.
  - split; [exists st1; auto|]. exists st2.
    split; [exact B1|]. split; [exact B2|].
    destruct B7 as (h & t & E & B8 & B9); [queues_empty|].
    injection E as <- <-. auto.
Defined.

(** [receive_takes_first_sender] on the board: R, with S1 and S2
    waiting, receives with filter ANY. *)
Lemma receive_takes_first_sender_witness :
  exists st',
    mini_receive ANY buf_R two_senders = Ok tt st' /\
    os_current st' = Some 3%nat /\
    msgmem st' buf_R
      = mkmsg (p_msgtype (descriptor two_senders 1))
              (p_pid (descriptor two_senders 1))
              (m_body (msgmem two_senders
                         (p_message (descriptor two_senders 1)))) /\
    is_waiting st' 3 [2%nat] /\
    is_queue st' 2 ([] ++ [1%nat]).
Proof.
  destruct (receive_takes_first_sender two_senders 3 1
              (descriptor two_senders 3) (descriptor two_senders 1)
              ANY buf_R [2%nat] 2%nat [])
    as (st' & H1 & H2 & H3 & _ & H5 & _ & H7).
  - run_it.
  - run_it.
  - settle.
  - run_it.
  - discriminate.
  - run_it.
  - run_it.
  - settle.
  - left. reflexivity.
  - settle.
  - settle.
  - run_it.
  - settle.
  - lia.
  - settle.
  - not_member.
  - not_member.
  - intros x Hx. apply elem_of_nil in Hx. contradiction.
  - exists st'. auto.
Defined.

Ltac no_such_type :=
  let x := fresh "x" in let dx := fresh "dx" in
  let Hx := fresh "Hx" in let Hdx := fresh "Hdx" in let E := fresh "E" in
  intros x dx Hx Hdx;
  repeat (apply elem_of_cons in Hx as [->|Hx];
          [vm_compute in Hdx; injection Hdx as <-;
           intros E; vm_compute in E; discriminate E|]);
  apply elem_of_nil in Hx; contradiction.

(** [receive_waits_when_nothing_matches] on the board: R, with S1 (type
    10) and S2 (type 20) waiting, receives with filter 30. *)
Lemma receive_waits_when_nothing_matches_witness :
  exists st',
    mini_receive 30 buf_R two_senders = Ok tt st' /\
    is_waiting st' 3 [1%nat; 2%nat] /\
    os_current st' = next_to_run two_senders /\
    msgmem st' = msgmem two_senders.
Proof.
  destruct (receive_waits_when_nothing_matches two_senders 3
              (descriptor two_senders 3) 30 buf_R [1%nat; 2%nat])
    as (st' & H1 & _ & H3 & H4 & H5).
  - run_it.
  - run_it.
  - settle.
  - run_it.
  - settle.
  - intros E. vm_compute in E. discriminate E.
  - no_such_type.
  - run_it.
  - settle.
  - exists st'. auto.
Defined.

(** [receive_interrupt_leaves_senders] on the board: R, with S1 and S2
    waiting, receives with filter INTERRUPT. *)
Lemma receive_interrupt_leaves_senders_witness :
  exists st',
    mini_receive INTERRUPT buf_R two_senders = Ok tt st' /\
    is_waiting st' 3 [1%nat; 2%nat] /\
    msgmem st' = msgmem two_senders.
Proof.
  destruct (receive_interrupt_leaves_senders two_senders 3
              (descriptor two_senders 3) buf_R [1%nat; 2%nat])
    as (st' & H1 & _ & H3 & _ & H5).
  - run_it.
  - run_it.
  - settle.
  - run_it.
  - run_it.
  - settle.
  - exists st'. auto.
Defined.

(** [interrupts_coalesce] on the board: three interrupts for the handler
    R while it runs. *)
Lemma interrupts_coalesce_witness :
  interrupts 3 (Z.of_nat 3) handler_running
    = interrupt (Z.of_nat 3) handler_running.
Proof.
  destruct (interrupts_coalesce handler_running 3 (descriptor handler_running 3)
              2%nat) as (H & _).
  - run_it.
  - run_it.
  - run_it.
  - exact H.
Defined.

(** [yield_is_context_switch] on the board: S1 yields. *)
Lemma yield_is_context_switch_witness :
  system_call psp_S1 (svc SYS_YIELD) 0 0 0 started = cxt_switch psp_S1 started.
Proof. apply yield_is_context_switch. reflexivity. Defined.

(** [yield_round_robin] on the board: S1 yields with S2 and R ready
    behind it. *)
Lemma yield_round_robin_witness :
  exists sp st',
    system_call psp_S1 (svc SYS_YIELD) 0 0 0 started = Ok sp st' /\
    os_current st' = Some 2%nat /\
    is_queue st' 2 [3%nat; 1%nat].
Proof.
  destruct (yield_round_robin started 1 (descriptor started 1)
              psp_S1 (svc SYS_YIELD) 0 0 0 2%nat [2%nat; 3%nat])
    as (h & t & sp & st' & Hht & H1 & H2 & H3 & _).
  - reflexivity.
  - run_it.
  - run_it.
  - run_it.
  - lia.
  - settle.
  - settle.
  - not_member.
  - queues_empty.
  - injection Hht as <- <-. exists sp, st'. auto.
Defined.

(** [exit_leaves_dead_process] on the board: S1 exits with S2 and R
    ready behind it on queue 2.  S2, the head of that queue, runs; what
    is then on queue 2 is what was on it, or that without its head;
    S1 is not on it; and a send to S1 panics. *)
Lemma exit_leaves_dead_process_witness :
  exists sp st',
    system_call psp_S1 (svc SYS_EXIT) 0 0 0 started = Ok sp st' /\
    os_current st' = Some 2%nat /\
    (exists lj', is_queue st' 2 lj' /\ (1%nat ∉ lj') /\
                 (lj' = [2%nat; 3%nat] \/
                  exists h, [2%nat; 3%nat] = h :: lj' /\
                            os_current st' = Some h)) /\
    mini_send (Z.of_nat 1) 10 buf_S2 st'
      = Panic "Sending to a non-existent process %d" [Z.of_nat 1] st'.
Proof.
  destruct (exit_leaves_dead_process started 1 0 (descriptor started 1)
              (descriptor started 0) psp_S1 (svc SYS_EXIT) 0 0 0)
    as (sp & st' & H1 & _ & H3 & H4 & H5).
  - reflexivity.
  - run_it.
  - run_it.
  - run_it.
  - run_it.
  - run_it.
  - run_it.
  - settle.
  - exists sp, st'. split; [exact H1|]. split; [rewrite H3; run_it|].
    split; [apply H4; [settle|not_member]|].
    apply (H5 10 buf_S2).
Defined.

(** [unknown_syscall_panics] on the board: S1 executes [svc 9]. *)
Lemma unknown_syscall_panics_witness :
  Z.land (svc 9) 0xff = 9 /\
  system_call psp_S1 (svc 9) 0 0 0 started
    = Panic "Unknown syscall %d" [9]
            (with_ptable (<[1%nat := set_p_sp psp_S1 (descriptor started 1)]>
                            (os_ptable started)) started).
Proof.
  apply (unknown_syscall_panics started 1 (descriptor started 1) psp_S1 9 0 0 0).
  - run_it.
  - run_it.
  - split; reflexivity.
Defined.

(** [priority_counts_from_next_queueing] on the board: level 5 is
    refused; S1 takes level 1 and yields, and runs on, ahead of S2 and R
    at level 2. *)
Lemma priority_counts_from_next_queueing_witness :
  priority 5 started = Panic bad_priority [5] started /\
  exists sp st',
    (priority 1 ;; system_call psp_S1 (svc SYS_YIELD) 0 0 0) started
      = Ok sp st' /\
    os_current st' = Some 1%nat /\ is_queue st' 1 [].
Proof.
  assert (Hc : os_current started = Some 1%nat) by run_it.
  assert (Hcur : os_ptable started !! 1%nat = Some (descriptor started 1)) by run_it.
  split.
  - destruct (priority_counts_from_next_queueing started 1 (descriptor started 1)
                5 psp_S1 (svc SYS_YIELD) 0 0 0 1%nat [] Hc Hcur) as (Hbad & _).
    apply Hbad. right. reflexivity.
  - destruct (priority_counts_from_next_queueing started 1 (descriptor started 1)
                1 psp_S1 (svc SYS_YIELD) 0 0 0 1%nat [] Hc Hcur) as (_ & Hok).
    destruct Hok as (_ & Hyield); [split; [discriminate|settle]|].
    destruct Hyield as (h & t & sp & st' & Hht & H1 & H2 & H3).
    + reflexivity.
    + reflexivity.
    + lia.
    + settle.
    + settle.
    + not_member.
    + queues_empty.
    + injection Hht as <- <-. exists sp, st'. auto.
Defined.

(** [connect_registers_handler] on the board: S1 connects to IRQ -1, to
    IRQ 40 and to IRQ 7. *)
Lemma connect_registers_handler_witness :
  connect (-1) started = Panic "Can't connect to CPU exceptions" [] started /\
  connect 40 started = Fault (OutOfBounds "os_handler" 40) /\
  exists st',
    connect 7 started = Ok tt st' /\
    os_handler st' !! Z.to_nat 7 = Some (p_pid (descriptor started 1)) /\
    irq_enabled st' 7 = true /\ os_readyq st' = os_readyq started.
Proof.
  assert (Hc : os_current started = Some 1%nat) by run_it.
  assert (Hcur : os_ptable started !! 1%nat = Some (descriptor started 1)) by run_it.
  split; [|split].
  - destruct (connect_registers_handler started 1 (descriptor started 1) (-1) Hc Hcur)
      as (H & _). apply H. reflexivity.
  - destruct (connect_registers_handler started 1 (descriptor started 1) 40 Hc Hcur)
      as (_ & H & _). apply H. discriminate.
  - destruct (connect_registers_handler started 1 (descriptor started 1) 7 Hc Hcur)
      as (_ & _ & H).
    destruct H as (st' & H1 & H2 & _ & _ & H5 & _ & H7 & _).
    + split; [discriminate|reflexivity].
    + run_it.
    + exists st'. auto.
Defined.

(** [connected_interrupt_is_received] on the board: S1 connects to IRQ 7,
    the interrupt arrives, and S1 receives it. *)
Lemma connected_interrupt_is_received_witness :
  exists st1 st2 st3,
    connect 7 started = Ok tt st1 /\
    default_handler 7 st1 = Ok tt st2 /\
    irq_enabled st2 7 = false /\
    system_call psp_S1 (svc SYS_RECEIVE) INTERRUPT buf_S1 0 st2 = Ok psp_S1 st3 /\
    msgmem st3 buf_S1
      = mkmsg INTERRUPT HARDWARE (m_body (msgmem started buf_S1)).
Proof.
  destruct (connected_interrupt_is_received started 1 (descriptor started 1)
              7 psp_S1 (svc SYS_RECEIVE) INTERRUPT buf_S1 0)
    as (st1 & st2 & st3 & H1 & _ & H3 & H4 & _ & _ & _ & H8 & _ & H10 & _).
  - run_it.
  - run_it.
  - run_it.
  - discriminate.
  - run_it.
  - run_it.
  - split; [discriminate|reflexivity].
  - run_it.
  - reflexivity.
  - right. reflexivity.
  - exists st1, st2, st3. split; [exact H1|]. split; [exact H3|].
    split; [exact H4|]. split; [exact H8|]. apply H10. settle.
Defined.

(** [start_refusals] on the board: with the table full; with the arena
    used up; with a stack larger than the arena; and once the scheduler
    runs. *)
Lemma start_refusals_witness :
  start "X" 0x2001 0 64 table_full = Panic "Too many processes" [] table_full /\
  (exists st', start "X" 0x2001 0 64 arena_full
               = Panic "No space for process" [] st') /\
  (exists st', start "X" 0x2001 0 20000 initialised
               = Panic "Phos is out of memory" [] st') /\
  (exists st', start "X" 0x2001 0 64 started
               = Panic "start() called after scheduler startup" [] st' /\
               os_nprocs st' = os_nprocs started + 1).
Proof.
  split; [|split; [|split]].
  - destruct (start_refusals table_full "X" 0x2001 0 64) as (H & _).
    apply H. settle.
  - destruct (start_refusals arena_full "X" 0x2001 0 64) as (_ & H & _).
    apply H; [run_it|]. split; [settle|run_it].
  - destruct (start_refusals initialised "X" 0x2001 0 20000) as (_ & _ & H & _).
    apply H; [run_it| | |run_it].
    + split; [discriminate|reflexivity].
    + split; [settle|run_it].
  - destruct (start_refusals started "X" 0x2001 0 64) as (_ & _ & _ & H).
    apply H; [run_it| | |].
    + split; [discriminate|reflexivity].
    + split; [settle|run_it].
    + settle.
Defined.

(** [start_keeps_stacks_in_order] on the board: the first process
    started after [os_init]; the idle process keeps its identity. *)
Lemma start_keeps_stacks_in_order_witness :
  exists st' d,
    start "S1" 0x2001 0 256 initialised = Ok (os_nprocs initialised) st' /\
    stacks_in_order st' /\
    os_ptable st' !! length (os_ptable initialised) = Some d /\
    p_stack d = __break initialised /\
    __break st' = __break initialised + roundup 256 8 /\
    same_identities initialised st'.
Proof.
  assert (Hord : stacks_in_order initialised).
  { destruct (os_init_in_order (msgmem loaded) (ram loaded)) as (st0 & H0 & Hord).
    - split; [settle|run_it].
    - assert (E : initialised = st0).
      { unfold initialised, after.
        change loaded with (boot (msgmem loaded) (ram loaded)). now rewrite H0. }
      rewrite E. exact Hord. }
  destruct (start_keeps_stacks_in_order initialised "S1" 0x2001 0 256 2%nat [] Hord)
    as (st' & d & H1 & H2 & H3 & H4 & _ & _ & _ & H8 & _ & _ & H11 & _).
  - run_it.
  - run_it.
  - split; [discriminate|reflexivity].
  - split; [settle|run_it].
  - reflexivity.
  - lia.
  - discriminate.
  - settle.
  - exists st', d. auto 7.
Defined.

(** [start_frame_below_small_stack] on the board: after A, process B is
    started with a stack of no bytes.  Its frame takes the place of the
    frame of A: the two processes have the same saved stack pointer, and
    the saved program counter found there is the body of B. *)
Lemma start_frame_below_small_stack_witness :
  exists st' d,
    start "B" 0x2301 0 0 one_started = Ok (os_nprocs one_started) st' /\
    os_ptable st' !! length (os_ptable one_started) = Some d /\
    p_sp d < p_stack d /\
    p_sp d = p_sp (descriptor one_started 1) /\
    ram one_started (p_sp (descriptor one_started 1) + 4 * PC_SAVE) = 0x2000 /\
    ram st' (p_sp d + 4 * PC_SAVE) = 0x2300.
Proof.
  destruct (start_frame_below_small_stack one_started "B" 0x2301 0 0 2%nat [1%nat])
    as (st' & d & H1 & H2 & _ & H4 & H5 & H6).
  - run_it.
  - run_it.
  - lia.
  - run_it.
  - split; [settle|run_it].
  - reflexivity.
  - lia.
  - discriminate.
  - settle.
  - exists st', d. split; [exact H1|]. split; [exact H2|]. split; [exact H5|].
    split; [rewrite H4; run_it|]. split; [run_it|].
    rewrite (H6 PC_SAVE) by (split; [discriminate|reflexivity]). run_it.
Defined.

(** [os_start_runs_first_ready] on the board: before [os_init] there is
    no idle process to turn into; with the idle process and S1, S2 and R
    started, S1 runs first, and the idle process is not on ready queue 2,
    whether that still has its head or not. *)
Lemma os_start_runs_first_ready_witness :
  os_start psp_idle loaded = Fault NullPointer /\
  exists sp st',
    os_start psp_idle all_started = Ok sp st' /\
    os_current st' = Some 1%nat /\
    exists lj', is_queue st' 2 lj' /\ (0%nat ∉ lj') /\
                (lj' = [1%nat; 2%nat; 3%nat] \/
                 exists h, [1%nat; 2%nat; 3%nat] = h :: lj' /\
                           os_current st' = Some h).
Proof.
  split.
  - destruct (os_start_runs_first_ready loaded psp_idle) as (H & _).
    apply H. reflexivity.
  - destruct (os_start_runs_first_ready all_started psp_idle) as (_ & H).
    destruct (H 0%nat (descriptor all_started 0))
      as (sp & st' & H1 & H2 & _ & _ & _ & H6).
    + run_it.
    + run_it.
    + run_it.
    + run_it.
    + settle.
    + exists sp, st'. split; [exact H1|]. split; [rewrite H2; run_it|].
      apply H6; [settle|not_member].
Defined.

(** [reachable_table_in_order] on the board, in the state [filtered]. *)
Lemma reachable_table_in_order_witness : table_in_order filtered.
Proof.
  apply reachable_table_in_order.
  apply (reachable_run_all filtered_trace loaded).
  - apply reachable_boot.
  - run_it.
Defined.

(** [run_keeps_identities] on the board, from [started] to [filtered]. *)
Lemma run_keeps_identities_witness :
  same_identities started filtered /\
  (length (os_ptable started) <= length (os_ptable filtered))%nat.
Proof.
  apply (run_keeps_identities started_to_filtered). run_it.
Defined.

(** [sender_field_names_the_caller] on the board: S1 sends to the waiting
    R; and R takes the message of S1 from its sender queue. *)
Lemma sender_field_names_the_caller_witness :
  (exists st',
     mini_send (Z.of_nat 3) 10 buf_S1 high_receiver_waiting = Ok tt st' /\
     msgmem st' (p_message (descriptor high_receiver_waiting 3))
       = mkmsg 10 (Z.of_nat 1) (m_body (msgmem high_receiver_waiting buf_S1))) /\
  (exists st',
     mini_receive ANY buf_R two_senders = Ok tt st' /\
     msgmem st' buf_R
       = mkmsg (p_msgtype (descriptor two_senders 1)) (Z.of_nat 1)
               (m_body (msgmem two_senders
                          (p_message (descriptor two_senders 1))))).
Proof.
  split.
  - assert (Hr : reachable high_receiver_waiting).
    { apply (reachable_run_all high_receiver_trace loaded);
        [apply reachable_boot|run_it]. }
    destruct (sender_field_names_the_caller high_receiver_waiting Hr) as (H & _).
    apply (H 1%nat 3%nat (descriptor high_receiver_waiting 1)
             (descriptor high_receiver_waiting 3) 10 buf_S1 1%nat []).
    + run_it.
    + run_it.
    + run_it.
    + run_it.
    + discriminate.
    + split; [run_it | left; run_it].
    + settle.
    + settle.
    + run_it.
    + settle.
    + lia.
    + settle.
    + not_member.
    + not_member.
    + run_it.
    + settle.
  - assert (Hr : reachable two_senders).
    { apply (reachable_run_all two_senders_trace loaded);
        [apply reachable_boot|run_it]. }
    destruct (sender_field_names_the_caller two_senders Hr) as (_ & H).
    apply (H 3%nat 1%nat (descriptor two_senders 3) (descriptor two_senders 1)
             ANY buf_R [2%nat] 2%nat []).
    + run_it.
    + run_it.
    + settle.
    + run_it.
    + discriminate.
    + run_it.
    + run_it.
    + settle.
    + left. reflexivity.
    + settle.
    + settle.
    + run_it.
    + settle.
    + lia.
    + settle.
    + not_member.
    + not_member.
    + intros x Hx. apply elem_of_nil in Hx. contradiction.
Defined.

(** [interrupt_leaves_handler_running] on the board: the interrupt for
    the waiting handler R arrives while S1, a handler too, runs. *)
Lemma interrupt_leaves_handler_running_witness :
  exists st',
    interrupt (Z.of_nat 3) two_handlers = Ok tt st' /\
    pendsv st' = pendsv two_handlers /\
    os_current st' = Some 1%nat /\
    is_queue st' 0 ([] ++ [3%nat]).
Proof.
  destruct (interrupt_leaves_handler_running two_handlers 1 3
              (descriptor two_handlers 1) (descriptor two_handlers 3) [])
    as (st' & H1 & H2 & H3 & H4 & _).
  - reflexivity.
  - discriminate.
  - run_it.
  - run_it.
  - settle.
  - run_it.
  - run_it.
  - split; [run_it | right; run_it].
  - discriminate.
  - settle.
  - not_member.
  - not_member.
  - exists st'. auto.
Defined.

(** [dump_of_fresh_process] on the board: the first process started
    after [os_init], with a stack of 256 bytes. *)
Lemma dump_of_fresh_process_witness :
  exists st' d,
    start "S1" 0x2001 0 256 initialised = Ok (os_nprocs initialised) st' /\
    os_ptable st' !! length (os_ptable initialised) = Some d /\
    stack_figures 100 d (ram st') = Some (64, roundup 256 8).
Proof.
  destruct (dump_of_fresh_process initialised "S1" 0x2001 0 256 2%nat [] 100%nat)
    as (st' & d & H1 & H2 & _ & H4).
  - run_it.
  - run_it.
  - split; [discriminate|reflexivity].
  - settle.
  - split; [settle|run_it].
  - reflexivity.
  - lia.
  - discriminate.
  - settle.
  - vm_compute. lia.
  - exists st', d. auto.
Defined.

End MoreWorkedRuns.

Section Layouts.

Lemma place_eqb_eq a b : place_eqb a b = true <-> a = b.
Proof.
  destruct a, b; cbn; try (split; [discriminate|intros H; discriminate H]).
  - rewrite Nat.eqb_eq. split; [now intros ->|now intros [= ->]].
  - rewrite Nat.eqb_eq. split; [now intros ->|now intros [= ->]].
Qed.

Lemma put_same pl l L : put pl l L pl = l.
Proof.
  unfold put. destruct (place_eqb pl pl) eqn:E; [reflexivity|].
  assert (place_eqb pl pl = true) by now apply place_eqb_eq. congruence.
Qed.

Lemma put_other pl l L pl' : pl' <> pl -> put pl l L pl' = L pl'.
Proof.
  intros H. unfold put. destruct (place_eqb pl' pl) eqn:E; [|reflexivity].
  apply place_eqb_eq in E. contradiction.
Qed.

Lemma place_cases (pl pl' : place) : pl' = pl \/ pl' <> pl.
Proof.
  destruct (place_eqb pl' pl) eqn:E.
  - left. now apply place_eqb_eq.
  - right. intros H. apply place_eqb_eq in H. congruence.
Qed.

(** Membership after a process has joined the list at [pl]. *)
Lemma elem_of_put_snoc L pl p i plx :
  i ∈ put pl (L pl ++ [p]) L plx <-> i ∈ L plx \/ (i = p /\ plx = pl).
Proof.
  destruct (place_cases pl plx) as [->|Hne].
  - rewrite put_same, elem_of_app, list_elem_of_singleton. tauto.
  - rewrite put_other by exact Hne. tauto.
Qed.

(** Membership after the list at [pl] has lost members. *)
Lemma elem_of_put_sub L pl l i plx :
  (forall x, x ∈ l -> x ∈ L pl) -> i ∈ put pl l L plx -> i ∈ L plx.
Proof.
  intros Hsub. destruct (place_cases pl plx) as [->|Hne].
  - rewrite put_same. apply Hsub.
  - now rewrite put_other by exact Hne.
Qed.

Lemma fits_not_receiving pl s : fits pl s -> s <> RECEIVING /\ s <> IDLING /\ s <> DEAD.
Proof. destruct pl; cbn; intros H; [subst|destruct H; subst]; auto. Qed.

(** A layout in which a process that was on no list has joined the list
    at [pl]. *)
Lemma snoc_unique L pl p :
  (forall i pl1 pl2, i ∈ L pl1 -> i ∈ L pl2 -> pl1 = pl2) ->
  (forall plx, p ∉ L plx) ->
  forall i pl1 pl2, i ∈ put pl (L pl ++ [p]) L pl1 ->
                    i ∈ put pl (L pl ++ [p]) L pl2 -> pl1 = pl2.
Proof.
  intros H3 Hno i pl1 pl2 Hi1 Hi2.
  apply elem_of_put_snoc in Hi1, Hi2.
  destruct Hi1 as [Hi1|[-> ->]], Hi2 as [Hi2|[E2 ->]]; subst;
    try reflexivity; try (exfalso; eapply Hno; eauto; fail).
  eapply H3; eauto.
Qed.

Lemma snoc_nodup L pl p :
  (forall plx, NoDup (L plx)) -> (forall plx, p ∉ L plx) ->
  forall plx, NoDup (put pl (L pl ++ [p]) L plx).
Proof.
  intros Hnd Hno plx. destruct (place_cases pl plx) as [->|Hne].
  - rewrite put_same. apply NoDup_app. split; [apply Hnd|].
    split; [|apply NoDup_singleton].
    intros x Hx Hx'. apply list_elem_of_singleton in Hx'. subst x.
    eapply Hno; eauto.
  - rewrite put_other by exact Hne. apply Hnd.
Qed.

(** A layout in which the list at [pl] has lost its head. *)
Lemma rest_unique L pl h t :
  (forall i pl1 pl2, i ∈ L pl1 -> i ∈ L pl2 -> pl1 = pl2) -> L pl = h :: t ->
  forall i pl1 pl2, i ∈ put pl t L pl1 -> i ∈ put pl t L pl2 -> pl1 = pl2.
Proof.
  intros H3 El i pl1 pl2 Hi1 Hi2.
  assert (Hsub : forall x, x ∈ t -> x ∈ L pl).
  { intros x Hx. rewrite El. now apply list_elem_of_further. }
  apply (elem_of_put_sub _ _ _ _ _ Hsub) in Hi1, Hi2. eapply H3; eauto.
Qed.

Lemma rest_nodup L pl h t :
  (forall plx, NoDup (L plx)) -> L pl = h :: t ->
  forall plx, NoDup (put pl t L plx).
Proof.
  intros Hnd El plx. destruct (place_cases pl plx) as [->|Hne].
  - rewrite put_same. specialize (Hnd pl). rewrite El in Hnd.
    now apply NoDup_cons in Hnd as [_ ?].
  - rewrite put_other by exact Hne. apply Hnd.
Qed.

Lemma rest_nowhere L pl h t :
  (forall i pl1 pl2, i ∈ L pl1 -> i ∈ L pl2 -> pl1 = pl2) ->
  (forall plx, NoDup (L plx)) -> L pl = h :: t ->
  forall plx, h ∉ put pl t L plx.
Proof.
  intros H3 Hnd El plx Hin.
  assert (Hh : h ∈ L pl) by (rewrite El; apply list_elem_of_here).
  destruct (place_cases pl plx) as [->|Hne].
  - rewrite put_same in Hin. specialize (Hnd pl). rewrite El in Hnd.
    apply NoDup_cons in Hnd as [Hn _]. contradiction.
  - rewrite put_other in Hin by exact Hne. apply Hne. eapply H3; eauto.
Qed.

Lemma rest_elem_of L pl h t i plx :
  L pl = h :: t -> i ∈ put pl t L plx -> i ∈ L plx.
Proof.
  intros El. apply elem_of_put_sub. intros x Hx. rewrite El.
  now apply list_elem_of_further.
Qed.

(** A process on a list exists. *)
Lemma linked_valid st L i pl :
  linked st L -> i ∈ L pl -> (i < length (os_ptable st))%nat.
Proof.
  intros HL Hi. destruct (lk_fits _ _ HL i pl Hi) as (d & Hd & _).
  eapply lookup_lt_Some; eauto.
Qed.

(** The ready queues and the sender queues of a state that is laid out. *)
Lemma laid_out_queue st L k :
  laid_out st L -> (k < 3)%nat -> is_queue st k (L (Ready k)).
Proof.
  intros [HL HT] Hk. destruct (lk_ready _ _ HL k Hk) as (q & Hq & Hl).
  exists q. split; [exact Hq|]. split; [exact Hl|]. now apply HT.
Qed.

Lemma laid_out_waiting st L r :
  laid_out st L -> (r < length (os_ptable st))%nat ->
  is_waiting st r (L (Sender r)).
Proof.
  intros [HL _] Hr. destruct (lookup_lt_is_Some_2 _ _ Hr) as [d Hd].
  exists d. split; [exact Hd|]. now apply (lk_senders _ _ HL).
Qed.

(** The links are a matter of the process table and the heads of the
    ready queues. *)
Lemma linked_ext st st' L :
  linked st L -> os_ptable st' = os_ptable st ->
  os_readyq st' = os_readyq st -> linked st' L.
Proof.
  intros [H1 H2 H3 H5 H4] Hp Hq. split.
  - intros k Hk. destruct (H1 k Hk) as (q & Hq1 & Hl).
    exists q. rewrite Hp, Hq. auto.
  - intros r d. rewrite Hp. apply H2.
  - exact H3.
  - exact H5.
  - intros i pl Hi. rewrite Hp. now apply H4.
Qed.

(** A write to a descriptor that leaves [p_waiting] alone, and either
    leaves [p_next] and [p_state] alone as well or is made to a process
    that is on no list, leaves the links alone. *)
Lemma linked_update st L i d d' :
  linked st L -> os_ptable st !! i = Some d ->
  p_waiting d' = p_waiting d ->
  (p_next d' = p_next d /\ p_state d' = p_state d) \/ (forall pl, i ∉ L pl) ->
  linked (with_ptable (<[i := d']> (os_ptable st)) st) L.
Proof.
  intros [H1 H2 H3 H5 H4] Hi Hw Hcase.
  assert (Hlt : (i < length (os_ptable st))%nat) by (eapply lookup_lt_Some; eauto).
  assert (Hkeep : forall h pl, lseg (os_ptable st) h (L pl) ->
                               lseg (<[i := d']> (os_ptable st)) h (L pl)).
  { intros h pl Hl. destruct Hcase as [[Hn _]|Hno].
    - eapply lseg_update_keep; eauto.
    - apply lseg_frame; auto. }
  split.
  - intros k Hk. destruct (H1 k Hk) as (q & Hq & Hl).
    exists q. cbn. split; [exact Hq|]. now apply Hkeep.
  - intros r dr Hr. cbn in Hr |- *. apply Hkeep.
    destruct (decide (r = i)) as [->|Hne].
    + rewrite list_lookup_insert_eq in Hr by exact Hlt. injection Hr as <-.
      rewrite Hw. now apply H2.
    + rewrite list_lookup_insert_ne in Hr by auto. now apply H2.
  - exact H3.
  - exact H5.
  - intros j pl Hj. cbn. destruct (H4 j pl Hj) as (dj & Hdj & Hf).
    destruct (decide (j = i)) as [->|Hne].
    + rewrite list_lookup_insert_eq by exact Hlt. exists d'. split; [reflexivity|].
      destruct Hcase as [[_ Hs]|Hno]; [|exfalso; eapply Hno; eauto].
      assert (dj = d) by congruence. subst dj. now rewrite Hs.
    + rewrite list_lookup_insert_ne by auto. eauto.
Qed.

(** A process joins the list at [pl], behind its last member [t]. *)
Lemma linked_push st L pl p dp t dt :
  linked st L -> last (L pl) = Some t ->
  os_ptable st !! t = Some dt -> os_ptable st !! p = Some dp ->
  p_next dp = None -> fits pl (p_state dp) -> (forall plx, p ∉ L plx) ->
  linked (with_ptable (<[t := set_p_next (Some p) dt]> (os_ptable st)) st)
         (put pl (L pl ++ [p]) L).
Proof.
  intros [H1 H2 H3 H5 H4] Hlast Ht Hp Hn Hf Hno.
  apply last_Some in Hlast as (l' & El).
  assert (Htin : t ∈ L pl) by (rewrite El, elem_of_app, list_elem_of_singleton; auto).
  assert (Htp : t <> p) by (intros ->; eapply Hno; eauto).
  assert (Htlt : (t < length (os_ptable st))%nat) by (eapply lookup_lt_Some; eauto).
  set (ps' := <[t := set_p_next (Some p) dt]> (os_ptable st)).
  assert (Hkeep : forall h plx, lseg (os_ptable st) h (L plx) ->
                                lseg ps' h (put pl (L pl ++ [p]) L plx)).
  { intros h plx Hl. destruct (place_cases pl plx) as [->|Hne].
    - rewrite put_same. rewrite El in Hl |- *.
      eapply lseg_snoc; eauto. rewrite <- El. apply Hno.
    - rewrite put_other by exact Hne. apply lseg_frame; [exact Hl|].
      intros Hin. apply Hne. eapply H3; eauto. }
  split.
  - intros k Hk. destruct (H1 k Hk) as (q & Hq & Hl).
    exists q. cbn. split; [exact Hq|]. now apply Hkeep.
  - intros r dr Hr. cbn in Hr |- *. apply Hkeep.
    destruct (decide (r = t)) as [->|Hne].
    + unfold ps' in Hr. rewrite list_lookup_insert_eq in Hr by exact Htlt.
      injection Hr as <-. cbn. now apply H2.
    + unfold ps' in Hr. rewrite list_lookup_insert_ne in Hr by auto. now apply H2.
  - now apply snoc_unique.
  - now apply snoc_nodup.
  - intros i plx Hi. cbn. apply elem_of_put_snoc in Hi.
    destruct (decide (i = t)) as [->|Hne].
    + destruct Hi as [Hi|[E _]]; [|contradiction].
      destruct (H4 t plx Hi) as (d0 & Hd0 & Hf0).
      assert (d0 = dt) by congruence. subst d0.
      exists (set_p_next (Some p) dt). split; [|exact Hf0].
      unfold ps'. apply list_lookup_insert_eq, Htlt.
    + unfold ps'. rewrite list_lookup_insert_ne by auto.
      destruct Hi as [Hi|[-> ->]]; [now apply H4|eauto].
Qed.

(** A process becomes the one member of ready queue [k]. *)
Lemma linked_first_ready st L k p dp q x :
  linked st L -> (k < 3)%nat -> os_readyq st !! k = Some q -> q_head q = None ->
  os_ptable st !! p = Some dp ->
  p_next dp = None -> p_state dp = ACTIVE -> (forall plx, p ∉ L plx) ->
  linked (with_readyq (<[k := mkqueue (Some p) x]> (os_readyq st)) st)
         (put (Ready k) (L (Ready k) ++ [p]) L).
Proof.
  intros [H1 H2 H3 H5 H4] Hk Hq Hh Hp Hn Hs Hno.
  assert (Hklt : (k < length (os_readyq st))%nat) by (eapply lookup_lt_Some; eauto).
  assert (El : L (Ready k) = []).
  { destruct (H1 k Hk) as (q0 & Hq0 & Hl). assert (q0 = q) by congruence. subst q0.
    rewrite Hh in Hl. now inversion Hl. }
  split.
  - intros j Hj. cbn. destruct (decide (j = k)) as [->|Hne].
    + exists (mkqueue (Some p) x). split; [apply list_lookup_insert_eq, Hklt|].
      rewrite put_same, El. cbn. econstructor; [exact Hp|]. rewrite Hn. constructor.
    + rewrite list_lookup_insert_ne by auto.
      rewrite put_other by congruence. now apply H1.
  - intros r dr Hr. cbn in Hr |- *. rewrite put_other by discriminate. now apply H2.
  - now apply snoc_unique.
  - now apply snoc_nodup.
  - intros i plx Hi. cbn. apply elem_of_put_snoc in Hi.
    destruct Hi as [Hi|[-> ->]]; [now apply H4|].
    exists dp. split; [exact Hp|exact Hs].
Qed.

(** A process becomes the one sender waiting on [r]. *)
Lemma linked_first_sender st L r dr p dp :
  linked st L -> os_ptable st !! r = Some dr -> p_waiting dr = None ->
  os_ptable st !! p = Some dp ->
  p_next dp = None -> fits (Sender r) (p_state dp) -> (forall plx, p ∉ L plx) ->
  linked (with_ptable (<[r := set_p_waiting (Some p) dr]> (os_ptable st)) st)
         (put (Sender r) (L (Sender r) ++ [p]) L).
Proof.
  intros [H1 H2 H3 H5 H4] Hr Hw Hp Hn Hf Hno.
  assert (Hrlt : (r < length (os_ptable st))%nat) by (eapply lookup_lt_Some; eauto).
  assert (El : L (Sender r) = []).
  { pose proof (H2 r dr Hr) as Hl. rewrite Hw in Hl. now inversion Hl. }
  set (ps' := <[r := set_p_waiting (Some p) dr]> (os_ptable st)).
  assert (Hkeep : forall h l, lseg (os_ptable st) h l -> lseg ps' h l).
  { intros h l Hl. eapply lseg_update_keep; eauto. }
  assert (Hp' : exists dp', ps' !! p = Some dp' /\ p_next dp' = None /\
                            p_state dp' = p_state dp).
  { destruct (decide (p = r)) as [->|Hne].
    - exists (set_p_waiting (Some r) dr). unfold ps'.
      rewrite list_lookup_insert_eq by exact Hrlt.
      assert (dp = dr) by congruence. subst dp. auto.
    - exists dp. unfold ps'. rewrite list_lookup_insert_ne by auto. auto. }
  destruct Hp' as (dp' & Hp' & Hn' & Hs').
  split.
  - intros k Hk. cbn. rewrite put_other by discriminate.
    destruct (H1 k Hk) as (q & Hq & Hl). exists q. split; [exact Hq|]. now apply Hkeep.
  - intros j dj Hj. cbn in Hj |- *.
    destruct (decide (j = r)) as [->|Hne].
    + unfold ps' in Hj. rewrite list_lookup_insert_eq in Hj by exact Hrlt.
      injection Hj as <-. cbn. rewrite put_same, El. cbn.
      econstructor; [exact Hp'|]. rewrite Hn'. constructor.
    + unfold ps' in Hj. rewrite list_lookup_insert_ne in Hj by auto.
      rewrite put_other by congruence. apply Hkeep. now apply H2.
  - now apply snoc_unique.
  - now apply snoc_nodup.
  - intros i plx Hi. cbn. apply elem_of_put_snoc in Hi.
    destruct Hi as [Hi|[-> ->]].
    + destruct (H4 i plx Hi) as (d0 & Hd0 & Hf0).
      destruct (decide (i = r)) as [->|Hne].
      * assert (d0 = dr) by congruence. subst d0.
        exists (set_p_waiting (Some p) dr). split; [|exact Hf0].
        unfold ps'. apply list_lookup_insert_eq, Hrlt.
      * exists d0. unfold ps'. rewrite list_lookup_insert_ne by auto. auto.
    + exists dp'. split; [exact Hp'|]. now rewrite Hs'.
Qed.


(** The head of ready queue [k] leaves the queue. *)
Lemma linked_pop_ready st L k q h dh x :
  linked st L -> (k < 3)%nat -> os_readyq st !! k = Some q ->
  q_head q = Some h -> os_ptable st !! h = Some dh ->
  exists t, L (Ready k) = h :: t /\
    linked (with_readyq (<[k := mkqueue (p_next dh) x]> (os_readyq st)) st)
           (put (Ready k) t L) /\
    (forall plx, h ∉ put (Ready k) t L plx) /\
    p_state dh = ACTIVE.
Proof.
  intros [H1 H2 H3 H5 H4] Hk Hq Hh Hd.
  assert (Hklt : (k < length (os_readyq st))%nat) by (eapply lookup_lt_Some; eauto).
  destruct (H1 k Hk) as (q0 & Hq0 & Hl). assert (q0 = q) by congruence. subst q0.
  rewrite Hh in Hl. inversion Hl as [|i d0 t Hd0 Ht E1]; subst.
  assert (d0 = dh) by congruence. subst d0.
  match goal with E : h :: t = L (Ready k) |- _ => symmetry in E; rename E into El end.
  exists t. split; [reflexivity|]. split; [|split].
  - split.
    + intros j Hj. cbn. destruct (decide (j = k)) as [->|Hne].
      * exists (mkqueue (p_next dh) x). split; [apply list_lookup_insert_eq, Hklt|].
        rewrite put_same. exact Ht.
      * rewrite list_lookup_insert_ne by auto.
        rewrite put_other by congruence. now apply H1.
    + intros r dr Hr. cbn in Hr |- *. rewrite put_other by discriminate. now apply H2.
    + eapply rest_unique; eauto.
    + eapply rest_nodup; eauto.
    + intros i plx Hi. cbn. apply H4. eapply rest_elem_of; eauto.
  - eapply rest_nowhere; eauto.
  - assert (Hin : h ∈ L (Ready k)) by (rewrite El; apply list_elem_of_here).
    destruct (H4 h (Ready k) Hin) as (d0 & Hd0' & Hf). cbn in Hf. congruence.
Qed.

(** The first sender waiting on [c] leaves the queue. *)
Lemma linked_pop_sender st L c dc s ds :
  linked st L -> os_ptable st !! c = Some dc -> p_waiting dc = Some s ->
  os_ptable st !! s = Some ds ->
  exists t, L (Sender c) = s :: t /\
    linked (with_ptable (<[c := set_p_waiting (p_next ds) dc]> (os_ptable st)) st)
           (put (Sender c) t L) /\
    (forall plx, s ∉ put (Sender c) t L plx) /\
    (p_state ds = SENDING \/ p_state ds = SENDREC).
Proof.
  intros [H1 H2 H3 H5 H4] Hc Hw Hs.
  assert (Hclt : (c < length (os_ptable st))%nat) by (eapply lookup_lt_Some; eauto).
  pose proof (H2 c dc Hc) as Hl. rewrite Hw in Hl.
  inversion Hl as [|i d0 t Hd0 Ht E1]; subst.
  assert (d0 = ds) by congruence. subst d0.
  match goal with E : s :: t = L (Sender c) |- _ => symmetry in E; rename E into El end.
  set (ps' := <[c := set_p_waiting (p_next ds) dc]> (os_ptable st)).
  assert (Hkeep : forall h l, lseg (os_ptable st) h l -> lseg ps' h l).
  { intros h l Hl'. eapply lseg_update_keep; eauto. }
  exists t. split; [reflexivity|]. split; [|split].
  - split.
    + intros k Hk. cbn. rewrite put_other by discriminate.
      destruct (H1 k Hk) as (q & Hq & Hlq). exists q. split; [exact Hq|].
      now apply Hkeep.
    + intros r dr Hr. cbn in Hr |- *.
      destruct (decide (r = c)) as [->|Hne].
      * unfold ps' in Hr. rewrite list_lookup_insert_eq in Hr by exact Hclt.
        injection Hr as <-. cbn. rewrite put_same. now apply Hkeep.
      * unfold ps' in Hr. rewrite list_lookup_insert_ne in Hr by auto.
        rewrite put_other by congruence. apply Hkeep. now apply H2.
    + eapply rest_unique; eauto.
    + eapply rest_nodup; eauto.
    + intros i plx Hi. cbn.
      assert (Hi' : i ∈ L plx) by (eapply rest_elem_of; eauto).
      destruct (H4 i plx Hi') as (d0 & Hd0' & Hf).
      destruct (decide (i = c)) as [->|Hne].
      * assert (d0 = dc) by congruence. subst d0.
        exists (set_p_waiting (p_next ds) dc). split; [|exact Hf].
        unfold ps'. apply list_lookup_insert_eq, Hclt.
      * exists d0. unfold ps'. rewrite list_lookup_insert_ne by auto. auto.
  - eapply rest_nowhere; eauto.
  - assert (Hin : s ∈ L (Sender c)) by (rewrite El; apply list_elem_of_here).
    destruct (H4 s (Sender c) Hin) as (d0 & Hd0' & Hf). cbn in Hf.
    assert (d0 = ds) by congruence. subst d0. exact Hf.
Qed.

(** A new descriptor, at the end of the table, with nobody waiting to
    send to it. *)
Lemma linked_new st L d :
  linked st L -> p_waiting d = None ->
  linked (with_ptable (os_ptable st ++ [d]) st)
         (put (Sender (length (os_ptable st))) [] L) /\
  (forall plx, length (os_ptable st) ∉
               put (Sender (length (os_ptable st))) [] L plx) /\
  (forall i plx, i ∈ put (Sender (length (os_ptable st))) [] L plx -> i ∈ L plx).
Proof.
  intros HL Hw. pose proof HL as [H1 H2 H3 H5 H4].
  set (n := length (os_ptable st)).
  assert (Hsub : forall i plx, i ∈ put (Sender n) [] L plx -> i ∈ L plx).
  { intros i plx. apply elem_of_put_sub. intros x Hx. inversion Hx. }
  assert (Hkeep : forall h plx, lseg (os_ptable st) h (L plx) ->
                                lseg (os_ptable st ++ [d]) h (L plx)).
  { intros h plx Hl. eapply lseg_ext; [exact Hl|].
    intros j Hj. apply lookup_app_l. eapply linked_valid; eauto. }
  split; [|split; [|exact Hsub]].
  - split.
    + intros k Hk. cbn. rewrite put_other by discriminate.
      destruct (H1 k Hk) as (q & Hq & Hl). exists q. split; [exact Hq|].
      now apply Hkeep.
    + intros r dr Hr. cbn in Hr |- *.
      destruct (decide (r = n)) as [->|Hne].
      * unfold n in Hr. rewrite list_lookup_middle in Hr by reflexivity.
        injection Hr as <-. rewrite put_same, Hw. constructor.
      * rewrite put_other by congruence. apply Hkeep, H2.
        rewrite lookup_app_l in Hr; [exact Hr|].
        apply lookup_lt_Some in Hr. rewrite length_app in Hr. cbn in Hr.
        unfold n in Hne. lia.
    + intros i pl1 pl2 Hi1 Hi2. apply Hsub in Hi1, Hi2. eapply H3; eauto.
    + intros plx. destruct (place_cases (Sender n) plx) as [->|Hne].
      * rewrite put_same. constructor.
      * rewrite put_other by exact Hne. apply H5.
    + intros i plx Hi. cbn. apply Hsub in Hi.
      destruct (H4 i plx Hi) as (d0 & Hd0 & Hf). exists d0. split; [|exact Hf].
      rewrite lookup_app_l; [exact Hd0|]. eapply lookup_lt_Some; eauto.
  - intros plx Hin. apply Hsub in Hin.
    pose proof (linked_valid _ _ _ _ HL Hin). unfold n in *. lia.
Qed.

(** Tail pointers: the table plays no part, and a list that changes is
    the list of a queue whose tail pointer is set to its new last
    member. *)
Lemma tails_ptable st L ps : tails st L -> tails (with_ptable ps st) L.
Proof. intros H k q Hk Hq. now apply H. Qed.

Lemma tails_sender st L r l : tails st L -> tails st (put (Sender r) l L).
Proof.
  intros H k q Hk Hq. rewrite put_other by discriminate. now apply H.
Qed.

Lemma tails_push st L k p h :
  tails st L ->
  tails (with_readyq (<[k := mkqueue h (Some p)]> (os_readyq st)) st)
        (put (Ready k) (L (Ready k) ++ [p]) L).
Proof.
  intros H j q Hj Hq. cbn in Hq.
  destruct (decide (j = k)) as [->|Hne].
  - rewrite put_same. right.
    rewrite list_lookup_insert_eq in Hq by (eapply lookup_lt_Some in Hq;
      rewrite length_insert in Hq; exact Hq).
    injection Hq as <-. cbn. now rewrite last_snoc.
  - rewrite list_lookup_insert_ne in Hq by auto.
    rewrite put_other by congruence. now apply H.
Qed.

Lemma tails_pop st L k q h t n :
  tails st L -> (k < 3)%nat -> os_readyq st !! k = Some q ->
  L (Ready k) = h :: t ->
  tails (with_readyq (<[k := mkqueue n (q_tail q)]> (os_readyq st)) st)
        (put (Ready k) t L).
Proof.
  intros H Hk Hq El j qj Hj Hqj. cbn in Hqj.
  destruct (decide (j = k)) as [->|Hne].
  - rewrite put_same.
    rewrite list_lookup_insert_eq in Hqj by (eapply lookup_lt_Some; eauto).
    injection Hqj as <-. cbn.
    destruct t as [|y t]; [now left|right].
    destruct (H k q Hk Hq) as [E|E]; [rewrite El in E; discriminate|].
    rewrite E, El. reflexivity.
  - rewrite list_lookup_insert_ne in Hqj by auto.
    rewrite put_other by congruence. now apply H.
Qed.

End Layouts.

Section Coverage.
Context {env : Env}.

Lemma covered_weaken st L (X Y : nat -> Prop) :
  covered st L X -> (forall i, X i -> Y i) -> covered st L Y.
Proof. intros H HXY i d Hd HY. apply H; auto. Qed.

(** Coverage carries over from [st] to [st'] when every process of [st']
    that is owed something is on the right kind of list, or is as it was
    in [st], on the lists it was on. *)
Lemma covered_step st L X st' L' (X' : nat -> Prop) :
  covered st L X ->
  (length (os_ptable st) <= length (os_ptable st'))%nat ->
  (forall i d', os_ptable st' !! i = Some d' -> ~ X' i ->
     p_priority d' <> P_IDLE ->
     (p_state d' = RECEIVING \/ p_state d' = IDLING \/ p_state d' = DEAD) \/
     (p_state d' = ACTIVE /\ exists k, (k < 3)%nat /\ i ∈ L' (Ready k)) \/
     ((p_state d' = SENDING \/ p_state d' = SENDREC) /\
      exists r, (r < length (os_ptable st'))%nat /\ i ∈ L' (Sender r)) \/
     (exists d, os_ptable st !! i = Some d /\ ~ X i /\
                p_state d' = p_state d /\ p_priority d' = p_priority d /\
                (forall k, (k < 3)%nat -> i ∈ L (Ready k) -> i ∈ L' (Ready k)) /\
                (forall r, (r < length (os_ptable st))%nat ->
                           i ∈ L (Sender r) -> i ∈ L' (Sender r)))) ->
  covered st' L' X'.
Proof.
  intros Hcov Hlen H i d' Hd' HX Hp.
  destruct (H i d' Hd' HX Hp)
    as [Hs|[[Hs Hin]|[[Hs Hin]|(d & Hd & HXi & Hs & Hpr & HR & HS)]]].
  - split; intros E; [|destruct E as [E|E]];
      destruct Hs as [Hs|[Hs|Hs]]; congruence.
  - split; [auto|]. intros [E|E]; congruence.
  - split; [|auto]. intros E. destruct Hs; congruence.
  - rewrite Hpr in Hp. destruct (Hcov i d Hd HXi Hp) as [C1 C2].
    rewrite Hs. split.
    + intros E. destruct (C1 E) as (k & Hk & Hin). exists k. auto.
    + intros E. destruct (C2 E) as (r & Hr & Hin). exists r. split; [lia|auto].
Qed.

(** The descriptors of [ps'], traced back to those of [ps]. *)
Lemma standing_back (ps ps' : list proc) (p : nat) (R : proc -> proc -> Prop) :
  length ps' = length ps ->
  (forall j dj, j <> p -> ps !! j = Some dj ->
     exists dj', ps' !! j = Some dj' /\ R dj dj') ->
  forall j dj', j <> p -> ps' !! j = Some dj' ->
    exists dj, ps !! j = Some dj /\ R dj dj'.
Proof.
  intros Hlen H j dj' Hj Hdj'.
  destruct (lookup_lt_is_Some_2 ps j) as [dj Hdj].
  { rewrite <- Hlen. eapply lookup_lt_Some; eauto. }
  destruct (H j dj Hj Hdj) as (dj'' & Hdj'' & HR).
  exists dj. split; [exact Hdj|]. congruence.
Qed.

Lemma same_duty_ext st st' : os_ptable st' = os_ptable st -> same_duty st st'.
Proof. intros E. split; [now rewrite E|]. intros i d' H. rewrite E in H. eauto. Qed.

Lemma same_duty_trans st1 st2 st3 :
  same_duty st1 st2 -> same_duty st2 st3 -> same_duty st1 st3.
Proof.
  intros [E1 H1] [E2 H2]. split; [congruence|]. intros i d3 H3.
  destruct (H2 i d3 H3) as (d2 & Hd2 & Hs2 & Hp2).
  destruct (H1 i d2 Hd2) as (d1 & Hd1 & Hs1 & Hp1).
  exists d1. split; [exact Hd1|]. split; congruence.
Qed.

Lemma same_duty_update st i d d' :
  os_ptable st !! i = Some d ->
  p_state d' = p_state d -> p_priority d' = p_priority d ->
  same_duty st (with_ptable (<[i := d']> (os_ptable st)) st).
Proof.
  intros Hi Hs Hp. split; [cbn; apply length_insert|]. intros j dj Hj. cbn in Hj.
  destruct (decide (j = i)) as [->|Hne].
  - rewrite list_lookup_insert_eq in Hj by (eapply lookup_lt_Some; eauto).
    injection Hj as <-. eauto.
  - rewrite list_lookup_insert_ne in Hj by auto. eauto.
Qed.

(** A write to the descriptor of [i], seen from the other descriptors. *)
Lemma lookup_insert_cases (ps : list proc) i (d' : proc) j dj :
  <[i := d']> ps !! j = Some dj ->
  (j = i /\ dj = d') \/ (j <> i /\ ps !! j = Some dj).
Proof.
  intros H. destruct (decide (j = i)) as [->|Hne].
  - left. split; [reflexivity|].
    rewrite list_lookup_insert_eq in H
      by (apply lookup_lt_Some in H; now rewrite length_insert in H).
    congruence.
  - right. rewrite list_lookup_insert_ne in H by auto. auto.
Qed.

(** Coverage when nothing has changed but fields that it does not look
    at. *)
Lemma covered_same_duty st st' L X :
  same_duty st st' -> covered st L X -> covered st' L X.
Proof.
  intros [Hlen H] Hcov. apply (covered_step st L X); [exact Hcov|lia|].
  intros i d' Hd' HX Hp. right. right. right.
  destruct (H i d' Hd') as (d & Hd & Hs & Hpr). exists d. auto 8.
Qed.

(** Nothing is owed to [p]: it needs no exemption. *)
Lemma covered_add st L (X : nat -> Prop) p dp :
  os_ptable st !! p = Some dp -> X p \/ no_duty dp ->
  covered st L (fun i => X i \/ i = p) -> covered st L X.
Proof.
  intros Hp Hfree Hcov i d Hd HX Hpr.
  destruct (decide (i = p)) as [->|Hne].
  - assert (d = dp) by congruence. subst d.
    destruct Hfree as [HXp|[E|E]]; [contradiction|contradiction|].
    split; intros F; [|destruct F as [F|F]]; destruct E as [E|[E|E]]; congruence.
  - apply Hcov; [exact Hd|tauto|exact Hpr].
Qed.

(** A write to a process that is exempt. *)
Lemma covered_exempt st L (X : nat -> Prop) p d' :
  X p -> covered st L X ->
  covered (with_ptable (<[p := d']> (os_ptable st)) st) L X.
Proof.
  intros HXp Hcov. apply (covered_step st L X); [exact Hcov|cbn; now rewrite length_insert|].
  intros i d Hd HX Hpr. cbn in Hd.
  apply lookup_insert_cases in Hd as [[-> _]|[Hne Hd]]; [contradiction|].
  right. right. right. exists d. auto 8.
Qed.

(** A write that leaves [p] in a state in which nothing is owed to it. *)
Lemma covered_settle st L (X : nat -> Prop) p d' :
  p_state d' = RECEIVING \/ p_state d' = IDLING \/ p_state d' = DEAD ->
  covered st L (fun i => X i \/ i = p) ->
  covered (with_ptable (<[p := d']> (os_ptable st)) st) L X.
Proof.
  intros Hs Hcov.
  apply (covered_step st L (fun i => X i \/ i = p));
    [exact Hcov|cbn; now rewrite length_insert|].
  intros i d Hd HX Hpr. cbn in Hd.
  apply lookup_insert_cases in Hd as [[-> ->]|[Hne Hd]]; [now left|].
  right. right. right. exists d. split; [exact Hd|]. split; [tauto|]. auto.
Qed.

(** Coverage up to the running process, when it is the same one. *)
Lemma covered_running st st' L :
  os_current st' = os_current st ->
  covered st' L (running st) -> covered st' L (running st').
Proof.
  intros E H. eapply covered_weaken; [exact H|].
  intros i Hi. unfold running in *. congruence.
Qed.

Lemma covered_running_only st L c :
  os_current st = Some c ->
  covered st L (running st) -> covered st L (fun i => False \/ i = c).
Proof.
  intros E H. eapply covered_weaken; [exact H|].
  intros i Hi. unfold running in Hi. right. congruence.
Qed.

Lemma follows_in_order st L st' : follows st L st' -> lists_in_order st'.
Proof. intros (L' & H1 & H2 & H3 & _). exists L'. auto. Qed.

Lemma covered_ext st st' L X :
  os_ptable st' = os_ptable st -> covered st L X -> covered st' L X.
Proof. intros E. apply covered_same_duty. now apply same_duty_ext. Qed.

(** What follows a state that follows. *)
Lemma follows_after st L st1 L1 st' :
  (covered st L (running st) -> covered st1 L1 (running st1)) ->
  follows st1 L1 st' -> follows st L st'.
Proof.
  intros H (L' & G1 & G2 & G3 & G4). exists L'.
  split; [exact G1|]. split; [exact G2|]. split; [exact G3|]. auto.
Qed.

Lemma elem_of_put_rest L pl h t i plx :
  L pl = h :: t -> i <> h -> i ∈ L plx -> i ∈ put pl t L plx.
Proof.
  intros El Hne Hin. destruct (place_cases pl plx) as [->|Hp].
  - rewrite put_same. rewrite El in Hin.
    apply elem_of_cons in Hin as [->|Hin]; [contradiction|exact Hin].
  - now rewrite put_other by exact Hp.
Qed.

End Coverage.

Section Inversions.
Context {env : Env}.

Lemma ret_inv {A} (a b : A) st st' : ret a st = Ok b st' -> b = a /\ st' = st.
Proof. intros H. inversion H; subst; auto. Qed.

Lemma readyq_inv prio st q st' :
  readyq prio st = Ok q st' ->
  st' = st /\ exists k, prio = Z.of_nat k /\ (k < 3)%nat /\
                        os_readyq st !! k = Some q.
Proof.
  unfold readyq.
  destruct ((0 <=? prio) && (prio <? 3)) eqn:E; try discriminate.
  destruct (os_readyq st !! Z.to_nat prio) as [q'|] eqn:E'; try discriminate.
  intros H. inversion H; subst.
  apply andb_true_iff in E as [E1 E2].
  apply Z.leb_le in E1. apply Z.ltb_lt in E2.
  split; [reflexivity|]. exists (Z.to_nat prio).
  split; [lia|]. split; [lia|exact E'].
Qed.

Lemma set_readyq_inv prio q st a st' :
  set_readyq prio q st = Ok a st' ->
  exists k q0, prio = Z.of_nat k /\ (k < 3)%nat /\ os_readyq st !! k = Some q0 /\
               st' = with_readyq (<[k := q]> (os_readyq st)) st.
Proof.
  unfold set_readyq. intros H. apply bind_inv in H as (q0 & st1 & H1 & H2).
  apply readyq_inv in H1 as (-> & k & -> & Hk & Hq).
  apply modify_inv in H2. rewrite Nat2Z.id in H2. eauto 6.
Qed.

Lemma ptable_entry_inv dest st p st' :
  ptable_entry dest st = Ok p st' ->
  st' = st /\ forall i, p = Some i -> (i < length (os_ptable st))%nat.
Proof.
  unfold ptable_entry.
  destruct ((0 <=? dest) && (dest <? NPROCS)) eqn:E; try discriminate.
  intros H. inversion H; subst. split; [reflexivity|].
  apply andb_true_iff in E as [E1 E2]. apply Z.leb_le in E1.
  intros i Hi. destruct (dest <? os_nprocs st') eqn:E3; [|discriminate].
  injection Hi as <-. apply Z.ltb_lt in E3. unfold os_nprocs in E3. lia.
Qed.

Lemma accept_inv p type st b st' :
  accept p type st = Ok b st' ->
  st' = st /\ exists i d, p = Some i /\ os_ptable st !! i = Some d /\
                          (b = true -> p_state d = RECEIVING).
Proof.
  unfold accept. intros H. apply bind_inv in H as (d & st1 & H1 & H2).
  apply deref_inv in H1 as (-> & i & -> & Hi).
  apply ret_inv in H2 as (-> & ->). split; [reflexivity|].
  exists i, d. split; [reflexivity|]. split; [exact Hi|].
  intros Hb. apply andb_true_iff in Hb as [Hb _].
  destruct (p_state d); try discriminate Hb. reflexivity.
Qed.

Lemma bad_dest_inv dest pdest st b st' :
  bad_dest dest pdest st = Ok b st' -> st' = st.
Proof.
  unfold bad_dest. intros H. apply bind_inv in H as (s & st1 & H1 & H2).
  apply get_inv in H1 as (-> & ->).
  destruct ((dest <? 0) || (dest >=? os_nprocs st)).
  - now apply ret_inv in H2.
  - apply bind_inv in H2 as (d & st2 & H2 & H3).
    apply deref_inv in H2 as (-> & _). now apply ret_inv in H3.
Qed.

Lemma deliver_inv buf src type msg st a st' :
  deliver buf src type msg st = Ok a st' ->
  os_ptable st' = os_ptable st /\ os_readyq st' = os_readyq st /\
  os_current st' = os_current st /\ idle_proc st' = idle_proc st.
Proof.
  destruct (deliver_total buf src type msg st) as (mem' & H & _).
  rewrite H. intros E. inversion E; subst. auto.
Qed.

Lemma set_state_inv p s type msg st a st' :
  set_state p s type msg st = Ok a st' ->
  exists i d, p = Some i /\ os_ptable st !! i = Some d /\
    st' = with_ptable
            (<[i := set_p_message msg (set_p_msgtype type (set_p_state s d))]>
               (os_ptable st)) st.
Proof.
  intros H. pose proof H as H0. unfold set_state in H0.
  apply bind_inv in H0 as ([] & st1 & H1 & _).
  apply update_inv in H1 as (i & d & -> & Hi & _).
  rewrite (set_state_ok _ _ _ s type msg Hi) in H. inversion H; subst. eauto.
Qed.

Lemma last_sender_inv fuel r st t st' :
  last_sender fuel r st = Ok t st' ->
  st' = st /\ exists i d, t = Some i /\ os_ptable st !! i = Some d /\
                          p_next d = None.
Proof.
  revert r. induction fuel as [|fuel IH]; intros r H; [discriminate|].
  cbn [last_sender] in H. apply bind_inv in H as (d & st1 & H1 & H2).
  apply deref_inv in H1 as (-> & i & -> & Hi).
  destruct (p_next d) as [n|] eqn:En.
  - apply IH in H2. exact H2.
  - apply ret_inv in H2 as (-> & ->). eauto 6.
Qed.

Lemma set_p_next_same d : set_p_next (p_next d) d = d.
Proof. now destruct d. Qed.

End Inversions.

(** Taking a run of a routine apart at its first bind. *)
Ltac kinv H :=
  let a := fresh "a" in
  let s := fresh "s" in
  let H1 := fresh "Hstep" in
  apply bind_inv in H as (a & s & H1 & H).

Tactic Notation "kstep" hyp(H) "as" ident(a) ident(s) ident(H1) :=
  apply bind_inv in H as (a & s & H1 & H).

Section Carried.
Context {env : Env}.

Lemma laid_out_ext st st' L :
  laid_out st L -> os_ptable st' = os_ptable st ->
  os_readyq st' = os_readyq st -> laid_out st' L.
Proof.
  intros [HL HT] Hp Hq. split; [eapply linked_ext; eauto|].
  intros k q Hk Hk'. rewrite Hq in Hk'. now apply HT.
Qed.

Lemma idle_ok_ext st st' :
  idle_ok st -> os_ptable st' = os_ptable st -> idle_proc st' = idle_proc st ->
  idle_ok st'.
Proof. intros H Hp Hi i. rewrite Hp, Hi. apply H. Qed.

Lemma running_ok_ext st st' L :
  running_ok st L -> os_ptable st' = os_ptable st ->
  os_current st' = os_current st -> running_ok st' L.
Proof. intros H Hp Hc c. rewrite Hp, Hc. apply H. Qed.

(** Writes that leave the state and the priority of every descriptor
    but [p] alone leave the idle process as it is, if it is not [p]. *)
Lemma idle_ok_standing st st' p :
  idle_ok st -> idle_proc st' = idle_proc st -> idle_proc st <> Some p ->
  (forall j dj, j <> p -> os_ptable st !! j = Some dj ->
     exists dj', os_ptable st' !! j = Some dj' /\
                 p_state dj' = p_state dj /\ p_priority dj' = p_priority dj) ->
  idle_ok st'.
Proof.
  intros H Hi Hne Hst i Hidle. rewrite Hi in Hidle.
  destruct (H i Hidle) as (d & Hd & Hs & Hp).
  destruct (Hst i d) as (d' & Hd' & Hs' & Hp'); [congruence|exact Hd|].
  exists d'. split; [exact Hd'|]. split; congruence.
Qed.

Lemma running_ok_standing st st' L L' p :
  running_ok st L -> os_current st' = os_current st -> os_current st <> Some p ->
  (forall j dj, j <> p -> os_ptable st !! j = Some dj ->
     exists dj', os_ptable st' !! j = Some dj' /\
                 p_state dj' = p_state dj /\ p_priority dj' = p_priority dj) ->
  (forall c, c <> p -> (forall pl, c ∉ L pl) -> forall pl, c ∉ L' pl) ->
  running_ok st' L'.
Proof.
  intros H Hc Hne Hst Hby c Hcur. rewrite Hc in Hcur.
  destruct (H c Hcur) as (d & Hd & Hs & Hno).
  assert (Hcp : c <> p) by congruence.
  destruct (Hst c d Hcp Hd) as (d' & Hd' & Hs' & _).
  exists d'. split; [exact Hd'|]. split; [now rewrite Hs'|]. now apply Hby.
Qed.

(** [make_ready] on a process that is on no list: it joins the ready
    queue of the level, or nothing happens at the idle level. *)
Lemma make_ready_layout st L p dp prio a st' :
  laid_out st L -> os_ptable st !! p = Some dp -> (forall pl, p ∉ L pl) ->
  make_ready (Some p) prio st = Ok a st' ->
  (prio = P_IDLE /\ st' = st) \/
  (exists k, prio = Z.of_nat k /\ (k < 3)%nat /\
     laid_out st' (put (Ready k) (L (Ready k) ++ [p]) L) /\
     os_current st' = os_current st /\ idle_proc st' = idle_proc st /\
     os_ptable st' !! p = Some (set_p_next None (set_p_state ACTIVE dp)) /\
     (forall j dj, j <> p -> os_ptable st !! j = Some dj ->
        exists n, os_ptable st' !! j = Some (set_p_next n dj)) /\
     length (os_ptable st') = length (os_ptable st)).
Proof.
  intros [HL HT] Hp Hno H. unfold make_ready in H.
  destruct (prio =? P_IDLE) eqn:E.
  { left. apply Z.eqb_eq in E. apply ret_inv in H as (_ & ->). auto. }
  right.
  assert (Hplt : (p < length (os_ptable st))%nat) by (eapply lookup_lt_Some; eauto).
  kinv H. destruct a0. apply update_inv in Hstep as (i & d & [= <-] & Hd & ->).
  assert (d = dp) by congruence. subst d. clear Hd.
  set (dp' := set_p_next None (set_p_state ACTIVE dp)) in *.
  set (st1 := with_ptable (<[p := dp']> (os_ptable st)) st) in *.
  assert (HL1 : linked st1 L).
  { apply (linked_update st L p dp dp' HL Hp); [reflexivity|now right]. }
  assert (Hp1 : os_ptable st1 !! p = Some dp').
  { cbn. apply list_lookup_insert_eq, Hplt. }
  kinv H. apply readyq_inv in Hstep as (-> & k & -> & Hk & Hq).
  change (os_readyq st !! k = Some a0) in Hq.
  exists k. split; [reflexivity|]. split; [exact Hk|].
  kinv H. destruct (q_head a0) as [h|] eqn:Hh.
  - (* behind the tail *)
    destruct a1. apply update_inv in Hstep as (t & dt & Ht & Hdt & ->).
    assert (Hlast : last (L (Ready k)) = Some t).
    { destruct (lk_ready _ _ HL1 k Hk) as (q0 & Hq0 & Hl).
      change (os_readyq st !! k = Some q0) in Hq0.
      assert (q0 = a0) by congruence. subst q0.
      destruct (HT k a0 Hk Hq) as [El|El]; [|congruence].
      rewrite El, Hh in Hl. inversion Hl. }
    assert (Htp : t <> p).
    { intros ->. apply last_Some in Hlast as (l' & El).
      apply (Hno (Ready k)). rewrite El, elem_of_app, list_elem_of_singleton. auto. }
    pose proof (linked_push st1 L (Ready k) p dp' t dt HL1 Hlast Hdt Hp1
                  eq_refl eq_refl Hno) as HL2.
    set (st2 := with_ptable (<[t := set_p_next (Some p) dt]> (os_ptable st1)) st1) in *.
    kinv H. apply readyq_inv in Hstep as (-> & k' & Ek & Hk' & Hq').
    apply Nat2Z.inj in Ek. subst k'.
    change (os_readyq st !! k = Some a1) in Hq'.
    assert (a1 = a0) by congruence. subst a1.
    apply set_readyq_inv in H as (k' & q0 & Ek & _ & _ & ->).
    apply Nat2Z.inj in Ek. subst k'.
    split; [|split; [reflexivity|split; [reflexivity|split; [|split]]]].
    + split.
      * destruct HL2 as [G1 G2 G3 G5 G4]. split; auto.
        intros j Hj. cbn. destruct (decide (j = k)) as [->|Hne].
        -- destruct (G1 k Hk) as (q1 & Hq1 & Hl1).
           assert (q1 = a0) by (cbn in Hq1; congruence). subst q1.
           eexists. split; [apply list_lookup_insert_eq; eapply lookup_lt_Some; eauto|].
           exact Hl1.
        -- rewrite list_lookup_insert_ne by auto. now apply G1.
      * apply (tails_push st2 L k p (q_head a0)). intros j q Hj Hqj. now apply HT.
    + cbn. rewrite list_lookup_insert_ne by auto. exact Hp1.
    + intros j dj Hj Hdj. cbn.
      destruct (decide (j = t)) as [->|Hne].
      * exists (Some p). rewrite list_lookup_insert_eq by
          (rewrite length_insert; eapply lookup_lt_Some; eauto).
        cbn in Hdt. rewrite list_lookup_insert_ne in Hdt by auto. congruence.
      * exists (p_next dj). rewrite !list_lookup_insert_ne by auto.
        now rewrite set_p_next_same.
    + cbn. now rewrite !length_insert.
  - (* the queue is empty *)
    apply set_readyq_inv in Hstep as (k' & q0 & Ek & _ & _ & ->).
    apply Nat2Z.inj in Ek. subst k'.
    kinv H. apply readyq_inv in Hstep as (-> & k' & Ek & _ & Hq').
    apply Nat2Z.inj in Ek. subst k'.
    assert (Hklt : (k < length (os_readyq st))%nat) by (eapply lookup_lt_Some; eauto).
    cbn in Hq'. rewrite list_lookup_insert_eq in Hq' by exact Hklt.
    injection Hq' as <-.
    apply set_readyq_inv in H as (k' & q1 & Ek & _ & _ & ->).
    apply Nat2Z.inj in Ek. subst k'.
    pose proof (linked_first_ready st1 L k p dp' a0 (Some p) HL1 Hk Hq Hh Hp1
                  eq_refl eq_refl Hno) as HL2.
    split; [|split; [reflexivity|split; [reflexivity|split; [|split]]]].
    + split.
      * eapply linked_ext; [exact HL2|reflexivity|].
        cbn. now rewrite list_insert_insert_eq.
      * intros j q Hj Hqj. cbn in Hqj. rewrite list_insert_insert_eq in Hqj.
        apply (tails_push st L k p (Some p) HT j q Hj). exact Hqj.
    + exact Hp1.
    + intros j dj Hj Hdj. cbn. exists (p_next dj).
      rewrite list_lookup_insert_ne by auto. now rewrite set_p_next_same.
    + cbn. now rewrite length_insert.
Qed.

(** [make_ready] on a process that is on no list keeps the lists in
    order, and leaves the other processes where they are. *)
Lemma make_ready_keeps st L p dp prio a st' :
  laid_out st L -> idle_ok st -> os_ptable st !! p = Some dp ->
  (forall pl, p ∉ L pl) -> (idle_proc st = Some p -> prio = 3) ->
  make_ready (Some p) prio st = Ok a st' ->
  exists L',
    laid_out st' L' /\ idle_ok st' /\
    os_current st' = os_current st /\ idle_proc st' = idle_proc st /\
    (forall j dj, j <> p -> os_ptable st !! j = Some dj ->
       exists dj', os_ptable st' !! j = Some dj' /\
                   p_state dj' = p_state dj /\ p_priority dj' = p_priority dj) /\
    (forall c, c <> p -> (forall pl, c ∉ L pl) -> forall pl, c ∉ L' pl) /\
    (forall X : nat -> Prop,
       (prio = P_IDLE -> X p \/ no_duty dp) ->
       covered st L (fun i => X i \/ i = p) -> covered st' L' X).
Proof.
  intros HLT Hidle Hp Hno Hprio H.
  destruct (make_ready_layout st L p dp prio a st' HLT Hp Hno H)
    as [[E ->]|(k & E & Hk & HL' & Hc & Hi & Hp' & Hst & Hlen)].
  - exists L. split; [exact HLT|]. split; [exact Hidle|].
    split; [reflexivity|]. split; [reflexivity|]. split; [eauto|].
    split; [auto|].
    intros X HX Hcov. apply (covered_add st L X p dp Hp); auto.
  - assert (Hstand : forall j dj, j <> p -> os_ptable st !! j = Some dj ->
       exists dj', os_ptable st' !! j = Some dj' /\
                   p_state dj' = p_state dj /\ p_priority dj' = p_priority dj).
    { intros j dj Hj Hdj. destruct (Hst j dj Hj Hdj) as (n & Hn).
      exists (set_p_next n dj). auto. }
    pose proof (standing_back (os_ptable st) (os_ptable st') p
                  (fun dj dj' => p_state dj' = p_state dj /\
                                 p_priority dj' = p_priority dj)
                  Hlen Hstand) as Hback.
    exists (put (Ready k) (L (Ready k) ++ [p]) L).
    split; [exact HL'|].
    split; [|split; [exact Hc|split; [exact Hi|split; [exact Hstand|split]]]].
    + apply (idle_ok_standing st st' p Hidle Hi); [|exact Hstand].
      intros Hip. specialize (Hprio Hip). lia.
    + intros c Hcp Hc0 pl Hin. apply elem_of_put_snoc in Hin as [Hin|[-> _]].
      * eapply Hc0; eauto.
      * contradiction.
    + intros X _ Hcov.
      apply (covered_step st L (fun i => X i \/ i = p)); [exact Hcov|lia|].
      intros i d' Hd' HX Hpr. destruct (decide (i = p)) as [->|Hne].
      * right. left. rewrite Hp' in Hd'. injection Hd' as <-.
        split; [reflexivity|]. exists k. split; [exact Hk|].
        apply elem_of_put_snoc. auto.
      * right. right. right.
        destruct (Hback i d' Hne Hd') as (d & Hd & Hs & Hpd).
        exists d. split; [exact Hd|]. split; [tauto|]. split; [exact Hs|].
        split; [exact Hpd|].
        split; intros; apply elem_of_put_snoc; auto.
Qed.

(** [choose_proc] in a state whose lists are in order: the process
    chosen is on no list afterwards, and is ACTIVE, or is the idle
    process. *)
Lemma take_head_layout st L k rest a st' :
  laid_out st L -> idle_ok st -> (k < 3)%nat ->
  take_head (Z.of_nat k) rest st = Ok a st' ->
  (exists L', laid_out st' L' /\ running_ok st' L' /\ idle_ok st' /\
              (covered st L (fun _ => False) -> covered st' L' (running st'))) \/
  rest st = Ok a st'.
Proof.
  intros [HL HT] Hidle Hk H. unfold take_head in H.
  kinv H. apply readyq_inv in Hstep as (-> & k' & Ek & _ & Hq).
  apply Nat2Z.inj in Ek. subst k'.
  destruct (q_head a0) as [h|] eqn:Hh; [left|now right].
  kinv H. apply modify_inv in Hstep. subst s.
  kinv H. apply deref_inv in Hstep as (-> & i & [= <-] & Hd).
  apply set_readyq_inv in H as (k' & q1 & Ek & _ & _ & ->).
  apply Nat2Z.inj in Ek. subst k'.
  change (os_ptable st !! h = Some a2) in Hd.
  destruct (linked_pop_ready st L k a0 h a2 (q_tail a0) HL Hk Hq Hh Hd)
    as (t & El & HL' & Hno & Hs).
  exists (put (Ready k) t L). split; [|split; [|split]].
  - split.
    + eapply linked_ext; [exact HL'|reflexivity|reflexivity].
    + intros j q Hj Hqj.
      apply (tails_pop st L k a0 h t (p_next a2) HT Hk Hq El j q Hj). exact Hqj.
  - intros c Hc. cbn in Hc. injection Hc as <-.
    exists a2. split; [exact Hd|]. split; [now left|exact Hno].
  - eapply idle_ok_ext; [exact Hidle|reflexivity|reflexivity].
  - intros Hcov.
    apply (covered_step st L (fun _ => False)); [exact Hcov|cbn; lia|].
    intros i d' Hd' HX Hpr. right. right. right. cbn in Hd'.
    assert (Hih : i <> h) by (intros ->; now apply HX).
    exists d'. split; [exact Hd'|]. split; [tauto|].
    split; [reflexivity|]. split; [reflexivity|].
    split; intros; eapply elem_of_put_rest; eauto.
Qed.

Lemma choose_proc_layout st L a st' :
  laid_out st L -> idle_ok st -> choose_proc st = Ok a st' ->
  exists L', laid_out st' L' /\ running_ok st' L' /\ idle_ok st' /\
             (covered st L (fun _ => False) -> covered st' L' (running st')).
Proof.
  intros HL Hidle H. unfold choose_proc in H. cbn [fold_right] in H.
  change 0 with (Z.of_nat 0) in H. change 1 with (Z.of_nat 1) in H.
  change 2 with (Z.of_nat 2) in H.
  destruct (take_head_layout st L 0 _ a st' HL Hidle ltac:(lia) H) as [H0|H0];
    [exact H0|]. clear H.
  destruct (take_head_layout st L 1 _ a st' HL Hidle ltac:(lia) H0) as [H|H];
    [exact H|]. clear H0.
  destruct (take_head_layout st L 2 _ a st' HL Hidle ltac:(lia) H) as [H0|H0];
    [exact H0|]. clear H. rename H0 into H.
  kinv H. apply get_inv in Hstep as (-> & ->). apply modify_inv in H. subst st'.
  exists L. split; [eapply laid_out_ext; [exact HL|reflexivity|reflexivity]|].
  split; [|split; [eapply idle_ok_ext; [exact Hidle|reflexivity|reflexivity]|]].
  - intros c Hc. cbn in Hc. destruct (Hidle c Hc) as (d & Hd & Hs & _).
    exists d. split; [exact Hd|]. split; [now right|].
    intros pl Hin. destruct HL as [HL _].
    destruct (lk_fits _ _ HL c pl Hin) as (d0 & Hd0 & Hf).
    assert (d0 = d) by congruence. subst d0.
    apply fits_not_receiving in Hf as (_ & Hf & _). contradiction.
  - intros Hcov. apply (covered_same_duty st); [now apply same_duty_ext|].
    eapply covered_weaken; [exact Hcov|]. intros i [].
Qed.

(** A write that leaves state and priority alone. *)
Lemma idle_ok_update st i d d' :
  idle_ok st -> os_ptable st !! i = Some d ->
  p_state d' = p_state d -> p_priority d' = p_priority d ->
  idle_ok (with_ptable (<[i := d']> (os_ptable st)) st).
Proof.
  intros Hidle Hi Hs Hp j Hj. cbn in Hj.
  destruct (Hidle j Hj) as (dj & Hdj & Hsj & Hpj). cbn.
  destruct (decide (j = i)) as [->|Hne].
  - assert (dj = d) by congruence. subst dj.
    exists d'. split; [apply list_lookup_insert_eq; eapply lookup_lt_Some; eauto|].
    split; congruence.
  - exists dj. rewrite list_lookup_insert_ne by auto. auto.
Qed.

(** A write to a process that is not the idle process. *)
Lemma idle_ok_other st i d' :
  idle_ok st -> idle_proc st <> Some i ->
  idle_ok (with_ptable (<[i := d']> (os_ptable st)) st).
Proof.
  intros Hidle Hne j Hj. cbn in Hj.
  destruct (Hidle j Hj) as (dj & Hdj & Hsj & Hpj). cbn.
  exists dj. rewrite list_lookup_insert_ne by congruence. auto.
Qed.

(** [enqueue]: the running process, on no list and marked SENDING or
    SENDREC, joins the senders waiting on [r]. *)
Lemma enqueue_layout st L c dc r a st' :
  laid_out st L -> idle_ok st -> os_current st = Some c ->
  os_ptable st !! c = Some dc ->
  p_state dc = SENDING \/ p_state dc = SENDREC -> (forall pl, c ∉ L pl) ->
  enqueue (Some r) st = Ok a st' ->
  laid_out st' (put (Sender r) (L (Sender r) ++ [c]) L) /\ idle_ok st' /\
  same_duty st st' /\
  (forall X : nat -> Prop,
     covered st L (fun i => X i \/ i = c) ->
     covered st' (put (Sender r) (L (Sender r) ++ [c]) L) X).
Proof.
  intros [HL HT] Hidle Hc Hdc Hs Hno H. unfold enqueue in H.
  assert (Hclt : (c < length (os_ptable st))%nat) by (eapply lookup_lt_Some; eauto).
  kinv H. apply current_inv in Hstep as (-> & ->). rewrite Hc in H.
  kinv H. destruct a0. apply update_inv in Hstep as (i & d & [= <-] & Hd & ->).
  assert (d = dc) by congruence. subst d. clear Hd.
  set (dc' := set_p_next None dc) in *.
  set (st1 := with_ptable (<[c := dc']> (os_ptable st)) st) in *.
  assert (HL1 : linked st1 L).
  { apply (linked_update st L c dc dc' HL Hdc); [reflexivity|now right]. }
  assert (Hc1 : os_ptable st1 !! c = Some dc').
  { cbn. apply list_lookup_insert_eq, Hclt. }
  assert (Hidle1 : idle_ok st1).
  { apply (idle_ok_update st c dc dc' Hidle Hdc); reflexivity. }
  assert (Hsd1 : same_duty st st1).
  { apply (same_duty_update st c dc dc' Hdc); reflexivity. }
  kinv H. apply deref_inv in Hstep as (-> & i & [= <-] & Hr).
  assert (Hrlt : (r < length (os_ptable st))%nat).
  { apply lookup_lt_Some in Hr. cbn in Hr. now rewrite length_insert in Hr. }
  assert (Hcover : forall st2, same_duty st1 st2 ->
            same_duty st st2 /\
            forall X : nat -> Prop,
              covered st L (fun i => X i \/ i = c) ->
              covered st2 (put (Sender r) (L (Sender r) ++ [c]) L) X).
  { intros st2 Hsd2. pose proof (same_duty_trans _ _ _ Hsd1 Hsd2) as Hsd.
    split; [exact Hsd|]. intros X Hcov. destruct Hsd as [Hlen Hsd].
    apply (covered_step st L (fun i => X i \/ i = c)); [exact Hcov|lia|].
    intros i d' Hd' HX Hpr.
    destruct (Hsd i d' Hd') as (d & Hd & Hsi & Hpi).
    destruct (decide (i = c)) as [->|Hne].
    - right. right. left. assert (d = dc) by congruence. subst d.
      split; [now rewrite Hsi|]. exists r. split; [lia|].
      apply elem_of_put_snoc. auto.
    - right. right. right. exists d. split; [exact Hd|]. split; [tauto|].
      split; [exact Hsi|]. split; [exact Hpi|].
      split; intros; apply elem_of_put_snoc; auto. }
  destruct (p_waiting a0) as [h|] eqn:Hw.
  - (* behind the last sender *)
    kinv H. apply get_inv in Hstep as (-> & ->).
    kinv H.
    pose proof (lk_senders _ _ HL1 r a0 Hr) as Hl. rewrite Hw in Hl.
    assert (Hne : L (Sender r) <> []) by (intros E; rewrite E in Hl; inversion Hl).
    destruct (last_snoc_inv _ Hne) as (l' & t & El & Hlast).
    rewrite El in Hl.
    rewrite (last_sender_finds _ st1 (Some h) l' t Hl) in Hstep
      by (eapply lseg_length; eauto).
    injection Hstep as <- <-.
    destruct a. apply update_inv in H as (t' & dt & [= <-] & Hdt & ->).
    pose proof (linked_push st1 L (Sender r) c dc' t dt HL1 Hlast Hdt Hc1
                  eq_refl Hs Hno) as HL2.
    split; [|split].
    + split; [exact HL2|]. apply tails_sender. intros j q Hj Hq. now apply HT.
    + apply (idle_ok_update st1 t dt _ Hidle1 Hdt); reflexivity.
    + apply Hcover. apply (same_duty_update st1 t dt _ Hdt); reflexivity.
  - (* the first to wait *)
    destruct a. apply update_inv in H as (r' & dr & [= <-] & Hdr & ->).
    assert (dr = a0) by congruence. subst dr. clear Hdr.
    pose proof (linked_first_sender st1 L r a0 c dc' HL1 Hr Hw Hc1
                  eq_refl Hs Hno) as HL2.
    split; [|split].
    + split; [exact HL2|]. apply tails_sender. intros j q Hj Hq. now apply HT.
    + apply (idle_ok_update st1 r a0 _ Hidle1 Hr); reflexivity.
    + apply Hcover. apply (same_duty_update st1 r a0 _ Hr); reflexivity.
Qed.

End Carried.

Section Calls.
Context {env : Env}.

(** A write to the running process that leaves its links and its state
    alone. *)
Lemma running_ok_update st L c d d' :
  running_ok st L -> os_ptable st !! c = Some d -> p_state d' = p_state d ->
  running_ok (with_ptable (<[c := d']> (os_ptable st)) st) L.
Proof.
  intros H Hc Hs x Hx. cbn in Hx. destruct (H x Hx) as (dx & Hdx & Hsx & Hno).
  cbn. destruct (decide (x = c)) as [->|Hne].
  - assert (dx = d) by congruence. subst dx.
    exists d'. split; [apply list_lookup_insert_eq; eapply lookup_lt_Some; eauto|].
    split; [now rewrite Hs|exact Hno].
  - exists dx. rewrite list_lookup_insert_ne by auto. auto.
Qed.

(** A write to a process other than the running one. *)
Lemma running_ok_other st L i d' :
  running_ok st L -> os_current st <> Some i ->
  running_ok (with_ptable (<[i := d']> (os_ptable st)) st) L.
Proof.
  intros H Hne x Hx. cbn in Hx. destruct (H x Hx) as (dx & Hdx & Hsx & Hno).
  cbn. exists dx. rewrite list_lookup_insert_ne by congruence. auto.
Qed.

Lemma laid_out_update st L i d d' :
  laid_out st L -> os_ptable st !! i = Some d ->
  p_waiting d' = p_waiting d ->
  (p_next d' = p_next d /\ p_state d' = p_state d) \/ (forall pl, i ∉ L pl) ->
  laid_out (with_ptable (<[i := d']> (os_ptable st)) st) L.
Proof.
  intros [HL HT] Hi Hw Hcase. split; [eapply linked_update; eauto|].
  now apply tails_ptable.
Qed.

(** A process on a list is neither the running process nor the idle
    process, and is not RECEIVING. *)
Lemma member_not_running st L i pl :
  laid_out st L -> running_ok st L -> i ∈ L pl -> os_current st <> Some i.
Proof.
  intros _ Hrun Hin Hc. destruct (Hrun i Hc) as (_ & _ & _ & Hno).
  eapply Hno; eauto.
Qed.

Lemma state_nowhere st L i d s :
  laid_out st L -> os_ptable st !! i = Some d -> p_state d = s ->
  s = RECEIVING \/ s = IDLING \/ s = DEAD -> forall pl, i ∉ L pl.
Proof.
  intros [HL _] Hi Hs Hcase pl Hin.
  destruct (lk_fits _ _ HL i pl Hin) as (d0 & Hd0 & Hf).
  assert (d0 = d) by congruence. subst d0.
  apply fits_not_receiving in Hf as (F1 & F2 & F3).
  destruct Hcase as [-> | [-> | ->]]; congruence.
Qed.

Lemma idle_nowhere st L i :
  laid_out st L -> idle_ok st -> idle_proc st = Some i -> forall pl, i ∉ L pl.
Proof.
  intros HL Hidle Hi. destruct (Hidle i Hi) as (d & Hd & Hs & _).
  eapply state_nowhere; eauto.
Qed.

(** The walk of [mini_receive] over waiting senders of which the first
    matches the filter, or none does. *)
Lemma take_sender_layout st L c dc type msg b st' :
  laid_out st L -> running_ok st L -> idle_ok st ->
  os_current st = Some c -> os_ptable st !! c = Some dc ->
  (exists s t ds, L (Sender c) = s :: t /\ os_ptable st !! s = Some ds /\
                  (type =? ANY) || (p_msgtype ds =? type) = true) \/
  (forall x dx, x ∈ L (Sender c) -> os_ptable st !! x = Some dx ->
                (type =? ANY) || (p_msgtype dx =? type) = false) ->
  take_sender (S (length (os_ptable st))) type msg (p_waiting dc) None st
    = Ok b st' ->
  (b = false /\ st' = st) \/
  (b = true /\ exists L', laid_out st' L' /\ running_ok st' L' /\ idle_ok st' /\
                          os_current st' = os_current st /\
                          forall X : nat -> Prop, covered st L X -> covered st' L' X).
Proof.
  intros HLT Hrun Hidle Hc Hdc Hcase H. pose proof HLT as [HL HT].
  pose proof (lk_senders _ _ HL c dc Hdc) as Hl.
  destruct Hcase as [(s & t & ds & El & Hs & Hm)|Hnone].
  - (* the first sender matches *)
    right. rewrite El in Hl. inversion Hl as [|i d0 t0 Hd0 Ht E1 E2]; subst.
    assert (d0 = ds) by congruence. subst d0. clear Hd0.
    match goal with E : Some s = p_waiting dc |- _ => rewrite <- E in H end.
    cbn [take_sender] in H.
    kstep H as ds' s1 Hs'. apply deref_inv in Hs' as (-> & i & [= <-] & Hs').
    assert (ds' = ds) by congruence. subst ds'. clear Hs'.
    rewrite Hm in H.
    kstep H as cur s1 Hcur. apply current_inv in Hcur as (-> & ->). rewrite Hc in H.
    kstep H as u1 s1 Hupd. destruct u1.
    apply update_inv in Hupd as (i & d & [= <-] & Hd & ->).
    assert (d = dc) by congruence. subst d. clear Hd.
    kstep H as u2 s2 Hdel. kstep H as u3 s3 Hwake.
    assert (Hw : p_waiting dc = Some s) by congruence.
    destruct (linked_pop_sender st L c dc s ds HL Hdc Hw Hs)
      as (t' & El' & HL1 & Hno & Hst).
    assert (t' = t) by congruence. subst t'.
    set (L1 := put (Sender c) t L) in *.
    set (st1 := with_ptable (<[c := set_p_waiting (p_next ds) dc]> (os_ptable st)) st) in *.
    assert (Hsc : s <> c).
    { intros ->. destruct (Hrun c Hc) as (_ & _ & _ & Hn).
      apply (Hn (Sender c)). rewrite El. apply list_elem_of_here. }
    assert (HLT1 : laid_out st1 L1).
    { split; [exact HL1|]. apply tails_sender. now apply tails_ptable. }
    assert (Hrun1 : running_ok st1 L1).
    { intros x Hx. change (os_current st = Some x) in Hx.
      assert (x = c) by congruence. subst x.
      destruct (Hrun c Hc) as (d & Hd & Hsd & Hn).
      assert (d = dc) by congruence. subst d.
      eexists. split; [cbn; apply list_lookup_insert_eq; eapply lookup_lt_Some; eauto|].
      split; [exact Hsd|].
      intros pl Hin. apply (Hn pl). eapply rest_elem_of; eauto. }
    assert (Hidle1 : idle_ok st1).
    { apply (idle_ok_update st c dc _ Hidle Hdc); reflexivity. }
    assert (Hs1 : os_ptable st1 !! s = Some ds).
    { cbn. rewrite list_lookup_insert_ne by auto. exact Hs. }
    apply deliver_inv in Hdel as (Ep & Eq & Ec & Ei).
    assert (HLT2 : laid_out s2 L1) by (eapply laid_out_ext; eauto).
    assert (Hrun2 : running_ok s2 L1) by (eapply running_ok_ext; eauto).
    assert (Hidle2 : idle_ok s2) by (eapply idle_ok_ext; eauto).
    assert (Hs2 : os_ptable s2 !! s = Some ds) by (rewrite Ep; exact Hs1).
    assert (Hc2 : os_current s2 = Some c) by (rewrite Ec; exact Hc).
    assert (Hcov2 : forall X : nat -> Prop,
              covered st L X -> covered s2 L1 (fun i => X i \/ i = s)).
    { intros X Hcov. apply (covered_same_duty st1); [now apply same_duty_ext|].
      destruct (same_duty_update st c dc (set_p_waiting (p_next ds) dc) Hdc
                  eq_refl eq_refl) as [Hlen Hsd].
      apply (covered_step st L X);
        [exact Hcov|apply Nat.eq_le_incl; symmetry; exact Hlen|].
      intros i d' Hd' HX Hpr. right. right. right.
      destruct (Hsd i d' Hd') as (d & Hd & Hsi & Hpi).
      exists d. split; [exact Hd|]. split; [tauto|]. split; [exact Hsi|].
      split; [exact Hpi|].
      split; intros; eapply elem_of_put_rest; eauto. }
    apply ret_inv in H as (-> & <-). split; [reflexivity|].
    destruct (pstate_eqb (p_state ds) SENDING) eqn:Esend.
    + (* an ordinary sender is made ready *)
      assert (Hnotidle : idle_proc s2 = Some s -> p_priority ds = 3).
      { intros Hi. destruct (Hidle2 s Hi) as (d & Hd & Hsd & _).
        assert (d = ds) by congruence. subst d.
        rewrite Hsd in Esend. discriminate. }
      destruct (make_ready_keeps s2 L1 s ds (p_priority ds) u3 st'
                  HLT2 Hidle2 Hs2 Hno Hnotidle Hwake)
        as (L' & HL' & Hidle' & Hc' & Hi' & Hstand & Hby & Hcov').
      exists L'. split; [exact HL'|]. split; [|split; [exact Hidle'|split]].
      * apply (running_ok_standing s2 st' L1 L' s Hrun2 Hc');
          [congruence|exact Hstand|exact Hby].
      * congruence.
      * intros X Hcov. apply Hcov'; [|now apply Hcov2].
        intros E. right. now left.
    + (* a sender that waits for the reply *)
      kstep Hwake as u4 s4 Hassert.
      apply set_state_inv in Hwake as (i & d & [= <-] & Hd & ->).
      assert (s4 = s2).
      { unfold assert in Hassert. destruct (pstate_eqb (p_state ds) SENDREC).
        - now apply ret_inv in Hassert as (_ & ->).
        - discriminate. }
      subst s4.
      assert (d = ds) by congruence. subst d. clear Hd.
      exists L1. split; [|split; [|split; [|split]]].
      * apply (laid_out_update s2 L1 s ds _ HLT2 Hs2); [reflexivity|now right].
      * apply running_ok_other; [exact Hrun2|congruence].
      * apply idle_ok_other; [exact Hidle2|].
        intros Hi. destruct (Hidle2 s Hi) as (d & Hd & Hsd & _).
        assert (d = ds) by congruence. subst d.
        destruct Hst as [E|E]; rewrite E in Hsd; discriminate.
      * cbn. congruence.
      * intros X Hcov. apply covered_settle; [now left|now apply Hcov2].
  - (* no sender matches *)
    left.
    rewrite (take_sender_none _ st type msg (p_waiting dc) None _ Hl Hnone) in H.
    + injection H as <- <-. auto.
    + pose proof (lseg_length _ _ _ Hl). lia.
Qed.

Lemma in_order_ext st st' L :
  laid_out st L -> running_ok st L -> idle_ok st ->
  os_ptable st' = os_ptable st -> os_readyq st' = os_readyq st ->
  os_current st' = os_current st -> idle_proc st' = idle_proc st ->
  laid_out st' L /\ running_ok st' L /\ idle_ok st'.
Proof.
  intros HL Hrun Hidle Ep Eq Ec Ei.
  split; [eapply laid_out_ext; eauto|].
  split; [eapply running_ok_ext; eauto|eapply idle_ok_ext; eauto].
Qed.

(** [make_ready] on a process that waits in receive: it is on no list,
    and is neither the running nor the idle process. *)
Lemma wake_keeps st L r dr prio a st' :
  laid_out st L -> running_ok st L -> idle_ok st ->
  os_ptable st !! r = Some dr -> p_state dr = RECEIVING ->
  make_ready (Some r) prio st = Ok a st' ->
  exists L', laid_out st' L' /\ running_ok st' L' /\ idle_ok st' /\
             os_current st' = os_current st /\ idle_proc st' = idle_proc st /\
             forall X : nat -> Prop, covered st L X -> covered st' L' X.
Proof.
  intros HLT Hrun Hidle Hr Hs H.
  assert (Hno : forall pl, r ∉ L pl) by (eapply state_nowhere; eauto).
  assert (Hni : idle_proc st = Some r -> prio = 3).
  { intros Hi. destruct (Hidle r Hi) as (d & Hd & Hsd & _).
    assert (d = dr) by congruence. subst d. congruence. }
  assert (Hnc : os_current st <> Some r).
  { intros Hc. destruct (Hrun r Hc) as (d & Hd & Hsd & _).
    assert (d = dr) by congruence. subst d. destruct Hsd; congruence. }
  destruct (make_ready_keeps st L r dr prio a st' HLT Hidle Hr Hno Hni H)
    as (L' & HL' & Hidle' & Hc' & Hi' & Hstand & Hby & Hcov').
  exists L'. split; [exact HL'|]. split; [|split; [auto|split; [auto|split; [auto|]]]].
  - apply (running_ok_standing st st' L L' r Hrun Hc' Hnc Hstand Hby).
  - intros X Hcov. apply Hcov'.
    + intros _. right. right. now left.
    + eapply covered_weaken; [exact Hcov|]. auto.
Qed.

(** The running process blocks: marked with its new state, it is on no
    list, and [choose_proc] picks its successor. *)
Lemma block_layout st L c dc d' a st' :
  laid_out st L -> idle_ok st -> os_ptable st !! c = Some dc ->
  (forall pl, c ∉ L pl) -> idle_proc st <> Some c ->
  p_waiting d' = p_waiting dc -> os_current st = Some c ->
  choose_proc (with_ptable (<[c := d']> (os_ptable st)) st) = Ok a st' ->
  exists L', laid_out st' L' /\ running_ok st' L' /\ idle_ok st' /\
    (p_state d' = RECEIVING \/ p_state d' = IDLING \/ p_state d' = DEAD ->
     covered st L (running st) -> covered st' L' (running st')).
Proof.
  intros HLT Hidle Hc Hno Hni Hw Hcur H.
  apply (choose_proc_layout _ L) in H.
  - destruct H as (L' & H1 & H2 & H3 & H4). exists L'.
    split; [exact H1|]. split; [exact H2|]. split; [exact H3|].
    intros Hs Hcov. apply H4. apply covered_settle; [exact Hs|].
    now apply covered_running_only.
  - apply (laid_out_update st L c dc d' HLT Hc Hw). now right.
  - now apply idle_ok_other.
Qed.

Lemma panic_inv {A} fmt args st (a : A) st' : panic fmt args st = Ok a st' -> False.
Proof. discriminate. Qed.

(** [mini_send] by a process other than the idle process. *)
Lemma mini_send_layout st L c dest type msg a st' :
  laid_out st L -> running_ok st L -> idle_ok st ->
  os_current st = Some c -> idle_proc st <> Some c ->
  mini_send dest type msg st = Ok a st' -> follows st L st'.
Proof.
  intros HLT Hrun Hidle Hc Hni H. unfold mini_send in H.
  destruct (Hrun c Hc) as (dc0 & Hdc0 & Hsc & Hno).
  kstep H as cur s1 Hcur. apply current_inv in Hcur as (-> & ->). rewrite Hc in H.
  kstep H as dc s1 Hdc. apply deref_inv in Hdc as (-> & i & [= <-] & Hdc).
  kstep H as pdest s1 Hpd. apply ptable_entry_inv in Hpd as (-> & _).
  kstep H as bad s1 Hbad. apply bad_dest_inv in Hbad as ->.
  destruct bad; [now apply panic_inv in H|].
  kstep H as ok s1 Hacc. apply accept_inv in Hacc as (-> & r & dr & -> & Hr & Hrecv).
  destruct ok.
  - (* the receiver is waiting *)
    kstep H as d s1 Hd. apply deref_inv in Hd as (-> & i & [= <-] & Hd).
    assert (d = dr) by congruence. subst d. clear Hd.
    kstep H as u s1 Hdel. apply deliver_inv in Hdel as (Ep & Eq & Ec & Ei).
    destruct (in_order_ext st s1 L HLT Hrun Hidle Ep Eq Ec Ei) as (HL1 & Hrun1 & Hidle1).
    assert (Hr1 : os_ptable s1 !! r = Some dr) by (rewrite Ep; exact Hr).
    destruct (wake_keeps s1 L r dr _ a st' HL1 Hrun1 Hidle1 Hr1 (Hrecv eq_refl) H)
      as (L' & H1 & H2 & H3 & Ec' & _ & Hcov').
    exists L'. split; [exact H1|]. split; [exact H2|]. split; [exact H3|].
    intros Hcov. apply (covered_running st); [congruence|].
    apply Hcov'. apply (covered_same_duty st); [now apply same_duty_ext|exact Hcov].
  - (* the sender waits *)
    kstep H as u s1 Hset.
    apply set_state_inv in Hset as (i & d & [= <-] & Hd & ->).
    assert (d = dc) by congruence. subst d. clear Hd.
    set (dc1 := set_p_message msg (set_p_msgtype type (set_p_state SENDING dc))) in *.
    set (st1 := with_ptable (<[c := dc1]> (os_ptable st)) st) in *.
    kstep H as u2 s2 Henq.
    assert (HL1 : laid_out st1 L).
    { apply (laid_out_update st L c dc dc1 HLT Hdc); [reflexivity|now right]. }
    assert (Hidle1 : idle_ok st1) by now apply idle_ok_other.
    assert (Hc1 : os_ptable st1 !! c = Some dc1).
    { cbn. apply list_lookup_insert_eq. eapply lookup_lt_Some; eauto. }
    destruct (enqueue_layout st1 L c dc1 r u2 s2 HL1 Hidle1 Hc Hc1
                (or_introl eq_refl) Hno Henq) as (HL2 & Hidle2 & _ & Hcov2).
    destruct (choose_proc_layout s2 _ a st' HL2 Hidle2 H) as (L' & H1 & H2 & H3 & H4).
    exists L'. split; [exact H1|]. split; [exact H2|]. split; [exact H3|].
    intros Hcov. apply H4, Hcov2. apply (covered_running_only st1 L c Hc).
    apply covered_exempt; [exact Hc|exact Hcov].
Qed.

Lemma mini_sendrec_layout st L c dest type msg a st' :
  laid_out st L -> running_ok st L -> idle_ok st ->
  os_current st = Some c -> idle_proc st <> Some c ->
  mini_sendrec dest type msg st = Ok a st' -> follows st L st'.
Proof.
  intros HLT Hrun Hidle Hc Hni H. unfold mini_sendrec in H.
  destruct (Hrun c Hc) as (dc0 & Hdc0 & Hsc & Hno).
  kstep H as cur s1 Hcur. apply current_inv in Hcur as (-> & ->). rewrite Hc in H.
  kstep H as dc s1 Hdc. apply deref_inv in Hdc as (-> & i & [= <-] & Hdc).
  kstep H as pdest s1 Hpd. apply ptable_entry_inv in Hpd as (-> & _).
  kstep H as bad s1 Hbad. apply bad_dest_inv in Hbad as ->.
  destruct bad; [now apply panic_inv in H|].
  kstep H as ok s1 Hacc. apply accept_inv in Hacc as (-> & r & dr & -> & Hr & Hrecv).
  kstep H as u0 s0 Hbody.
  destruct ok.
  - (* the receiver is waiting *)
    kstep Hbody as d s1 Hd. apply deref_inv in Hd as (-> & i & [= <-] & Hd).
    assert (d = dr) by congruence. subst d. clear Hd.
    kstep Hbody as u s1 Hdel. apply deliver_inv in Hdel as (Ep & Eq & Ec & Ei).
    destruct (in_order_ext st s1 L HLT Hrun Hidle Ep Eq Ec Ei) as (HL1 & Hrun1 & Hidle1).
    assert (Hr1 : os_ptable s1 !! r = Some dr) by (rewrite Ep; exact Hr).
    kstep Hbody as u2 s2 Hwake.
    destruct (wake_keeps s1 L r dr _ u2 s2 HL1 Hrun1 Hidle1 Hr1 (Hrecv eq_refl) Hwake)
      as (L' & H1 & H2 & H3 & Ec2 & Ei2 & Hcov2).
    apply set_state_inv in Hbody as (i & d & [= <-] & Hd & ->).
    assert (Hc2 : os_current s2 = Some c) by congruence.
    destruct (H2 c Hc2) as (d2 & Hd2 & _ & Hno2).
    assert (d = d2) by congruence. subst d.
    assert (Hni2 : idle_proc s2 <> Some c) by congruence.
    destruct (block_layout s2 L' c d2
                (set_p_message msg (set_p_msgtype REPLY (set_p_state RECEIVING d2)))
                a st' H1 H3 Hd2 Hno2 Hni2 eq_refl Hc2 H)
      as (L2 & G1 & G2 & G3 & G4).
    exists L2. split; [exact G1|]. split; [exact G2|]. split; [exact G3|].
    intros Hcov. apply G4; [now left|].
    apply (covered_running st); [congruence|].
    apply Hcov2. apply (covered_same_duty st); [now apply same_duty_ext|exact Hcov].
  - (* the sender waits *)
    kstep Hbody as u s1 Hset.
    apply set_state_inv in Hset as (i & d & [= <-] & Hd & ->).
    assert (d = dc) by congruence. subst d. clear Hd.
    set (dc1 := set_p_message msg (set_p_msgtype type (set_p_state SENDREC dc))) in *.
    set (st1 := with_ptable (<[c := dc1]> (os_ptable st)) st) in *.
    assert (HL1 : laid_out st1 L).
    { apply (laid_out_update st L c dc dc1 HLT Hdc); [reflexivity|now right]. }
    assert (Hidle1 : idle_ok st1) by now apply idle_ok_other.
    assert (Hc1 : os_ptable st1 !! c = Some dc1).
    { cbn. apply list_lookup_insert_eq. eapply lookup_lt_Some; eauto. }
    destruct (enqueue_layout st1 L c dc1 r u0 s0 HL1 Hidle1 Hc Hc1
                (or_intror eq_refl) Hno Hbody) as (HL2 & Hidle2 & _ & Hcov2).
    destruct (choose_proc_layout s0 _ a st' HL2 Hidle2 H) as (L' & H1 & H2 & H3 & H4).
    exists L'. split; [exact H1|]. split; [exact H2|]. split; [exact H3|].
    intros Hcov. apply H4, Hcov2. apply (covered_running_only st1 L c Hc).
    apply covered_exempt; [exact Hc|exact Hcov].
Qed.

(** [mini_receive] by a process other than the idle process, when the
    first waiting sender matches the filter or none does. *)
Lemma mini_receive_layout st L c dc type msg a st' :
  laid_out st L -> running_ok st L -> idle_ok st ->
  os_current st = Some c -> os_ptable st !! c = Some dc ->
  idle_proc st <> Some c ->
  (p_pending dc && ((type =? ANY) || (type =? INTERRUPT)) = false ->
   (type =? INTERRUPT) = false ->
   (exists s t ds, L (Sender c) = s :: t /\ os_ptable st !! s = Some ds /\
                   (type =? ANY) || (p_msgtype ds =? type) = true) \/
   (forall x dx, x ∈ L (Sender c) -> os_ptable st !! x = Some dx ->
                 (type =? ANY) || (p_msgtype dx =? type) = false)) ->
  mini_receive type msg st = Ok a st' -> follows st L st'.
Proof.
  intros HLT Hrun Hidle Hc Hdc Hni Hhead H. unfold mini_receive in H.
  destruct (Hrun c Hc) as (dc0 & Hdc0 & Hsc & Hno).
  kstep H as cur s1 Hcur. apply current_inv in Hcur as (-> & ->). rewrite Hc in H.
  kstep H as d s1 Hd. apply deref_inv in Hd as (-> & i & [= <-] & Hd).
  assert (d = dc) by congruence. subst d. clear Hd.
  destruct (p_pending dc && ((type =? ANY) || (type =? INTERRUPT))) eqn:Epend.
  - (* an interrupt is pending *)
    kstep H as u s1 Hupd. destruct u.
    apply update_inv in Hupd as (i & d & [= <-] & Hd & ->).
    assert (d = dc) by congruence. subst d. clear Hd.
    apply deliver_inv in H as (Ep & Eq & Ec & Ei).
    set (st1 := with_ptable (<[c := set_p_pending false dc]> (os_ptable st)) st) in *.
    assert (Hsd : same_duty st st').
    { apply (same_duty_trans st st1); [|now apply same_duty_ext].
      apply (same_duty_update st c dc _ Hdc); reflexivity. }
    exists L.
    destruct (in_order_ext st1 st' L) as (G1 & G2 & G3);
      [| | |exact Ep|exact Eq|exact Ec|exact Ei|].
    + apply (laid_out_update st L c dc _ HLT Hdc); [reflexivity|now left].
    + apply (running_ok_update st L c dc _ Hrun Hdc). reflexivity.
    + apply (idle_ok_update st c dc _ Hidle Hdc); reflexivity.
    + split; [exact G1|]. split; [exact G2|]. split; [exact G3|].
      intros Hcov. apply (covered_running st); [rewrite Ec; reflexivity|].
      now apply (covered_same_duty st).
  - kstep H as taken s1 Htake.
    assert (Htaken : (taken = false /\ s1 = st) \/
              (taken = true /\ follows st L s1)).
    { destruct (type =? INTERRUPT) eqn:Eint; cbn [negb] in Htake.
      - left. now apply ret_inv in Htake.
      - kstep Htake as s s2 Hget. apply get_inv in Hget as (-> & ->).
        destruct (take_sender_layout st L c dc type msg taken s1 HLT Hrun Hidle Hc Hdc
                    (Hhead eq_refl eq_refl) Htake)
          as [G|(-> & L' & G1 & G2 & G3 & Ec & G4)]; [now left|].
        right. split; [reflexivity|]. exists L'.
        split; [exact G1|]. split; [exact G2|]. split; [exact G3|].
        intros Hcov. apply (covered_running st); [exact Ec|]. now apply G4. }
    destruct Htaken as [[-> ->]|[-> HL']].
    + (* no message: wait *)
      kstep H as u s1 Hset.
      apply set_state_inv in Hset as (i & d & [= <-] & Hd & ->).
      assert (d = dc) by congruence. subst d. clear Hd.
      destruct (block_layout st L c dc
                  (set_p_message msg (set_p_msgtype type (set_p_state RECEIVING dc)))
                  a st' HLT Hidle Hdc Hno Hni eq_refl Hc H)
        as (L' & G1 & G2 & G3 & G4).
      exists L'. split; [exact G1|]. split; [exact G2|]. split; [exact G3|].
      intros Hcov. apply G4; [now left|exact Hcov].
    + apply ret_inv in H as (_ & ->). exact HL'.
Qed.
Lemma lists_in_order_ext st st' :
  lists_in_order st ->
  os_ptable st' = os_ptable st -> os_readyq st' = os_readyq st ->
  os_current st' = os_current st -> idle_proc st' = idle_proc st ->
  lists_in_order st'.
Proof.
  intros (L & HL & Hrun & Hidle) Ep Eq Ec Ei. exists L.
  now apply (in_order_ext st st').
Qed.

Lemma follows_ext st st' L :
  laid_out st L -> running_ok st L -> idle_ok st ->
  os_ptable st' = os_ptable st -> os_readyq st' = os_readyq st ->
  os_current st' = os_current st -> idle_proc st' = idle_proc st ->
  follows st L st'.
Proof.
  intros HL Hrun Hidle Ep Eq Ec Ei. exists L.
  destruct (in_order_ext st st' L HL Hrun Hidle Ep Eq Ec Ei) as (G1 & G2 & G3).
  split; [exact G1|]. split; [exact G2|]. split; [exact G3|].
  intros Hcov. apply (covered_running st); [exact Ec|].
  now apply (covered_ext st).
Qed.

(** A write to a descriptor that leaves its links, its state and its
    priority alone. *)
Lemma follows_update st L i d d' :
  laid_out st L -> running_ok st L -> idle_ok st ->
  os_ptable st !! i = Some d ->
  p_waiting d' = p_waiting d -> p_next d' = p_next d ->
  p_state d' = p_state d -> p_priority d' = p_priority d ->
  follows st L (with_ptable (<[i := d']> (os_ptable st)) st).
Proof.
  intros HL Hrun Hidle Hi Hw Hn Hs Hp. exists L.
  split; [|split; [|split]].
  - apply (laid_out_update st L i d d' HL Hi Hw). now left.
  - now apply (running_ok_update st L i d d').
  - now apply (idle_ok_update st i d d').
  - intros Hcov. apply (covered_running st); [reflexivity|].
    apply (covered_same_duty st); [|exact Hcov].
    now apply (same_duty_update st i d d').
Qed.

(** A write to the descriptor of the running process, other than the
    idle process, that leaves its links and its state alone. *)
Lemma follows_running_update st L c d d' :
  laid_out st L -> running_ok st L -> idle_ok st ->
  os_current st = Some c -> idle_proc st <> Some c ->
  os_ptable st !! c = Some d ->
  p_waiting d' = p_waiting d -> p_next d' = p_next d -> p_state d' = p_state d ->
  follows st L (with_ptable (<[c := d']> (os_ptable st)) st).
Proof.
  intros HL Hrun Hidle Hc Hni Hd Hw Hn Hs. exists L.
  split; [|split; [|split]].
  - apply (laid_out_update st L c d d' HL Hd Hw). now left.
  - now apply (running_ok_update st L c d d').
  - now apply idle_ok_other.
  - intros Hcov. apply (covered_running st); [reflexivity|].
    apply covered_exempt; [exact Hc|exact Hcov].
Qed.

Lemma interrupt_layout st L dest a st' :
  laid_out st L -> running_ok st L -> idle_ok st ->
  interrupt dest st = Ok a st' -> follows st L st'.
Proof.
  intros HLT Hrun Hidle H. unfold interrupt in H.
  kstep H as pdest s1 Hpd. apply ptable_entry_inv in Hpd as (-> & _).
  kstep H as ok s1 Hacc. apply accept_inv in Hacc as (-> & r & dr & -> & Hr & Hrecv).
  destruct ok.
  - (* the handler is waiting *)
    kstep H as d s1 Hd. apply deref_inv in Hd as (-> & i & [= <-] & Hd).
    assert (d = dr) by congruence. subst d. clear Hd.
    kstep H as u s1 Hdel. apply deliver_inv in Hdel as (Ep & Eq & Ec & Ei).
    destruct (in_order_ext st s1 L HLT Hrun Hidle Ep Eq Ec Ei) as (HL1 & Hrun1 & Hidle1).
    assert (Hr1 : os_ptable s1 !! r = Some dr) by (rewrite Ep; exact Hr).
    kstep H as u2 s2 Hwake.
    destruct (wake_keeps s1 L r dr _ u2 s2 HL1 Hrun1 Hidle1 Hr1 (Hrecv eq_refl) Hwake)
      as (L' & H1 & H2 & H3 & Ec2 & _ & Hcov2).
    assert (Hstep : covered st L (running st) -> covered s2 L' (running s2)).
    { intros Hcov. apply (covered_running st); [congruence|].
      apply Hcov2. now apply (covered_ext st). }
    apply (follows_after st L s2 L' st' Hstep).
    kstep H as cur s3 Hcur. apply current_inv in Hcur as (-> & ->).
    kstep H as dcur s3 Hdcur. apply deref_inv in Hdcur as (-> & _).
    destruct (p_priority dcur >? 0).
    + apply modify_inv in H. subst st'. now apply follows_ext.
    + apply ret_inv in H as (_ & ->). now apply follows_ext.
  - (* the interrupt is left pending *)
    destruct a. apply update_inv in H as (i & d & [= <-] & Hd & ->).
    now apply (follows_update st L r d).
Qed.

Lemma default_handler_layout st L irq a st' :
  laid_out st L -> running_ok st L -> idle_ok st ->
  default_handler irq st = Ok a st' -> follows st L st'.
Proof.
  intros HLT Hrun Hidle H. unfold default_handler in H.
  kstep H as task s1 Htask.
  assert (s1 = st).
  { destruct (irq <? 0).
    - now apply ret_inv in Htask.
    - now apply handler_entry_inv in Htask. }
  subst s1.
  destruct ((irq <? 0) || (task =? 0)); [now apply panic_inv in H|].
  kstep H as u s1 Hirq. apply modify_inv in Hirq. subst s1.
  set (st1 := with_irq_enabled _ st) in *.
  destruct (in_order_ext st st1 L HLT Hrun Hidle eq_refl eq_refl eq_refl eq_refl)
    as (HL1 & Hrun1 & Hidle1).
  apply (follows_after st L st1 L st').
  - intros Hcov. now apply (covered_ext st).
  - eapply interrupt_layout; eauto.
Qed.

Lemma connect_layout st L irq a st' :
  laid_out st L -> running_ok st L -> idle_ok st ->
  (forall c, os_current st = Some c -> idle_proc st <> Some c) ->
  connect irq st = Ok a st' -> follows st L st'.
Proof.
  intros HLT Hrun Hidle Hni H. unfold connect in H.
  destruct (irq <? 0); [now apply panic_inv in H|].
  kstep H as cur s1 Hcur. apply current_inv in Hcur as (-> & ->).
  kstep H as u s1 Hupd. destruct u.
  apply update_inv in Hupd as (c & dc & Hc & Hdc & ->).
  set (st1 := with_ptable (<[c := set_p_priority 0 dc]> (os_ptable st)) st) in *.
  kstep H as d s1 Hd. apply deref_inv in Hd as (-> & _).
  kstep H as t s1 Ht. apply handler_entry_inv in Ht as (-> & _).
  kstep H as u s1 Hmod. apply modify_inv in Hmod. subst s1.
  apply modify_inv in H. subst st'.
  destruct (follows_running_update st L c dc (set_p_priority 0 dc)
              HLT Hrun Hidle Hc (Hni c Hc) Hdc eq_refl eq_refl eq_refl)
    as (L1 & G1 & G2 & G3 & G4).
  fold st1 in G1, G2, G3, G4.
  apply (follows_after st L st1 L1); [exact G4|].
  now apply follows_ext.
Qed.

Lemma priority_layout st L p a st' :
  laid_out st L -> running_ok st L -> idle_ok st ->
  (forall c, os_current st = Some c -> idle_proc st <> Some c) ->
  priority p st = Ok a st' -> follows st L st'.
Proof.
  intros HLT Hrun Hidle Hni H. unfold priority in H.
  destruct ((p <? 0) || (p >? P_LOW)); [now apply panic_inv in H|].
  kstep H as cur s1 Hcur. apply current_inv in Hcur as (-> & ->).
  destruct a. apply update_inv in H as (c & dc & Hc & Hdc & ->).
  apply (follows_running_update st L c dc); auto.
Qed.

(** The running process goes to the back of its queue, and the next
    process is chosen: yield, and the context switch after an
    interrupt. *)
Lemma resched_layout st L c a st' :
  laid_out st L -> running_ok st L -> idle_ok st -> os_current st = Some c ->
  (d <- deref (Some c) ;; make_ready (Some c) (p_priority d) ;; choose_proc) st
    = Ok a st' ->
  follows st L st'.
Proof.
  intros HLT Hrun Hidle Hc H.
  destruct (Hrun c Hc) as (dc & Hdc & _ & Hno).
  kstep H as d s1 Hd. apply deref_inv in Hd as (-> & i & [= <-] & Hd).
  assert (d = dc) by congruence. subst d. clear Hd.
  kstep H as u s1 Hready.
  assert (Hprio : idle_proc st = Some c -> p_priority dc = 3).
  { intros Hi. destruct (Hidle c Hi) as (d & Hd & _ & Hp). congruence. }
  destruct (make_ready_keeps st L c dc _ u s1 HLT Hidle Hdc Hno Hprio Hready)
    as (L1 & HL1 & Hidle1 & _ & _ & _ & _ & Hcov1).
  destruct (choose_proc_layout s1 L1 a st' HL1 Hidle1 H) as (L' & G1 & G2 & G3 & G4).
  exists L'. split; [exact G1|]. split; [exact G2|]. split; [exact G3|].
  intros Hcov. apply G4, Hcov1.
  - intros E. right. now left.
  - now apply covered_running_only.
Qed.

Lemma cxt_switch_layout st L psp a st' :
  laid_out st L -> running_ok st L -> idle_ok st ->
  cxt_switch psp st = Ok a st' -> follows st L st'.
Proof.
  intros HLT Hrun Hidle H. unfold cxt_switch in H.
  kstep H as cur s1 Hcur. apply current_inv in Hcur as (-> & ->).
  kstep H as u s1 Hupd. destruct u.
  apply update_inv in Hupd as (c & dc & Hc & Hdc & ->).
  destruct (follows_update st L c dc (set_p_sp psp dc) HLT Hrun Hidle Hdc
              eq_refl eq_refl eq_refl eq_refl) as (L1 & HL1 & Hrun1 & Hidle1 & Hcov1).
  set (st1 := with_ptable (<[c := set_p_sp psp dc]> (os_ptable st)) st) in *.
  assert (Hbody : exists u s2,
            (d <- deref (Some c) ;; make_ready (Some c) (p_priority d) ;; choose_proc) st1
              = Ok u s2 /\ s2 = st').
  { rewrite Hc in H. kstep H as d s2 Hd. kstep H as u s3 Hready.
    kstep H as u2 s4 Hchoose.
    kstep H as cur' s5 Hcur. apply current_inv in Hcur as (-> & ->).
    kstep H as d' s5 Hd'. apply deref_inv in Hd' as (-> & _).
    apply ret_inv in H as (_ & ->).
    exists u2, s4. split; [|reflexivity].
    rewrite (bind_ok _ _ _ _ _ Hd). rewrite (bind_ok _ _ _ _ _ Hready). exact Hchoose. }
  destruct Hbody as (u & s2 & Hbody & ->).
  apply (follows_after st L st1 L1 st' Hcov1).
  eapply (resched_layout st1 L1 c); eauto.
Qed.

(** A system call by the running process [c].  The process is not the
    idle process if the call is send, receive, sendrec or exit, and a
    receive finds its first match at the head of the queue. *)
Lemma system_call_layout st L c dc psp insn r0 r1 r2 a st' :
  laid_out st L -> running_ok st L -> idle_ok st ->
  os_current st = Some c -> os_ptable st !! c = Some dc ->
  (Z.land insn 0xff = SYS_SEND \/ Z.land insn 0xff = SYS_RECEIVE \/
   Z.land insn 0xff = SYS_SENDREC \/ Z.land insn 0xff = SYS_EXIT ->
   idle_proc st <> Some c) ->
  (Z.land insn 0xff = SYS_RECEIVE ->
   p_pending dc && ((r0 =? ANY) || (r0 =? INTERRUPT)) = false ->
   (r0 =? INTERRUPT) = false ->
   (exists s t ds, L (Sender c) = s :: t /\ os_ptable st !! s = Some ds /\
                   (r0 =? ANY) || (p_msgtype ds =? r0) = true) \/
   (forall x dx, x ∈ L (Sender c) -> os_ptable st !! x = Some dx ->
                 (r0 =? ANY) || (p_msgtype dx =? r0) = false)) ->
  system_call psp insn r0 r1 r2 st = Ok a st' -> follows st L st'.
Proof.
  intros HLT Hrun Hidle Hc Hdc Hni Hhead H. unfold system_call in H.
  destruct (Hrun c Hc) as (dc0 & Hdc0 & Hsc & Hno).
  kstep H as cur s1 Hcur. apply current_inv in Hcur as (-> & ->). rewrite Hc in H.
  kstep H as u s1 Hupd. destruct u.
  apply update_inv in Hupd as (i & d & [= <-] & Hd & ->).
  assert (d = dc) by congruence. subst d. clear Hd.
  set (dc1 := set_p_sp psp dc) in *.
  set (st1 := with_ptable (<[c := dc1]> (os_ptable st)) st) in *.
  assert (HL1 : laid_out st1 L).
  { apply (laid_out_update st L c dc _ HLT Hdc); [reflexivity|now left]. }
  assert (Hrun1 : running_ok st1 L).
  { apply (running_ok_update st L c dc _ Hrun Hdc). reflexivity. }
  assert (Hidle1 : idle_ok st1).
  { apply (idle_ok_update st c dc _ Hidle Hdc); reflexivity. }
  assert (Hc1 : os_ptable st1 !! c = Some dc1).
  { cbn. apply list_lookup_insert_eq. eapply lookup_lt_Some; eauto. }
  assert (Hother : forall x, x <> c -> os_ptable st1 !! x = os_ptable st !! x).
  { intros x Hx. cbn. now rewrite list_lookup_insert_ne by auto. }
  kstep H as u2 s2 Hbody.
  kstep H as cur' s3 Hcur. apply current_inv in Hcur as (-> & ->).
  kstep H as d' s3 Hd'. apply deref_inv in Hd' as (-> & _).
  apply ret_inv in H as (_ & ->).
  apply (follows_after st L st1 L).
  { intros Hcov. apply (covered_running st); [reflexivity|].
    apply (covered_same_duty st); [|exact Hcov].
    apply (same_duty_update st c dc dc1 Hdc); reflexivity. }
  destruct (Z.land insn 255 =? SYS_YIELD) eqn:E0.
  { eapply (resched_layout st1 L c); eauto. }
  destruct (Z.land insn 255 =? SYS_SEND) eqn:E1.
  { apply Z.eqb_eq in E1. eapply (mini_send_layout st1 L c); eauto. }
  destruct (Z.land insn 255 =? SYS_RECEIVE) eqn:E2.
  { apply Z.eqb_eq in E2.
    apply (mini_receive_layout st1 L c dc1 r0 r1 u2 s2 HL1 Hrun1 Hidle1 Hc Hc1);
      [apply Hni; auto| |exact Hbody].
    intros Hp Hint. destruct (Hhead E2 Hp Hint) as [(s & t & ds & El & Hs & Hm)|Hnone].
    - left. exists s, t, ds. split; [exact El|]. split; [|exact Hm].
      rewrite Hother; [exact Hs|]. intros ->. apply (Hno (Sender c)).
      rewrite El. apply list_elem_of_here.
    - right. intros x dx Hx Hdx. apply (Hnone x dx Hx).
      rewrite <- Hother; [exact Hdx|]. intros ->. eapply Hno; eauto. }
  destruct (Z.land insn 255 =? SYS_SENDREC) eqn:E3.
  { apply Z.eqb_eq in E3. eapply (mini_sendrec_layout st1 L c); eauto. }
  destruct (Z.land insn 255 =? SYS_EXIT) eqn:E4.
  { apply Z.eqb_eq in E4.
    kstep Hbody as u3 s3 Hdead. destruct u3.
    apply update_inv in Hdead as (i & d & [= <-] & Hd & ->).
    assert (d = dc1) by congruence. subst d. clear Hd.
    assert (Hni1 : idle_proc st1 <> Some c) by (apply Hni; auto).
    destruct (block_layout st1 L c dc1 (set_p_state DEAD dc1) u2 s2
                HL1 Hidle1 Hc1 Hno Hni1 eq_refl Hc Hbody)
      as (L' & G1 & G2 & G3 & G4).
    exists L'. split; [exact G1|]. split; [exact G2|]. split; [exact G3|].
    intros Hcov. apply G4; [now right; right|exact Hcov]. }
  destruct (Z.land insn 255 =? SYS_DUMP) eqn:E5.
  { apply ret_inv in Hbody as (_ & ->). now apply follows_ext. }
  now apply panic_inv in Hbody.
Qed.

Lemma os_start_layout st L psp a st' :
  laid_out st L -> running_ok st L -> idle_ok st ->
  os_start psp st = Ok a st' ->
  exists L', laid_out st' L' /\ running_ok st' L' /\ idle_ok st' /\
             (os_current st = None ->
              covered st L (running st) -> covered st' L' (running st')).
Proof.
  intros HLT Hrun Hidle H. unfold os_start in H.
  kstep H as s s1 Hget. apply get_inv in Hget as (-> & ->).
  kstep H as u s1 Hmod. apply modify_inv in Hmod. subst s1.
  kstep H as di s1 Hdi. apply deref_inv in Hdi as (-> & i & Hi & Hdi).
  set (st0 := with_current (idle_proc st) st) in *.
  change (os_ptable st !! i = Some di) in Hdi.
  destruct (Hidle i Hi) as (d & Hd & Hs & Hp).
  assert (d = di) by congruence. subst d. clear Hd.
  assert (Hf : follows st0 L st').
  { apply (system_call_layout st0 L i di psp (svc SYS_YIELD) 0 0 0 a st');
      [| | | | | | |exact H].
  - eapply laid_out_ext; [exact HLT|reflexivity|reflexivity].
  - intros c Hc. change (idle_proc st = Some c) in Hc.
    assert (c = i) by congruence. subst c.
    exists di. split; [exact Hdi|]. split; [now right|].
    eapply idle_nowhere; eauto.
  - eapply idle_ok_ext; [exact Hidle|reflexivity|reflexivity].
  - exact Hi.
  - exact Hdi.
  - intros [E|[E|[E|E]]]; vm_compute in E; discriminate E.
  - intros E. vm_compute in E. discriminate E. }
  destruct Hf as (L' & G1 & G2 & G3 & G4). exists L'.
  split; [exact G1|]. split; [exact G2|]. split; [exact G3|].
  intros Hnone Hcov. apply G4. apply (covered_ext st); [reflexivity|].
  eapply covered_weaken; [exact Hcov|].
  intros x Hx. unfold running in Hx. congruence.
Qed.

(** A new descriptor at the end of the table. *)
Lemma new_proc_layout st L d s1 :
  laid_out st L -> running_ok st L -> idle_ok st -> p_waiting d = None ->
  os_ptable s1 = os_ptable st ++ [d] -> os_readyq s1 = os_readyq st ->
  os_current s1 = os_current st ->
  exists L1,
    laid_out s1 L1 /\ running_ok s1 L1 /\
    (forall pl, length (os_ptable st) ∉ L1 pl) /\
    (idle_proc s1 = idle_proc st -> idle_ok s1) /\
    (forall X : nat -> Prop,
       covered st L X ->
       covered s1 L1 (fun i => X i \/ i = length (os_ptable st))).
Proof.
  intros [HL HT] Hrun Hidle Hw Ep Eq Ec.
  destruct (linked_new st L d HL Hw) as (HL1 & Hno & Hsub).
  set (L1 := put (Sender (length (os_ptable st))) [] L) in *.
  exists L1. split; [|split; [|split; [exact Hno|split]]].
  - split.
    + eapply linked_ext; [exact HL1|exact Ep|exact Eq].
    + intros k q Hk Hq. rewrite Eq in Hq. unfold L1.
      rewrite put_other by discriminate. now apply HT.
  - intros c Hc. rewrite Ec in Hc. destruct (Hrun c Hc) as (dc & Hdc & Hs & Hn).
    exists dc. split; [|split; [exact Hs|]].
    + rewrite Ep. rewrite lookup_app_l; [exact Hdc|]. eapply lookup_lt_Some; eauto.
    + intros pl Hin. apply (Hn pl). now apply Hsub.
  - intros Ei i Hi. rewrite Ei in Hi. destruct (Hidle i Hi) as (di & Hdi & Hs & Hp).
    exists di. split; [|auto].
    rewrite Ep. rewrite lookup_app_l; [exact Hdi|]. eapply lookup_lt_Some; eauto.
  - intros X Hcov. apply (covered_step st L X);
      [exact Hcov|rewrite Ep, length_app; lia|].
    intros i d' Hd' HX Hpr. right. right. right.
    assert (Hlt : (i < length (os_ptable st))%nat).
    { apply lookup_lt_Some in Hd'. rewrite Ep, length_app in Hd'. cbn in Hd'.
      assert (i <> length (os_ptable st)) by tauto. lia. }
    rewrite Ep, lookup_app_l in Hd' by exact Hlt.
    exists d'. split; [exact Hd'|]. split; [tauto|].
    split; [reflexivity|]. split; [reflexivity|].
    split.
    + intros k Hk Hin. unfold L1. now rewrite put_other by discriminate.
    + intros r Hr Hin. unfold L1. rewrite put_other; [exact Hin|].
      intros [= E]. lia.
Qed.

Lemma os_init_layout st L a st' :
  laid_out st L -> running_ok st L -> idle_ok st ->
  os_init st = Ok a st' -> follows st L st'.
Proof.
  intros HLT Hrun Hidle H. unfold os_init in H.
  kstep H as p s1 Hinit.
  apply init_proc_inv in Hinit as (_ & -> & _ & _ & E1).
  set (n := length (os_ptable st)) in *.
  set (d := mkproc (os_nprocs st) (name15 "IDLE") ACTIVE (__break st + IDLE_STACK)
                   (__break st) IDLE_STACK P_LOW None false ANY 0 None) in *.
  destruct (new_proc_layout st L d s1 HLT Hrun Hidle eq_refl)
    as (L1 & HL1 & Hrun1 & Hno & _ & Hcov1); [now rewrite E1..|].
  assert (Hd1 : os_ptable s1 !! n = Some d).
  { rewrite E1. cbn. now apply list_lookup_middle. }
  assert (Hcn : os_current s1 <> Some n).
  { intros Hc. rewrite E1 in Hc. cbn in Hc.
    destruct (Hrun n Hc) as (dn & Hdn & _). apply lookup_lt_Some in Hdn.
    unfold n in Hdn. lia. }
  kstep H as u s2 Hmod. apply modify_inv in Hmod. subst s2.
  kstep H as u2 s2 Hupd. destruct u2.
  apply update_inv in Hupd as (i & d0 & [= <-] & Hd0 & ->).
  change (os_ptable s1 !! n = Some d0) in Hd0.
  assert (d0 = d) by congruence. subst d0. clear Hd0.
  destruct a. apply update_inv in H as (i & d0 & [= <-] & Hd0 & ->).
  cbn in Hd0. rewrite list_lookup_insert_eq in Hd0 by (eapply lookup_lt_Some; eauto).
  injection Hd0 as <-.
  set (s2 := with_ptable (<[n := set_p_state IDLING d]> (os_ptable s1)) s1).
  assert (HL2 : laid_out s2 L1).
  { apply (laid_out_update s1 L1 n d _ HL1 Hd1); [reflexivity|now right]. }
  assert (Hrun2 : running_ok s2 L1) by now apply running_ok_other.
  assert (Hd2 : os_ptable s2 !! n = Some (set_p_state IDLING d)).
  { cbn. apply list_lookup_insert_eq. eapply lookup_lt_Some; eauto. }
  exists L1. split; [|split; [|split]].
  - eapply laid_out_ext;
      [apply (laid_out_update s2 L1 n _ (set_p_priority 3 (set_p_state IDLING d)) HL2 Hd2);
       [reflexivity|now right]|reflexivity|reflexivity].
  - eapply running_ok_ext;
      [apply (running_ok_other s2 L1 n (set_p_priority 3 (set_p_state IDLING d)) Hrun2);
       exact Hcn|reflexivity|reflexivity].
  - intros i Hi. cbn in Hi. injection Hi as <-. cbn.
    eexists. split; [apply list_lookup_insert_eq; rewrite length_insert;
                     eapply lookup_lt_Some; eauto|].
    split; reflexivity.
  - intros Hcov.
    apply (covered_running st); [cbn; rewrite E1; reflexivity|].
    apply (covered_ext (with_ptable
             (<[n := set_p_priority 3 (set_p_state IDLING d)]> (os_ptable s2)) s2));
      [reflexivity|].
    apply covered_settle; [right; now left|].
    apply (covered_weaken _ _ (running st)); [|now left].
    apply (covered_ext (with_ptable (<[n := set_p_state IDLING d]> (os_ptable s1)) s1));
      [reflexivity|].
    apply covered_settle; [right; now left|].
    now apply Hcov1.
Qed.

Lemma start_layout st L name body arg stksize a st' :
  laid_out st L -> running_ok st L -> idle_ok st ->
  start name body arg stksize st = Ok a st' -> follows st L st'.
Proof.
  intros HLT Hrun Hidle H. unfold start in H.
  kstep H as p s1 Hinit.
  apply init_proc_inv in Hinit as (_ & -> & _ & _ & E1).
  set (n := length (os_ptable st)) in *.
  match type of E1 with
  | s1 = with_ptable (_ ++ [?x]) _ => set (d := x) in *
  end.
  destruct (new_proc_layout st L d s1 HLT Hrun Hidle eq_refl)
    as (L1 & HL1 & Hrun1 & Hno & Hidle1 & Hcov1); [now rewrite E1..|].
  specialize (Hidle1 ltac:(now rewrite E1)).
  assert (Hd1 : os_ptable s1 !! n = Some d).
  { rewrite E1. cbn. now apply list_lookup_middle. }
  assert (Hin : idle_proc s1 <> Some n).
  { intros Hi. rewrite E1 in Hi. cbn in Hi.
    destruct (Hidle n Hi) as (dn & Hdn & _). apply lookup_lt_Some in Hdn.
    unfold n in Hdn. lia. }
  kstep H as cur s2 Hcur. apply current_inv in Hcur as (-> & ->).
  destruct (os_current s1) as [c|] eqn:Ecur; [now apply panic_inv in H|].
  kstep H as d0 s2 Hd0. apply deref_inv in Hd0 as (-> & i & [= <-] & Hd0).
  assert (d0 = d) by congruence. subst d0. clear Hd0.
  kstep H as u1 s2 Hm1. apply modify_inv in Hm1. subst s2.
  kstep H as u2 s2 Hm2. apply modify_inv in Hm2. subst s2.
  kstep H as u3 s2 Hm3. apply modify_inv in Hm3. subst s2.
  kstep H as u4 s2 Hm4. apply modify_inv in Hm4. subst s2.
  kstep H as u5 s2 Hm5. apply modify_inv in Hm5.
  assert (E2 : os_ptable s2 = os_ptable s1 /\ os_readyq s2 = os_readyq s1 /\
               os_current s2 = os_current s1 /\ idle_proc s2 = idle_proc s1).
  { subst s2. auto. }
  clear Hm5. destruct E2 as (Ep & Eq & Ec & Ei).
  destruct (in_order_ext s1 s2 L1 HL1 Hrun1 Hidle1 Ep Eq Ec Ei) as (HL2 & Hrun2 & Hidle2).
  kstep H as u6 s3 Hupd. destruct u6.
  apply update_inv in Hupd as (i & d0 & [= <-] & Hd0 & ->).
  assert (d0 = d) by congruence. subst d0. clear Hd0.
  assert (Hd2 : os_ptable s2 !! n = Some d) by congruence.
  set (d3 := set_p_sp (p_sp d - 4 * 16) d) in *.
  set (s3 := with_ptable (<[n := d3]> (os_ptable s2)) s2) in *.
  assert (HL3 : laid_out s3 L1).
  { apply (laid_out_update s2 L1 n d _ HL2 Hd2); [reflexivity|now left]. }
  assert (Hidle3 : idle_ok s3).
  { apply (idle_ok_update s2 n d _ Hidle2 Hd2); reflexivity. }
  assert (Hd3 : os_ptable s3 !! n = Some d3).
  { cbn. apply list_lookup_insert_eq. eapply lookup_lt_Some; eauto. }
  kstep H as u7 s4 Hready.
  apply ret_inv in H as (_ & ->).
  assert (Hprio : idle_proc s3 = Some n -> p_priority d = 3).
  { intros Hi. exfalso. apply Hin. rewrite <- Ei. exact Hi. }
  destruct (make_ready_keeps s3 L1 n d3 _ u7 s4 HL3 Hidle3 Hd3 Hno Hprio Hready)
    as (L' & HL' & Hidle' & Hc' & _ & _ & _ & Hcov').
  exists L'. split; [exact HL'|]. split; [|split; [exact Hidle'|]].
  - intros c Hc. rewrite Hc' in Hc. cbn in Hc. congruence.
  - intros Hcov.
    apply (covered_running st).
    { rewrite Hc'. cbn. rewrite Ec, E1. reflexivity. }
    apply Hcov'; [intros E; right; left; exact E|].
    apply (covered_same_duty s2);
      [apply (same_duty_update s2 n d d3 Hd2); reflexivity|].
    apply (covered_ext s1); [exact Ep|]. now apply Hcov1.
Qed.

End Calls.

Section Orderly.
Context {env : Env}.

(** The lists of a state that is laid out, computed. *)
Lemma chain_lseg ps h l :
  lseg ps h l -> forall fuel, (length l <= fuel)%nat -> chain ps fuel h = l.
Proof.
  induction 1 as [|i d l Hi Hl IH]; intros fuel Hf.
  - destruct fuel; reflexivity.
  - destruct fuel; [cbn in Hf; lia|]. cbn [chain]. rewrite Hi. f_equal.
    apply IH. cbn in Hf. lia.
Qed.

Lemma waiting_list_layout st L c dc :
  laid_out st L -> os_ptable st !! c = Some dc ->
  waiting_list st c = L (Sender c).
Proof.
  intros [HL _] Hc. unfold waiting_list. rewrite Hc.
  pose proof (lk_senders _ _ HL c dc Hc) as Hl.
  apply chain_lseg; [exact Hl|]. eapply lseg_length; eauto.
Qed.

Lemma ready_list_layout st L k :
  laid_out st L -> (k < 3)%nat -> ready_list st k = L (Ready k).
Proof.
  intros [HL _] Hk. unfold ready_list.
  destruct (lk_ready _ _ HL k Hk) as (q & Hq & Hl). rewrite Hq.
  apply chain_lseg; [exact Hl|]. eapply lseg_length; eauto.
Qed.

Lemma descriptor_lookup st i d : os_ptable st !! i = Some d -> descriptor st i = d.
Proof. intros H. unfold descriptor. now rewrite H. Qed.

Lemma on_list_elem_of i l : on_list i l = true <-> i ∈ l.
Proof.
  unfold on_list. rewrite existsb_exists, list_elem_of_In. split.
  - intros (x & Hx & E). apply Nat.eqb_eq in E. now subst.
  - intros H. exists i. split; [exact H|apply Nat.eqb_refl].
Qed.

(** The discipline of a receive, in terms of the layout. *)
Lemma head_condition st L c dc type :
  laid_out st L -> os_current st = Some c -> os_ptable st !! c = Some dc ->
  negb (walks_queue st type) || first_match_is_head st type = true ->
  p_pending dc && ((type =? ANY) || (type =? INTERRUPT)) = false ->
  (type =? INTERRUPT) = false ->
  (exists s t ds, L (Sender c) = s :: t /\ os_ptable st !! s = Some ds /\
                  (type =? ANY) || (p_msgtype ds =? type) = true) \/
  (forall x dx, x ∈ L (Sender c) -> os_ptable st !! x = Some dx ->
                (type =? ANY) || (p_msgtype dx =? type) = false).
Proof.
  intros HLT Hc Hdc Hd Hp Hi.
  unfold walks_queue, first_match_is_head in Hd. rewrite Hc in Hd.
  rewrite (descriptor_lookup _ _ _ Hdc), Hp, Hi in Hd. cbn [negb andb orb] in Hd.
  rewrite (waiting_list_layout st L c dc HLT Hdc) in Hd.
  destruct (L (Sender c)) as [|s t] eqn:El.
  - right. intros x dx Hx. inversion Hx.
  - assert (Hs : s ∈ L (Sender c)) by (rewrite El; apply list_elem_of_here).
    destruct HLT as [HL _]. destruct (lk_fits _ _ HL s _ Hs) as (ds & Hds & _).
    destruct ((type =? ANY) || (p_msgtype ds =? type)) eqn:Em.
    + left. exists s, t, ds. auto.
    + right. unfold matches in Hd at 1.
      rewrite (descriptor_lookup _ _ _ Hds), Em in Hd. cbn [orb] in Hd.
      intros x dx Hx Hdx. apply elem_of_cons in Hx as [->|Hx].
      * assert (dx = ds) by congruence. subst dx. exact Em.
      * rewrite forallb_forall in Hd. apply list_elem_of_In in Hx.
        specialize (Hd x Hx). apply negb_true_iff in Hd. unfold matches in Hd.
        now rewrite (descriptor_lookup _ _ _ Hdx) in Hd.
Qed.

Lemma not_idle_running st c :
  idle_running st = false -> os_current st = Some c -> idle_proc st <> Some c.
Proof.
  unfold idle_running. intros H Hc Hi. rewrite Hc, Hi in H.
  now rewrite Nat.eqb_refl in H.
Qed.

(** An entry within the discipline keeps the lists in order, and loses no
    process unless it starts the scheduler a second time. *)
Lemma step_follows st L c st' :
  laid_out st L -> running_ok st L -> idle_ok st ->
  in_discipline c st = true -> run c st = Ok tt st' ->
  exists L', laid_out st' L' /\ running_ok st' L' /\ idle_ok st' /\
             (starts_once c st = true ->
              covered st L (running st) -> covered st' L' (running st')).
Proof.
  intros HLT Hrun Hidle Hd H.
  assert (Hany : forall s, follows st L s ->
            exists L', laid_out s L' /\ running_ok s L' /\ idle_ok s /\
                       (starts_once c st = true ->
                        covered st L (running st) -> covered s L' (running s))).
  { intros s (L' & G1 & G2 & G3 & G4). exists L'. auto. }
  destruct c; cbn [run] in H.
  - apply Hany. eapply os_init_layout; eauto.
  - kstep H as z s1 Hs. apply ret_inv in H as (_ & ->).
    apply Hany. eapply start_layout; eauto.
  - kstep H as z s1 Hs. apply ret_inv in H as (_ & ->).
    destruct (os_start_layout st L psp z s1 HLT Hrun Hidle Hs)
      as (L' & G1 & G2 & G3 & G4).
    exists L'. split; [exact G1|]. split; [exact G2|]. split; [exact G3|].
    intros Hso. apply G4. unfold starts_once in Hso.
    destruct (os_current st); [discriminate|reflexivity].
  - kstep H as z s1 Hs. apply ret_inv in H as (_ & ->). apply Hany.
    assert (Hcur : exists c dc, os_current st = Some c /\ os_ptable st !! c = Some dc).
    { pose proof Hs as Hs'. unfold system_call in Hs'.
      kstep Hs' as cur s2 Hcur. apply current_inv in Hcur as (-> & ->).
      kstep Hs' as u s2 Hupd. destruct u.
      apply update_inv in Hupd as (c & dc & Hc & Hdc & _). eauto. }
    destruct Hcur as (c & dc & Hc & Hdc).
    cbn [in_discipline] in Hd.
    apply (system_call_layout st L c dc psp insn r0 r1 r2 z s1 HLT Hrun Hidle Hc Hdc);
      [| |exact Hs].
    + intros Hop. apply not_idle_running; [|exact Hc].
      destruct (Z.land insn 255 =? SYS_RECEIVE) eqn:ER.
      * apply andb_true_iff in Hd as [Hd _]. now apply negb_true_iff in Hd.
      * destruct ((Z.land insn 255 =? SYS_SEND) || (Z.land insn 255 =? SYS_SENDREC)
                  || (Z.land insn 255 =? SYS_EXIT)) eqn:ES.
        -- now apply negb_true_iff in Hd.
        -- exfalso. destruct Hop as [E|[E|[E|E]]]; rewrite E in ES, ER;
             vm_compute in ES, ER; discriminate.
    + intros Hop Hp Hint. rewrite Hop in Hd.
      change (SYS_RECEIVE =? SYS_RECEIVE) with true in Hd. cbv iota in Hd.
      apply andb_true_iff in Hd as [_ Hd].
      eapply head_condition; eauto.
  - kstep H as z s1 Hs. apply ret_inv in H as (_ & ->).
    apply Hany. eapply cxt_switch_layout; eauto.
  - apply Hany. eapply default_handler_layout; eauto.
  - apply Hany. eapply interrupt_layout; eauto.
  - cbn [in_discipline] in Hd. apply negb_true_iff in Hd.
    apply Hany. eapply connect_layout; eauto.
    intros c Hc. now apply not_idle_running.
  - cbn [in_discipline] in Hd. apply negb_true_iff in Hd.
    apply Hany. eapply priority_layout; eauto.
    intros c Hc. now apply not_idle_running.
Qed.

Lemma step_in_order st c st' :
  lists_in_order st -> in_discipline c st = true -> run c st = Ok tt st' ->
  lists_in_order st'.
Proof.
  intros (L & HLT & Hrun & Hidle) Hd H.
  destruct (step_follows st L c st' HLT Hrun Hidle Hd H) as (L' & G1 & G2 & G3 & _).
  exists L'. auto.
Qed.

Lemma run_in_order cs :
  forall st st', lists_in_order st -> run_in_discipline cs st = Some st' ->
                 lists_in_order st'.
Proof.
  induction cs as [|c cs IH]; intros st st' HI H; cbn [run_in_discipline] in H.
  - now injection H as <-.
  - destruct (in_discipline c st) eqn:Hd; [|discriminate].
    destruct (run c st) as [[] s1| |] eqn:Hrun; try discriminate.
    eapply IH; [|exact H]. eapply step_in_order; eauto.
Qed.

(** A run in which the scheduler is started once loses no process. *)
Lemma run_follows cs :
  forall st L st',
    laid_out st L -> running_ok st L -> idle_ok st ->
    covered st L (running st) -> run_started_once cs st = Some st' ->
    exists L', laid_out st' L' /\ running_ok st' L' /\ idle_ok st' /\
               covered st' L' (running st').
Proof.
  induction cs as [|c cs IH]; intros st L st' HLT Hrun Hidle Hcov H;
    cbn [run_started_once] in H.
  - injection H as <-. exists L. auto.
  - destruct (in_discipline c st) eqn:Hd; [|discriminate].
    destruct (starts_once c st) eqn:Hso; [|discriminate]. cbn [andb] in H.
    destruct (run c st) as [[] s1| |] eqn:Hrunc; try discriminate.
    destruct (step_follows st L c s1 HLT Hrun Hidle Hd Hrunc)
      as (L1 & G1 & G2 & G3 & G4).
    apply (IH s1 L1 st' G1 G2 G3 (G4 Hso Hcov) H).
Qed.

Lemma boot_laid_out msgs mem :
  laid_out (boot msgs mem) (fun _ => []) /\ running_ok (boot msgs mem) (fun _ => []) /\
  idle_ok (boot msgs mem) /\
  covered (boot msgs mem) (fun _ => []) (running (boot msgs mem)).
Proof.
  split; [split; [split|]|split; [|split]].
  - intros k Hk. destruct k as [|[|[|k]]]; [| | |lia];
      (eexists; split; [reflexivity|constructor]).
  - intros r d Hr. destruct r; discriminate Hr.
  - intros i pl pl' Hi. inversion Hi.
  - intros pl. constructor.
  - intros i pl Hi. inversion Hi.
  - intros k q Hk Hq. now left.
  - intros c Hc. discriminate Hc.
  - intros i Hi. discriminate Hi.
  - intros i d Hi. destruct i; discriminate Hi.
Qed.

Lemma boot_in_order msgs mem : lists_in_order (boot msgs mem).
Proof.
  destruct (boot_laid_out msgs mem) as (H1 & H2 & H3 & _).
  exists (fun _ => []). auto.
Qed.

(** Counting the lists a process is on. *)
Lemma filter_none {A} (f : A -> bool) l :
  (forall x, In x l -> f x = false) -> List.filter f l = [].
Proof.
  induction l as [|a l IH]; intros H; [reflexivity|]. cbn.
  rewrite (H a (or_introl eq_refl)). apply IH. intros x Hx. apply H. now right.
Qed.

Lemma filter_at_most_one {A} (f : A -> bool) l :
  NoDup l ->
  (forall x y, In x l -> In y l -> f x = true -> f y = true -> x = y) ->
  (length (List.filter f l) <= 1)%nat.
Proof.
  induction l as [|a l IH]; intros Hnd H; [cbn; lia|].
  apply NoDup_cons in Hnd as [Ha Hnd]. cbn.
  destruct (f a) eqn:Ea.
  - rewrite filter_none; [cbn; lia|].
    intros x Hx. destruct (f x) eqn:Ex; [|reflexivity].
    exfalso. apply Ha. apply list_elem_of_In.
    rewrite (H a x); [exact Hx|now left|now right|exact Ea|exact Ex].
  - apply IH; [exact Hnd|]. intros x y Hx Hy. apply H; now right.
Qed.

Lemma on_at_most_one_list st i :
  lists_in_order st ->
  (ready_queues_holding st i + sender_queues_holding st i <= 1)%nat.
Proof.
  intros (L & HLT & _ & _). pose proof HLT as [HL _].
  unfold ready_queues_holding, sender_queues_holding.
  assert (HR : forall k, In k (seq 0 3) ->
             on_list i (ready_list st k) = true -> i ∈ L (Ready k)).
  { intros k Hk Hon. apply in_seq in Hk.
    rewrite (ready_list_layout st L k HLT) in Hon by lia.
    now apply on_list_elem_of. }
  assert (HS : forall r, In r (seq 0 (length (os_ptable st))) ->
             on_list i (waiting_list st r) = true -> i ∈ L (Sender r)).
  { intros r Hr Hon. apply in_seq in Hr.
    destruct (lookup_lt_is_Some_2 (os_ptable st) r) as [d Hd]; [lia|].
    rewrite (waiting_list_layout st L r d HLT Hd) in Hon.
    now apply on_list_elem_of. }
  assert (H1 : (length (List.filter (fun k => on_list i (ready_list st k)) (seq 0 3)) <= 1)%nat).
  { apply filter_at_most_one; [apply NoDup_seq|].
    intros x y Hx Hy Fx Fy.
    pose proof (lk_unique _ _ HL i _ _ (HR x Hx Fx) (HR y Hy Fy)) as E.
    now injection E. }
  assert (H2 : (length (List.filter (fun r => on_list i (waiting_list st r))
                                    (seq 0 (length (os_ptable st)))) <= 1)%nat).
  { apply filter_at_most_one; [apply NoDup_seq|].
    intros x y Hx Hy Fx Fy.
    pose proof (lk_unique _ _ HL i _ _ (HS x Hx Fx) (HS y Hy Fy)) as E.
    now injection E. }
  destruct (List.filter (fun k => on_list i (ready_list st k)) (seq 0 3))
    as [|k ks] eqn:Ek; [cbn; lia|].
  assert (Hk : In k (seq 0 3) /\ on_list i (ready_list st k) = true).
  { apply (filter_In (fun k => on_list i (ready_list st k))). rewrite Ek. now left. }
  destruct Hk as [Hk Fk].
  rewrite (filter_none (fun r => on_list i (waiting_list st r))); [cbn in *; lia|].
  intros r Hr. destruct (on_list i (waiting_list st r)) eqn:Fr; [|reflexivity].
  pose proof (lk_unique _ _ HL i _ _ (HR k Hk Fk) (HS r Hr Fr)) as E.
  discriminate E.
Qed.

End Orderly.

Section InOrder.
Context {env : Env}.

(** X23.  As long as the entries keep to the discipline (the idle process
    makes no call but yield and dump, and a receive that looks at the
    senders waiting on it finds its first match at the head of the queue
    or finds none), the lists of the kernel stay in order: in every state
    so reached from boot there is a layout [L] such that each ready queue
    and each sender queue is the linked list that [L] gives for it, the
    tail pointer of a ready queue with members pointing to the last of
    them; no process is on two lists; the processes on a ready queue are
    ACTIVE and those on a sender queue SENDING or SENDREC; the running
    process is ACTIVE or IDLING and on no list; and the number of ready
    queues and sender queues that hold a given process, counted by
    following the links, is at most one. *)
Theorem lists_stay_in_order :
  forall (msgs : Z -> message) (mem : Z -> Z) (cs : list kcall) (st : kstate),
    run_in_discipline cs (boot msgs mem) = Some st ->
    exists L : layout,
      (forall k, (k < 3)%nat -> is_queue st k (L (Ready k))) /\
      (forall r, (r < length (os_ptable st))%nat ->
                 is_waiting st r (L (Sender r))) /\
      (forall i pl pl', i ∈ L pl -> i ∈ L pl' -> pl = pl') /\
      (forall i pl, i ∈ L pl ->
         exists d, os_ptable st !! i = Some d /\ fits pl (p_state d)) /\
      (forall c, os_current st = Some c ->
         exists d, os_ptable st !! c = Some d /\
                   (p_state d = ACTIVE \/ p_state d = IDLING) /\
                   forall pl, c ∉ L pl) /\
      (forall i, (ready_queues_holding st i + sender_queues_holding st i <= 1)%nat).
Proof.
  intros msgs mem cs st H.
  pose proof (run_in_order cs _ _ (boot_in_order msgs mem) H) as HI.
  pose proof (fun i => on_at_most_one_list st i HI) as Hcount.
  destruct HI as (L & HLT & Hrun & Hidle).
  exists L.
  split; [intros k Hk; now apply laid_out_queue|].
  split; [intros r Hr; now apply laid_out_waiting|].
  destruct HLT as [HL HT].
  split; [apply (lk_unique _ _ HL)|].
  split; [apply (lk_fits _ _ HL)|].
  split; [exact Hrun|exact Hcount].
Qed.

End InOrder.

Section OrderlyWorkedRuns.
Local Existing Instance board.

(** [lists_stay_in_order] on the board: the run [orderly_trace] from boot
    to [both_received]. *)
Lemma lists_stay_in_order_witness :
  exists L : layout,
    (forall k, (k < 3)%nat -> is_queue both_received k (L (Ready k))) /\
    (forall r, (r < length (os_ptable both_received))%nat ->
               is_waiting both_received r (L (Sender r))) /\
    (forall i pl pl', i ∈ L pl -> i ∈ L pl' -> pl = pl') /\
    (forall i pl, i ∈ L pl ->
       exists d, os_ptable both_received !! i = Some d /\ fits pl (p_state d)) /\
    (forall c, os_current both_received = Some c ->
       exists d, os_ptable both_received !! c = Some d /\
                 (p_state d = ACTIVE \/ p_state d = IDLING) /\
                 forall pl, c ∉ L pl) /\
    (forall i, (ready_queues_holding both_received i
                + sender_queues_holding both_received i <= 1)%nat).
Proof.
  apply (lists_stay_in_order (msgmem loaded) (ram loaded) orderly_trace).
  vm_compute. reflexivity.
Defined.

End OrderlyWorkedRuns.

Section Safety.
Context {env : Env}.

Lemma safe_bind {A B} (m : K A) (k : A -> K B) st :
  pointer_safe (m st) ->
  (forall a st1, m st = Ok a st1 -> pointer_safe (k a st1)) ->
  pointer_safe ((x <- m ;; k x) st).
Proof.
  intros Hm Hk. unfold bind. destruct (m st) as [a st1|fmt args st1|f] eqn:E.
  - now apply Hk.
  - exact I.
  - exact Hm.
Qed.

Lemma safe_ok {A} (r : result A) a st : r = Ok a st -> pointer_safe r.
Proof. now intros ->. Qed.

Lemma readyq_safe prio st : pointer_safe (readyq prio st).
Proof.
  unfold readyq. destruct ((0 <=? prio) && (prio <? 3)); [|exact I].
  destruct (os_readyq st !! Z.to_nat prio); exact I.
Qed.

Lemma set_readyq_safe prio q st : pointer_safe (set_readyq prio q st).
Proof.
  unfold set_readyq. apply safe_bind; [apply readyq_safe|]. intros; exact I.
Qed.

Lemma ptable_entry_safe dest st : pointer_safe (ptable_entry dest st).
Proof.
  unfold ptable_entry. destruct ((0 <=? dest) && (dest <? NPROCS)); exact I.
Qed.

Lemma handler_entry_safe irq st : pointer_safe (handler_entry irq st).
Proof.
  unfold handler_entry. destruct ((0 <=? irq) && (irq <? 32)); [|exact I].
  destruct (os_handler st !! Z.to_nat irq); exact I.
Qed.

Lemma deref_safe st i d :
  os_ptable st !! i = Some d -> pointer_safe (deref (Some i) st).
Proof. intros H. now rewrite (deref_ok _ _ _ H). Qed.

Lemma update_safe st i d f :
  os_ptable st !! i = Some d -> pointer_safe (update (Some i) f st).
Proof. intros H. now rewrite (update_ok _ _ _ f H). Qed.

Lemma deliver_safe buf src type msg st :
  pointer_safe (deliver buf src type msg st).
Proof. destruct (deliver_total buf src type msg st) as (m & -> & _). exact I. Qed.

Lemma set_state_safe st i d s type msg :
  os_ptable st !! i = Some d -> pointer_safe (set_state (Some i) s type msg st).
Proof. intros H. now rewrite (set_state_ok _ _ _ s type msg H). Qed.

Lemma accept_safe st i d type :
  os_ptable st !! i = Some d -> pointer_safe (accept (Some i) type st).
Proof. intros H. now rewrite (accept_ok _ _ _ type H). Qed.

(** The tail pointer of a ready queue that has a head points into the
    table. *)
Lemma tail_valid st L k q h :
  laid_out st L -> (k < 3)%nat -> os_readyq st !! k = Some q ->
  q_head q = Some h ->
  exists t dt, q_tail q = Some t /\ os_ptable st !! t = Some dt.
Proof.
  intros [HL HT] Hk Hq Hh.
  destruct (lk_ready _ _ HL k Hk) as (q0 & Hq0 & Hl).
  assert (q0 = q) by congruence. subst q0.
  destruct (HT k q Hk Hq) as [El|El].
  - rewrite El, Hh in Hl. inversion Hl.
  - assert (Hne : L (Ready k) <> []).
    { intros E. rewrite E, Hh in Hl. inversion Hl. }
    destruct (last_snoc_inv _ Hne) as (l' & t & E & Elast).
    assert (Ht : t ∈ L (Ready k)).
    { rewrite E, elem_of_app, list_elem_of_singleton. auto. }
    destruct (lk_fits _ _ HL t _ Ht) as (dt & Hdt & _).
    exists t, dt. split; [congruence|exact Hdt].
Qed.

Lemma make_ready_safe st L p dp prio :
  laid_out st L -> os_ptable st !! p = Some dp -> (forall pl, p ∉ L pl) ->
  pointer_safe (make_ready (Some p) prio st).
Proof.
  intros HLT Hp Hno. unfold make_ready.
  destruct (prio =? P_IDLE); [exact I|].
  apply safe_bind; [eapply update_safe; eauto|]. intros [] st1 H1.
  apply update_inv in H1 as (i & d & [= <-] & Hd & ->).
  assert (d = dp) by congruence. subst d. clear Hd.
  set (st1 := with_ptable _ st).
  assert (HL1 : laid_out st1 L).
  { apply (laid_out_update st L p dp _ HLT Hp); [reflexivity|now right]. }
  apply safe_bind; [apply readyq_safe|]. intros q s Hq.
  apply readyq_inv in Hq as (-> & k & -> & Hk & Hq).
  apply safe_bind.
  - destruct (q_head q) as [h|] eqn:Hh; [|apply set_readyq_safe].
    destruct (tail_valid st1 L k q h HL1 Hk Hq Hh) as (t & dt & -> & Hdt).
    eapply update_safe; eauto.
  - intros u s2 _. apply safe_bind; [apply readyq_safe|].
    intros q' s3 _. apply set_readyq_safe.
Qed.

Lemma take_head_safe st L k rest :
  laid_out st L -> (k < 3)%nat -> pointer_safe (rest st) ->
  pointer_safe (take_head (Z.of_nat k) rest st).
Proof.
  intros [HL HT] Hk Hrest. unfold take_head.
  apply safe_bind; [apply readyq_safe|]. intros q s Hq.
  apply readyq_inv in Hq as (-> & k' & Ek & _ & Hq).
  apply Nat2Z.inj in Ek. subst k'.
  destruct (q_head q) as [h|] eqn:Hh; [|exact Hrest].
  apply safe_bind; [exact I|]. intros u s1 Hm. apply modify_inv in Hm. subst s1.
  destruct (lk_ready _ _ HL k Hk) as (q0 & Hq0 & Hl).
  assert (q0 = q) by congruence. subst q0.
  rewrite Hh in Hl. inversion Hl as [|i d l Hd Hl' E1]; subst.
  apply safe_bind; [eapply (deref_safe (with_current (Some h) st)); exact Hd|].
  intros c s1 _. apply set_readyq_safe.
Qed.

Lemma choose_proc_safe st L : laid_out st L -> pointer_safe (choose_proc st).
Proof.
  intros HL. unfold choose_proc. cbn [fold_right].
  change 0 with (Z.of_nat 0). change 1 with (Z.of_nat 1). change 2 with (Z.of_nat 2).
  apply (take_head_safe st L 0); [exact HL|lia|].
  apply (take_head_safe st L 1); [exact HL|lia|].
  apply (take_head_safe st L 2); [exact HL|lia|].
  exact I.
Qed.

Lemma enqueue_safe st L c dc r dr :
  laid_out st L -> os_current st = Some c -> os_ptable st !! c = Some dc ->
  (forall pl, c ∉ L pl) -> os_ptable st !! r = Some dr ->
  pointer_safe (enqueue (Some r) st).
Proof.
  intros HLT Hc Hdc Hno Hr. unfold enqueue.
  apply safe_bind; [exact I|]. intros cur s Hcur.
  apply current_inv in Hcur as (-> & ->). rewrite Hc.
  apply safe_bind; [eapply update_safe; eauto|]. intros [] st1 H1.
  apply update_inv in H1 as (i & d & [= <-] & Hd & ->).
  assert (d = dc) by congruence. subst d. clear Hd.
  set (st1 := with_ptable _ st).
  assert (HL1 : laid_out st1 L).
  { apply (laid_out_update st L c dc _ HLT Hdc); [reflexivity|now right]. }
  assert (Hr1 : exists dr1, os_ptable st1 !! r = Some dr1).
  { apply lookup_lt_is_Some_2. cbn. rewrite length_insert.
    eapply lookup_lt_Some; eauto. }
  destruct Hr1 as (dr1 & Hr1).
  apply safe_bind; [eapply deref_safe; eauto|]. intros d s Hd.
  apply deref_inv in Hd as (-> & i & [= <-] & Hd).
  assert (d = dr1) by congruence. subst d. clear Hd.
  destruct (p_waiting dr1) as [h|] eqn:Hw; [|eapply update_safe; eauto].
  apply safe_bind; [exact I|]. intros s0 s Hget. apply get_inv in Hget as (-> & ->).
  destruct HL1 as [HL1 _].
  pose proof (lk_senders _ _ HL1 r dr1 Hr1) as Hl. rewrite Hw in Hl.
  assert (Hne : L (Sender r) <> []) by (intros E; rewrite E in Hl; inversion Hl).
  destruct (last_snoc_inv _ Hne) as (l' & t & El & Hlast).
  rewrite El in Hl.
  assert (Hfind := last_sender_finds (length (os_ptable st1)) st1 (Some h) l' t Hl
                     ltac:(eapply lseg_length; eauto)).
  apply safe_bind; [now rewrite Hfind|]. intros t' s Ht'.
  rewrite Hfind in Ht'. injection Ht' as <- <-.
  assert (Ht : t ∈ L (Sender r)).
  { rewrite El, elem_of_app, list_elem_of_singleton. auto. }
  destruct (lk_fits _ _ HL1 t _ Ht) as (dt & Hdt & _).
  eapply update_safe; eauto.
Qed.

Lemma bad_dest_safe dest p st :
  ptable_entry dest st = Ok p st -> pointer_safe (bad_dest dest p st).
Proof.
  intros H. unfold ptable_entry in H.
  destruct ((0 <=? dest) && (dest <? NPROCS)) eqn:E; [|discriminate].
  injection H as <-. apply andb_true_iff in E as [E1 _]. apply Z.leb_le in E1.
  unfold bad_dest. apply safe_bind; [exact I|]. intros s s1 Hget.
  apply get_inv in Hget as (-> & ->).
  destruct ((dest <? 0) || (dest >=? os_nprocs st)) eqn:E2; [exact I|].
  apply orb_false_iff in E2 as [_ E2].
  assert (Hlt : dest < os_nprocs st).
  { rewrite Z.geb_leb in E2. apply Z.leb_gt in E2. exact E2. }
  assert (E3 : (dest <? os_nprocs st) = true) by now apply Z.ltb_lt.
  rewrite E3.
  destruct (lookup_lt_is_Some_2 (os_ptable st) (Z.to_nat dest)) as [d Hd].
  { unfold os_nprocs in Hlt. lia. }
  apply safe_bind; [eapply deref_safe; eauto|]. intros; exact I.
Qed.

Lemma bad_dest_false dest p st st' :
  bad_dest dest p st = Ok false st' ->
  exists r dr, p = Some r /\ os_ptable st !! r = Some dr.
Proof.
  unfold bad_dest. intros H.
  kstep H as s s1 Hget. apply get_inv in Hget as (-> & ->).
  destruct ((dest <? 0) || (dest >=? os_nprocs st)).
  - apply ret_inv in H as (E & _). discriminate E.
  - kstep H as d s1 Hd. apply deref_inv in Hd as (-> & i & -> & Hd). eauto.
Qed.

(** The walk of [mini_receive], when the first waiting sender matches the
    filter or none does. *)
Lemma take_sender_safe st L c dc type msg :
  laid_out st L -> running_ok st L -> idle_ok st ->
  os_current st = Some c -> os_ptable st !! c = Some dc ->
  (exists s t ds, L (Sender c) = s :: t /\ os_ptable st !! s = Some ds /\
                  (type =? ANY) || (p_msgtype ds =? type) = true) \/
  (forall x dx, x ∈ L (Sender c) -> os_ptable st !! x = Some dx ->
                (type =? ANY) || (p_msgtype dx =? type) = false) ->
  pointer_safe
    (take_sender (S (length (os_ptable st))) type msg (p_waiting dc) None st).
Proof.
  intros HLT Hrun Hidle Hc Hdc Hcase. pose proof HLT as [HL HT].
  pose proof (lk_senders _ _ HL c dc Hdc) as Hl.
  destruct Hcase as [(s & t & ds & El & Hs & Hm)|Hnone].
  - rewrite El in Hl.
    assert (Hw : p_waiting dc = Some s).
    { inversion Hl; subst; congruence. }
    rewrite Hw. cbn [take_sender].
    apply safe_bind; [eapply deref_safe; eauto|]. intros ds' s1 Hd.
    apply deref_inv in Hd as (-> & i & [= <-] & Hd).
    assert (ds' = ds) by congruence. subst ds'. clear Hd.
    rewrite Hm.
    apply safe_bind; [exact I|]. intros cur s1 Hcur.
    apply current_inv in Hcur as (-> & ->). rewrite Hc.
    apply safe_bind; [eapply update_safe; eauto|]. intros [] s1 Hupd.
    apply update_inv in Hupd as (i & d & [= <-] & Hd & ->).
    assert (d = dc) by congruence. subst d. clear Hd.
    destruct (linked_pop_sender st L c dc s ds HL Hdc Hw Hs)
      as (t' & El' & HL1 & Hno & Hst).
    set (L1 := put (Sender c) t' L) in *.
    set (st1 := with_ptable (<[c := set_p_waiting (p_next ds) dc]> (os_ptable st)) st) in *.
    assert (Hsc : s <> c).
    { intros ->. destruct (Hrun c Hc) as (_ & _ & _ & Hn).
      apply (Hn (Sender c)). rewrite El. apply list_elem_of_here. }
    assert (HLT1 : laid_out st1 L1).
    { split; [exact HL1|]. apply tails_sender. now apply tails_ptable. }
    assert (Hs1 : os_ptable st1 !! s = Some ds).
    { cbn. rewrite list_lookup_insert_ne by auto. exact Hs. }
    apply safe_bind; [apply deliver_safe|]. intros u2 s2 Hdel.
    apply deliver_inv in Hdel as (Ep & Eq & Ec & Ei).
    assert (HLT2 : laid_out s2 L1) by (eapply laid_out_ext; eauto).
    assert (Hs2 : os_ptable s2 !! s = Some ds) by (rewrite Ep; exact Hs1).
    apply safe_bind; [|intros; exact I].
    destruct (pstate_eqb (p_state ds) SENDING).
    + eapply make_ready_safe; eauto.
    + apply safe_bind.
      * unfold assert. destruct (pstate_eqb (p_state ds) SENDREC); exact I.
      * intros u3 s3 Hassert.
        assert (s3 = s2).
        { unfold assert in Hassert. destruct (pstate_eqb (p_state ds) SENDREC).
          - now apply ret_inv in Hassert as (_ & ->).
          - discriminate. }
        subst s3. eapply set_state_safe; eauto.
  - rewrite (take_sender_none _ st type msg (p_waiting dc) None _ Hl Hnone); [exact I|].
    pose proof (lseg_length _ _ _ Hl). lia.
Qed.

Lemma mini_send_safe st L c dest type msg :
  laid_out st L -> running_ok st L -> idle_ok st ->
  os_current st = Some c -> idle_proc st <> Some c ->
  pointer_safe (mini_send dest type msg st).
Proof.
  intros HLT Hrun Hidle Hc Hni. unfold mini_send.
  destruct (Hrun c Hc) as (dc & Hdc & Hsc & Hno).
  apply safe_bind; [exact I|]. intros cur s1 Hcur.
  apply current_inv in Hcur as (-> & ->). rewrite Hc.
  apply safe_bind; [eapply deref_safe; eauto|]. intros d s1 Hd.
  apply deref_inv in Hd as (-> & i & [= <-] & Hd).
  assert (d = dc) by congruence. subst d. clear Hd.
  apply safe_bind; [apply ptable_entry_safe|]. intros pdest s1 Hpd.
  pose proof Hpd as Hpd'. apply ptable_entry_inv in Hpd' as (-> & _).
  apply safe_bind; [now apply bad_dest_safe|]. intros bad s1 Hbad.
  pose proof Hbad as Hbad'. apply bad_dest_inv in Hbad' as ->.
  destruct bad; [exact I|].
  apply bad_dest_false in Hbad as (r & dr & -> & Hr).
  apply safe_bind; [eapply accept_safe; eauto|]. intros ok s1 Hacc.
  apply accept_inv in Hacc as (-> & r' & dr' & [= <-] & Hr' & Hrecv).
  assert (dr' = dr) by congruence. subst dr'. clear Hr'.
  destruct ok.
  - apply safe_bind; [eapply deref_safe; eauto|]. intros d s1 Hd.
    apply deref_inv in Hd as (-> & _).
    apply safe_bind; [apply deliver_safe|]. intros u s1 Hdel.
    apply deliver_inv in Hdel as (Ep & Eq & Ec & Ei).
    eapply (make_ready_safe s1 L r dr).
    + eapply laid_out_ext; eauto.
    + rewrite Ep. exact Hr.
    + eapply state_nowhere; eauto.
  - apply safe_bind; [eapply set_state_safe; eauto|]. intros u s1 Hset.
    apply set_state_inv in Hset as (i & d & [= <-] & Hd & ->).
    assert (d = dc) by congruence. subst d. clear Hd.
    set (dc1 := set_p_message msg (set_p_msgtype type (set_p_state SENDING dc))) in *.
    set (st1 := with_ptable (<[c := dc1]> (os_ptable st)) st) in *.
    assert (HL1 : laid_out st1 L).
    { apply (laid_out_update st L c dc dc1 HLT Hdc); [reflexivity|now right]. }
    assert (Hidle1 : idle_ok st1) by now apply idle_ok_other.
    assert (Hc1 : os_ptable st1 !! c = Some dc1).
    { cbn. apply list_lookup_insert_eq. eapply lookup_lt_Some; eauto. }
    assert (Hr1 : exists dr1, os_ptable st1 !! r = Some dr1).
    { apply lookup_lt_is_Some_2. cbn. rewrite length_insert.
      eapply lookup_lt_Some; eauto. }
    destruct Hr1 as (dr1 & Hr1).
    apply safe_bind; [eapply (enqueue_safe st1 L c dc1 r dr1); eauto|].
    intros u2 s2 Henq.
    destruct (enqueue_layout st1 L c dc1 r u2 s2 HL1 Hidle1 Hc Hc1
                (or_introl eq_refl) Hno Henq) as (HL2 & _).
    eapply choose_proc_safe; eauto.
Qed.

Lemma mini_sendrec_safe st L c dest type msg :
  laid_out st L -> running_ok st L -> idle_ok st ->
  os_current st = Some c -> idle_proc st <> Some c ->
  pointer_safe (mini_sendrec dest type msg st).
Proof.
  intros HLT Hrun Hidle Hc Hni. unfold mini_sendrec.
  destruct (Hrun c Hc) as (dc & Hdc & Hsc & Hno).
  apply safe_bind; [exact I|]. intros cur s1 Hcur.
  apply current_inv in Hcur as (-> & ->). rewrite Hc.
  apply safe_bind; [eapply deref_safe; eauto|]. intros d s1 Hd.
  apply deref_inv in Hd as (-> & i & [= <-] & Hd).
  assert (d = dc) by congruence. subst d. clear Hd.
  apply safe_bind; [apply ptable_entry_safe|]. intros pdest s1 Hpd.
  pose proof Hpd as Hpd'. apply ptable_entry_inv in Hpd' as (-> & _).
  apply safe_bind; [now apply bad_dest_safe|]. intros bad s1 Hbad.
  pose proof Hbad as Hbad'. apply bad_dest_inv in Hbad' as ->.
  destruct bad; [exact I|].
  apply bad_dest_false in Hbad as (r & dr & -> & Hr).
  apply safe_bind; [eapply accept_safe; eauto|]. intros ok s1 Hacc.
  apply accept_inv in Hacc as (-> & r' & dr' & [= <-] & Hr' & Hrecv).
  assert (dr' = dr) by congruence. subst dr'. clear Hr'.
  apply safe_bind.
  - destruct ok.
    + apply safe_bind; [eapply deref_safe; eauto|]. intros d s1 Hd.
      apply deref_inv in Hd as (-> & _).
      apply safe_bind; [apply deliver_safe|]. intros u s1 Hdel.
      apply deliver_inv in Hdel as (Ep & Eq & Ec & Ei).
      destruct (in_order_ext st s1 L HLT Hrun Hidle Ep Eq Ec Ei)
        as (HL1 & Hrun1 & Hidle1).
      assert (Hr1 : os_ptable s1 !! r = Some dr) by (rewrite Ep; exact Hr).
      apply safe_bind.
      * eapply (make_ready_safe s1 L r dr); eauto. eapply state_nowhere; eauto.
      * intros u2 s2 Hwake.
        destruct (wake_keeps s1 L r dr _ u2 s2 HL1 Hrun1 Hidle1 Hr1
                    (Hrecv eq_refl) Hwake)
          as (L' & H1 & H2 & H3 & Ec2 & Ei2 & _).
        assert (Hc2 : os_current s2 = Some c) by congruence.
        destruct (H2 c Hc2) as (d2 & Hd2 & _).
        eapply set_state_safe; eauto.
    + apply safe_bind; [eapply set_state_safe; eauto|]. intros u s1 Hset.
      apply set_state_inv in Hset as (i & d & [= <-] & Hd & ->).
      assert (d = dc) by congruence. subst d. clear Hd.
      set (dc1 := set_p_message msg (set_p_msgtype type (set_p_state SENDREC dc))) in *.
      set (st1 := with_ptable (<[c := dc1]> (os_ptable st)) st) in *.
      assert (HL1 : laid_out st1 L).
      { apply (laid_out_update st L c dc dc1 HLT Hdc); [reflexivity|now right]. }
      assert (Hc1 : os_ptable st1 !! c = Some dc1).
      { cbn. apply list_lookup_insert_eq. eapply lookup_lt_Some; eauto. }
      assert (Hr1 : exists dr1, os_ptable st1 !! r = Some dr1).
      { apply lookup_lt_is_Some_2. cbn. rewrite length_insert.
        eapply lookup_lt_Some; eauto. }
      destruct Hr1 as (dr1 & Hr1).
      eapply (enqueue_safe st1 L c dc1 r dr1); eauto.
  - intros u0 s0 Hbody.
    (* the lists are in order before [choose_proc] *)
    assert (Hlaid : exists L', laid_out s0 L').
    { destruct ok.
      - kstep Hbody as d s1 Hd. apply deref_inv in Hd as (-> & _).
        kstep Hbody as u s1 Hdel. apply deliver_inv in Hdel as (Ep & Eq & Ec & Ei).
        destruct (in_order_ext st s1 L HLT Hrun Hidle Ep Eq Ec Ei)
          as (HL1 & Hrun1 & Hidle1).
        assert (Hr1 : os_ptable s1 !! r = Some dr) by (rewrite Ep; exact Hr).
        kstep Hbody as u2 s2 Hwake.
        destruct (wake_keeps s1 L r dr _ u2 s2 HL1 Hrun1 Hidle1 Hr1
                    (Hrecv eq_refl) Hwake)
          as (L' & H1 & H2 & H3 & Ec2 & Ei2 & _).
        apply set_state_inv in Hbody as (i & d0 & [= <-] & Hd0 & ->).
        assert (Hc2 : os_current s2 = Some c) by congruence.
        destruct (H2 c Hc2) as (d2 & Hd2 & _ & Hno2).
        exists L'. apply (laid_out_update s2 L' c d2 _ H1 Hd2); [|now right].
        assert (d0 = d2) by congruence. subst d0. reflexivity.
      - kstep Hbody as u s1 Hset.
        apply set_state_inv in Hset as (i & d & [= <-] & Hd & ->).
        assert (d = dc) by congruence. subst d. clear Hd.
        set (dc1 := set_p_message msg (set_p_msgtype type (set_p_state SENDREC dc))) in *.
        set (st1 := with_ptable (<[c := dc1]> (os_ptable st)) st) in *.
        assert (HL1 : laid_out st1 L).
        { apply (laid_out_update st L c dc dc1 HLT Hdc); [reflexivity|now right]. }
        assert (Hidle1 : idle_ok st1) by now apply idle_ok_other.
        assert (Hc1 : os_ptable st1 !! c = Some dc1).
        { cbn. apply list_lookup_insert_eq. eapply lookup_lt_Some; eauto. }
        destruct (enqueue_layout st1 L c dc1 r u0 s0 HL1 Hidle1 Hc Hc1
                    (or_intror eq_refl) Hno Hbody) as (HL2 & _).
        eauto. }
    destruct Hlaid as (L' & HL'). eapply choose_proc_safe; eauto.
Qed.

Lemma mini_receive_safe st L c dc type msg :
  laid_out st L -> running_ok st L -> idle_ok st ->
  os_current st = Some c -> os_ptable st !! c = Some dc ->
  idle_proc st <> Some c ->
  (p_pending dc && ((type =? ANY) || (type =? INTERRUPT)) = false ->
   (type =? INTERRUPT) = false ->
   (exists s t ds, L (Sender c) = s :: t /\ os_ptable st !! s = Some ds /\
                   (type =? ANY) || (p_msgtype ds =? type) = true) \/
   (forall x dx, x ∈ L (Sender c) -> os_ptable st !! x = Some dx ->
                 (type =? ANY) || (p_msgtype dx =? type) = false)) ->
  pointer_safe (mini_receive type msg st).
Proof.
  intros HLT Hrun Hidle Hc Hdc Hni Hhead. unfold mini_receive.
  destruct (Hrun c Hc) as (dc0 & Hdc0 & Hsc & Hno).
  apply safe_bind; [exact I|]. intros cur s1 Hcur.
  apply current_inv in Hcur as (-> & ->). rewrite Hc.
  apply safe_bind; [eapply deref_safe; eauto|]. intros d s1 Hd.
  apply deref_inv in Hd as (-> & i & [= <-] & Hd).
  assert (d = dc) by congruence. subst d. clear Hd.
  destruct (p_pending dc && ((type =? ANY) || (type =? INTERRUPT))) eqn:Epend.
  - apply safe_bind; [eapply update_safe; eauto|]. intros; apply deliver_safe.
  - apply safe_bind.
    + destruct (type =? INTERRUPT) eqn:Eint; cbn [negb]; [exact I|].
      apply safe_bind; [exact I|]. intros s s2 Hget.
      apply get_inv in Hget as (-> & ->).
      apply (take_sender_safe st L c dc type msg HLT Hrun Hidle Hc Hdc
               (Hhead eq_refl eq_refl)).
    + intros taken s1 Htake.
      assert (Htaken : (taken = false /\ s1 = st) \/ taken = true).
      { destruct (type =? INTERRUPT) eqn:Eint; cbn [negb] in Htake.
        - left. now apply ret_inv in Htake.
        - kstep Htake as s s2 Hget. apply get_inv in Hget as (-> & ->).
          destruct (take_sender_layout st L c dc type msg taken s1 HLT Hrun Hidle
                      Hc Hdc (Hhead eq_refl eq_refl) Htake) as [?|[? _]]; auto. }
      destruct Htaken as [[-> ->]| ->]; [|exact I].
      apply safe_bind; [eapply set_state_safe; eauto|]. intros u s1 Hset.
      apply set_state_inv in Hset as (i & d & [= <-] & Hd & ->).
      assert (d = dc) by congruence. subst d. clear Hd.
      apply (choose_proc_safe _ L).
      apply (laid_out_update st L c dc _ HLT Hdc); [reflexivity|now right].
Qed.

(** Yield, and the context switch after an interrupt. *)
Lemma resched_safe st L c :
  laid_out st L -> running_ok st L -> idle_ok st -> os_current st = Some c ->
  pointer_safe
    ((d <- deref (Some c) ;; make_ready (Some c) (p_priority d) ;; choose_proc) st).
Proof.
  intros HLT Hrun Hidle Hc.
  destruct (Hrun c Hc) as (dc & Hdc & _ & Hno).
  apply safe_bind; [eapply deref_safe; eauto|]. intros d s1 Hd.
  apply deref_inv in Hd as (-> & i & [= <-] & Hd).
  assert (d = dc) by congruence. subst d. clear Hd.
  apply safe_bind; [eapply make_ready_safe; eauto|]. intros u s1 Hready.
  assert (Hprio : idle_proc st = Some c -> p_priority dc = 3).
  { intros Hi. destruct (Hidle c Hi) as (d & Hd & _ & Hp). congruence. }
  destruct (make_ready_keeps st L c dc _ u s1 HLT Hidle Hdc Hno Hprio Hready)
    as (L' & HL' & _).
  eapply choose_proc_safe; eauto.
Qed.

(** Once the scheduler has been started, it stays started. *)
Lemma sched_update st i d f :
  keeps_identity f -> scheduling st -> os_ptable st !! i = Some d ->
  scheduling (with_ptable (<[i := f d]> (os_ptable st)) st).
Proof. intros _ H _. exact H. Qed.

Lemma sched_readyq st k q :
  scheduling st -> scheduling (with_readyq (<[k := q]> (os_readyq st)) st).
Proof. intros H. exact H. Qed.

Lemma sched_msgmem st v : scheduling st -> scheduling (with_msgmem v st).
Proof. intros H. exact H. Qed.

Lemma take_head_sched p rest st a st' :
  take_head p rest st = Ok a st' -> idle_proc st <> None ->
  (rest st = Ok a st' -> scheduling st') -> scheduling st'.
Proof.
  intros H Hi Hrest. unfold take_head in H.
  kstep H as q s Hq. apply readyq_inv in Hq as (-> & k & -> & Hk & Hq).
  destruct (q_head q) as [h|] eqn:Hh; [|now apply Hrest].
  kstep H as u s Hm. apply modify_inv in Hm. subst s.
  kstep H as d s Hd. apply deref_inv in Hd as (-> & _).
  apply set_readyq_inv in H as (k' & q1 & _ & _ & _ & ->).
  split; [cbn; discriminate|exact Hi].
Qed.

Lemma sched_choose_proc : keeps scheduling choose_proc.
Proof.
  intros st a st' H [_ Hi]. unfold choose_proc in H. cbn [fold_right] in H.
  apply (take_head_sched _ _ _ _ _ H Hi). clear H. intros H.
  apply (take_head_sched _ _ _ _ _ H Hi). clear H. intros H.
  apply (take_head_sched _ _ _ _ _ H Hi). clear H. intros H.
  kstep H as s s1 Hget. apply get_inv in Hget as (-> & ->).
  apply modify_inv in H. subst st'. split; [exact Hi|exact Hi].
Qed.

Ltac sched_split :=
  repeat first
    [ keeps_step
    | apply sched_choose_proc
    | apply frame_bad_dest
    | apply frame_accept
    | apply (frame_deliver scheduling sched_msgmem)
    | apply (frame_make_ready scheduling sched_update sched_readyq)
    | apply (frame_set_state scheduling sched_update)
    | apply (frame_enqueue scheduling sched_update)
    | apply (frame_take_sender scheduling sched_update sched_readyq sched_msgmem)
    | (apply (frame_update scheduling sched_update); intros ?; repeat split) ].

Lemma sched_mini_send dest type msg : keeps scheduling (mini_send dest type msg).
Proof. unfold mini_send. sched_split. Qed.

Lemma sched_mini_sendrec dest type msg :
  keeps scheduling (mini_sendrec dest type msg).
Proof. unfold mini_sendrec. sched_split. Qed.

Lemma sched_mini_receive type msg : keeps scheduling (mini_receive type msg).
Proof. unfold mini_receive. sched_split. Qed.

Lemma sched_resched c :
  keeps scheduling
    (d <- deref (Some c) ;; make_ready (Some c) (p_priority d) ;; choose_proc).
Proof. sched_split. Qed.

(** The return from a kernel entry: the stack pointer of the process that
    runs next is read. *)
Lemma epilogue_safe s :
  lists_in_order s -> scheduling s ->
  pointer_safe ((cur' <- current ;; c' <- deref cur' ;; ret (p_sp c')) s).
Proof.
  intros (L & _ & Hrun & _) [Hc _].
  destruct (os_current s) as [c|] eqn:E; [|contradiction].
  destruct (Hrun c E) as (d & Hd & _).
  apply safe_bind; [exact I|]. intros cur s1 Hcur.
  apply current_inv in Hcur as (-> & ->). rewrite E.
  apply safe_bind; [eapply deref_safe; eauto|]. intros; exact I.
Qed.

Lemma system_call_safe st L c dc psp insn r0 r1 r2 :
  laid_out st L -> running_ok st L -> idle_ok st -> scheduling st ->
  os_current st = Some c -> os_ptable st !! c = Some dc ->
  (Z.land insn 0xff = SYS_SEND \/ Z.land insn 0xff = SYS_RECEIVE \/
   Z.land insn 0xff = SYS_SENDREC \/ Z.land insn 0xff = SYS_EXIT ->
   idle_proc st <> Some c) ->
  (Z.land insn 0xff = SYS_RECEIVE ->
   p_pending dc && ((r0 =? ANY) || (r0 =? INTERRUPT)) = false ->
   (r0 =? INTERRUPT) = false ->
   (exists s t ds, L (Sender c) = s :: t /\ os_ptable st !! s = Some ds /\
                   (r0 =? ANY) || (p_msgtype ds =? r0) = true) \/
   (forall x dx, x ∈ L (Sender c) -> os_ptable st !! x = Some dx ->
                 (r0 =? ANY) || (p_msgtype dx =? r0) = false)) ->
  pointer_safe (system_call psp insn r0 r1 r2 st).
Proof.
  intros HLT Hrun Hidle Hsched Hc Hdc Hni Hhead. unfold system_call. cbv zeta.
  destruct (Hrun c Hc) as (dc0 & Hdc0 & Hsc & Hno).
  apply safe_bind; [exact I|]. intros cur s1 Hcur.
  apply current_inv in Hcur as (-> & ->). rewrite Hc.
  apply safe_bind; [eapply update_safe; eauto|]. intros [] s1 Hupd.
  apply update_inv in Hupd as (i & d & [= <-] & Hd & ->).
  assert (d = dc) by congruence. subst d. clear Hd.
  set (dc1 := set_p_sp psp dc) in *.
  set (st1 := with_ptable (<[c := dc1]> (os_ptable st)) st) in *.
  assert (HL1 : laid_out st1 L).
  { apply (laid_out_update st L c dc _ HLT Hdc); [reflexivity|now left]. }
  assert (Hrun1 : running_ok st1 L).
  { apply (running_ok_update st L c dc _ Hrun Hdc). reflexivity. }
  assert (Hidle1 : idle_ok st1).
  { apply (idle_ok_update st c dc _ Hidle Hdc); reflexivity. }
  assert (Hsched1 : scheduling st1) by exact Hsched.
  assert (Hc1 : os_ptable st1 !! c = Some dc1).
  { cbn. apply list_lookup_insert_eq. eapply lookup_lt_Some; eauto. }
  assert (Hother : forall x, x <> c -> os_ptable st1 !! x = os_ptable st !! x).
  { intros x Hx. cbn. now rewrite list_lookup_insert_ne by auto. }
  assert (Hhead1 : Z.land insn 255 = SYS_RECEIVE ->
    p_pending dc1 && ((r0 =? ANY) || (r0 =? INTERRUPT)) = false ->
    (r0 =? INTERRUPT) = false ->
    (exists s t ds, L (Sender c) = s :: t /\ os_ptable st1 !! s = Some ds /\
                    (r0 =? ANY) || (p_msgtype ds =? r0) = true) \/
    (forall x dx, x ∈ L (Sender c) -> os_ptable st1 !! x = Some dx ->
                  (r0 =? ANY) || (p_msgtype dx =? r0) = false)).
  { intros E2 Hp Hint.
    destruct (Hhead E2 Hp Hint) as [(s & t & ds & El & Hs & Hm)|Hnone].
    - left. exists s, t, ds. split; [exact El|]. split; [|exact Hm].
      rewrite Hother; [exact Hs|]. intros ->. apply (Hno (Sender c)).
      rewrite El. apply list_elem_of_here.
    - right. intros x dx Hx Hdx. apply (Hnone x dx Hx).
      rewrite <- Hother; [exact Hdx|]. intros ->. eapply Hno; eauto. }
  assert (Hend : forall s2, lists_in_order s2 -> scheduling s2 ->
            pointer_safe ((cur' <- current ;; c' <- deref cur' ;; ret (p_sp c')) s2))
    by (intros; now apply epilogue_safe).
  destruct (Z.land insn 255 =? SYS_YIELD) eqn:E0.
  { apply safe_bind; [eapply resched_safe; eauto|]. intros u s2 Hbody.
    apply Hend.
    - eapply follows_in_order, (resched_layout st1 L c); eauto.
    - eapply (sched_resched c); eauto. }
  destruct (Z.land insn 255 =? SYS_SEND) eqn:E1.
  { apply Z.eqb_eq in E1.
    assert (Hn : idle_proc st1 <> Some c) by (apply Hni; auto).
    apply safe_bind; [eapply mini_send_safe; eauto|]. intros u s2 Hbody.
    apply Hend.
    - eapply follows_in_order, (mini_send_layout st1 L c); eauto.
    - eapply sched_mini_send; eauto. }
  destruct (Z.land insn 255 =? SYS_RECEIVE) eqn:E2.
  { apply Z.eqb_eq in E2.
    assert (Hn : idle_proc st1 <> Some c) by (apply Hni; auto).
    apply safe_bind; [eapply (mini_receive_safe st1 L c dc1); eauto|].
    intros u s2 Hbody. apply Hend.
    - eapply follows_in_order, (mini_receive_layout st1 L c dc1); eauto.
    - eapply sched_mini_receive; eauto. }
  destruct (Z.land insn 255 =? SYS_SENDREC) eqn:E3.
  { apply Z.eqb_eq in E3.
    assert (Hn : idle_proc st1 <> Some c) by (apply Hni; auto).
    apply safe_bind; [eapply mini_sendrec_safe; eauto|]. intros u s2 Hbody.
    apply Hend.
    - eapply follows_in_order, (mini_sendrec_layout st1 L c); eauto.
    - eapply sched_mini_sendrec; eauto. }
  destruct (Z.land insn 255 =? SYS_EXIT) eqn:E4.
  { apply Z.eqb_eq in E4.
    assert (Hn : idle_proc st1 <> Some c) by (apply Hni; auto).
    apply safe_bind.
    - apply safe_bind; [eapply update_safe; eauto|]. intros [] s2 Hdead.
      apply update_inv in Hdead as (i & d & [= <-] & Hd & ->).
      assert (d = dc1) by congruence. subst d. clear Hd.
      apply (choose_proc_safe _ L).
      apply (laid_out_update st1 L c dc1 _ HL1 Hc1); [reflexivity|now right].
    - intros u s2 Hbody. apply Hend.
      + kstep Hbody as u3 s3 Hdead. destruct u3.
        apply update_inv in Hdead as (i & d & [= <-] & Hd & ->).
        assert (d = dc1) by congruence. subst d. clear Hd.
        destruct (block_layout st1 L c dc1 (set_p_state DEAD dc1) u s2
                    HL1 Hidle1 Hc1 Hno Hn eq_refl Hc Hbody)
          as (L' & G1 & G2 & G3 & _).
        exists L'. auto.
      + kstep Hbody as u3 s3 Hdead. destruct u3.
        apply update_inv in Hdead as (i & d & [= <-] & Hd & ->).
        eapply sched_choose_proc; [exact Hbody|exact Hsched1]. }
  destruct (Z.land insn 255 =? SYS_DUMP) eqn:E5.
  { apply safe_bind; [exact I|]. intros u s2 Hbody.
    apply ret_inv in Hbody as (_ & ->). apply Hend; [|exact Hsched1].
    exists L. auto. }
  exact I.
Qed.

Lemma cxt_switch_safe st psp :
  lists_in_order st -> scheduling st -> pointer_safe (cxt_switch psp st).
Proof.
  intros (L & HLT & Hrun & Hidle) Hsched. unfold cxt_switch.
  destruct (os_current st) as [c|] eqn:Hc; [|now destruct Hsched].
  destruct (Hrun c Hc) as (dc & Hdc & Hsc & Hno).
  apply safe_bind; [exact I|]. intros cur s1 Hcur.
  apply current_inv in Hcur as (-> & ->). rewrite Hc.
  apply safe_bind; [eapply update_safe; eauto|]. intros [] s1 Hupd.
  apply update_inv in Hupd as (i & d & [= <-] & Hd & ->).
  assert (d = dc) by congruence. subst d. clear Hd.
  set (dc1 := set_p_sp psp dc) in *.
  set (st1 := with_ptable (<[c := dc1]> (os_ptable st)) st) in *.
  assert (HL1 : laid_out st1 L).
  { apply (laid_out_update st L c dc _ HLT Hdc); [reflexivity|now left]. }
  assert (Hrun1 : running_ok st1 L).
  { apply (running_ok_update st L c dc _ Hrun Hdc). reflexivity. }
  assert (Hidle1 : idle_ok st1).
  { apply (idle_ok_update st c dc _ Hidle Hdc); reflexivity. }
  assert (Hsched1 : scheduling st1) by exact Hsched.
  assert (Hc1 : os_ptable st1 !! c = Some dc1).
  { cbn. apply list_lookup_insert_eq. eapply lookup_lt_Some; eauto. }
  destruct (Hrun1 c Hc) as (d1 & Hd1 & _ & Hno1).
  assert (d1 = dc1) by congruence. subst d1. clear Hd1.
  apply safe_bind; [eapply deref_safe; eauto|]. intros d s1 Hd.
  apply deref_inv in Hd as (-> & i & [= <-] & Hd).
  assert (d = dc1) by congruence. subst d. clear Hd.
  apply safe_bind; [eapply make_ready_safe; eauto|]. intros u s1 Hready.
  assert (Hprio : idle_proc st1 = Some c -> p_priority dc1 = 3).
  { intros Hi. destruct (Hidle1 c Hi) as (d & Hd & _ & Hp). congruence. }
  destruct (make_ready_keeps st1 L c dc1 _ u s1 HL1 Hidle1 Hc1 Hno1 Hprio Hready)
    as (L' & HL' & Hidle' & Ec & Ei & _).
  apply safe_bind; [eapply choose_proc_safe; eauto|]. intros u2 s2 Hchoose.
  apply epilogue_safe.
  - destruct (choose_proc_layout s1 L' u2 s2 HL' Hidle' Hchoose)
      as (L2 & G1 & G2 & G3 & _).
    exists L2. auto.
  - eapply sched_choose_proc; [exact Hchoose|].
    destruct Hsched1 as [H1 H2]. split; congruence.
Qed.

Lemma interrupt_safe st dest :
  lists_in_order st -> scheduling st -> 0 <= dest < os_nprocs st ->
  pointer_safe (interrupt dest st).
Proof.
  intros (L & HLT & Hrun & Hidle) Hsched Hdest. unfold interrupt.
  destruct (os_current st) as [c|] eqn:Hc; [|now destruct Hsched].
  destruct (lookup_lt_is_Some_2 (os_ptable st) (Z.to_nat dest)) as [dr Hr].
  { unfold os_nprocs in Hdest. lia. }
  apply safe_bind; [apply ptable_entry_safe|]. intros pdest s1 Hpd.
  assert (pdest = Some (Z.to_nat dest) /\ s1 = st) as [-> ->].
  { unfold ptable_entry in Hpd.
    destruct ((0 <=? dest) && (dest <? NPROCS)); [|discriminate].
    assert (E : (dest <? os_nprocs st) = true) by (apply Z.ltb_lt; lia).
    rewrite E in Hpd. injection Hpd as <- <-. auto. }
  set (r := Z.to_nat dest) in *.
  apply safe_bind; [eapply accept_safe; eauto|]. intros ok s1 Hacc.
  apply accept_inv in Hacc as (-> & r' & dr' & [= <-] & Hr' & Hrecv).
  assert (dr' = dr) by congruence. subst dr'. clear Hr'.
  destruct ok; [|eapply update_safe; eauto].
  apply safe_bind; [eapply deref_safe; eauto|]. intros d s1 Hd.
  apply deref_inv in Hd as (-> & _).
  apply safe_bind; [apply deliver_safe|]. intros u s1 Hdel.
  apply deliver_inv in Hdel as (Ep & Eq & Ec & Ei).
  destruct (in_order_ext st s1 L HLT Hrun Hidle Ep Eq Ec Ei) as (HL1 & Hrun1 & Hidle1).
  assert (Hr1 : os_ptable s1 !! r = Some dr) by (rewrite Ep; exact Hr).
  apply safe_bind.
  { eapply (make_ready_safe s1 L r dr); eauto. eapply state_nowhere; eauto. }
  intros u2 s2 Hwake.
  destruct (wake_keeps s1 L r dr _ u2 s2 HL1 Hrun1 Hidle1 Hr1 (Hrecv eq_refl) Hwake)
    as (L' & H1 & H2 & H3 & Ec2 & Ei2 & _).
  assert (Hc2 : os_current s2 = Some c) by congruence.
  destruct (H2 c Hc2) as (d2 & Hd2 & _).
  apply safe_bind; [exact I|]. intros cur s3 Hcur.
  apply current_inv in Hcur as (-> & ->). rewrite Hc2.
  apply safe_bind; [eapply deref_safe; eauto|]. intros dcur s3 _.
  destruct (p_priority dcur >? 0); exact I.
Qed.

Lemma default_handler_safe st irq :
  lists_in_order st -> scheduling st -> table_in_order st ->
  pointer_safe (default_handler irq st).
Proof.
  intros HI Hsched (_ & _ & _ & _ & Hh). unfold default_handler.
  apply safe_bind.
  { destruct (irq <? 0); [exact I|apply handler_entry_safe]. }
  intros task s1 Htask.
  assert (s1 = st /\ (task = 0 \/ 0 < task < os_nprocs st)) as [-> Hrange].
  { destruct (irq <? 0).
    - apply ret_inv in Htask as (-> & ->). auto.
    - apply handler_entry_inv in Htask as (-> & _ & Ht). split; [reflexivity|].
      eapply Hh; eauto. }
  destruct ((irq <? 0) || (task =? 0)) eqn:E; [exact I|].
  apply orb_false_iff in E as [_ E]. apply Z.eqb_neq in E.
  apply safe_bind; [exact I|]. intros u s1 Hirq.
  apply modify_inv in Hirq. subst s1.
  apply interrupt_safe.
  - now apply (lists_in_order_ext st).
  - exact Hsched.
  - change (0 <= task < os_nprocs st). lia.
Qed.

Lemma connect_safe st irq :
  lists_in_order st -> scheduling st -> pointer_safe (connect irq st).
Proof.
  intros (L & HLT & Hrun & Hidle) Hsched. unfold connect.
  destruct (irq <? 0); [exact I|].
  destruct (os_current st) as [c|] eqn:Hc; [|now destruct Hsched].
  destruct (Hrun c Hc) as (dc & Hdc & _).
  apply safe_bind; [exact I|]. intros cur s1 Hcur.
  apply current_inv in Hcur as (-> & ->). rewrite Hc.
  apply safe_bind; [eapply update_safe; eauto|]. intros [] s1 Hupd.
  apply update_inv in Hupd as (i & d & [= <-] & Hd & ->).
  apply safe_bind.
  { eapply deref_safe. cbn. apply list_lookup_insert_eq.
    eapply lookup_lt_Some; eauto. }
  intros d1 s1 _.
  apply safe_bind; [apply handler_entry_safe|]. intros t s2 _.
  apply safe_bind; [exact I|]. intros; exact I.
Qed.

Lemma priority_safe st p :
  lists_in_order st -> scheduling st -> pointer_safe (priority p st).
Proof.
  intros (L & HLT & Hrun & Hidle) Hsched. unfold priority.
  destruct ((p <? 0) || (p >? P_LOW)); [exact I|].
  destruct (os_current st) as [c|] eqn:Hc; [|now destruct Hsched].
  destruct (Hrun c Hc) as (dc & Hdc & _).
  apply safe_bind; [exact I|]. intros cur s1 Hcur.
  apply current_inv in Hcur as (-> & ->). rewrite Hc.
  eapply update_safe; eauto.
Qed.

Lemma init_proc_safe name size st : pointer_safe (init_proc name size st).
Proof.
  unfold init_proc, new_proc, sbrk, bind, get, modify, ret, panic.
  destruct (os_nprocs st >=? NPROCS); [exact I|].
  destruct (as_unsigned (__break2 st - __break st) <? sizeof_proc); [exact I|].
  cbn.
  destruct (as_int size >? __break2 st - sizeof_proc - __break st); exact I.
Qed.

Lemma os_init_safe st : pointer_safe (os_init st).
Proof.
  unfold os_init.
  apply safe_bind; [apply init_proc_safe|]. intros p s1 Hinit.
  apply init_proc_inv in Hinit as (_ & -> & _ & _ & E1).
  apply safe_bind; [exact I|]. intros u s2 Hmod. apply modify_inv in Hmod. subst s2.
  assert (Hd : exists d, os_ptable s1 !! length (os_ptable st) = Some d).
  { rewrite E1. cbn. eexists. now apply list_lookup_middle. }
  destruct Hd as (d & Hd).
  apply safe_bind; [eapply (update_safe (with_idle _ s1)); exact Hd|].
  intros [] s2 Hupd.
  apply update_inv in Hupd as (i & d0 & [= <-] & Hd0 & ->).
  eapply update_safe. cbn. apply list_lookup_insert_eq.
  eapply lookup_lt_Some; eauto.
Qed.

Lemma start_safe st name body arg stksize :
  scheduling st -> pointer_safe (start name body arg stksize st).
Proof.
  intros [Hc _]. unfold start.
  apply safe_bind; [apply init_proc_safe|]. intros p s1 Hinit.
  apply init_proc_inv in Hinit as (_ & -> & _ & _ & E1).
  apply safe_bind; [exact I|]. intros cur s2 Hcur.
  apply current_inv in Hcur as (-> & ->).
  assert (E : os_current s1 = os_current st) by (rewrite E1; reflexivity).
  rewrite E. destruct (os_current st); [exact I|contradiction].
Qed.

Lemma os_start_safe st psp :
  lists_in_order st -> scheduling st -> pointer_safe (os_start psp st).
Proof.
  intros (L & HLT & Hrun & Hidle) [Hc Hi]. unfold os_start.
  destruct (idle_proc st) as [i|] eqn:Ei; [|contradiction].
  destruct (Hidle i Ei) as (di & Hdi & Hs & Hp).
  apply safe_bind; [exact I|]. intros s s1 Hget. apply get_inv in Hget as (-> & ->).
  apply safe_bind; [exact I|]. intros u s1 Hmod. apply modify_inv in Hmod. subst s1.
  rewrite Ei.
  set (st0 := with_current (Some i) st).
  apply safe_bind; [eapply (deref_safe st0); exact Hdi|]. intros d s1 Hd.
  apply deref_inv in Hd as (-> & _).
  apply (system_call_safe st0 L i di psp (svc SYS_YIELD) 0 0 0).
  - eapply laid_out_ext; [exact HLT|reflexivity|reflexivity].
  - intros c Hc'. cbn in Hc'. injection Hc' as <-.
    exists di. split; [exact Hdi|]. split; [now right|].
    eapply idle_nowhere; eauto.
  - eapply idle_ok_ext; [exact Hidle|reflexivity|reflexivity].
  - split; [discriminate|]. cbn. rewrite Ei. discriminate.
  - reflexivity.
  - exact Hdi.
  - intros [E|[E|[E|E]]]; vm_compute in E; discriminate E.
  - intros E. vm_compute in E. discriminate E.
Qed.

(** Every entry within the discipline, made while the scheduler runs,
    keeps to the table. *)
Lemma run_safe st c :
  lists_in_order st -> scheduling st -> table_in_order st ->
  in_discipline c st = true ->
  (forall dest, c = Call_interrupt dest -> 0 <= dest < os_nprocs st) ->
  pointer_safe (run c st).
Proof.
  intros HI Hsched Htab Hd Hdest. destruct c; cbn [run].
  - apply os_init_safe.
  - apply safe_bind; [now apply start_safe|]. intros; exact I.
  - apply safe_bind; [now apply os_start_safe|]. intros; exact I.
  - apply safe_bind; [|intros; exact I].
    destruct HI as (L & HLT & Hrun & Hidle).
    destruct (os_current st) as [c|] eqn:Hc; [|now destruct Hsched].
    destruct (Hrun c Hc) as (dc & Hdc & _).
    cbn [in_discipline] in Hd.
    apply (system_call_safe st L c dc psp insn r0 r1 r2 HLT Hrun Hidle Hsched Hc Hdc).
    + intros Hop. apply not_idle_running; [|exact Hc].
      destruct (Z.land insn 255 =? SYS_RECEIVE) eqn:ER.
      * apply andb_true_iff in Hd as [Hd _]. now apply negb_true_iff in Hd.
      * destruct ((Z.land insn 255 =? SYS_SEND) || (Z.land insn 255 =? SYS_SENDREC)
                  || (Z.land insn 255 =? SYS_EXIT)) eqn:ES.
        -- now apply negb_true_iff in Hd.
        -- exfalso. destruct Hop as [E|[E|[E|E]]]; rewrite E in ES, ER;
             vm_compute in ES, ER; discriminate.
    + intros Hop Hp Hint. rewrite Hop in Hd.
      change (SYS_RECEIVE =? SYS_RECEIVE) with true in Hd. cbv iota in Hd.
      apply andb_true_iff in Hd as [_ Hd].
      eapply head_condition; eauto.
  - apply safe_bind; [now apply cxt_switch_safe|]. intros; exact I.
  - now apply default_handler_safe.
  - apply interrupt_safe; auto.
  - now apply connect_safe.
  - now apply priority_safe.
Qed.

(** The idle process, once created, stays; and no entry but [os_start]
    makes a process run when none did. *)
Lemma idle_stays c st st' :
  run c st = Ok tt st' -> idle_proc st <> None -> idle_proc st' <> None.
Proof.
  intros H Hi. destruct c; cbn [run] in H.
  - unfold os_init in H.
    kstep H as p s1 Hinit. kstep H as u s2 Hmod. apply modify_inv in Hmod. subst s2.
    apply init_proc_inv in Hinit as (_ & -> & _).
    kstep H as u2 s2 Hupd. destruct u2.
    apply update_inv in Hupd as (i & d & _ & _ & ->).
    apply update_inv in H as (i' & d' & _ & _ & ->). cbn. discriminate.
  - revert H Hi. apply (keeps_elim (fun s => idle_proc s <> None)).
    repeat keeps_step. apply frame_start; intros; assumption.
  - revert H Hi. apply (keeps_elim (fun s => idle_proc s <> None)).
    repeat keeps_step. apply frame_os_start; intros; assumption.
  - revert H Hi. apply (keeps_elim (fun s => idle_proc s <> None)).
    repeat keeps_step. apply frame_system_call; intros; assumption.
  - revert H Hi. apply (keeps_elim (fun s => idle_proc s <> None)).
    repeat keeps_step. apply frame_cxt_switch; intros; assumption.
  - revert H Hi. apply (keeps_elim (fun s => idle_proc s <> None)).
    apply frame_default_handler; intros; assumption.
  - revert H Hi. apply (keeps_elim (fun s => idle_proc s <> None)).
    apply frame_interrupt; intros; assumption.
  - revert H Hi. apply (keeps_elim (fun s => idle_proc s <> None)).
    apply frame_connect; intros; assumption.
  - revert H Hi. apply (keeps_elim (fun s => idle_proc s <> None)).
    apply frame_priority; intros; assumption.
Qed.

Lemma current_stays_none c st st' :
  run c st = Ok tt st' -> os_current st = None ->
  (forall psp, c <> Call_os_start psp) -> os_current st' = None.
Proof.
  intros H Hc Hne. destruct c; cbn [run] in H.
  - revert H Hc. apply (keeps_elim (fun s => os_current s = None)).
    apply frame_os_init; intros; assumption.
  - revert H Hc. apply (keeps_elim (fun s => os_current s = None)).
    repeat keeps_step. apply frame_start; intros; assumption.
  - now destruct (Hne psp).
  - exfalso. kstep H as z s1 Hs. unfold system_call in Hs.
    kstep Hs as cur s2 Hcur. apply current_inv in Hcur as (-> & ->).
    kstep Hs as u s2 Hupd. destruct u.
    apply update_inv in Hupd as (i & d & E & _). congruence.
  - exfalso. kstep H as z s1 Hs. unfold cxt_switch in Hs.
    kstep Hs as cur s2 Hcur. apply current_inv in Hcur as (-> & ->).
    kstep Hs as u s2 Hupd. destruct u.
    apply update_inv in Hupd as (i & d & E & _). congruence.
  - revert H Hc. apply (keeps_elim (fun s => os_current s = None)).
    apply frame_default_handler; intros; assumption.
  - revert H Hc. apply (keeps_elim (fun s => os_current s = None)).
    apply frame_interrupt; intros; assumption.
  - revert H Hc. apply (keeps_elim (fun s => os_current s = None)).
    apply frame_connect; intros; assumption.
  - revert H Hc. apply (keeps_elim (fun s => os_current s = None)).
    apply frame_priority; intros; assumption.
Qed.

(** While a process runs, the idle process exists. *)
Lemma started_has_idle st :
  reachable st -> os_current st <> None -> idle_proc st <> None.
Proof.
  induction 1 as [msgs mem|st c st' Hr IH Hrun]; intros Hc.
  - now contradiction Hc.
  - destruct (os_current st) as [x|] eqn:Ecur.
    + apply (idle_stays c st st' Hrun). apply IH. discriminate.
    + destruct c;
        try (exfalso; apply Hc;
             apply (current_stays_none _ st st' Hrun Ecur); discriminate).
      apply (idle_stays _ st st' Hrun).
      cbn [run] in Hrun. kstep Hrun as z s1 Hs. unfold os_start in Hs.
      kstep Hs as s s2 Hget. apply get_inv in Hget as (-> & ->).
      kstep Hs as u s2 Hmod. apply modify_inv in Hmod. subst s2.
      kstep Hs as d s2 Hd. apply deref_inv in Hd as (_ & i & E & _).
      rewrite E. discriminate.
Qed.

Lemma discipline_run_all cs :
  forall st st', run_in_discipline cs st = Some st' -> run_all cs st = Some st'.
Proof.
  induction cs as [|c cs IH]; intros st st' H; cbn in H |- *; [exact H|].
  destruct (in_discipline c st); [|discriminate].
  destruct (run c st) as [[] s1| |]; try discriminate. now apply IH.
Qed.

Lemma run_table_in_order cs :
  forall st st', table_in_order st -> run_all cs st = Some st' ->
                 table_in_order st'.
Proof.
  induction cs as [|c cs IH]; intros st st' HT H; cbn [run_all] in H.
  - now injection H as <-.
  - destruct (run c st) as [[] s1| |] eqn:E; try discriminate.
    apply (IH s1 st'); [|exact H]. exact (table_step c st tt s1 E HT).
Qed.

(** X24.  A system that keeps to the discipline never follows a bad
    pointer: in every state reached from boot by entries within the
    discipline in which a process is running, every further entry within
    the discipline (an [interrupt] being raised for a process of the
    table) returns, or panics, or indexes an array outside its bounds.
    It does not follow a NULL or a stray descriptor pointer, and the walks
    of [enqueue] and [mini_receive] along the sender queues end. *)
Theorem disciplined_entries_keep_to_the_table :
  forall (msgs : Z -> message) (mem : Z -> Z) (cs : list kcall) (st : kstate)
         (c : kcall),
    run_in_discipline cs (boot msgs mem) = Some st ->
    os_current st <> None ->
    in_discipline c st = true ->
    (forall dest, c = Call_interrupt dest -> 0 <= dest < os_nprocs st) ->
    pointer_safe (run c st).
Proof.
  intros msgs mem cs st c Hrun Hc Hd Hdest.
  pose proof (discipline_run_all cs _ _ Hrun) as Hall.
  assert (Hreach : reachable st).
  { apply (reachable_run_all cs (boot msgs mem)); [constructor|exact Hall]. }
  apply run_safe.
  - exact (run_in_order cs _ _ (boot_in_order msgs mem) Hrun).
  - split; [exact Hc|]. now apply started_has_idle.
  - exact (run_table_in_order cs _ _ (table_boot msgs mem) Hall).
  - exact Hd.
  - exact Hdest.
Qed.

End Safety.

Section SafetyWorkedRuns.
Local Existing Instance board.

(** [disciplined_entries_keep_to_the_table] on the board: with S1 and S2
    waiting to send to it, R receives with the filter ANY. *)
Lemma disciplined_entries_keep_to_the_table_witness :
  pointer_safe (run (Call_system_call psp_R (svc SYS_RECEIVE) ANY buf_R 0)
                    two_senders).
Proof.
  apply (disciplined_entries_keep_to_the_table
           (msgmem loaded) (ram loaded) two_senders_trace).
  - vm_compute. reflexivity.
  - intros E. vm_compute in E. discriminate E.
  - vm_compute. reflexivity.
  - intros dest E. discriminate E.
Defined.

End SafetyWorkedRuns.

Section Kept.
Context {env : Env}.

Lemma filter_some {A} (f : A -> bool) l x :
  In x l -> f x = true -> (1 <= length (List.filter f l))%nat.
Proof.
  intros Hx Hf. assert (H : In x (List.filter f l)) by (apply filter_In; auto).
  destruct (List.filter f l); [contradiction|cbn; lia].
Qed.

(** The counts of a process that the layout has on a ready queue, on a
    sender queue, on no list. *)
Lemma on_ready_queue st L i k :
  laid_out st L -> running_ok st L -> idle_ok st ->
  (k < 3)%nat -> i ∈ L (Ready k) ->
  ready_queues_holding st i = 1%nat /\ sender_queues_holding st i = 0%nat.
Proof.
  intros HLT Hrun Hidle Hk Hin.
  pose proof (on_at_most_one_list st i
                (ex_intro _ L (conj HLT (conj Hrun Hidle)))) as Hle.
  assert (1 <= ready_queues_holding st i)%nat.
  { unfold ready_queues_holding. apply (filter_some _ _ k); [apply in_seq; lia|].
    rewrite (ready_list_layout st L k HLT Hk). now apply on_list_elem_of. }
  lia.
Qed.

Lemma on_sender_queue st L i r :
  laid_out st L -> running_ok st L -> idle_ok st ->
  (r < length (os_ptable st))%nat -> i ∈ L (Sender r) ->
  ready_queues_holding st i = 0%nat /\ sender_queues_holding st i = 1%nat.
Proof.
  intros HLT Hrun Hidle Hr Hin.
  pose proof (on_at_most_one_list st i
                (ex_intro _ L (conj HLT (conj Hrun Hidle)))) as Hle.
  assert (1 <= sender_queues_holding st i)%nat.
  { unfold sender_queues_holding. apply (filter_some _ _ r); [apply in_seq; lia|].
    destruct (lookup_lt_is_Some_2 (os_ptable st) r Hr) as [d Hd].
    rewrite (waiting_list_layout st L r d HLT Hd). now apply on_list_elem_of. }
  lia.
Qed.

Lemma on_no_list st L i :
  laid_out st L -> (forall pl, i ∉ L pl) ->
  ready_queues_holding st i = 0%nat /\ sender_queues_holding st i = 0%nat.
Proof.
  intros HLT Hno. unfold ready_queues_holding, sender_queues_holding. split.
  - rewrite filter_none; [reflexivity|]. intros k Hk. apply in_seq in Hk.
    destruct (on_list i (ready_list st k)) eqn:E; [exfalso|reflexivity].
    rewrite (ready_list_layout st L k HLT) in E by lia.
    apply on_list_elem_of in E. now apply (Hno (Ready k)).
  - rewrite filter_none; [reflexivity|]. intros r Hr. apply in_seq in Hr.
    destruct (on_list i (waiting_list st r)) eqn:E; [exfalso|reflexivity].
    destruct (lookup_lt_is_Some_2 (os_ptable st) r) as [d Hd]; [lia|].
    rewrite (waiting_list_layout st L r d HLT Hd) in E.
    apply on_list_elem_of in E. now apply (Hno (Sender r)).
Qed.

(** X25.  No process is lost.  In every state reached from boot by
    entries that keep to the discipline, [os_start] being entered once
    (when no process is running yet), each process of the table is linked
    as its state says, the links being followed and counted: the running
    process and the processes that are RECEIVING, IDLING or DEAD are on no
    list; a process that is ACTIVE, not running and of a priority other
    than P_IDLE is on exactly one ready queue and on no sender queue; a
    process that is SENDING or SENDREC and of a priority other than P_IDLE
    is on exactly one sender queue and on no ready queue.  (A process of
    priority P_IDLE is never queued by [make_ready].)  So that, when the
    processes of priority P_IDLE are all IDLING, [descriptor_uniqueness]
    holds of the state. *)
Theorem no_process_is_lost :
  forall (msgs : Z -> message) (mem : Z -> Z) (cs : list kcall) (st : kstate),
    run_started_once cs (boot msgs mem) = Some st ->
    (forall i d, os_ptable st !! i = Some d ->
       (os_current st = Some i \/ p_state d = RECEIVING \/
        p_state d = IDLING \/ p_state d = DEAD ->
        ready_queues_holding st i = 0%nat /\ sender_queues_holding st i = 0%nat) /\
       (os_current st <> Some i -> p_priority d <> P_IDLE -> p_state d = ACTIVE ->
        ready_queues_holding st i = 1%nat /\ sender_queues_holding st i = 0%nat) /\
       (p_priority d <> P_IDLE -> p_state d = SENDING \/ p_state d = SENDREC ->
        ready_queues_holding st i = 0%nat /\ sender_queues_holding st i = 1%nat)) /\
    ((forall i d, os_ptable st !! i = Some d ->
                  p_priority d = P_IDLE -> p_state d = IDLING) ->
     descriptor_uniqueness st = true).
Proof.
  intros msgs mem cs st H.
  destruct (boot_laid_out msgs mem) as (B1 & B2 & B3 & B4).
  destruct (run_follows cs _ _ st B1 B2 B3 B4 H) as (L & HLT & Hrun & Hidle & Hcov).
  assert (Hall : forall i d, os_ptable st !! i = Some d ->
    (os_current st = Some i \/ p_state d = RECEIVING \/
     p_state d = IDLING \/ p_state d = DEAD ->
     ready_queues_holding st i = 0%nat /\ sender_queues_holding st i = 0%nat) /\
    (os_current st <> Some i -> p_priority d <> P_IDLE -> p_state d = ACTIVE ->
     ready_queues_holding st i = 1%nat /\ sender_queues_holding st i = 0%nat) /\
    (p_priority d <> P_IDLE -> p_state d = SENDING \/ p_state d = SENDREC ->
     ready_queues_holding st i = 0%nat /\ sender_queues_holding st i = 1%nat)).
  { intros i d Hd. split; [|split].
    - intros Hcase. apply (on_no_list st L i HLT).
      destruct Hcase as [Hc|Hs].
      + destruct (Hrun i Hc) as (_ & _ & _ & Hno). exact Hno.
      + eapply state_nowhere; eauto.
    - intros Hc Hp Hs. destruct (Hcov i d Hd Hc Hp) as [C1 _].
      destruct (C1 Hs) as (k & Hk & Hin).
      now apply (on_ready_queue st L i k).
    - intros Hp Hs.
      assert (Hc : os_current st <> Some i).
      { intros Hc. destruct (Hrun i Hc) as (d0 & Hd0 & Hs0 & _).
        assert (d0 = d) by congruence. subst d0.
        destruct Hs, Hs0; congruence. }
      destruct (Hcov i d Hd Hc Hp) as [_ C2].
      destruct (C2 Hs) as (r & Hr & Hin).
      now apply (on_sender_queue st L i r). }
  split; [exact Hall|].
  intros Hprio. unfold descriptor_uniqueness. apply forallb_forall.
  intros i _. destruct (os_ptable st !! i) as [d|] eqn:Hd; [|reflexivity].
  destruct (Hall i d Hd) as (A1 & A2 & A3).
  pose proof (on_at_most_one_list st i
                (ex_intro _ L (conj HLT (conj Hrun Hidle)))) as Hle.
  unfold linked_as_specified. apply andb_true_iff.
  split; [now apply Nat.leb_le|].
  assert (Hp : p_state d <> IDLING -> p_priority d <> P_IDLE).
  { intros Hs E. apply Hs. exact (Hprio i d Hd E). }
  destruct (p_state d) eqn:Hs.
  - (* DEAD *) reflexivity.
  - (* ACTIVE *)
    destruct (bool_decide (os_current st = Some i)) eqn:Ec; [reflexivity|].
    apply bool_decide_eq_false in Ec.
    destruct (A2 Ec (Hp ltac:(discriminate)) eq_refl) as [E _]. now rewrite E.
  - (* SENDING *)
    destruct (A3 (Hp ltac:(discriminate)) (or_introl eq_refl)) as [_ E].
    now rewrite E.
  - (* RECEIVING *)
    destruct (A1 (or_intror (or_introl eq_refl))) as [E1 E2]. now rewrite E1, E2.
  - (* SENDREC *)
    destruct (A3 (Hp ltac:(discriminate)) (or_intror eq_refl)) as [_ E].
    now rewrite E.
  - (* IDLING *)
    destruct (A1 (or_intror (or_intror (or_introl eq_refl)))) as [E1 E2].
    now rewrite E1, E2.
Qed.

(** C7.  [choose_proc] goes through the ready queues from level 0 up:
    the head of the first queue that is not empty leaves its queue and
    becomes [os_current], the rest of that queue and the other queues
    staying as they are, and with all three queues empty [os_current]
    becomes the idle process.  [make_ready(p, prio)] changes nothing when
    [prio] is the idle level; at any other level it marks [p] ACTIVE,
    clears its [p_next], and puts it last on the queue of that level.
    So the idle process is on no ready queue: in every state reached from
    boot by entries that keep to the discipline (the idle process makes
    no call but yield and dump, and a receive that looks at the senders
    waiting on it finds its first match at the head of the queue or finds
    none), the idle process is in the table, IDLING, with the priority 3
    that [os_init] gave it, and on none of the three ready queues,
    whether these are given as lists or followed link by link.  [os_init]
    creates it so, with the ready queues empty; 3 is the idle level of
    the board. *)
Theorem ready_queue_discipline :
  forall (st : kstate) (k : nat) (p : nat) (l : list nat) (dp : proc),
    (* choose_proc, some queue not empty *)
    ((k < 3)%nat ->
     (forall j q, (j < k)%nat -> os_readyq st !! j = Some q -> q_head q = None) ->
     is_queue st k (p :: l) ->
     exists st',
       choose_proc st = Ok tt st' /\ os_current st' = Some p /\
       is_queue st' k l /\ os_ptable st' = os_ptable st /\
       (forall j, j <> k -> os_readyq st' !! j = os_readyq st !! j)) /\
    (* choose_proc, all queues empty *)
    (length (os_readyq st) = 3%nat ->
     (forall j q, os_readyq st !! j = Some q -> q_head q = None) ->
     choose_proc st = Ok tt (with_current (idle_proc st) st)) /\
    (* make_ready at the idle level *)
    (forall ptr, make_ready ptr P_IDLE st = Ok tt st) /\
    (* make_ready at another level *)
    (Z.of_nat k <> P_IDLE -> (k < 3)%nat ->
     is_queue st k l -> os_ptable st !! p = Some dp -> p ∉ l ->
     exists st',
       make_ready (Some p) (Z.of_nat k) st = Ok tt st' /\
       is_queue st' k (l ++ [p]) /\
       (exists dp', os_ptable st' !! p = Some dp' /\
                    p_state dp' = ACTIVE /\ p_next dp' = None) /\
       (forall j, j <> k -> os_readyq st' !! j = os_readyq st !! j) /\
       os_current st' = os_current st) /\
    (* the idle process, in the states the kernel reaches *)
    (forall msgs mem cs st' i,
       run_in_discipline cs (boot msgs mem) = Some st' ->
       idle_proc st' = Some i ->
       (exists di, os_ptable st' !! i = Some di /\
                   p_state di = IDLING /\ p_priority di = 3) /\
       (forall j lj, (j < 3)%nat -> is_queue st' j lj -> i ∉ lj) /\
       ready_queues_holding st' i = 0%nat) /\
    (* the idle process as os_init creates it *)
    (forall msgs mem,
       P_IDLE = 3 ->
       sizeof_proc + IDLE_STACK <= stack_limit - end_addr < 2 ^ 32 ->
       exists st0 d0,
         os_init (boot msgs mem) = Ok tt st0 /\
         idle_proc st0 = Some 0%nat /\ os_ptable st0 !! 0%nat = Some d0 /\
         p_state d0 = IDLING /\ p_priority d0 = P_IDLE /\
         (forall j q, os_readyq st0 !! j = Some q -> q_head q = None)).
Proof.
  intros st k p l dp. split; [|split; [|split; [|split; [|split]]]].
  - intros Hk He Hq.
    destruct (choose_proc_first st k p l Hk He Hq) as (st' & H1 & H2 & H3 & H4 & H5 & _).
    exists st'. auto.
  - apply choose_proc_idle.
  - intros ptr. apply make_ready_idle.
  - intros Hi Hk Hq Hp Hnin.
    destruct (make_ready_enqueues st k l p dp Hi Hk Hq Hp Hnin)
      as (st' & H1 & H2 & H3 & H4 & H5 & H6).
    exists st'. repeat split; auto.
    + eexists. split; [exact H3|]. now cbn.
    + rewrite H6. reflexivity.
  - intros msgs mem cs st' i Hrun Hi.
    destruct (run_in_order cs _ _ (boot_in_order msgs mem) Hrun)
      as (L & HLT & _ & Hidle).
    pose proof (idle_nowhere st' L i HLT Hidle Hi) as Hno.
    split; [exact (Hidle i Hi)|]. split.
    + intros j lj Hj Hq.
      rewrite (is_queue_functional st' j lj (L (Ready j)) Hq
                 (laid_out_queue st' L j HLT Hj)).
      apply Hno.
    + apply (on_no_list st' L i HLT Hno).
  - intros msgs mem H3 Hroom.
    destruct (os_init_idle msgs mem Hroom)
      as (st0 & d0 & H1 & H2 & Htab & _ & Hs & Hp & Hq & _).
    exists st0, d0. split; [exact H1|]. split; [exact H2|].
    split; [now rewrite Htab|]. split; [exact Hs|]. split; [congruence|].
    rewrite Hq. intros j q E.
    destruct j as [|[|[|j]]]; cbn in E; try discriminate E;
      injection E as <-; reflexivity.
Qed.

End Kept.

Section KeptWorkedRuns.
Local Existing Instance board.

(** [no_process_is_lost] on the board: the run [orderly_trace] from boot
    to [both_received]. *)
Lemma no_process_is_lost_witness :
  (forall i d, os_ptable both_received !! i = Some d ->
     (os_current both_received = Some i \/ p_state d = RECEIVING \/
      p_state d = IDLING \/ p_state d = DEAD ->
      ready_queues_holding both_received i = 0%nat /\
      sender_queues_holding both_received i = 0%nat) /\
     (os_current both_received <> Some i -> p_priority d <> P_IDLE ->
      p_state d = ACTIVE ->
      ready_queues_holding both_received i = 1%nat /\
      sender_queues_holding both_received i = 0%nat) /\
     (p_priority d <> P_IDLE -> p_state d = SENDING \/ p_state d = SENDREC ->
      ready_queues_holding both_received i = 0%nat /\
      sender_queues_holding both_received i = 1%nat)) /\
  ((forall i d, os_ptable both_received !! i = Some d ->
                p_priority d = P_IDLE -> p_state d = IDLING) ->
   descriptor_uniqueness both_received = true).
Proof.
  apply (no_process_is_lost (msgmem loaded) (ram loaded) orderly_trace).
  vm_compute. reflexivity.
Defined.

Ltac run_it := vm_compute; reflexivity.
Ltac settle :=
  match goal with
  | |- is_queue _ _ _ => apply is_queueb_sound; run_it
  | |- _ <> _ => let E := fresh in intros E; vm_compute in E; discriminate E
  | |- _ = _ => run_it
  | |- (_ <= _)%Z => let E := fresh in intros E; vm_compute in E; discriminate E
  end.
Ltac not_member :=
  let Hin := fresh "Hin" in
  intros Hin;
  repeat (apply elem_of_cons in Hin as [Hin|Hin]; [discriminate Hin|]);
  apply elem_of_nil in Hin; exact Hin.

(** [ready_queue_discipline] on the board: with S2 and R ready behind
    the running S1, [choose_proc] picks S2; with nothing ready it picks
    the idle process; [make_ready] puts S1 behind R; after the run
    [orderly_trace] from boot the idle process, PID 0, is IDLING with
    priority 3 and on no ready queue; and [os_init] creates it so. *)
Lemma ready_queue_discipline_witness :
  (exists st', choose_proc started = Ok tt st' /\
               os_current st' = Some 2%nat /\ is_queue st' 2 [3%nat]) /\
  choose_proc idle_alone = Ok tt (with_current (idle_proc idle_alone) idle_alone) /\
  (exists st', make_ready (Some 1%nat) (Z.of_nat 2) started = Ok tt st' /\
               is_queue st' 2 ([2%nat; 3%nat] ++ [1%nat])) /\
  ((exists di, os_ptable both_received !! 0%nat = Some di /\
               p_state di = IDLING /\ p_priority di = 3) /\
   (forall j lj, (j < 3)%nat -> is_queue both_received j lj -> 0%nat ∉ lj) /\
   ready_queues_holding both_received 0 = 0%nat) /\
  (exists st0 d0,
     os_init (boot (msgmem loaded) (ram loaded)) = Ok tt st0 /\
     idle_proc st0 = Some 0%nat /\ os_ptable st0 !! 0%nat = Some d0 /\
     p_state d0 = IDLING /\ p_priority d0 = P_IDLE).
Proof.
  split; [|split; [|split; [|split]]].
  - destruct (ready_queue_discipline started 2 2 [3%nat] (descriptor started 2))
      as (Hchoose & _).
    assert (Hempty : forall j q, (j < 2)%nat ->
              os_readyq started !! j = Some q -> q_head q = None).
    { intros j q Hj E. destruct j as [|[|j]]; [| |lia];
        vm_compute in E; injection E as <-; reflexivity. }
    destruct (Hchoose ltac:(lia) Hempty ltac:(settle))
      as (st' & H1 & H2 & H3 & _).
    exists st'. auto.
  - destruct (ready_queue_discipline idle_alone 0 0 [] (descriptor idle_alone 0))
      as (_ & Hidle & _).
    apply Hidle; [run_it|].
    intros j q E. destruct j as [|[|[|j]]];
      vm_compute in E; try discriminate E; injection E as <-; reflexivity.
  - destruct (ready_queue_discipline started 2 1 [2%nat; 3%nat]
                (descriptor started 1))
      as (_ & _ & _ & Hready & _).
    destruct (Hready ltac:(settle) ltac:(lia) ltac:(settle) ltac:(run_it)
                ltac:(not_member))
      as (st' & H1 & H2 & _).
    exists st'. auto.
  - destruct (ready_queue_discipline started 0 0 [] (descriptor started 0))
      as (_ & _ & _ & _ & Hinv & _).
    apply (Hinv (msgmem loaded) (ram loaded) orderly_trace); run_it.
  - destruct (ready_queue_discipline started 0 0 [] (descriptor started 0))
      as (_ & _ & _ & _ & _ & Hinit).
    destruct (Hinit (msgmem loaded) (ram loaded) eq_refl
                ltac:(split; [settle | run_it]))
      as (st0 & d0 & H1 & H2 & H3 & H4 & H5 & _).
    exists st0, d0. auto.
Defined.

End KeptWorkedRuns.
